(* ===== verification/_CoqProject ===== *)
-Q . S2P
Prelude.v
Memory.v
PrList.v
PrListSpec.v
Locale.v
PString.v
StringUtil.v
Encode.v
Output.v
OutputSpec.v
Document.v
Json.v
Crumb.v
Xml.v
Tidy.v
Util.v
Affinity.v
Prints.v
Display.v
Format.v
Tables.v
Platform.v
Process.v
ProcessTree.v
PaddedTable.v
Report.v
Signals.v
Terminal.v
Ranges.v
Runtime.v
NetCache.v
Network.v
Generic.v
Options.v
LinuxProc.v
LinuxIpc.v
LinuxCaps.v
LinuxFds.v
Linux.v
SystemTables.v
Bsd.v
FreeBsd.v
Darwin.v
OtherSystems.v
Usage.v
Sink.v
Main.v
Program.v
SampleSystem.v
Sample.v
SampleBsd.v
