(* ===== verification/Prelude.v ===== *)
(** procenv: a verification development

    The program prints what the environment of a process looks like (its
    arguments, variables, limits, file systems, ...) as one document in one of
    four formats: text, crumb, JSON or XML.  The display functions of
    src/src/procenv.c and of the platform drivers (src/src/platform) call a
    document builder (src/src/output.c), which keeps a global document, a
    [pstring], and two state variables, the last and the current element; the
    builder is written on a library of growing strings
    (src/src/string-util.c) over counted wide strings (src/src/pstring.c) and
    on a circular doubly linked list (src/src/pr_list.c) for the breadcrumbs.
    At the end the document is trimmed ([pstring_chomp], [pstring_compress])
    and sent to its destination.

    ** How C is modelled

    A function is a computation of the monad [prog S]: it takes a state and
    returns [Ok] with a value and a state, or one of the ways a C program ends:
    [Die] (the program's [die ()]), [Exit], [Abort] (a failed assertion), [UB]
    (undefined behaviour: a read or a write outside a buffer, a read of memory
    never written, a null pointer) and [Diverge] (a loop that used up its
    fuel).  The theorems therefore say of a run not only what it returns but
    that it is free of undefined behaviour and ends.

    A [char] or a [wchar_t] is an integer; a C string is the list of its
    characters without the terminator, and a buffer is a list of cells, of
    which some may be indeterminate ([Memory]).  Lists live in a heap of nodes
    with addresses.  A string buffer is a value owned by its variable: the
    program never shares one, so that freeing it has no effect to model.  Any
    allocation may fail: the class [Allocator] decides; [AllocTotal] is the
    hypothesis that it does not, which most theorems make.  An [int] is an
    integer with its bounds where the code computes with it; [u32] and [u64]
    wrap around; [size_t] counters are naturals.

    Code outside src/src/ is a parameter, as a class of what it answers: the
    character set ([Locale], with the laws [LocaleLaws]; [c_locale] satisfies
    them), what is read from the system ([System], [Identity], [Machine],
    [Terminal], [Clock], [Files], [Network], [GenericSystem], the classes of
    each driver), what is written ([Host]), the macros of the headers
    ([Headers]), [qsort] and [strcoll] ([Collation]), config.h ([Package]).  The
    laws of these classes ([ProcessAnswers], [GenericAnswers],
    [ProgramAnswers], ...) say that strings can be shown in the locale and that
    the queries the program dies without succeed; [SampleSystem] and
    [SampleBsd] have systems that satisfy those of the claims.  The printf
    family is written out in [Locale] for the conversions the program uses.

    ** Fuel and bounds

    Every fuelled function is called with a fuel that the theorems show to be
    enough, or not to matter.  Loops over strings, files, tables and lists take
    the length of what they go through; the walks up the tree of processes take
    PID_MAX_LIMIT steps on Linux and, on the other systems, as many rounds as
    the table has entries and one more ([rounds]); the search for unknown
    capabilities takes the 64 bits of a set; the sizes tried for a set of
    processors are the 66 of the code; the queries for the table of processes
    on Darwin are the 19 of the code.  Where a loop of the code never ends, the
    theorem says so for every fuel ([wappendva_never_ends],
    [handle_proc_branch_openbsd_endless]).

    ** Files

    The libraries of the program:
    - [Prelude]: strings, outcomes, the monad, [same_runs] (computations that
      behave alike, with its [Proper] instance), lemmas on lists, tactics.
    - [Memory]: allocation, buffers, the C string functions on them.
    - [PrList], [PrListSpec]: src/src/pr_list.c.  [ring h l xs] says that the
      nodes [l :: xs] are a circular list; every operation is shown to build
      or split rings, the sorted insertions to keep lists sorted.
    - [Locale]: character conversion and formatted output.
    - [PString]: src/src/pstring.c, with reference functions [chomp_text] and
      [compress_text] for the trimming of the document.
    - [StringUtil]: src/src/string-util.c.  [text_of d s]: the document [d]
      holds the text [s]; the appends extend it.
    - [Encode]: [output_translate] and [encode_string] of src/src/output.c, with
      decoders for XML and JSON text; the XML decoder takes the characters that
      a document may hold as a parameter, those of XML 1.0 or any.

    The document builder:
    - [Output]: the rest of src/src/output.c.  The globals of the file are the
      record [ostate]; each function is a definition of its name; the cases of
      the big switch statements are definitions of their own
      ([json_after_entry], [xml_after_section_open], ...).
    - [OutputSpec]: the abstract document [adoc] (text, level, last two
      elements, path) and the refinement: [rep cfg w a] relates a concrete
      state to it, [yields cfg m a a'] says that [m] never fails from a state
      that represents [a] and ends in one that represents [a'].  [layout] is the
      specification of the element state machines in five cases.
    - [Document]: trees of calls and the reference pretty-printer [items]; what
      any tree of calls writes.
    - [Json], [Xml], [Crumb]: what a complete document is, by a grammar, in each
      format.
    - [Tidy]: the documents of JSON and XML have no line that the trimming at the
      end of the program would take away ([neat]), and their characters can be
      written ([EncodesWritable], a law of the locale).
    - [Prints]: the interface between display functions and documents.
      [prints cfg m ts] says that [m] makes the calls of the trees [ts];
      [typed cfg k d m] only that its calls are well placed and at most [d]
      deep; [titled cfg n d m] that they are one block with the title [n]; all
      have a rule for each statement of the program.

    The display functions of src/src/procenv.c:
    - [Util]: src/src/util.c.  [Affinity]: the list of processors of
      src/src/platform/platform-generic.c.
    - [Display]: show_meta, show_arguments, show_env.  [Format]: format_perms,
      get_path, the lookups in tables; linux_kernel_version and in_vm_linux of
      the Linux driver.  [Tables]: the names in the tables.
    - [Platform]: struct procenv_ops of src/src/platform.h as the class
      [Driver], and [DriverTyped], what a driver promises: each operation makes
      well-placed calls in the context in which procenv.c calls it.
    - [Process], [Report], [Signals], [Terminal], [Ranges], [Runtime]: the
      process and its user, the answers of the C library, signals, the
      terminal, the C types, time and threads.
    - [NetCache], [Network]: the network interfaces, over a linked list on a
      heap that refines a functional list.
    - [Options]: check_envvars.  [Usage]: the help text.  [Sink]: sending the
      document to a file ([_show_output]).
    - [Main]: init, the loop over the options as a function and as a transition
      system, dump, the end of main, cleanup.  [Program]: complete runs of main,
      from the command line to the bytes that leave the program ([sent]); [Runs]
      says on which systems a run can start.

    The drivers:
    - [Generic]: src/src/platform/platform-generic.c.
    - [LinuxProc], [LinuxIpc], [LinuxCaps], [LinuxFds], [Linux]:
      src/src/platform/linux/platform.c and platform-linux.h.
    - [ProcessTree]: the walks up a table of processes of the other systems,
      handle_proc_branch_freebsd, handle_proc_branch_netbsd and
      handle_proc_branch_openbsd.  [PaddedTable]: the walk over a table that ends
      in cleared entries, as on Darwin.  [SystemTables]: their tables of names.
    - [Bsd]: show_mounts_generic_bsd, the NetBSD driver
      (src/src/platform/netbsd) and the operations of the OpenBSD driver
      (src/src/platform/openbsd).
    - [FreeBsd], [Darwin]: src/src/platform/freebsd and
      src/src/platform/darwin.  [OtherSystems]: src/src/platform/hurd and
      src/src/platform/unknown.

    Concrete runs:
    - [SampleSystem]: a system that answers as the theorems ask.  [Sample],
      [SampleBsd]: the theorems applied on it.

    ** What the theorems show

    - Documents: [emit_refines_layout] for the text, JSON and XML formats, then
      [json_document], [xml_document] and [crumb_document]: a complete run on
      any tree of calls succeeds and its text denotes the tree.
    - Whole runs: [main_json] and [main_xml] compose all the components: with
      any driver that keeps its promises, main does not fail, what it sends to
      the standard output or to a file is one document with the sections asked
      for, in order, and it ends or executes the command given.  In XML the
      document is one for a reader that takes any character reference; by XML
      1.0 it is one exactly when no name or value holds a character that XML 1.0
      forbids ([xml_allowed]), which output.c leaves open.
      [dump_json] and [dump_xml] say it of dump, for any settings;
      [main_refuses] says which options and settings end in an error, behind any
      options that are taken.
      [linux_driver_typed] and [freebsd_driver_typed] say that the drivers
      keep them; those of NetBSD, Darwin, the Hurd and an unknown system do,
      too ([netbsd_driver_ok], [darwin_driver_ok], [hurd_driver_ok],
      [unknown_driver_ok]).
    - The command line: what each option does is stated as a transition system
      of its own ([setting], [shows], [step]), and the loop over the options
      computes its runs ([options_loop_steps]); what holds of all of them
      ([settings_precede_displays]); any number of display options in the text
      format ([text_displays_end]); an [--exec] behind one
      ([exec_after_display_aborts]).
    - Encoding: [encode_string] computes its reference, what it leaves decodes to
      what was encoded (in JSON with doubled backslashes), and it is undefined
      behaviour exactly when the escapes are longer than computed by two
      characters or more (by one, for a string of one character).
    - Display: the trees that the display functions print from the answers of
      the system, of procenv.c and of the drivers, the errors included.
    - Lists, strings: functional correctness of each group of operations, and
      the inputs on which some of them misbehave.
    - Formatting and probing: equivalence with reference definitions, bounds of
      buffers, reading of files line by line.

    ** What is not modelled

    - [die ()] is an outcome: the message it writes and the cleanup it runs are
      not modelled, nor is the handler of [atexit].
    - [getopt_long (3)]: [main] starts from the options it returns; its tables
      are there ([short_options], [long_options], [options_agree]).
    - The table of signals of OpenBSD, and the tables of Minix
      (src/src/platform/minix): their entries have members exchanged, which has
      no meaning in C.  Without its table the OpenBSD driver is not assembled.
    - The operations of Android (src/src/platform/android), which are compiled
      out, and the unit tests (src/src/tests).
    - The alternatives of conditional code: of the code for one system or
      another the model has that of the driver it belongs to, otherwise that of
      Linux.  A function that the drivers of several systems share and that
      differs between them has an argument for it ([show_timezone_generic]).

    ** This file

    The shared notions: strings, outcomes, the monad, automation. *)
From Stdlib Require Export ZArith Lia.
From stdpp Require Export base numbers strings gmap list.

(** ** Strings of the program

    A [char] string and a [wchar_t] string are both lists of code values, the
    terminating zero excluded; the memory model in [Memory] adds the
    terminator. *)

Abbreviation bytes := (list Z) (only parsing).
Abbreviation wstr := (list Z) (only parsing).

(** The value of a source literal: one code per character. *)
Definition lit (s : string) : list Z :=
  map (fun a => Z.of_N (Ascii.N_of_ascii a)) (String.list_ascii_of_string s).

Definition NL : Z := 10.
Definition SPACE : Z := 32.
Definition DQUOTE : Z := 34.
Definition BACKSLASH : Z := 92.

(** ** Outcomes of running C code

    [Die] is the program's own [die ()]: the message goes to stderr and the
    process exits with [EXIT_FAILURE].  [Exit] is a direct [exit ()] after a
    message on stderr, [Abort] is a failed [assert (3)], [UB] is behaviour the
    C standard does not define (a read outside an object or of an
    indeterminate value, a write outside an object, a dangling or null
    pointer), and [Diverge] is a loop that used up its fuel. *)
Inductive outcome (A : Type) : Type :=
| Ok (a : A)
| Die (msg : string)
| Exit (msg : string)
| Abort (cond : string)
| UB (why : string)
| Diverge.

Arguments Ok {A} _.
Arguments Die {A} _.
Arguments Exit {A} _.
Arguments Abort {A} _.
Arguments UB {A} _.
Arguments Diverge {A}.

#[global] Instance outcome_ret : MRet outcome := @Ok.
#[global] Instance outcome_bind : MBind outcome := fun A B f m =>
  match m with
  | Ok a => f a
  | Die s => Die s
  | Exit s => Exit s
  | Abort s => Abort s
  | UB s => UB s
  | Diverge => Diverge
  end.

(** Whether an outcome is free of undefined behaviour. *)
Definition defined {A} (o : outcome A) : Prop :=
  match o with UB _ => False | _ => True end.

(** ** The state and error monad of the development *)
Definition prog (S A : Type) : Type := S -> outcome (A * S).

#[global] Instance prog_ret {S} : MRet (prog S) := fun A a s => Ok (a, s).
#[global] Instance prog_bind {S} : MBind (prog S) := fun A B f m s =>
  match m s with
  | Ok (a, s') => f a s'
  | Die e => Die e
  | Exit e => Exit e
  | Abort e => Abort e
  | UB e => UB e
  | Diverge => Diverge
  end.

Section Primitives.
Context {S : Type}.

Definition get : prog S S := fun s => Ok (s, s).
Definition put (s : S) : prog S unit := fun _ => Ok (tt, s).
Definition gets {A} (f : S -> A) : prog S A := fun s => Ok (f s, s).
Definition modify (f : S -> S) : prog S unit := fun s => Ok (tt, f s).
Definition die {A} (msg : string) : prog S A := fun _ => Die msg.
Definition ub {A} (why : string) : prog S A := fun _ => UB why.
Definition abort {A} (cond : string) : prog S A := fun _ => Abort cond.
Definition diverge {A} : prog S A := fun _ => Diverge.
Definition assert_ (b : bool) (cond : string) : prog S unit :=
  fun s => if b then Ok (tt, s) else Abort cond.

(** A computation without state. *)
Definition pure {A} (o : outcome A) : prog S A := fun s =>
  a ← o; Ok (a, s).
End Primitives.

(** Running a computation on one component of a larger state. *)
Definition zoom {S T A} (view : T -> S) (upd : S -> T -> T) (m : prog S A) : prog T A :=
  fun t => '(a, s) ← m (view t); Ok (a, upd s t).

(** Sequencing over a list. *)
Fixpoint for_each {S A} (xs : list A) (f : A -> prog S unit) : prog S unit :=
  match xs with
  | [] => mret tt
  | x :: xs' => f x ;; for_each xs' f
  end.

(** ** Rewriting a bind whose first part is known *)
Lemma outcome_bind_ok {A B} (a : A) (f : A -> outcome B) : (Ok a ≫= f) = f a.
Proof. reflexivity. Qed.

Lemma prog_bind_ok {S A B} (m : prog S A) (f : A -> prog S B) s a s' :
  m s = Ok (a, s') -> (m ≫= f) s = f a s'.
Proof. intros H. unfold mbind, prog_bind. by rewrite H. Qed.

Lemma prog_bind_inv {S A B} (m : prog S A) (f : A -> prog S B) s r :
  (m ≫= f) s = Ok r -> exists a s', m s = Ok (a, s') /\ f a s' = Ok r.
Proof.
  unfold mbind, prog_bind. destruct (m s) as [[a s']| | | | |] eqn:E; try done.
  intros H. by exists a, s'.
Qed.

Lemma zoom_ok {S T A} (view : T -> S) upd (m : prog S A) t a s :
  m (view t) = Ok (a, s) -> zoom view upd m t = Ok (a, upd s t).
Proof. intros H. unfold zoom. by rewrite H. Qed.

Lemma pure_ok {S A} (o : outcome A) a (s : S) : o = Ok a -> pure o s = Ok (a, s).
Proof. by intros ->. Qed.

Lemma assert_run {S} b cond (s : S) : b = true -> assert_ b cond s = Ok (tt, s).
Proof. by intros ->. Qed.

(** [step_with H] runs the head computation of a bind with the equation [H]. *)
Ltac step_with H := erewrite prog_bind_ok; [| eapply H ]; cbv beta iota.

(** [run_prim] unfolds the monad, for computations without calls. *)
Ltac run_prim :=
  cbv beta delta [mbind mret prog_bind prog_ret outcome_bind outcome_ret
                  get put gets modify die ub abort diverge assert_ pure zoom] iota.

(** ** Generic lemmas on lists *)
Lemma Forall_app_inv {A} (P : A -> Prop) l k :
  Forall P (l ++ k) -> Forall P l /\ Forall P k.
Proof. by rewrite Forall_app. Qed.

Lemma take_app_exact {A} (l k : list A) n : n = length l -> take n (l ++ k) = l.
Proof. intros ->. apply take_app_length. Qed.

Lemma drop_app_exact {A} (l k : list A) n : n = length l -> drop n (l ++ k) = k.
Proof. intros ->. apply drop_app_length. Qed.

Lemma lookup_app_at {A} (l k : list A) x n : n = length l -> (l ++ x :: k) !! n = Some x.
Proof. intros ->. by apply list_lookup_middle. Qed.

Lemma insert_app_at {A} (l k : list A) x y n :
  n = length l -> <[n := y]> (l ++ x :: k) = l ++ y :: k.
Proof. intros ->. rewrite insert_app_r_alt by lia. by rewrite Nat.sub_diag. Qed.

Lemma rev_replicate {A} n (x : A) : rev (replicate n x) = replicate n x.
Proof. induction n as [|n IH]; [done|]. rewrite replicate_S_end at 2. cbn. by rewrite IH. Qed.

Lemma lit_app s t : lit (s +:+ t) = lit s ++ lit t.
Proof.
  induction s as [|c s IH]; [done|].
  change (String c s +:+ t) with (String c (s +:+ t)).
  unfold lit in *. cbn. by rewrite IH.
Qed.

(** ** Computations that behave alike *)
Record same_runs {S A} (m n : prog S A) : Prop := mk_same_runs { same_run : forall s, m s = n s }.

#[export] Instance same_runs_equivalence {S A} : Equivalence (@same_runs S A).
Proof.
  split; [by intros m|by intros m n [E]; constructor|].
  intros m n o [E1] [E2]. constructor. intros s. by rewrite E1.
Qed.

#[export] Instance bind_same_runs {S A B} :
  Proper (pointwise_relation A same_runs ==> same_runs ==> same_runs) (@mbind (prog S) _ A B).
Proof.
  intros f g Hf m n [Hm]. constructor. intros s. unfold mbind, prog_bind. rewrite Hm.
  destruct (n s) as [[a s']| | | | |]; try done. apply Hf.
Qed.

Lemma bind_assoc {S A B C} (m : prog S A) (f : A -> prog S B) (g : B -> prog S C) :
  same_runs ((m ≫= f) ≫= g) (m ≫= fun a => f a ≫= g).
Proof. constructor. intros s. unfold mbind, prog_bind. by destruct (m s) as [[a s']| | | | |]. Qed.

Lemma ret_bind {S A B} (a : A) (f : A -> prog S B) : same_runs (mret a ≫= f) (f a).
Proof. by constructor. Qed.

Lemma bind_ret_unit {S} (m : prog S unit) : same_runs (m;; mret tt) m.
Proof.
  constructor. intros s. unfold mbind, prog_bind. by destruct (m s) as [[[] s']| | | | |].
Qed.

(** Computations that agree after their first part. *)
Lemma bind_congr {S A B} (m : prog S A) (f g : A -> prog S B) :
  (forall a, same_runs (f a) (g a)) -> same_runs (m ≫= f) (m ≫= g).
Proof. intros Hf. by apply bind_same_runs. Qed.

(** The first parts of two sequences, brought to the head. *)
Ltac same_heads :=
  repeat lazymatch goal with
  | |- same_runs ((_ ≫= _) ≫= _) _ => etransitivity; [apply bind_assoc|]
  | |- same_runs _ ((_ ≫= _) ≫= _) => etransitivity; [|symmetry; apply bind_assoc]
  | |- same_runs (mret _ ≫= _) _ => etransitivity; [apply ret_bind|]; cbv beta
  | |- same_runs _ (mret _ ≫= _) => etransitivity; [|symmetry; apply ret_bind]; cbv beta
  end.

(** One step of a proof that two sequences run alike. *)
Ltac same_step x := same_heads; apply bind_congr; intros x.
Ltac same_unit := same_heads; apply bind_congr; intros [].

Create HintDb procenv.
Create Rewrite HintDb procenv.
#[export] Hint Rewrite @length_app @length_map @length_fmap @length_take @length_drop
  @length_replicate @length_insert : procenv.
#[export] Hint Resolve Forall_nil_2 Forall_cons_2 : procenv.

(** Arithmetic goals about the lengths of lists. *)
Ltac len_lia :=
  autorewrite with procenv in *; cbn [length] in *; autorewrite with procenv in *;
  cbn [length] in *; lia.
