(* ===== verification/Memory.v ===== *)
(** Memory: the allocator, the node heap and C buffers.

    [malloc (3)], [calloc (3)] and [realloc (3)] may fail at any call, so the
    allocator is a parameter: [alloc_ok n] tells whether the [n]-th allocation
    of the run succeeds.  An address is never reused, the address of the
    [n]-th allocation being [S n] (address 0 is [NULL]).

    A buffer is the list of its elements; an element that was never written is
    indeterminate ([None]).  Reading an indeterminate element and accessing an
    element outside the buffer are undefined behaviour. *)
From S2P Require Import Prelude.

(** ** The allocator and the store *)
Class Allocator : Type := alloc_ok : nat -> bool.

(** Every allocation succeeds. *)
Class AllocTotal `{Allocator} : Prop := alloc_total : forall n, alloc_ok n = true.

Definition NULL : nat := 0.

(** [struct list] of pr_list.h; [data] points to a C string or is [NULL]. *)
Record node : Set := mk_node {
  data : option bytes;
  next : nat;
  prev : nat
}.

Record mem : Set := mk_mem {
  allocs : nat;
  heap : gmap nat node
}.

#[export] Instance node_eq_dec : EqDecision node.
Proof. solve_decision. Defined.

#[export] Instance mem_eq_dec : EqDecision mem.
Proof. solve_decision. Defined.

Definition mem0 : mem := mk_mem 0 ∅.

(** The state after one more allocation call. *)
Definition tick (m : mem) : mem := mk_mem (S (allocs m)) (heap m).

Definition alloc `{Allocator} : prog mem (option nat) := fun m =>
  Ok (if alloc_ok (allocs m) then Some (S (allocs m)) else None, tick m).

Definition ticks (n : nat) (m : mem) : mem := mk_mem (n + allocs m) (heap m).

Lemma ticks_0 m : ticks 0 m = m.
Proof. by destruct m. Qed.

Lemma ticks_S n m : ticks n (tick m) = ticks (S n) m.
Proof. unfold ticks, tick. cbn. f_equal. lia. Qed.

Lemma tick_ticks n m : tick (ticks n m) = ticks (S n) m.
Proof. done. Qed.

Lemma ticks_ticks n k m : ticks n (ticks k m) = ticks (n + k) m.
Proof. unfold ticks. cbn. f_equal. lia. Qed.

Lemma alloc_run `{AllocTotal} m : alloc m = Ok (Some (S (allocs m)), tick m).
Proof. unfold alloc. by rewrite alloc_total. Qed.

(** ** Buffers *)
Abbreviation cell := (option Z) (only parsing).
Abbreviation buffer := (list (option Z)) (only parsing).

Definition load (b : buffer) (i : nat) : outcome Z :=
  match b !! i with
  | Some (Some v) => Ok v
  | Some None => UB "read of an indeterminate element"
  | None => UB "read outside the buffer"
  end.

Definition store (b : buffer) (i : nat) (v : Z) : outcome buffer :=
  if bool_decide (i < length b) then Ok (<[i := Some v]> b)
  else UB "write outside the buffer".

(** Writing consecutive elements from [off] on. *)
Definition store_all (b : buffer) (off : nat) (vs : list Z) : outcome buffer :=
  if bool_decide (off + length vs <= length b)
  then Ok (take off b ++ map Some vs ++ drop (off + length vs) b)
  else UB "write outside the buffer".

(** The string that starts at the head of the buffer. *)
Fixpoint scan (b : buffer) : outcome (list Z) :=
  match b with
  | [] => UB "no terminator in the buffer"
  | None :: _ => UB "read of an indeterminate element"
  | Some 0%Z :: _ => Ok []
  | Some c :: b' => s ← scan b'; Ok (c :: s)
  end.

(** The C string at [b + off]. *)
Definition string_at (b : buffer) (off : nat) : outcome (list Z) :=
  if bool_decide (off <= length b) then scan (drop off b)
  else UB "pointer outside the buffer".

(** [strlen (b + off)], [wcslen (b + off)]. *)
Definition strlen_at (b : buffer) (off : nat) : outcome nat :=
  s ← string_at b off; Ok (length s).

(** [strncat (b + off, src, n)], [wcsncat (b + off, src, n)] where [src] holds
    a C string: at most [n] elements are copied after the end of the string at
    [b + off], and a terminator is added. *)
Definition strncat_at (b : buffer) (off : nat) (src : list Z) (n : nat) : outcome buffer :=
  k ← strlen_at b off;
  store_all b (off + k) (take n src ++ [0%Z]).

(** [memset (b, v, n * sizeof *b)]. *)
Definition memset (b : buffer) (v : Z) (n : nat) : outcome buffer :=
  store_all b 0 (replicate n v).

Definition resize (n : nat) (b : buffer) : buffer :=
  take n b ++ replicate (n - length b) None.

(** Allocation of buffers: [malloc], [calloc] and [realloc], sizes counted in
    elements. *)
Definition malloc_buf `{Allocator} (n : nat) : prog mem (option buffer) :=
  p ← alloc; mret ((fun _ => replicate n None) <$> p).

Definition calloc_buf `{Allocator} (n : nat) : prog mem (option buffer) :=
  p ← alloc; mret ((fun _ => replicate n (Some 0%Z)) <$> p).

Definition realloc_buf `{Allocator} (b : option buffer) (n : nat) : prog mem (option buffer) :=
  p ← alloc; mret ((fun _ => resize n (default [] b)) <$> p).

(** [strdup (3)], [wcsdup (3)]: a fresh buffer of exactly the needed size. *)
Definition strdup_buf `{Allocator} (s : list Z) : prog mem (option buffer) :=
  p ← alloc; mret ((fun _ => map Some s ++ [Some 0%Z]) <$> p).

(** ** Strings in buffers *)

(** No element is the terminator. *)
Definition nz (s : list Z) : Prop := Forall (fun c => c <> 0%Z) s.

(** A buffer that holds the string [s] and then arbitrary elements [junk]. *)
Definition holding (s : list Z) (junk : buffer) : buffer :=
  map Some s ++ Some 0%Z :: junk.

Lemma length_holding s junk : length (holding s junk) = length s + S (length junk).
Proof. unfold holding. len_lia. Qed.
#[export] Hint Rewrite length_holding : procenv.

Lemma nz_app s t : nz (s ++ t) <-> nz s /\ nz t.
Proof. apply Forall_app. Qed.

Lemma nz_take n s : nz s -> nz (take n s).
Proof. apply Forall_take. Qed.

Lemma nz_drop n s : nz s -> nz (drop n s).
Proof. apply Forall_drop. Qed.

Lemma nz_sublist s t : s `sublist_of` t -> nz t -> nz s.
Proof.
  unfold nz. rewrite !Forall_forall. intros Hs Ht c Hc. by eapply Ht, elem_of_sublist.
Qed.

#[export] Hint Resolve nz_take nz_drop : procenv.

Lemma nz_replicate n c : c <> 0%Z -> nz (replicate n c).
Proof. intros Hc. unfold nz. by apply Forall_replicate. Qed.

Lemma lit_nz_check s : forallb (fun c => negb (Z.eqb c 0)) s = true -> nz s.
Proof.
  induction s as [|c s IH]; cbn; [constructor|].
  intros [Hc Hs]%andb_prop. constructor; [|by apply IH].
  by apply negb_true_iff, Z.eqb_neq in Hc.
Qed.

(** Closing [nz] of a literal. *)
Ltac nz_lit := apply lit_nz_check; reflexivity.

(** Concatenations of literals and of strings known to be without
    terminator. *)
Ltac nz_parts :=
  repeat match goal with |- nz (_ ++ _) => apply nz_app; split end;
  first [assumption | nz_lit | idtac].

Lemma scan_holding s junk : nz s -> scan (holding s junk) = Ok s.
Proof.
  unfold holding. induction 1 as [|c s Hc Hs IH]; [done|].
  cbn. destruct c; [done| |]; cbn; by rewrite IH.
Qed.

Lemma string_at_holding pre s junk off :
  nz s -> off = length pre -> string_at (pre ++ holding s junk) off = Ok s.
Proof.
  intros Hs ->. unfold string_at. rewrite bool_decide_true by len_lia.
  rewrite drop_app_length. by apply scan_holding.
Qed.

Lemma string_at_start s junk : nz s -> string_at (holding s junk) 0 = Ok s.
Proof. intros Hs. exact (string_at_holding [] s junk 0 Hs eq_refl). Qed.

Lemma strlen_at_start s junk : nz s -> strlen_at (holding s junk) 0 = Ok (length s).
Proof. intros Hs. unfold strlen_at. by rewrite string_at_start. Qed.

Lemma store_all_middle pre mid post vs off :
  off = length pre -> length mid = length vs ->
  store_all (pre ++ mid ++ post) off vs = Ok (pre ++ map Some vs ++ post).
Proof.
  intros -> Hm. unfold store_all. rewrite bool_decide_true by len_lia.
  rewrite take_app_length. do 3 f_equal.
  rewrite app_assoc, drop_app_exact; [done|len_lia].
Qed.

Lemma store_middle pre x post v i :
  i = length pre -> store (pre ++ x :: post) i v = Ok (pre ++ Some v :: post).
Proof.
  intros ->. unfold store. rewrite bool_decide_true by len_lia.
  by rewrite insert_app_at.
Qed.

Lemma load_middle pre v post i :
  i = length pre -> load (pre ++ Some v :: post) i = Ok v.
Proof. intros ->. unfold load. by rewrite lookup_app_at. Qed.

Lemma memset_all b v n : n = length b -> memset b v n = Ok (replicate n (Some v)).
Proof.
  intros ->. unfold memset.
  rewrite <- (app_nil_l b) at 1. rewrite <- (app_nil_r b) at 1.
  rewrite store_all_middle by len_lia.
  cbn. rewrite app_nil_r. f_equal. apply fmap_replicate.
Qed.

(** Concatenation when the rest of the buffer is long enough. *)
Lemma strncat_holding pre s src mid post off n :
  nz s -> nz src -> off = length pre ->
  length mid = length (take n src) ->
  strncat_at (pre ++ holding s (mid ++ post)) off src n
  = Ok (pre ++ holding (s ++ take n src) post).
Proof.
  intros Hs Hsrc -> Hm. unfold strncat_at, strlen_at.
  rewrite string_at_holding by done. cbn [mbind outcome_bind].
  unfold holding. rewrite map_app.
  replace (pre ++ map Some s ++ Some 0%Z :: mid ++ post)
    with ((pre ++ map Some s) ++ (Some 0%Z :: mid) ++ post) by by rewrite <- app_assoc.
  rewrite store_all_middle by len_lia.
  rewrite map_app, <- !app_assoc. done.
Qed.

(** The same at the terminator, the offset being the length of the string. *)
Lemma strncat_end s src mid post n :
  nz src -> length mid = length (take n src) ->
  strncat_at (holding s (mid ++ post)) (length s) src n = Ok (holding (s ++ take n src) post).
Proof.
  intros Hsrc Hj.
  pose proof (strncat_holding (map Some s) [] src mid post (length s) n (Forall_nil_2 _) Hsrc) as E.
  change (map Some s ++ holding [] (mid ++ post)) with (holding s (mid ++ post)) in E.
  rewrite E by len_lia. unfold holding. cbn [app]. by rewrite map_app, <- app_assoc.
Qed.

Lemma resize_grow n b : length b <= n -> resize n b = b ++ replicate (n - length b) None.
Proof. intros H. unfold resize. by rewrite take_ge. Qed.

Lemma resize_shrink n b : n <= length b -> resize n b = take n b.
Proof.
  intros H. unfold resize.
  replace (n - length b) with 0 by lia. apply app_nil_r.
Qed.

Lemma length_resize n b : length (resize n b) = n.
Proof. unfold resize. len_lia. Qed.
#[export] Hint Rewrite length_resize : procenv.

Section BufferAlloc.
Context `{AllocTotal}.

Lemma malloc_buf_run n m : malloc_buf n m = Ok (Some (replicate n None), tick m).
Proof. unfold malloc_buf. by rewrite (prog_bind_ok _ _ _ _ _ (alloc_run m)). Qed.

Lemma calloc_buf_run n m : calloc_buf n m = Ok (Some (replicate n (Some 0%Z)), tick m).
Proof. unfold calloc_buf. by rewrite (prog_bind_ok _ _ _ _ _ (alloc_run m)). Qed.

Lemma realloc_buf_run b n m :
  realloc_buf b n m = Ok (Some (resize n (default [] b)), tick m).
Proof. unfold realloc_buf. by rewrite (prog_bind_ok _ _ _ _ _ (alloc_run m)). Qed.

Lemma strdup_buf_run s m : strdup_buf s m = Ok (Some (holding s []), tick m).
Proof. unfold strdup_buf. by rewrite (prog_bind_ok _ _ _ _ _ (alloc_run m)). Qed.
End BufferAlloc.

(** ** An allocator that never fails, and one that fails from the [n]-th call *)
Definition total_allocator : Allocator := fun _ => true.

Lemma total_allocator_total : @AllocTotal total_allocator.
Proof. intros n. done. Qed.

Definition failing_allocator (k : nat) : Allocator := fun n => bool_decide (n < k).

(** A run that allocates but touches no node. *)
Definition ticked (m m' : mem) : Prop := exists n, m' = ticks n m.

Lemma ticked_refl m : ticked m m.
Proof. exists 0. by rewrite ticks_0. Qed.

Lemma ticked_tick m : ticked m (tick m).
Proof. by exists 1. Qed.

Lemma ticked_trans m1 m2 m3 : ticked m1 m2 -> ticked m2 m3 -> ticked m1 m3.
Proof. intros [n ->] [k ->]. exists (k + n). by rewrite ticks_ticks. Qed.

Lemma ticked_ticks n m : ticked m (ticks n m).
Proof. by exists n. Qed.

#[export] Hint Resolve ticked_refl ticked_tick ticked_ticks : procenv.
#[export] Instance ticked_preorder : PreOrder ticked.
Proof. split; [exact ticked_refl|exact ticked_trans]. Qed.
