(* ===== verification/PrList.v ===== *)
(** PrList: the circular doubly-linked list of pr_list.c.

    A list is named by the address of one of its nodes; there is no terminal
    node, the ring closes on itself.  The invariant [ring h l xs] says that
    following [next] from [l] visits exactly [xs] and returns to [l], and that
    every [prev] pointer is the inverse of the [next] pointer it answers. *)
From Stdlib Require Import Sorting.Sorted.
From S2P Require Import Prelude Memory.

(** ** Access to nodes *)
Definition get_node (a : nat) : prog mem node := fun m =>
  match heap m !! a with
  | Some n => Ok (n, m)
  | None => UB "dereference of a dangling or null pointer"
  end.

Definition set_node (a : nat) (f : node -> node) : prog mem unit := fun m =>
  match heap m !! a with
  | Some _ => Ok (tt, mk_mem (allocs m) (alter f a (heap m)))
  | None => UB "write through a dangling or null pointer"
  end.

Definition get_next (a : nat) : prog mem nat := n ← get_node a; mret (next n).
Definition get_prev (a : nat) : prog mem nat := n ← get_node a; mret (prev n).
Definition get_data (a : nat) : prog mem (option bytes) := n ← get_node a; mret (data n).
Definition set_next (a v : nat) : prog mem unit := set_node a (fun n => mk_node (data n) v (prev n)).
Definition set_prev (a v : nat) : prog mem unit := set_node a (fun n => mk_node (data n) (next n) v).

Definition nonnull (a : nat) : bool := negb (Nat.eqb a NULL).

(** [free (entry)] of a node. *)
Definition free_node (a : nat) : prog mem unit := fun m =>
  match heap m !! a with
  | Some _ => Ok (tt, mk_mem (allocs m) (delete a (heap m)))
  | None => UB "free of a dangling pointer"
  end.

Section Operations.
Context `{Allocator}.

Definition pr_list_new (d : option bytes) : prog mem nat :=
  p ← alloc;
  match p with
  | None => mret NULL
  | Some a => modify (fun m => mk_mem (allocs m) (<[a := mk_node d a a]> (heap m))) ;; mret a
  end.

Definition pr_list_empty (list : nat) : prog mem bool :=
  assert_ (nonnull list) "list" ;;
  n ← get_next list;
  p ← get_prev list;
  mret (Nat.eqb n list && Nat.eqb p list).

Definition pr_list_append (list entry : nat) : prog mem nat :=
  assert_ (nonnull list) "list" ;;
  assert_ (nonnull entry) "entry" ;;
  n ← get_next list;
  set_next entry n ;;
  set_prev entry list ;;
  n' ← get_next list;
  set_prev n' entry ;;
  set_next list entry ;;
  mret entry.

(** [strndup (str, n)] of a C string: the first [n] bytes at most. *)
Definition strndup (str : bytes) (n : nat) : prog mem (option bytes) :=
  p ← alloc; mret ((fun _ => take n str) <$> p).

Definition pr_list_appendn_str (list : nat) (str : bytes) (len : nat) : prog mem nat :=
  assert_ (nonnull list) "list" ;;
  s ← strndup str (1 + len);
  assert_ (bool_decide (is_Some s)) "s" ;;
  entry ← pr_list_new s;
  assert_ (nonnull entry) "entry" ;;
  pr_list_append list entry ;;
  mret entry.

Definition pr_list_append_str (list : nat) (str : bytes) : prog mem nat :=
  assert_ (nonnull list) "list" ;;
  let len := length str in
  pr_list_appendn_str list str len.

Definition pr_list_prepend (list entry : nat) : prog mem nat :=
  assert_ (nonnull list) "list" ;;
  assert_ (nonnull entry) "entry" ;;
  set_next entry list ;;
  p ← get_prev list;
  set_prev entry p ;;
  p' ← get_prev list;
  set_next p' entry ;;
  set_prev list entry ;;
  mret entry.

Definition pr_list_prependn_str (list : nat) (str : bytes) (len : nat) : prog mem nat :=
  assert_ (nonnull list) "list" ;;
  s ← strndup str (1 + len);
  assert_ (bool_decide (is_Some s)) "s" ;;
  entry ← pr_list_new s;
  assert_ (nonnull entry) "entry" ;;
  pr_list_prepend list entry ;;
  mret entry.

Definition pr_list_prepend_str (list : nat) (str : bytes) : prog mem nat :=
  assert_ (nonnull list) "list" ;;
  let len := length str in
  pr_list_prependn_str list str len.
End Operations.

(** [strcmp (3)] on unsigned bytes: negative, zero or positive. *)
Fixpoint strcmp (a b : bytes) : Z :=
  match a, b with
  | [], [] => 0
  | [], _ :: _ => -1
  | _ :: _, [] => 1
  | x :: a', y :: b' => if Z.eqb x y then strcmp a' b' else if Z.ltb x y then -1 else 1
  end%Z.

Definition cmp_data (a b : option bytes) : Z :=
  match a, b with
  | None, None => 0
  | None, Some _ => -1
  | Some _, None => 1
  | Some a, Some b => strcmp a b
  end%Z.

Definition pr_list_cmp_str (la lb : nat) : prog mem Z :=
  assert_ (nonnull la) "la" ;;
  assert_ (nonnull lb) "lb" ;;
  a ← get_data la;
  b ← get_data lb;
  mret (cmp_data a b).

(** The macro [pr_list_next]. *)
Definition pr_list_next (list : nat) (direction : Z) : prog mem nat :=
  if Z.ltb 0 direction then get_next list else get_prev list.

(** The [for] loop of [pr_list_add_sorted_internal]. *)
Fixpoint add_sorted_loop (fuel : nat) (list entry : nat) (cmp : nat -> nat -> prog mem Z)
    (handler : nat -> nat -> prog mem nat) (direction : Z) (p : nat) : prog mem nat :=
  match fuel with
  | 0 => diverge
  | S fuel' =>
    if Nat.eqb p list then handler list entry
    else
      c ← cmp entry p;
      if Z.ltb c 0 then handler p entry
      else
        p' ← pr_list_next p direction;
        add_sorted_loop fuel' list entry cmp handler direction p'
  end.

Definition pr_list_add_sorted_internal (list entry : nat) (cmp : nat -> nat -> prog mem Z)
    (prepend : bool) : prog mem nat :=
  assert_ (nonnull list) "list" ;;
  assert_ (nonnull entry) "entry" ;;
  let handler := if prepend then pr_list_prepend else pr_list_append in
  let direction := (if prepend then 1 else -1)%Z in
  start ← (if Z.ltb 0 direction then get_next list else get_prev list);
  fuel ← gets (fun m => S (S (allocs m)));
  add_sorted_loop fuel list entry cmp handler direction start.

Definition pr_list_prepend_sorted (list entry : nat) (cmp : nat -> nat -> prog mem Z) : prog mem nat :=
  pr_list_add_sorted_internal list entry cmp true.

Definition pr_list_append_sorted (list entry : nat) (cmp : nat -> nat -> prog mem Z) : prog mem nat :=
  pr_list_add_sorted_internal list entry cmp false.

Definition pr_list_prepend_str_sorted (list entry : nat) : prog mem nat :=
  pr_list_prepend_sorted list entry pr_list_cmp_str.

Definition pr_list_append_str_sorted (list entry : nat) : prog mem nat :=
  pr_list_append_sorted list entry pr_list_cmp_str.

Definition pr_list_remove (entry : nat) : prog mem nat :=
  assert_ (nonnull entry) "entry" ;;
  p ← get_prev entry;
  n ← get_next entry;
  set_next p n ;;
  n' ← get_next entry;
  p' ← get_prev entry;
  set_prev n' p' ;;
  set_prev entry entry ;;
  set_next entry entry ;;
  mret entry.

(** The [do ... while (p != stop)] loops of the visitors.  The visitor may be
    [NULL]; what it prints or computes at each node is collected in order. *)
Definition call_visitor {T} (visitor : option (nat -> prog mem T)) (p : nat) : prog mem (list T) :=
  match visitor with Some v => x ← v p; mret [x] | None => mret [] end.

Fixpoint visit_loop {T} (fuel : nat) (step : nat -> prog mem nat) (stop : prog mem nat)
    (visitor : option (nat -> prog mem T)) (p : nat) : prog mem (list T) :=
  match fuel with
  | 0 => diverge
  | S fuel' =>
    t ← call_visitor visitor p;
    p' ← step p;
    e ← stop;
    if Nat.eqb p' e then mret t
    else ts ← visit_loop fuel' step stop visitor p'; mret (t ++ ts)
  end.

Definition pr_list_foreach_visit {T} (l : nat) (visitor : option (nat -> prog mem T))
  : prog mem (list T) :=
  assert_ (nonnull l) "list" ;;
  fuel ← gets (fun m => S (allocs m));
  visit_loop fuel get_next (mret l) visitor l.

Definition pr_list_foreach_rev_visit {T} (l : nat) (visitor : option (nat -> prog mem T))
  : prog mem (list T) :=
  assert_ (nonnull l) "list" ;;
  p ← get_prev l;
  fuel ← gets (fun m => S (allocs m));
  visit_loop fuel get_prev (get_prev l) visitor p.

(** What [pr_list_visitor_str] prints of an entry: its address, its links and
    its data as a string. *)
Definition pr_list_visitor_str (entry : nat) : prog mem (nat * nat * nat * bytes) :=
  assert_ (nonnull entry) "entry" ;;
  n ← get_node entry;
  mret (entry, prev n, next n, default [] (data n)).

(** The macro [PR_LIST_FOREACH]: the addresses [iter] takes, in order. *)
Fixpoint foreach_loop (fuel l iter : nat) : prog mem (list nat) :=
  match fuel with
  | 0 => diverge
  | S fuel' =>
    if Nat.eqb iter l then mret []
    else
      n ← get_next iter;
      rest ← foreach_loop fuel' l n;
      mret (iter :: rest)
  end.

Definition PR_LIST_FOREACH (l : nat) : prog mem (list nat) :=
  first ← get_next l;
  fuel ← gets (fun m => S (allocs m));
  foreach_loop fuel l first.

(** ** The ring invariant *)
Section Ring.
Implicit Types (h : gmap nat node) (a b l e p : nat) (xs ys : list nat).

Definition next_of h a : option nat := next <$> h !! a.
Definition prev_of h a : option nat := prev <$> h !! a.
Definition data_of h a : option (option bytes) := data <$> h !! a.

Definition linked h a b : Prop := next_of h a = Some b /\ prev_of h b = Some a.

Fixpoint path h a xs b : Prop :=
  match xs with
  | [] => linked h a b
  | x :: xs' => linked h a x /\ path h x xs' b
  end.

Definition ring h l xs : Prop := NoDup (l :: xs) /\ path h l xs l.

(** Every node of the heap has an address that was handed out. *)
Definition mem_ok (m : mem) : Prop :=
  forall a, is_Some (heap m !! a) -> 1 <= a <= allocs m.

Lemma path_app h a xs x ys b :
  path h a (xs ++ x :: ys) b <-> path h a xs x /\ path h x ys b.
Proof.
  revert a. induction xs as [|y xs IH]; intros a; cbn; [done|].
  rewrite IH. tauto.
Qed.

(** A ring may be entered at any of its nodes. *)
Lemma ring_rotate h l xs p ys :
  ring h l (xs ++ p :: ys) <-> ring h p (ys ++ l :: xs).
Proof.
  unfold ring. rewrite !path_app. split; intros [Hnd Hp]; (split; [|tauto]);
    eapply NoDup_Permutation_proper; try exact Hnd; solve_Permutation.
Qed.

(** The links of a path only depend on its nodes. *)
Lemma path_frame h h' a xs b :
  (forall c, c ∈ a :: xs -> next_of h' c = next_of h c) ->
  (forall c, c ∈ xs ++ [b] -> prev_of h' c = prev_of h c) ->
  path h a xs b -> path h' a xs b.
Proof.
  revert a. induction xs as [|x xs IH]; intros a Hn Hp; cbn.
  - intros [??]. split; [rewrite Hn by set_solver|rewrite Hp by set_solver]; done.
  - intros [[??] ?]. split.
    + split; [rewrite Hn by set_solver|rewrite Hp by set_solver]; done.
    + apply IH; [set_solver..|done].
Qed.

Lemma linked_mem h a b : linked h a b -> is_Some (h !! a) /\ is_Some (h !! b).
Proof.
  unfold linked, next_of, prev_of.
  intros [H1 H2]. destruct (h !! a), (h !! b); naive_solver.
Qed.

Lemma path_mem h a xs b c : path h a xs b -> c ∈ a :: xs ++ [b] -> is_Some (h !! c).
Proof.
  revert a. induction xs as [|x xs IH]; intros a; cbn.
  - intros [??]%linked_mem. set_solver.
  - intros [[??]%linked_mem Hp]. rewrite elem_of_cons. intros [->|Hc]; [done|].
    by apply (IH x).
Qed.

Lemma ring_mem h l xs c : ring h l xs -> c ∈ l :: xs -> is_Some (h !! c).
Proof. intros [_ Hp] Hc. apply (path_mem _ _ _ _ _ Hp). set_solver. Qed.

Lemma ring_length m l xs : mem_ok m -> ring (heap m) l xs -> length (l :: xs) <= allocs m.
Proof.
  intros Hm Hr.
  assert (l :: xs ⊆ seq 1 (allocs m)) as Hsub.
  { intros c Hc. apply elem_of_seq.
    destruct (Hm c (ring_mem _ _ _ _ Hr Hc)). lia. }
  rewrite <- (length_seq (allocs m) 1).
  apply submseteq_length, NoDup_submseteq; [apply Hr|done].
Qed.

Lemma ring_nonnull m l xs c : mem_ok m -> ring (heap m) l xs -> c ∈ l :: xs -> nonnull c = true.
Proof.
  intros Hm Hr Hc. destruct (Hm c (ring_mem _ _ _ _ Hr Hc)).
  unfold nonnull, NULL. destruct c; [lia|done].
Qed.
End Ring.

Create Rewrite HintDb links.

(** ** Running the primitive accesses *)
Section Accesses.
Implicit Types (m : mem) (a b c l e p n : nat) (xs ys : list nat).

Definition with_next a v m : mem :=
  mk_mem (allocs m) (alter (fun x : node => mk_node (data x) v (prev x)) a (heap m)).
Definition with_prev a v m : mem :=
  mk_mem (allocs m) (alter (fun x : node => mk_node (data x) (next x) v) a (heap m)).

Definition live m a : Prop := is_Some (heap m !! a).

(** The node contents and the allocator are untouched. *)
Definition same_data m m' : Prop :=
  allocs m' = allocs m /\ forall c, data_of (heap m') c = data_of (heap m) c.

#[export] Instance same_data_trans : Transitive same_data.
Proof. intros m1 m2 m3 [H1 H2] [H3 H4]. split; [congruence|]. intros c. by rewrite H4. Qed.

#[export] Instance same_data_refl : Reflexive same_data.
Proof. by intros m. Qed.

Lemma same_data_live m m' c : same_data m m' -> live m c <-> live m' c.
Proof.
  intros [_ H]. specialize (H c). unfold live, data_of in *.
  destruct (heap m !! c), (heap m' !! c); naive_solver.
Qed.

Lemma same_data_mem_ok m m' : same_data m m' -> mem_ok m -> mem_ok m'.
Proof.
  intros Hs Hm a Ha. destruct Hs as [Hal Hd]. rewrite Hal. apply Hm.
  by apply (same_data_live m m').
Qed.

Lemma get_next_run m a b : next_of (heap m) a = Some b -> get_next a m = Ok (b, m).
Proof. unfold next_of, get_next, get_node. run_prim. destruct (heap m !! a); naive_solver. Qed.

Lemma get_prev_run m a b : prev_of (heap m) a = Some b -> get_prev a m = Ok (b, m).
Proof. unfold prev_of, get_prev, get_node. run_prim. destruct (heap m !! a); naive_solver. Qed.

Lemma get_data_run m a d : data_of (heap m) a = Some d -> get_data a m = Ok (d, m).
Proof. unfold data_of, get_data, get_node. run_prim. destruct (heap m !! a); naive_solver. Qed.

Lemma set_next_run m a v : live m a -> set_next a v m = Ok (tt, with_next a v m).
Proof. intros [n Hn]. unfold set_next, set_node. by rewrite Hn. Qed.

Lemma set_prev_run m a v : live m a -> set_prev a v m = Ok (tt, with_prev a v m).
Proof. intros [n Hn]. unfold set_prev, set_node. by rewrite Hn. Qed.

Lemma with_next_same a v m : same_data m (with_next a v m).
Proof.
  split; [done|]. intros c. unfold data_of. cbn. rewrite lookup_alter.
  case_decide; subst; [by destruct (heap m !! c)|done].
Qed.

Lemma with_prev_same a v m : same_data m (with_prev a v m).
Proof.
  split; [done|]. intros c. unfold data_of. cbn. rewrite lookup_alter.
  case_decide; subst; [by destruct (heap m !! c)|done].
Qed.

Lemma next_with_next a v m c : live m a ->
  next_of (heap (with_next a v m)) c = if decide (c = a) then Some v else next_of (heap m) c.
Proof.
  intros [n Hn]. unfold next_of. cbn. rewrite lookup_alter.
  repeat case_decide; subst; rewrite ?Hn; try congruence; done.
Qed.

Lemma prev_with_prev a v m c : live m a ->
  prev_of (heap (with_prev a v m)) c = if decide (c = a) then Some v else prev_of (heap m) c.
Proof.
  intros [n Hn]. unfold prev_of. cbn. rewrite lookup_alter.
  repeat case_decide; subst; rewrite ?Hn; try congruence; done.
Qed.

Lemma next_with_prev a v m c : next_of (heap (with_prev a v m)) c = next_of (heap m) c.
Proof.
  unfold next_of. cbn. rewrite lookup_alter.
  case_decide; subst; [by destruct (heap m !! c)|done].
Qed.

Lemma prev_with_next a v m c : prev_of (heap (with_next a v m)) c = prev_of (heap m) c.
Proof.
  unfold prev_of. cbn. rewrite lookup_alter.
  case_decide; subst; [by destruct (heap m !! c)|done].
Qed.

Lemma live_with_next a v m c : live (with_next a v m) c <-> live m c.
Proof. symmetry. apply same_data_live, with_next_same. Qed.

Lemma live_with_prev a v m c : live (with_prev a v m) c <-> live m c.
Proof. symmetry. apply same_data_live, with_prev_same. Qed.

Lemma nonnull_run (b : bool) (cond : string) m : b = true -> assert_ b cond m = Ok (tt, m).
Proof. by intros ->. Qed.
End Accesses.

#[export] Hint Rewrite live_with_next live_with_prev next_with_prev prev_with_next : links.
#[export] Hint Resolve with_next_same with_prev_same : procenv.

(** Simplify the links of an updated memory. *)
Ltac links := repeat first
  [ rewrite next_with_next by (autorewrite with links; done)
  | rewrite prev_with_prev by (autorewrite with links; done)
  | rewrite next_with_prev
  | rewrite prev_with_next ].

(** Run the next access, solving its side condition with [links]. *)
Ltac access :=
  first
  [ erewrite prog_bind_ok; [| apply nonnull_run; eassumption ]
  | erewrite prog_bind_ok; [| apply set_next_run; autorewrite with links; done ]
  | erewrite prog_bind_ok; [| apply set_prev_run; autorewrite with links; done ]
  | erewrite prog_bind_ok; [| apply get_next_run; links; eassumption ]
  | erewrite prog_bind_ok; [| apply get_prev_run; links; eassumption ] ].

(** ** Splicing nodes in and out of a ring *)
Section Splice.
Implicit Types (h : gmap nat node) (m : mem) (a b c l e p n : nat) (xs ys : list nat).

Lemma ring_next h l xs : ring h l xs -> next_of h l = Some (hd l xs).
Proof. destruct xs; cbn; intros [_ H]; cbn in H; unfold linked in *; tauto. Qed.

Lemma ring_prev h l xs : ring h l xs -> prev_of h l = Some (List.last xs l).
Proof.
  destruct xs as [|x xs' _] using rev_ind; intros [_ H].
  - cbn in *. unfold linked in H. tauto.
  - apply path_app in H as [_ H]. rewrite last_last. cbn in H. unfold linked in H. tauto.
Qed.

Lemma ring_insert h h' l xs e :
  ring h l xs -> e ∉ l :: xs ->
  (forall c, next_of h' c = if decide (c = l) then Some e
                            else if decide (c = e) then Some (hd l xs) else next_of h c) ->
  (forall c, prev_of h' c = if decide (c = hd l xs) then Some e
                            else if decide (c = e) then Some l else prev_of h c) ->
  ring h' l (e :: xs).
Proof.
  intros [Hnd Hp] He Hn Hpr.
  apply not_elem_of_cons in He as [Hel Hex].
  apply NoDup_cons in Hnd as [Hl Hnd].
  split; [by rewrite !NoDup_cons, elem_of_cons; naive_solver|].
  cbn. split.
  - split; [rewrite Hn|rewrite Hpr]; repeat case_decide; subst; try done.
    destruct xs; cbn in *; set_solver.
  - destruct xs as [|x xs]; cbn in *.
    + split; [rewrite Hn|rewrite Hpr]; repeat case_decide; congruence.
    + destruct Hp as [Hlx Hp]. split.
      * split; [rewrite Hn|rewrite Hpr]; repeat case_decide; congruence.
      * apply NoDup_cons in Hnd as [Hx Hnd].
        eapply path_frame; [..|exact Hp]; intros c Hc; rewrite ?Hn, ?Hpr;
          repeat case_decide; subst; set_solver.
Qed.

Lemma ring_delete_next h h' p e zs :
  ring h p (e :: zs) ->
  (forall c, next_of h' c = if decide (c = e) then Some e
                            else if decide (c = p) then Some (hd p zs) else next_of h c) ->
  (forall c, prev_of h' c = if decide (c = e) then Some e
                            else if decide (c = hd p zs) then Some p else prev_of h c) ->
  ring h' p zs.
Proof.
  intros [Hnd Hp] Hn Hpr.
  apply NoDup_cons in Hnd as [Hpe Hnd]. apply NoDup_cons in Hnd as [Hez Hnd].
  split; [apply NoDup_cons; split; [set_solver|done]|].
  destruct Hp as [_ Hp]. destruct zs as [|n zs]; cbn in *.
  - split; [rewrite Hn|rewrite Hpr]; repeat case_decide; set_solver.
  - apply NoDup_cons in Hnd as [Hnz Hnd]. destruct Hp as [_ Hp]. split.
    + split; [rewrite Hn|rewrite Hpr]; repeat case_decide; set_solver.
    + eapply path_frame; [..|exact Hp]; intros c Hc; rewrite ?Hn, ?Hpr;
        repeat case_decide; subst; set_solver.
Qed.

Lemma ring_live m l xs c : ring (heap m) l xs -> c ∈ l :: xs -> live m c.
Proof. apply ring_mem. Qed.

Lemma hd_in l xs : hd l xs ∈ l :: xs.
Proof. destruct xs; set_solver. Qed.

Lemma last_in l xs : List.last xs l ∈ l :: xs.
Proof. destruct xs as [|x xs _] using rev_ind; [|rewrite last_last]; set_solver. Qed.
End Splice.

(** ** Correctness of the list operations *)
Section Correct.
Implicit Types (m : mem) (a b c l e p n : nat) (xs ys : list nat).

Lemma live_nonnull m a : mem_ok m -> live m a -> nonnull a = true.
Proof. intros Hm Ha. destruct (Hm a Ha). unfold nonnull, NULL. destruct a; [lia|done]. Qed.

Lemma append_ok m l e xs :
  mem_ok m -> ring (heap m) l xs -> e ∉ l :: xs -> live m e ->
  exists m', pr_list_append l e m = Ok (e, m') /\
             ring (heap m') l (e :: xs) /\ same_data m m'.
Proof.
  intros Hm Hr He Hle.
  assert (nonnull l = true) as Hnl by (eapply ring_nonnull; [done..|set_solver]).
  assert (nonnull e = true) as Hne by by eapply live_nonnull.
  assert (live m l) as Hll by (eapply ring_live; [done|set_solver]).
  assert (live m (hd l xs)) as Hln by (eapply ring_live; [done|apply hd_in]).
  pose proof (ring_next _ _ _ Hr) as Hnx.
  assert (l <> e) by set_solver.
  unfold pr_list_append. do 5 access.
  erewrite prog_bind_ok.
  2: { apply get_next_run. links. rewrite decide_False by done. done. }
  do 2 access. eexists. split; [done|]. split.
  - eapply ring_insert; [done..| |]; intros c; links; repeat case_decide; done.
  - etrans; [|apply with_next_same]. etrans; [|apply with_prev_same].
    etrans; [|apply with_prev_same]. apply with_next_same.
Qed.

Lemma prepend_ok m l e xs :
  mem_ok m -> ring (heap m) l xs -> e ∉ l :: xs -> live m e ->
  exists m', pr_list_prepend l e m = Ok (e, m') /\
             ring (heap m') l (xs ++ [e]) /\ same_data m m'.
Proof.
  intros Hm Hr He Hle.
  assert (nonnull l = true) as Hnl by (eapply ring_nonnull; [done..|set_solver]).
  assert (nonnull e = true) as Hne by by eapply live_nonnull.
  assert (live m l) as Hll by (eapply ring_live; [done|set_solver]).
  assert (live m (List.last xs l)) as Hlp by (eapply ring_live; [done|apply last_in]).
  pose proof (ring_prev _ _ _ Hr) as Hpv.
  assert (l <> e) by set_solver.
  unfold pr_list_prepend. do 5 access.
  erewrite prog_bind_ok.
  2: { apply get_prev_run. links. rewrite decide_False by done. done. }
  do 2 access. eexists. split; [done|]. split.
  - destruct xs as [|x xs _] using rev_ind.
    + eapply (ring_insert (heap m)); [done..| |]; intros c; links; repeat case_decide; done.
    + rewrite last_last in *. rewrite <- app_assoc. apply ring_rotate.
      change ([e] ++ l :: xs) with (e :: l :: xs). apply ring_rotate in Hr.
      eapply (ring_insert (heap m)); [exact Hr|set_solver| |];
        intros c; links; repeat case_decide; done.
  - etrans; [|apply with_prev_same]. etrans; [|apply with_next_same].
    etrans; [|apply with_prev_same]. apply with_next_same.
Qed.

(** The heap after [pr_list_remove], whatever the position of the entry. *)
Lemma remove_run m e p n :
  live m e -> live m p -> live m n -> nonnull e = true ->
  next_of (heap m) e = Some n -> prev_of (heap m) e = Some p ->
  exists m', pr_list_remove e m = Ok (e, m') /\ same_data m m' /\
    (forall c, next_of (heap m') c = if decide (c = e) then Some e
                                     else if decide (c = p) then Some n else next_of (heap m) c) /\
    (forall c, prev_of (heap m') c = if decide (c = e) then Some e
                                     else if decide (c = n) then Some p else prev_of (heap m) c).
Proof.
  intros He Hp Hn Hne Hnx Hpv. unfold pr_list_remove. do 4 access.
  erewrite prog_bind_ok.
  2: { apply get_next_run. links. instantiate (1 := n). by case_decide. }
  erewrite prog_bind_ok; [|apply get_prev_run; links; eassumption].
  do 3 access. eexists. split; [done|]. split_and!.
  - etrans; [|apply with_next_same]. etrans; [|apply with_prev_same].
    etrans; [|apply with_prev_same]. apply with_next_same.
  - intros c. by links.
  - intros c. by links.
Qed.

Lemma remove_ok m l xs e ys :
  mem_ok m -> ring (heap m) l (xs ++ e :: ys) ->
  exists m', pr_list_remove e m = Ok (e, m') /\
             ring (heap m') l (xs ++ ys) /\ ring (heap m') e [] /\ same_data m m'.
Proof.
  intros Hm Hr.
  assert (exists p zs, ring (heap m) p (e :: zs) /\
            (forall h, ring h p zs -> ring h l (xs ++ ys))) as (p & zs & Hpr & Hback).
  { destruct xs as [|p xs _] using rev_ind; [by exists l, ys|].
    rewrite <- app_assoc in Hr. apply ring_rotate in Hr.
    exists p, (ys ++ l :: xs). split; [done|]. intros h.
    rewrite <- app_assoc. apply ring_rotate. }
  clear Hr. pose proof Hpr as [Hnd [[_ Hpv] Hpath]].
  assert (next_of (heap m) e = Some (hd p zs)) as Hnx.
  { destruct zs; cbn in *; unfold linked in *; tauto. }
  assert (forall c, c ∈ p :: e :: zs -> live m c) as Hlive by (intros; by eapply ring_live).
  destruct (remove_run m e p (hd p zs)) as (m' & Hrun & Hsame & Hn' & Hp').
  - apply Hlive. set_solver.
  - apply Hlive. set_solver.
  - apply Hlive. pose proof (hd_in p zs). set_solver.
  - eapply ring_nonnull; [done..|set_solver].
  - done.
  - done.
  - exists m'. split; [done|]. split; [|split; [|done]].
    + apply Hback. eapply ring_delete_next; eauto.
    + split; [apply NoDup_singleton|]. split; [rewrite Hn'|rewrite Hp'];
        by rewrite decide_True.
Qed.

Lemma new_ok `{AllocTotal} m d :
  mem_ok m ->
  exists m', pr_list_new d m = Ok (S (allocs m), m') /\ mem_ok m' /\
    ring (heap m') (S (allocs m)) [] /\ data_of (heap m') (S (allocs m)) = Some d /\
    allocs m' = S (allocs m) /\
    (forall c, c <> S (allocs m) -> heap m' !! c = heap m !! c).
Proof.
  intros Hm. unfold pr_list_new. rewrite (prog_bind_ok _ _ _ _ _ (alloc_run m)).
  eexists. split; [done|]. cbn. split_and!.
  - intros a. cbn. destruct (decide (a = S (allocs m))) as [->|Ha]; [lia|].
    rewrite lookup_insert_ne by done. intros Hs. apply Hm in Hs. lia.
  - split; [apply NoDup_singleton|]. unfold path, linked, next_of, prev_of.
    by rewrite lookup_insert_eq.
  - unfold data_of. by rewrite lookup_insert_eq.
  - done.
  - intros c Hc. by rewrite lookup_insert_ne.
Qed.

(** A ring keeps its shape when the heap grows elsewhere. *)
Lemma ring_frame h h' l xs :
  (forall c, c ∈ l :: xs -> h' !! c = h !! c) -> ring h l xs -> ring h' l xs.
Proof.
  intros Hf [Hnd Hp]. split; [done|].
  eapply path_frame; [..|exact Hp]; intros c Hc; unfold next_of, prev_of;
    rewrite Hf by set_solver; done.
Qed.
End Correct.

(** ** Sorted insertion *)

(** The reference: insert before the first element that is strictly greater. *)
Fixpoint ins_before (lt : nat -> bool) (e : nat) (xs : list nat) : list nat :=
  match xs with
  | [] => [e]
  | x :: xs' => if lt x then e :: x :: xs' else x :: ins_before lt e xs'
  end.

Lemma ins_before_perm lt e xs : ins_before lt e xs ≡ₚ e :: xs.
Proof.
  induction xs as [|x xs IH]; cbn; [done|].
  destruct (lt x); [done|]. rewrite IH. apply Permutation_swap.
Qed.

Section SortedLoop.
Implicit Types (m : mem) (e l p : nat) (xs ys : list nat).
Context (m : mem) (l e : nat) (cmp : nat -> nat -> prog mem Z) (c : nat -> Z).
Context (Hm : mem_ok m) (Hlive : live m e).

(** The insertion is done right and nothing else changes. *)
Definition inserts (run : outcome (nat * mem)) xs : Prop :=
  exists m', run = Ok (e, m') /\ ring (heap m') l xs /\ same_data m m'.

Lemma add_sorted_forward fuel pre suf :
  ring (heap m) l (pre ++ suf) -> e ∉ l :: pre ++ suf ->
  (forall p, p ∈ suf -> cmp e p m = Ok (c p, m)) ->
  length suf < fuel ->
  inserts (add_sorted_loop fuel l e cmp pr_list_prepend 1 (hd l suf) m)
          (pre ++ ins_before (fun p => Z.ltb (c p) 0) e suf).
Proof.
  revert fuel pre. induction suf as [|x suf IH]; intros [|fuel] pre Hr He Hc Hf;
    [len_lia| |len_lia|].
  - rewrite app_nil_r in Hr, He. cbn. rewrite Nat.eqb_refl. by apply prepend_ok.
  - cbn [add_sorted_loop hd].
    assert (x <> l) as Hxl.
    { destruct Hr as [Hnd _]. apply NoDup_cons in Hnd as [Hl _]. set_solver. }
    apply Nat.eqb_neq in Hxl. rewrite Hxl.
    erewrite prog_bind_ok; [|apply Hc; set_solver].
    cbn [ins_before]. destruct (Z.ltb (c x) 0).
    + pose proof Hr as Hr'. apply ring_rotate in Hr'.
      destruct (prepend_ok m x e _ Hm Hr') as (m' & Hrun & Hring & Hs); [set_solver|done|].
      exists m'. split; [done|]. split; [|done].
      rewrite <- app_assoc in Hring. apply ring_rotate in Hring.
      by rewrite <- app_assoc in Hring.
    + pose proof Hr as Hr'. apply ring_rotate, ring_next in Hr'.
      erewrite prog_bind_ok.
      2: { unfold pr_list_next. cbn. apply get_next_run. exact Hr'. }
      replace (hd x (suf ++ l :: pre)) with (hd l suf) by by destruct suf.
      specialize (IH fuel (pre ++ [x])). rewrite <- !app_assoc in IH. cbn in IH.
      apply IH; [done|set_solver|intros; apply Hc; set_solver|len_lia].
Qed.

Lemma add_sorted_backward fuel suf post :
  ring (heap m) l (suf ++ post) -> e ∉ l :: suf ++ post ->
  (forall p, p ∈ suf -> cmp e p m = Ok (c p, m)) ->
  length suf < fuel ->
  inserts (add_sorted_loop fuel l e cmp pr_list_append (-1) (List.last suf l) m)
          (rev (ins_before (fun p => Z.ltb (c p) 0) e (rev suf)) ++ post).
Proof.
  revert fuel post. induction suf as [|x suf IH] using rev_ind; intros [|fuel] post Hr He Hc Hf;
    [len_lia| |len_lia|].
  - cbn. rewrite Nat.eqb_refl. apply append_ok; done.
  - rewrite last_last, rev_app_distr. cbn [add_sorted_loop rev app ins_before].
    rewrite <- app_assoc in Hr. cbn in Hr.
    assert (x <> l) as Hxl.
    { destruct Hr as [Hnd _]. apply NoDup_cons in Hnd as [Hl _]. set_solver. }
    apply Nat.eqb_neq in Hxl. rewrite Hxl.
    erewrite prog_bind_ok; [|apply Hc; set_solver].
    destruct (Z.ltb (c x) 0).
    + pose proof Hr as Hr'. apply ring_rotate in Hr'.
      destruct (append_ok m x e _ Hm Hr') as (m' & Hrun & Hring & Hs); [set_solver|done|].
      exists m'. split; [done|]. split; [|done].
      change (e :: post ++ l :: suf) with ((e :: post) ++ l :: suf) in Hring.
      apply ring_rotate in Hring. cbn. rewrite rev_involutive, <- !app_assoc. done.
    + pose proof Hr as Hr'. apply ring_rotate, ring_prev in Hr'.
      erewrite prog_bind_ok.
      2: { unfold pr_list_next. cbn. apply get_prev_run. exact Hr'. }
      replace (List.last (post ++ l :: suf) x) with (List.last suf l).
      2: { clear. destruct suf as [|y suf _] using rev_ind; [by rewrite last_last|].
           rewrite app_comm_cons, app_assoc, !last_last. done. }
      cbn [rev]. rewrite <- app_assoc. cbn.
      apply (IH fuel (x :: post)); [done|set_solver|intros; apply Hc; set_solver|len_lia].
Qed.
End SortedLoop.

(** ** The order of string entries *)
Section DataOrder.
Local Open Scope Z_scope.

Lemma strcmp_same a : strcmp a a = 0.
Proof. induction a as [|x a IH]; cbn; [done|]. by rewrite Z.eqb_refl. Qed.

Lemma strcmp_zero a b : strcmp a b = 0 -> a = b.
Proof.
  revert b. induction a as [|x a IH]; intros [|y b]; cbn; try done.
  destruct (Z.eqb_spec x y) as [->|]; [by intros ->%IH|]. by destruct (Z.ltb x y).
Qed.

Lemma strcmp_opp a b : strcmp b a = - strcmp a b.
Proof.
  revert b. induction a as [|x a IH]; intros [|y b]; cbn; try done.
  rewrite (Z.eqb_sym y x). destruct (Z.eqb_spec x y); [apply IH|].
  destruct (Z.ltb_spec x y), (Z.ltb_spec y x); lia.
Qed.

Lemma strcmp_trans a b c : 0 <= strcmp b a -> 0 <= strcmp c b -> 0 <= strcmp c a.
Proof.
  revert b c. induction a as [|x a IH]; intros [|y b] [|z c]; cbn; try lia.
  destruct (Z.eqb_spec y x), (Z.eqb_spec z y), (Z.eqb_spec z x); subst; try lia;
    try (by apply IH);
    repeat match goal with |- context [Z.ltb ?u ?v] => destruct (Z.ltb_spec u v) end; lia.
Qed.

(** [a] is not after [b]. *)
Definition data_le (a b : option bytes) : Prop := 0 <= cmp_data b a.

Lemma cmp_data_opp a b : cmp_data b a = - cmp_data a b.
Proof. destruct a, b; cbn; try done. apply strcmp_opp. Qed.

#[export] Instance data_le_trans : Transitive data_le.
Proof.
  unfold data_le. intros [a|] [b|] [c|]; cbn; try lia. apply strcmp_trans.
Qed.
End DataOrder.

Definition key_of (h : gmap nat node) (a : nat) : option bytes := default None (data_of h a).

Lemma ins_before_sorted (key : nat -> option bytes) e xs :
  Sorted data_le (map key xs) ->
  Sorted data_le (map key (ins_before (fun p => Z.ltb (cmp_data (key e) (key p)) 0) e xs)).
Proof.
  induction xs as [|x xs IH]; cbn; intros Hs; [by repeat constructor|].
  destruct (Z.ltb_spec (cmp_data (key e) (key x)) 0) as [Hlt|Hge].
  - cbn. constructor; [done|]. constructor. unfold data_le. rewrite cmp_data_opp. lia.
  - cbn. apply Sorted_inv in Hs as [Hs Hhd]. constructor; [by apply IH|].
    destruct xs as [|y xs]; cbn; [by constructor|].
    destruct (Z.ltb _ 0); constructor; [done|]. by inversion Hhd.
Qed.

(** ** Traversals *)
Section Traverse.
Implicit Types (m : mem) (l p : nat) (xs suf post : list nat).
Context {T : Type} (m : mem) (l : nat) (v : nat -> prog mem T) (f : nat -> T).

Lemma call_visitor_run p : v p m = Ok (f p, m) -> call_visitor (Some v) p m = Ok ([f p], m).
Proof. intros H. unfold call_visitor. by step_with H. Qed.

Lemma visit_forward fuel p suf :
  path (heap m) p suf l -> l ∉ suf -> length suf < fuel ->
  (forall a, a ∈ p :: suf -> v a m = Ok (f a, m)) ->
  visit_loop fuel get_next (mret l) (Some v) p m = Ok (map f (p :: suf), m).
Proof.
  revert fuel p. induction suf as [|x suf IH]; intros [|fuel] p Hp Hl Hf Hv;
    [len_lia| |len_lia|]; cbn [visit_loop].
  - destruct Hp as [Hn _]. erewrite prog_bind_ok; [|apply call_visitor_run, Hv; set_solver].
    step_with (get_next_run _ _ _ Hn). cbn. run_prim. by rewrite Nat.eqb_refl.
  - destruct Hp as [[Hn _] Hp]. erewrite prog_bind_ok; [|apply call_visitor_run, Hv; set_solver].
    step_with (get_next_run _ _ _ Hn).
    erewrite prog_bind_ok by reflexivity.
    destruct (Nat.eqb_spec x l); [set_solver|].
    erewrite prog_bind_ok; [|apply IH; [done|set_solver|len_lia|intros; apply Hv; set_solver]].
    done.
Qed.

Lemma visit_backward fuel suf post :
  ring (heap m) l (suf ++ post) -> length suf < fuel ->
  (forall a, a ∈ l :: suf -> v a m = Ok (f a, m)) ->
  visit_loop fuel get_prev (get_prev l) (Some v) (List.last suf l) m
  = Ok (map f (rev suf ++ [l]), m).
Proof.
  revert fuel post. induction suf as [|x suf IH] using rev_ind; intros [|fuel] post Hr Hf Hv;
    [len_lia| |len_lia|]; cbn [visit_loop].
  - cbn [List.last]. erewrite prog_bind_ok; [|apply call_visitor_run, Hv; set_solver].
    step_with (get_prev_run _ _ _ (ring_prev _ _ _ Hr)).
    step_with (get_prev_run _ _ _ (ring_prev _ _ _ Hr)).
    by rewrite Nat.eqb_refl.
  - rewrite last_last. erewrite prog_bind_ok; [|apply call_visitor_run, Hv; set_solver].
    pose proof (ring_prev _ _ _ Hr) as Hstop.
    rewrite <- app_assoc in Hr. cbn in Hr.
    pose proof Hr as Hx. apply ring_rotate, ring_prev in Hx.
    step_with (get_prev_run _ _ _ Hx). step_with (get_prev_run _ _ _ Hstop).
    replace (List.last (post ++ l :: suf) x) with (List.last suf l).
    2: { clear. destruct suf as [|y suf _] using rev_ind; [by rewrite last_last|].
         rewrite app_comm_cons, app_assoc, !last_last. done. }
    destruct (Nat.eqb_spec (List.last suf l) (List.last ((suf ++ [x]) ++ post) l)) as [E|_].
    { exfalso. pose proof (last_in l suf) as H1. pose proof (last_in x post) as H2.
      replace (List.last ((suf ++ [x]) ++ post) l) with (List.last post x) in E.
      2: { clear. destruct post as [|y post _] using rev_ind;
           [by rewrite app_nil_r, last_last|by rewrite app_assoc, !last_last]. }
      rewrite <- E in H2. destruct Hr as [Hnd _].
      rewrite app_comm_cons in Hnd. apply NoDup_app in Hnd as (_ & Hd & _).
      by apply (Hd _ H1). }
    rewrite rev_app_distr.
    erewrite prog_bind_ok;
      [|apply (IH fuel (x :: post)); [done|len_lia|intros; apply Hv; set_solver]].
    done.
Qed.
End Traverse.

Lemma foreach_forward (m : mem) (l : nat) fuel xs a :
  path (heap m) a xs l -> l ∉ xs -> length xs < fuel ->
  foreach_loop fuel l (hd l xs) m = Ok (xs, m).
Proof.
  revert fuel a. induction xs as [|x xs IH]; intros [|fuel] a Hp Hl Hf;
    [len_lia| |len_lia|]; cbn [foreach_loop hd].
  - by rewrite Nat.eqb_refl.
  - destruct (Nat.eqb_spec x l); [set_solver|].
    destruct Hp as [_ Hp].
    assert (next_of (heap m) x = Some (hd l xs)) as Hn.
    { destruct xs; cbn in Hp; unfold linked in *; tauto. }
    step_with (get_next_run _ _ _ Hn).
    erewrite prog_bind_ok; [|apply (IH fuel x); [done|set_solver|len_lia]]. done.
Qed.
