(* ===== verification/PrListSpec.v ===== *)
(** PrListSpec: what the list operations promise.

    The theorems state each operation of pr_list.c on the ring invariant of
    [PrList]: where the entry goes, that nothing else moves, in which order the
    traversals visit, and that the loops end. *)
From Stdlib Require Import Sorting.Sorted.
From S2P Require Import Prelude Memory PrList.

Section Insertion.
Implicit Types (m : mem) (l e : nat) (xs ys : list nat).

Lemma prepend_sorted_run m l e cmp c xs :
  mem_ok m -> ring (heap m) l xs -> e ∉ l :: xs -> live m e ->
  (forall p, p ∈ xs -> cmp e p m = Ok (c p, m)) ->
  inserts m l e (pr_list_prepend_sorted l e cmp m)
          (ins_before (fun p => Z.ltb (c p) 0) e xs).
Proof.
  intros Hm Hr He Hl Hc.
  unfold pr_list_prepend_sorted, pr_list_add_sorted_internal.
  erewrite prog_bind_ok; [|apply nonnull_run; eapply ring_nonnull; [done..|set_solver]].
  erewrite prog_bind_ok; [|apply nonnull_run; by eapply live_nonnull].
  cbn [Z.ltb Z.compare]. step_with (get_next_run _ _ _ (ring_next _ _ _ Hr)).
  erewrite prog_bind_ok by reflexivity.
  apply (add_sorted_forward m l e cmp c Hm Hl _ [] xs); try done.
  pose proof (ring_length _ _ _ Hm Hr). len_lia.
Qed.

Lemma append_sorted_run m l e cmp c xs :
  mem_ok m -> ring (heap m) l xs -> e ∉ l :: xs -> live m e ->
  (forall p, p ∈ xs -> cmp e p m = Ok (c p, m)) ->
  inserts m l e (pr_list_append_sorted l e cmp m)
          (rev (ins_before (fun p => Z.ltb (c p) 0) e (rev xs))).
Proof.
  intros Hm Hr He Hl Hc.
  unfold pr_list_append_sorted, pr_list_add_sorted_internal.
  erewrite prog_bind_ok; [|apply nonnull_run; eapply ring_nonnull; [done..|set_solver]].
  erewrite prog_bind_ok; [|apply nonnull_run; by eapply live_nonnull].
  cbn [Z.ltb Z.compare]. step_with (get_prev_run _ _ _ (ring_prev _ _ _ Hr)).
  erewrite prog_bind_ok by reflexivity.
  rewrite <- (app_nil_r (rev _)).
  apply (add_sorted_backward m l e cmp c Hm Hl _ xs []); rewrite ?app_nil_r; try done.
  pose proof (ring_length _ _ _ Hm Hr). len_lia.
Qed.

Lemma live_data m a : live m a -> data_of (heap m) a = Some (key_of (heap m) a).
Proof. intros [n Hn]. unfold key_of, data_of. by rewrite Hn. Qed.

Lemma cmp_str_run m a b :
  mem_ok m -> live m a -> live m b ->
  pr_list_cmp_str a b m = Ok (cmp_data (key_of (heap m) a) (key_of (heap m) b), m).
Proof.
  intros Hm Ha Hb. unfold pr_list_cmp_str.
  erewrite prog_bind_ok; [|apply nonnull_run; by eapply live_nonnull].
  erewrite prog_bind_ok; [|apply nonnull_run; by eapply live_nonnull].
  step_with (get_data_run _ _ _ (live_data _ _ Ha)).
  by step_with (get_data_run _ _ _ (live_data _ _ Hb)).
Qed.

Lemma cmp_entry_run m l e xs p :
  mem_ok m -> ring (heap m) l xs -> live m e -> p ∈ xs ->
  pr_list_cmp_str e p m = Ok (cmp_data (key_of (heap m) e) (key_of (heap m) p), m).
Proof.
  intros Hm Hr He Hp. apply cmp_str_run; [done..|].
  eapply ring_live; [done|set_solver].
Qed.

Lemma same_data_keys m m' xs :
  same_data m m' -> map (key_of (heap m')) xs = map (key_of (heap m)) xs.
Proof.
  intros [_ H]. apply map_ext. intros a. unfold key_of. by rewrite H.
Qed.
End Insertion.

Section Strings.
Context `{AllocTotal}.
Implicit Types (m : mem) (l : nat) (xs : list nat).

(** A fresh entry holding [s], not yet in the ring. *)
Definition fresh_entry m m' l xs e (s : bytes) : Prop :=
  mem_ok m' /\ ring (heap m') l xs /\ (e ∉ l :: xs) /\ live m' e /\
  data_of (heap m') e = Some (Some s) /\
  (forall c, c ∈ l :: xs -> data_of (heap m') c = data_of (heap m) c).

Lemma strndup_run str n m : strndup str n m = Ok (Some (take n str), tick m).
Proof. unfold strndup. by rewrite (prog_bind_ok _ _ _ _ _ (alloc_run m)). Qed.

Lemma tick_mem_ok m : mem_ok m -> mem_ok (tick m).
Proof. intros Hm a Ha. cbn in *. apply Hm in Ha. lia. Qed.

Lemma new_entry_ok m l xs s :
  mem_ok m -> ring (heap m) l xs ->
  exists m', pr_list_new (Some s) (tick m) = Ok (S (S (allocs m)), m') /\
             fresh_entry m m' l xs (S (S (allocs m))) s.
Proof.
  intros Hm Hr.
  destruct (new_ok (tick m) (Some s) (tick_mem_ok m Hm)) as (m' & Hrun & Hok & Hself & Hd & Ha & Hf).
  cbn in *. exists m'. split; [done|].
  assert (forall c, c ∈ l :: xs -> c <> S (S (allocs m))) as Hne.
  { intros c Hc ->. destruct (Hm _ (ring_mem _ _ _ _ Hr Hc)). lia. }
  split_and!; try done.
  - eapply ring_frame; [|exact Hr]. intros c Hc. by apply Hf, Hne.
  - intros Hin. by apply (Hne _ Hin).
  - eapply ring_live; [exact Hself|set_solver].
  - intros c Hc. unfold data_of. by rewrite Hf by by apply Hne.
Qed.

(** The entry was linked at one end of the list. *)
Definition stored m m' l xs ys e (s : bytes) : Prop :=
  mem_ok m' /\ ring (heap m') l ys /\ ys ≡ₚ e :: xs /\
  data_of (heap m') e = Some (Some s) /\
  (forall c, c ∈ l :: xs -> data_of (heap m') c = data_of (heap m) c).

Lemma fresh_stored m m1 m' l xs ys e s :
  fresh_entry m m1 l xs e s -> same_data m1 m' ->
  ring (heap m') l ys -> ys ≡ₚ e :: xs -> stored m m' l xs ys e s.
Proof.
  intros (Hok & _ & _ & _ & Hd & Hk) Hs Hr Hp. split_and!; try done.
  - by eapply same_data_mem_ok.
  - destruct Hs as [_ ->]. done.
  - intros c Hc. destruct Hs as [_ ->]. by apply Hk.
Qed.

Lemma prependn_str_ok m l xs str len :
  mem_ok m -> ring (heap m) l xs ->
  exists m' e, pr_list_prependn_str l str len m = Ok (e, m') /\ (e ∉ l :: xs) /\
               stored m m' l xs (xs ++ [e]) e (take (1 + len) str).
Proof.
  intros Hm Hr. unfold pr_list_prependn_str.
  erewrite prog_bind_ok; [|apply nonnull_run; eapply ring_nonnull; [done..|set_solver]].
  step_with strndup_run. erewrite prog_bind_ok by reflexivity.
  destruct (new_entry_ok m l xs (take (1 + len) str) Hm Hr) as (m1 & Hnew & Hfresh).
  step_with Hnew. erewrite prog_bind_ok by reflexivity.
  pose proof Hfresh as (Hok & Hr1 & He & Hl & _).
  destruct (prepend_ok m1 l _ xs Hok Hr1 He Hl) as (m2 & Hrun & Hr2 & Hs).
  step_with Hrun. eexists m2, _. split; [done|]. split; [done|].
  eapply fresh_stored; eauto. by rewrite Permutation_app_comm.
Qed.

Lemma appendn_str_ok m l xs str len :
  mem_ok m -> ring (heap m) l xs ->
  exists m' e, pr_list_appendn_str l str len m = Ok (e, m') /\ (e ∉ l :: xs) /\
               stored m m' l xs (e :: xs) e (take (1 + len) str).
Proof.
  intros Hm Hr. unfold pr_list_appendn_str.
  erewrite prog_bind_ok; [|apply nonnull_run; eapply ring_nonnull; [done..|set_solver]].
  step_with strndup_run. erewrite prog_bind_ok by reflexivity.
  destruct (new_entry_ok m l xs (take (1 + len) str) Hm Hr) as (m1 & Hnew & Hfresh).
  step_with Hnew. erewrite prog_bind_ok by reflexivity.
  pose proof Hfresh as (Hok & Hr1 & He & Hl & _).
  destruct (append_ok m1 l _ xs Hok Hr1 He Hl) as (m2 & Hrun & Hr2 & Hs).
  step_with Hrun. eexists m2, _. split; [done|]. split; [done|].
  by eapply fresh_stored; eauto.
Qed.

Lemma prepend_str_ok m l xs str :
  mem_ok m -> ring (heap m) l xs ->
  exists m' e, pr_list_prepend_str l str m = Ok (e, m') /\ (e ∉ l :: xs) /\
               stored m m' l xs (xs ++ [e]) e str.
Proof.
  intros Hm Hr. unfold pr_list_prepend_str.
  erewrite prog_bind_ok; [|apply nonnull_run; eapply ring_nonnull; [done..|set_solver]].
  destruct (prependn_str_ok m l xs str (length str) Hm Hr) as (m' & e & Hrun & He & Hst).
  rewrite take_ge in Hst by lia. eauto.
Qed.
End Strings.

Section Claims.
Implicit Types (m : mem) (l e : nat) (xs ys : list nat).

(** C34: [pr_list_prepend_str_sorted] terminates and inserts an entry before
    the first strictly greater string (equal strings keep their insertion
    order), so a list that is sorted reading forwards stays sorted; the
    result is a permutation of the old list with the entry, and no string
    changes. *)
Theorem pr_list_prepend_str_sorted_correct m l e xs :
  mem_ok m -> ring (heap m) l xs -> e ∉ l :: xs -> live m e ->
  Sorted data_le (map (key_of (heap m)) xs) ->
  exists m' ys,
    pr_list_prepend_str_sorted l e m = Ok (e, m') /\
    ring (heap m') l ys /\ ys ≡ₚ e :: xs /\
    ys = ins_before (fun p => Z.ltb (cmp_data (key_of (heap m) e) (key_of (heap m) p)) 0) e xs /\
    Sorted data_le (map (key_of (heap m')) ys) /\ same_data m m'.
Proof.
  intros Hm Hr He Hl Hs. unfold pr_list_prepend_str_sorted.
  destruct (prepend_sorted_run m l e pr_list_cmp_str _ xs Hm Hr He Hl
    (fun p => cmp_entry_run m l e xs p Hm Hr Hl))
    as (m' & Hrun & Hring & Hsame).
  exists m', (ins_before (fun p => Z.ltb (cmp_data (key_of (heap m) e) (key_of (heap m) p)) 0) e xs).
  split_and!; try done; [apply ins_before_perm|].
  rewrite (same_data_keys m m') by done. by apply ins_before_sorted.
Qed.

(** [pr_list_append_str_sorted] is the mirror image: it walks backwards
    and inserts after the first strictly greater string it meets, so the
    list is kept sorted when read backwards, that is in descending order
    when read forwards. *)
Theorem pr_list_append_str_sorted_correct m l e xs :
  mem_ok m -> ring (heap m) l xs -> e ∉ l :: xs -> live m e ->
  Sorted data_le (map (key_of (heap m)) (rev xs)) ->
  exists m' ys,
    pr_list_append_str_sorted l e m = Ok (e, m') /\
    ring (heap m') l ys /\ ys ≡ₚ e :: xs /\
    rev ys = ins_before (fun p => Z.ltb (cmp_data (key_of (heap m) e) (key_of (heap m) p)) 0) e (rev xs) /\
    Sorted data_le (map (key_of (heap m')) (rev ys)) /\ same_data m m'.
Proof.
  intros Hm Hr He Hl Hs. unfold pr_list_append_str_sorted.
  destruct (append_sorted_run m l e pr_list_cmp_str _ xs Hm Hr He Hl
    (fun p => cmp_entry_run m l e xs p Hm Hr Hl))
    as (m' & Hrun & Hring & Hsame).
  eexists m', _. split; [done|]. split; [done|]. rewrite rev_involutive.
  split_and!; try done.
  - by rewrite <- Permutation_rev, ins_before_perm, <- Permutation_rev.
  - rewrite (same_data_keys m m') by done. by apply ins_before_sorted.
Qed.

(** on any position of a ring, [pr_list_append] puts the entry right
    after the given node and [pr_list_prepend] right before it; all other
    links and all strings are kept. *)
Theorem pr_list_append_prepend_splice m l xs p ys e :
  mem_ok m -> ring (heap m) l (xs ++ p :: ys) -> e ∉ l :: xs ++ p :: ys -> live m e ->
  (exists m', pr_list_append p e m = Ok (e, m') /\
              ring (heap m') l (xs ++ p :: e :: ys) /\ same_data m m') /\
  (exists m', pr_list_prepend p e m = Ok (e, m') /\
              ring (heap m') l (xs ++ e :: p :: ys) /\ same_data m m').
Proof.
  intros Hm Hr He Hl. apply ring_rotate in Hr.
  destruct (append_ok m p e _ Hm Hr) as (m1 & H1 & R1 & S1); [set_solver|done|].
  destruct (prepend_ok m p e _ Hm Hr) as (m2 & H2 & R2 & S2); [set_solver|done|].
  split.
  - exists m1. split; [done|]. split; [|done].
    change (e :: ys ++ l :: xs) with ((e :: ys) ++ l :: xs) in R1.
    by apply ring_rotate in R1.
  - exists m2. split; [done|]. split; [|done].
    rewrite <- app_assoc in R2. apply ring_rotate in R2. by rewrite <- app_assoc in R2.
Qed.

(** [pr_list_remove] unlinks the entry from wherever it is in the ring,
    leaves the other entries in their order, and leaves the entry a ring of
    its own. *)
Theorem pr_list_remove_correct m l xs e ys :
  mem_ok m -> ring (heap m) l (xs ++ e :: ys) ->
  exists m', pr_list_remove e m = Ok (e, m') /\
             ring (heap m') l (xs ++ ys) /\ ring (heap m') e [] /\ same_data m m'.
Proof. apply remove_ok. Qed.

(** the two visitors end after one round: [pr_list_foreach_visit] visits
    the given node first and then the others forwards, and
    [pr_list_foreach_rev_visit] visits the others backwards and the given
    node last. *)
Theorem pr_list_foreach_visit_order {T} m l xs (v : nat -> prog mem T) (f : nat -> T) :
  mem_ok m -> ring (heap m) l xs ->
  (forall a, a ∈ l :: xs -> v a m = Ok (f a, m)) ->
  pr_list_foreach_visit l (Some v) m = Ok (map f (l :: xs), m) /\
  pr_list_foreach_rev_visit l (Some v) m = Ok (map f (rev xs ++ [l]), m).
Proof.
  intros Hm Hr Hv. pose proof (ring_length _ _ _ Hm Hr) as Hlen.
  assert (nonnull l = true) as Hl by (eapply ring_nonnull; [done..|set_solver]).
  pose proof Hr as [Hnd Hp]. apply NoDup_cons in Hnd as [Hlx _]. split.
  - unfold pr_list_foreach_visit. erewrite prog_bind_ok by by apply nonnull_run.
    erewrite prog_bind_ok by reflexivity. apply visit_forward; [done..|len_lia|done].
  - unfold pr_list_foreach_rev_visit. erewrite prog_bind_ok by by apply nonnull_run.
    step_with (get_prev_run _ _ _ (ring_prev _ _ _ Hr)).
    erewrite prog_bind_ok by reflexivity.
    apply (visit_backward _ _ _ _ _ _ []); [by rewrite app_nil_r|len_lia|done].
Qed.

(** [pr_list_appendn_str] and [pr_list_prependn_str] store the first
    [1 + len] bytes of the string, one more than their documentation says:
    the [n]-limit already excludes the terminator that [strndup (3)] adds.
    With [len = strlen (str)], as the [_str] wrappers call them, the whole
    string is stored. *)
Theorem pr_list_n_str_stores_one_more `{AllocTotal} m l xs str len :
  mem_ok m -> ring (heap m) l xs ->
  (exists m' e, pr_list_prependn_str l str len m = Ok (e, m') /\
                stored m m' l xs (xs ++ [e]) e (take (1 + len) str)) /\
  (exists m' e, pr_list_appendn_str l str len m = Ok (e, m') /\
                stored m m' l xs (e :: xs) e (take (1 + len) str)) /\
  (exists m' e, pr_list_prepend_str l str m = Ok (e, m') /\
                stored m m' l xs (xs ++ [e]) e str).
Proof.
  intros Hm Hr. split_and!.
  - destruct (prependn_str_ok m l xs str len Hm Hr) as (m' & e & ? & _ & ?); eauto.
  - destruct (appendn_str_ok m l xs str len Hm Hr) as (m' & e & ? & _ & ?); eauto.
  - destruct (prepend_str_ok m l xs str Hm Hr) as (m' & e & ? & _ & ?); eauto.
Qed.
End Claims.

(** ** A concrete list

    Node 1 is the head, nodes 2 and 3 hold "a" and "c", node 4 holds "b" and
    is not in the list yet. *)
Definition sample : mem := mk_mem 4
  (<[1 := mk_node None 2 3]> (<[2 := mk_node (Some (lit "a")) 3 1]>
  (<[3 := mk_node (Some (lit "c")) 1 2]> (<[4 := mk_node (Some (lit "b")) 4 4]> ∅)))).

Lemma sample_ok : mem_ok sample.
Proof.
  intros a [n Hn]. cbn in Hn. rewrite !lookup_insert in Hn.
  repeat case_decide; subst; cbn; try lia. by rewrite lookup_empty in Hn.
Qed.

Lemma sample_ring : ring (heap sample) 1 [2; 3].
Proof.
  split; [by apply (bool_decide_unpack _); vm_compute|].
  repeat split.
Qed.

Lemma pr_list_prepend_str_sorted_witness :
  exists m' ys, pr_list_prepend_str_sorted 1 4 sample = Ok (4, m') /\ ring (heap m') 1 ys /\
                map (key_of (heap m')) ys = map Some [lit "a"; lit "b"; lit "c"].
Proof.
  destruct (pr_list_prepend_str_sorted_correct sample 1 4 [2; 3] sample_ok sample_ring)
    as (m' & ys & Hrun & Hr & _ & Hys & _ & Hs).
  - set_solver.
  - by eexists.
  - repeat constructor. intros H. vm_compute in H. discriminate H.
  - exists m', ys. split; [exact Hrun|]. split; [exact Hr|].
    rewrite (same_data_keys sample m') by done. by rewrite Hys.
Defined.

Lemma pr_list_append_str_sorted_witness :
  exists m' ys, pr_list_append_str_sorted 4 2
                  (mk_mem 4 (<[2 := mk_node (Some (lit "a")) 2 2]> (<[4 := mk_node (Some (lit "b")) 4 4]> ∅)))
                = Ok (2, m') /\ ring (heap m') 4 ys /\ ys = [2].
Proof.
  destruct (pr_list_append_str_sorted_correct
              (mk_mem 4 (<[2 := mk_node (Some (lit "a")) 2 2]> (<[4 := mk_node (Some (lit "b")) 4 4]> ∅)))
              4 2 []) as (m' & ys & Hrun & Hr & _ & Hys & _).
  - intros a [n Hn]. cbn in Hn. rewrite !lookup_insert in Hn.
    repeat case_decide; subst; cbn; try lia. by rewrite lookup_empty in Hn.
  - split; [apply NoDup_singleton|repeat split].
  - set_solver.
  - by eexists.
  - constructor.
  - exists m', ys. split; [exact Hrun|]. split; [exact Hr|].
    rewrite <- (rev_involutive ys), Hys. reflexivity.
Defined.

Lemma pr_list_append_prepend_splice_witness :
  exists m', pr_list_append 2 4 sample = Ok (4, m') /\ ring (heap m') 1 [2; 4; 3].
Proof.
  destruct (pr_list_append_prepend_splice sample 1 [] 2 [3] 4 sample_ok sample_ring)
    as [(m' & H & Hr & _) _]; [set_solver|by eexists|].
  exists m'. split; [exact H|exact Hr].
Defined.

Lemma pr_list_remove_witness :
  exists m', pr_list_remove 3 sample = Ok (3, m') /\ ring (heap m') 1 [2].
Proof.
  destruct (pr_list_remove_correct sample 1 [2] 3 [] sample_ok sample_ring)
    as (m' & H & Hr & _).
  exists m'. split; [exact H|exact Hr].
Defined.

Lemma pr_list_foreach_visit_witness :
  pr_list_foreach_visit 1 (Some pr_list_visitor_str) sample
  = Ok ([(1, 3, 2, []); (2, 1, 3, lit "a"); (3, 2, 1, lit "c")], sample).
Proof.
  refine (proj1 (pr_list_foreach_visit_order sample 1 [2; 3] pr_list_visitor_str
    (fun a => match a with
              | 1 => (1, 3, 2, [])
              | 2 => (2, 1, 3, lit "a")
              | _ => (3, 2, 1, lit "c")
              end) sample_ok sample_ring _)).
  intros a Ha. apply list_elem_of_In in Ha. cbn in Ha.
  destruct Ha as [<-|[<-|[<-|[]]]]; reflexivity.
Defined.

Lemma pr_list_n_str_witness :
  exists m' e, @pr_list_appendn_str total_allocator 1 (lit "abcdef") 2 sample = Ok (e, m') /\
               data_of (heap m') e = Some (Some (lit "abc")).
Proof.
  destruct (@pr_list_n_str_stores_one_more total_allocator total_allocator_total
              sample 1 [2; 3] (lit "abcdef") 2 sample_ok sample_ring)
    as (_ & (m' & e & Hrun & _ & _ & _ & Hd & _) & _).
  exists m', e. split; [exact Hrun|exact Hd].
Defined.
