(* ===== verification/Locale.v ===== *)
(** Locale: what the program uses of the C locale and of the printf family.

    The character set in force is chosen by the environment, so conversion
    between multi-byte and wide strings and [iswprint (3)] are operations of a
    class; [LocaleLaws] lists the facts of ISO C and of glibc's character sets
    that the proofs use.  [c_locale] is the POSIX locale.

    The formatter covers the conversions the program uses: [d], [u], [x], [o],
    [s], [ls], [lc], [f], [e], [p] and [%%], with the [0] and [-] flags, width,
    precision and [*].  A floating argument is a dyadic number, written with
    the digits of its exact value rounded to nearest, ties to even; [p] writes
    what glibc writes.  The result is [Ok None] when a string cannot be converted (EILSEQ). *)
From S2P Require Import Prelude Memory.

Class Locale : Type := {
  mbs_decode : bytes -> option wstr;
  wcs_encode : wstr -> option bytes;
  iswprint : Z -> bool
}.

Definition is_ascii (c : Z) : Prop := (0 < c < 128)%Z.

(** The code points of a converted string. *)
Definition positive (s : list Z) : Prop := Forall (fun c => 0 < c)%Z s.

Class LocaleLaws `{Locale} : Prop := {
  decode_ascii s : Forall is_ascii s -> mbs_decode s = Some s;
  decode_positive s w : nz s -> mbs_decode s = Some w -> positive w;
  decode_nil_inv s : mbs_decode s = Some [] -> s = [];
  encode_decode s w : mbs_decode s = Some w -> wcs_encode w = Some s;
  iswprint_control c : (0 <= c < 32)%Z -> iswprint c = false;
  iswprint_ascii c : (32 <= c <= 126)%Z -> iswprint c = true
}.

Lemma positive_nz s : positive s -> nz s.
Proof. intros Hs. eapply Forall_impl; [exact Hs|]. cbn. lia. Qed.

Lemma positive_check s : forallb (Z.ltb 0) s = true -> positive s.
Proof.
  intros Hs. apply Forall_forall. intros c Hc. rewrite forallb_forall in Hs.
  apply list_elem_of_In, Hs in Hc. lia.
Qed.

Lemma decode_nz `{LocaleLaws} s w : nz s -> mbs_decode s = Some w -> nz w.
Proof. intros Hs Hd. by eapply positive_nz, decode_positive. Qed.

(** ** Numbers *)

(** The value of a [w]-bit argument read as unsigned or as signed. *)
Definition to_unsigned (w : Z) (z : Z) : Z := (z mod 2 ^ w)%Z.
Definition to_signed (w : Z) (z : Z) : Z :=
  (let u := z mod 2 ^ w in if u <? 2 ^ (w - 1) then u else u - 2 ^ w)%Z.

Definition digit_char (d : Z) : Z := (if d <? 10 then 48 + d else 87 + d)%Z.

(** The digits of a natural number, the least significant first. *)
Fixpoint digits_rev (fuel : nat) (base n : Z) : list Z :=
  match fuel with
  | 0 => []
  | S fuel' =>
    digit_char (n mod base)%Z ::
    (if (n / base =? 0)%Z then [] else digits_rev fuel' base (n / base)%Z)
  end.

Definition digits (base n : Z) : list Z :=
  rev (digits_rev (S (Z.to_nat (Z.log2 n))) base n).

(** ** Directives *)
Inductive arg : Type :=
| ANum (z : Z)
| AStr (s : bytes)
| AWStr (w : wstr)
| AWChar (c : Z)
| ADouble (m e : Z).

#[export] Instance arg_eq_dec : EqDecision arg.
Proof. solve_decision. Defined.

Record spec : Type := mk_spec {
  sp_zero : bool;
  sp_left : bool;
  sp_width : nat;
  sp_prec : option nat;
  sp_long : nat
}.

Definition pad (left : bool) (width : nat) (s : list Z) : list Z :=
  if left then s ++ replicate (width - length s) SPACE
  else replicate (width - length s) SPACE ++ s.

(** Zero-extend to [n] characters. *)
Definition zeros (n : nat) (s : list Z) : list Z := replicate (n - length s) 48%Z ++ s.

Definition format_number (sp : spec) (base : Z) (neg : bool) (n : Z) : list Z :=
  let sign := if neg then [45%Z] else [] in
  let ds := digits base n in
  let body := match sp_prec sp with
              | Some p => zeros p ds
              | None => if sp_zero sp && negb (sp_left sp)
                        then zeros (sp_width sp - length sign) ds else ds
              end in
  pad (sp_left sp) (sp_width sp) (sign ++ body).

Definition format_string (sp : spec) (s : list Z) : list Z :=
  pad (sp_left sp) (sp_width sp)
      (match sp_prec sp with Some p => take p s | None => s end).

Definition is_digit (c : Z) : bool := (Z.leb 48 c && Z.leb c 57).

Fixpoint parse_number (acc : nat) (fmt : list Z) : nat * list Z :=
  match fmt with
  | c :: fmt' =>
    if is_digit c then parse_number (10 * acc + Z.to_nat (c - 48)) fmt' else (acc, fmt)
  | [] => (acc, [])
  end.

Fixpoint parse_flags (zero left : bool) (fmt : list Z) : bool * bool * list Z :=
  match fmt with
  | 48%Z :: fmt' => parse_flags true left fmt'
  | 45%Z :: fmt' => parse_flags zero true fmt'
  | _ => (zero, left, fmt)
  end.

Fixpoint parse_long (n : nat) (fmt : list Z) : nat * list Z :=
  match fmt with
  | 108%Z :: fmt' | 76%Z :: fmt' => parse_long (S n) fmt'
  | _ => (n, fmt)
  end.

(** A width or a precision: a number in the format or the next argument. *)
Definition parse_size (fmt : list Z) (args : list arg) : outcome (Z * list Z * list arg) :=
  match fmt with
  | 42%Z :: fmt' =>
    match args with
    | ANum z :: args' => Ok (to_signed 32 z, fmt', args')
    | _ => UB "missing printf argument"
    end
  | _ => let (n, fmt') := parse_number 0 fmt in Ok (Z.of_nat n, fmt', args)
  end.

Definition parse_spec (fmt : list Z) (args : list arg) : outcome (spec * list Z * list arg) :=
  let '(zero, ljust, fmt1) := parse_flags false false fmt in
  '(w, fmt2, args1) ← parse_size fmt1 args;
  '(prec, fmt3, args2) ←
    (match fmt2 with
     | 46%Z :: fmt' =>
       '(p, fmt'', args') ← parse_size fmt' args1;
       Ok (if Z.ltb p 0 then None else Some (Z.to_nat p), fmt'', args')
     | _ => Ok (None, fmt2, args1)
     end);
  let (lng, fmt4) := parse_long 0 fmt3 in
  Ok (mk_spec zero (ljust || Z.ltb w 0) (Z.to_nat (Z.abs w)) prec lng, fmt4, args2).

(** *** Floating numbers *)
Definition round_half_even (num den : Z) : Z :=
  (let q := num / den in
   let r := num mod den in
   if 2 * r <? den then q else if den <? 2 * r then q + 1 else q + q mod 2)%Z.

(** [m * 2 ^ e * 10 ^ p], rounded, for a number that is not negative. *)
Definition scaled (m e p : Z) : Z :=
  (round_half_even (m * 2 ^ Z.max e 0 * 10 ^ Z.max p 0) (2 ^ Z.max (- e) 0 * 10 ^ Z.max (- p) 0))%Z.

Definition fraction_text (p : nat) (n : Z) : list Z :=
  match p with 0 => [] | _ => 46%Z :: zeros p (digits 10 n) end.

Definition fixed_text (m e : Z) (p : nat) : list Z :=
  let n := scaled m e (Z.of_nat p) in
  digits 10 (n / 10 ^ Z.of_nat p)%Z ++ fraction_text p (n mod 10 ^ Z.of_nat p)%Z.

(** The decimal exponent of a positive number. *)
Definition exponent10 (m e : Z) : Z :=
  (let k := Z.max (- e) 0 in
   Z.of_nat (length (digits 10 (m * 2 ^ Z.max e 0 * 10 ^ k / 2 ^ k))) - 1 - k)%Z.

Definition exponent_text (x : Z) : list Z :=
  101%Z :: (if Z.ltb x 0 then 45%Z else 43%Z) :: zeros 2 (digits 10 (Z.abs x)).

Definition scientific_text (m e : Z) (p : nat) : list Z :=
  let x := if Z.eqb m 0 then 0%Z else exponent10 m e in
  let n := scaled m e (Z.of_nat p - x)%Z in
  let '(n, x) := if Z.ltb n (10 ^ Z.of_nat (S p)) then (n, x) else ((n / 10)%Z, (x + 1)%Z) in
  digits 10 (n / 10 ^ Z.of_nat p)%Z ++ fraction_text p (n mod 10 ^ Z.of_nat p)%Z ++ exponent_text x.

Definition format_double (sp : spec) (text : Z -> Z -> nat -> list Z) (m e : Z) : list Z :=
  let sign := if Z.ltb m 0 then [45%Z] else [] in
  let ds := text (Z.abs m) e (default 6 (sp_prec sp)) in
  pad (sp_left sp) (sp_width sp)
    (sign ++ (if sp_zero sp && negb (sp_left sp) then zeros (sp_width sp - length sign) ds else ds)).

Definition pointer_text (z : Z) : list Z :=
  if Z.eqb z 0 then lit "(nil)" else lit "0x" ++ digits 16 z.

(** Concatenation of texts one of which may be missing. *)
Definition opt_app (s t : option (list Z)) : option (list Z) :=
  match s, t with Some a, Some b => Some (a ++ b) | _, _ => None end.

Section Formatter.
(** How a multi-byte and a wide string argument are written to the output. *)
Context (conv_s conv_ls : list Z -> option (list Z)).

Definition width_of (sp : spec) : Z := if Nat.eqb (sp_long sp) 0 then 32 else 64.

Definition convert (sp : spec) (conv : Z) (a : arg) : outcome (option (list Z)) :=
  match conv, a with
  | 100%Z, ANum z => (* d *)
    let v := to_signed (width_of sp) z in
    Ok (Some (format_number sp 10 (Z.ltb v 0) (Z.abs v)))
  | 117%Z, ANum z => Ok (Some (format_number sp 10 false (to_unsigned (width_of sp) z))) (* u *)
  | 120%Z, ANum z => Ok (Some (format_number sp 16 false (to_unsigned (width_of sp) z))) (* x *)
  | 111%Z, ANum z => Ok (Some (format_number sp 8 false (to_unsigned (width_of sp) z))) (* o *)
  | 112%Z, ANum z => Ok (Some (pad (sp_left sp) (sp_width sp) (pointer_text (to_unsigned 64 z)))) (* p *)
  | 102%Z, ADouble m e => Ok (Some (format_double sp fixed_text m e)) (* f *)
  | 101%Z, ADouble m e => Ok (Some (format_double sp scientific_text m e)) (* e *)
  | 115%Z, AStr s =>
    if Nat.eqb (sp_long sp) 0 then Ok (format_string sp <$> conv_s s)
    else UB "printf argument of the wrong type"
  | 115%Z, AWStr w =>
    if Nat.eqb (sp_long sp) 0 then UB "printf argument of the wrong type"
    else Ok (format_string sp <$> conv_ls w)
  | 99%Z, AWChar c =>
    if Nat.eqb (sp_long sp) 0 then UB "printf argument of the wrong type"
    else Ok (format_string sp <$> conv_ls [c])
  | _, _ => UB "printf argument of the wrong type"
  end.

Fixpoint format_go (fuel : nat) (fmt : list Z) (args : list arg) : outcome (option (list Z)) :=
  match fuel with
  | 0 => Diverge
  | S fuel' =>
    match fmt with
    | [] => Ok (Some [])
    | 37%Z :: 37%Z :: fmt' => r ← format_go fuel' fmt' args; Ok (opt_app (Some [37%Z]) r)
    | 37%Z :: fmt' =>
      '(sp, fmt1, args1) ← parse_spec fmt' args;
      match fmt1, args1 with
      | conv :: fmt2, a :: args2 =>
        o ← convert sp conv a;
        r ← format_go fuel' fmt2 args2;
        Ok (opt_app o r)
      | _, _ => UB "missing printf argument"
      end
    | c :: fmt' => r ← format_go fuel' fmt' args; Ok (opt_app (Some [c]) r)
    end
  end.

Definition format_with (fmt : list Z) (args : list arg) : outcome (option (list Z)) :=
  format_go (S (length fmt)) fmt args.
End Formatter.

Section Formats.
Context `{Locale}.

(** The text [printf (3)] writes to a byte stream or buffer. *)
Definition format_mbs : list Z -> list arg -> outcome (option bytes) :=
  format_with Some wcs_encode.

(** The text [wprintf (3)] writes to a wide buffer. *)
Definition format_wcs : list Z -> list arg -> outcome (option wstr) :=
  format_with mbs_decode Some.
End Formats.

(** ** The POSIX locale *)
Definition ascii_byte (c : Z) : bool := (Z.ltb 0 c && Z.ltb c 128).

Definition ascii_only (s : list Z) : option (list Z) :=
  if forallb ascii_byte s then Some s else None.

#[export] Instance c_locale : Locale := {|
  mbs_decode := ascii_only;
  wcs_encode := ascii_only;
  iswprint := fun c => (Z.leb 32 c && Z.leb c 126)
|}.

Lemma forallb_ascii s : Forall is_ascii s -> forallb ascii_byte s = true.
Proof.
  induction 1 as [|c s Hc _ IH]; [done|]. cbn. rewrite IH, andb_true_r.
  unfold ascii_byte, is_ascii in *. lia.
Qed.

#[export] Instance c_locale_laws : LocaleLaws.
Proof.
  split; cbn; unfold ascii_only.
  - intros s Hs. by rewrite forallb_ascii.
  - intros s w Hs. destruct (forallb _ s) eqn:E; [|done]. intros [= <-].
    apply positive_check. rewrite forallb_forall in *. intros c Hc. apply E in Hc.
    unfold ascii_byte in Hc. lia.
  - intros s. destruct (forallb _ s); naive_solver.
  - intros s w. destruct (forallb _ s) eqn:E; [|done]. intros [= <-]. by rewrite E.
  - intros c Hc. lia.
  - intros c Hc. lia.
Qed.

(** Literals of the source are ASCII. *)
Lemma ascii_check s : forallb ascii_byte s = true -> Forall is_ascii s.
Proof.
  induction s as [|c s IH]; cbn; [constructor|].
  intros [Hc Hs]%andb_prop. constructor; [|by apply IH].
  unfold ascii_byte, is_ascii in *. lia.
Qed.

Ltac ascii_lit := apply ascii_check; reflexivity.

Example format_key : format_wcs (lit "0x%.*x") [ANum 8; ANum 48879] = Ok (Some (lit "0x0000beef")).
Proof. reflexivity. Qed.

Example format_neg : format_mbs (lit "%d/%4.4o %5s|%-3d|") [ANum (-7); ANum 18; AStr (lit "ab"); ANum 4]
                     = Ok (Some (lit "-7/0022    ab|4  |")).
Proof. reflexivity. Qed.

Example format_fixed :
  format_wcs (lit "%2.2f %s") [ADouble 1610612736 (-30); AStr (lit "GB")] = Ok (Some (lit "1.50 GB")).
Proof. vm_compute. reflexivity. Qed.

Example format_scientific :
  format_wcs (lit "%e to %e, %Le, %e") [ADouble 0 0; ADouble 18446744073709551615 0; ADouble 1 (-126); ADouble 1 64]
  = Ok (Some (lit "0.000000e+00 to 1.844674e+19, 1.175494e-38, 1.844674e+19")).
Proof. vm_compute. reflexivity. Qed.

(** ** The digits of a number *)
Definition digit_val (c : Z) : Z := (if c <? 58 then c - 48 else c - 87)%Z.

Fixpoint value_rev (base : Z) (s : list Z) : Z :=
  match s with
  | [] => 0
  | c :: s' => (digit_val c + base * value_rev base s')%Z
  end.

(** The number a numeral stands for. *)
Definition value (base : Z) (s : list Z) : Z := value_rev base (rev s).

Section Digits.
Context (base : Z) (Hbase : (2 <= base <= 16)%Z).
Open Scope Z_scope.

Definition is_digit_char (c : Z) : Prop := exists d, 0 <= d < base /\ c = digit_char d.

Lemma digit_val_char d : 0 <= d < base -> digit_val (digit_char d) = d.
Proof using Hbase.
  intros Hd. unfold digit_val, digit_char.
  destruct (Z.ltb_spec d 10); [destruct (Z.ltb_spec (48 + d) 58)|destruct (Z.ltb_spec (87 + d) 58)]; lia.
Qed.

Lemma digits_rev_value fuel n :
  0 <= n < 2 ^ Z.of_nat (S fuel) -> value_rev base (digits_rev (S fuel) base n) = n.
Proof using Hbase.
  revert n. induction fuel as [|fuel IH]; intros n Hn.
  - cbn [digits_rev]. rewrite Z.div_small by lia. cbn.
    rewrite digit_val_char by (apply Z.mod_pos_bound; lia). rewrite Z.mod_small by lia. lia.
  - remember (S fuel) as f. cbn [digits_rev].
    pose proof (Z.div_mod n base ltac:(lia)) as Hdm.
    pose proof (Z.mod_pos_bound n base ltac:(lia)) as Hm.
    destruct (Z.eqb_spec (n / base) 0) as [E|E]; cbn [value_rev];
      rewrite digit_val_char by done; [rewrite E in Hdm; lia|].
    rewrite IH; [lia|].
    split; [apply Z.div_pos; lia|].
    apply Z.div_lt_upper_bound; [lia|].
    replace (2 ^ Z.of_nat (S f)) with (2 * 2 ^ Z.of_nat f) in Hn; [nia|].
    rewrite Nat2Z.inj_succ, Z.pow_succ_r by lia. done.
Qed.

Lemma digits_value n : 0 <= n -> value base (digits base n) = n.
Proof using Hbase.
  intros Hn. unfold value, digits. rewrite rev_involutive. apply digits_rev_value.
  split; [done|]. rewrite Nat2Z.inj_succ, Z2Nat.id by apply Z.log2_nonneg.
  destruct (Z.eq_dec n 0) as [->|]; [done|]. apply Z.log2_spec. lia.
Qed.

Lemma digits_rev_length fuel n k :
  0 <= n < base ^ Z.of_nat (S k) -> (length (digits_rev fuel base n) <= S k)%nat.
Proof using Hbase.
  revert n k. induction fuel as [|fuel IH]; intros n k Hn; cbn; [lia|].
  destruct (Z.eqb_spec (n / base) 0) as [E|E]; cbn; [lia|].
  destruct k as [|k].
  - rewrite Z.div_small in E; [done|]. change (Z.of_nat 1) with 1 in Hn. lia.
  - apply le_n_S, IH. split; [apply Z.div_pos; lia|].
    apply Z.div_lt_upper_bound; [lia|].
    rewrite (Nat2Z.inj_succ (S k)), Z.pow_succ_r in Hn by lia. lia.
Qed.

Lemma digits_length n k : 0 <= n < base ^ Z.of_nat (S k) -> (length (digits base n) <= S k)%nat.
Proof using Hbase. intros Hn. unfold digits. rewrite length_rev. by apply digits_rev_length. Qed.

Lemma digits_nonempty n : digits base n <> [].
Proof using. unfold digits. cbn [digits_rev rev]. intros E. by apply app_eq_nil in E as [_ ?]. Qed.

Lemma digits_chars n : 0 <= n -> Forall is_digit_char (digits base n).
Proof using Hbase.
  intros Hn. unfold digits. apply Forall_rev.
  generalize (S (Z.to_nat (Z.log2 n))). intros fuel. revert n Hn.
  induction fuel as [|fuel IH]; intros n Hn; cbn; [constructor|]. constructor.
  - exists (n mod base). split; [apply Z.mod_pos_bound; lia|done].
  - destruct (n / base =? 0); [constructor|]. apply IH, Z.div_pos; lia.
Qed.

Lemma value_rev_bound s : Forall is_digit_char s -> 0 <= value_rev base s < base ^ Z.of_nat (length s).
Proof using Hbase.
  induction 1 as [|c s (d & Hd & ->) _ IH]; [done|]. cbn [value_rev length].
  rewrite digit_val_char by done. rewrite Nat2Z.inj_succ, Z.pow_succ_r by lia. nia.
Qed.

Lemma digits_length_lower n k :
  base ^ Z.of_nat k <= n -> (k < length (digits base n))%nat.
Proof using Hbase.
  intros Hn. assert (0 <= n) as H0 by (pose proof (Z.pow_nonneg base (Z.of_nat k)); lia).
  pose proof (digits_value n H0) as Hv. unfold value in Hv.
  pose proof (value_rev_bound (rev (digits base n)) (Forall_rev (digits_chars n H0))) as Hb.
  rewrite Hv, length_rev in Hb.
  apply Nat.nle_gt. intros Hle.
  pose proof (Z.pow_le_mono_r base (Z.of_nat (length (digits base n))) (Z.of_nat k)). lia.
Qed.

(** Leading zeros do not change the value. *)
Lemma value_rev_zeros s j : value_rev base (s ++ replicate j 48) = value_rev base s.
Proof using.
  induction s as [|c s IH]; cbn; [|by rewrite IH].
  induction j as [|j IH]; cbn; [done|]. rewrite IH. cbn. lia.
Qed.

Lemma value_zeros k s : value base (zeros k s) = value base s.
Proof using.
  unfold value, zeros. rewrite rev_app_distr, rev_replicate. apply value_rev_zeros.
Qed.

Lemma zeros_chars k s : Forall is_digit_char s -> Forall is_digit_char (zeros k s).
Proof using Hbase.
  intros Hs. unfold zeros. apply Forall_app. split; [|done].
  apply Forall_replicate. exists 0. split; [lia|done].
Qed.
End Digits.

Lemma zeros_length k s : length s <= k -> length (zeros k s) = k.
Proof. intros H. unfold zeros. len_lia. Qed.

Lemma is_digit_char_range base c : (base <= 16)%Z -> is_digit_char base c ->
  (48 <= c <= 57 \/ 97 <= c <= 102)%Z.
Proof. intros Hb (d & Hd & ->). unfold digit_char. destruct (Z.ltb_spec d 10); lia. Qed.
