(* ===== verification/PString.v ===== *)
(** PString: wide strings with their length (src/src/pstring.c).

    A [pstring] is a buffer, the number of characters the program believes it
    has, and the allocated size in bytes.  Two conventions occur in the program
    and both are written down here: in a string grown by [wappend] the length
    leaves the terminator out ([text_of]); in one made by [pstring_create] it
    counts the terminator ([created]). *)
From S2P Require Import Prelude Memory Locale.

Record pstring : Type := mk_pstring {
  buf : option buffer;
  len : nat;
  size : nat
}.

Definition sizeof_wchar_t : nat := 4.

Section Conversions.
Context `{Allocator} `{Locale}.

(** [str] is the C string passed; [None] is a null result. *)
Definition char_to_wchar (str : bytes) : prog mem (option buffer) :=
  match mbs_decode str with
  | None => mret None
  | Some w =>
    if Nat.eqb (length w) 0 then mret None
    else
      wstr ← malloc_buf (1 + length w);
      match wstr with
      | None => mret None
      | Some b =>
        b1 ← pure (store_all b 0 w);
        b2 ← pure (store b1 (length w) 0%Z);
        mret (Some b2)
      end
  end.

(** When the wide string cannot be converted [wcstombs (3)] yields
    [(size_t)-1], which the code does not look for: it converts into an
    object of [(size_t)-1 + 1 = 0] bytes. *)
Definition wchar_to_char (wstr : option buffer) : prog mem (option buffer) :=
  assert_ (bool_decide (is_Some wstr)) "wstr";;
  w ← pure (string_at (default [] wstr) 0);
  match wcs_encode w with
  | None =>
    str ← calloc_buf 0;
    match str with
    | None => mret None
    | Some _ => ub "conversion into an object of size zero"
    end
  | Some s =>
    if Nat.eqb (length s) 0 then mret None
    else
      str ← calloc_buf (length s + 1);
      match str with
      | None => mret None
      | Some b => b' ← pure (store_all b 0 s); mret (Some b')
      end
  end.

Definition pstring_new : prog mem (option pstring) :=
  p ← alloc;
  mret (match p with None => None | Some _ => Some (mk_pstring None 0 0) end).

(** A string is a value of its variable: freeing it takes nothing else away. *)
Definition pstring_free (str : option pstring) : outcome unit :=
  match str with None => Abort "str" | Some _ => Ok tt end.

Definition pstring_create (str : wstr) : prog mem (option pstring) :=
  pstr ← pstring_new;
  match pstr with
  | None => mret None
  | Some _ =>
    b ← strdup_buf str;
    match b with
    | None => mret None
    | Some b' =>
      n ← pure (strlen_at b' 0);
      mret (Some (mk_pstring (Some b') (1 + n) ((1 + n) * sizeof_wchar_t)))
    end
  end.

Definition char_to_pstring (str : bytes) : prog mem (option pstring) :=
  s ← char_to_wchar str;
  match s with
  | None => mret None
  | Some b => w ← pure (string_at b 0); pstring_create w
  end.

Definition pstring_to_char (str : pstring) : prog mem (option buffer) :=
  wchar_to_char (buf str).
End Conversions.

(** ** [pstring_chomp] *)
Definition removable_char (wide_indent_char c : Z) : bool :=
  Z.eqb c NL || Z.eqb c wide_indent_char.

(** The backward loop: [k] is the index after [p], so [k = 0] is a pointer
    before the buffer. *)
Fixpoint chomp_loop (wide_indent_char : Z) (b : buffer) (k removable : nat) : outcome nat :=
  match k with
  | 0 => UB "read before the buffer"
  | S k' =>
    c ← load b k';
    if removable_char wide_indent_char c
    then chomp_loop wide_indent_char b k' (S removable) else Ok removable
  end.

Definition pstring_chomp (wide_indent_char : Z) (str : pstring) : outcome pstring :=
  if Nat.ltb (len str) 2 then Ok str
  else
    match buf str with
    | None => UB "null buffer"
    | Some b =>
      removable ← chomp_loop wide_indent_char b (len str) 0;
      if Nat.ltb 1 removable then
        let n := len str - (removable - 1) in
        b1 ← store b (n - 1) NL;
        b2 ← store b1 n 0%Z;
        Ok (mk_pstring (Some b2) n (size str))
      else Ok str
    end.

(** ** [pstring_compress] *)

(** Skipping blank lines: while the character and its successor are newlines. *)
Fixpoint skip_blank_lines (fuel : nat) (b : buffer) (to blanks : nat) : outcome (nat * nat) :=
  match fuel with
  | 0 => Diverge
  | S fuel' =>
    c ← load b to;
    if Z.eqb c NL then
      c' ← load b (to + 1);
      if Z.eqb c' NL then skip_blank_lines fuel' b (to + 1) (blanks + 1)
      else Ok (to, blanks)
    else Ok (to, blanks)
  end.

(** The position after a run of [ch]. *)
Fixpoint skip_char (fuel : nat) (ch : Z) (b : buffer) (to : nat) : outcome nat :=
  match fuel with
  | 0 => Diverge
  | S fuel' =>
    c ← load b to;
    if Z.eqb c ch then skip_char fuel' ch b (to + 1) else Ok to
  end.

(** From the label [again] to the copy of one character. *)
Fixpoint compress_again (fuel : nat) (remove_char : Z) (b : buffer) (to count blanks : nat)
  : outcome (nat * nat * nat) :=
  match fuel with
  | 0 => Diverge
  | S fuel' =>
    '(start, blanks1) ← skip_blank_lines (S (length b)) b to blanks;
    to1 ← skip_char (S (length b)) remove_char b start;
    let count1 := count + (to1 - start) in
    if Nat.eqb to1 start then Ok (to1, count1, blanks1)
    else
      c ← load b to1;
      if Z.eqb c NL && negb (Nat.eqb to1 (start + 1)) then
        to2 ← skip_char (S (length b)) NL b to1;
        c2 ← load b to2;
        if Z.eqb c2 remove_char then compress_again fuel' remove_char b to2 count1 blanks1
        else Ok (to2, count1, blanks1 + 1)
      else Ok (start, 0, blanks1)
  end.

(** The outer loop, until the terminator. *)
Fixpoint compress_loop (fuel : nat) (remove_char : Z) (b : buffer) (from to count blanks : nat)
  : outcome (buffer * nat * nat * nat) :=
  match fuel with
  | 0 => Diverge
  | S fuel' =>
    c ← load b to;
    if Z.eqb c 0 then Ok (b, from, count, blanks)
    else
      '(to1, count1, blanks1) ← compress_again (S (length b)) remove_char b to count blanks;
      c1 ← load b to1;
      b1 ← store b from c1;
      compress_loop fuel' remove_char b1 (from + 1) (to1 + 1) count1 blanks1
  end.

(** [realloc (3)] with a size in bytes as the machine computes it: glibc
    frees and returns a null pointer for size 0 and refuses a size above
    [PTRDIFF_MAX]. *)
Definition realloc_bytes `{Allocator} (b : buffer) (bytes : Z) : prog mem (option buffer) :=
  if Z.eqb bytes 0 || Z.ltb (2 ^ 63 - 1) bytes then mret None
  else realloc_buf (Some b) (Z.to_nat (bytes / 4)).

Definition pstring_compress `{Allocator} (remove_char : Z) (wstr : pstring) : prog mem pstring :=
  match buf wstr with
  | None => abort "from"
  | Some b =>
    '(b1, from, count, blanks) ←
      pure (compress_loop (S (length b)) remove_char b 0 0 0 0);
    b2 ← pure (store b1 from 0%Z);
    if Nat.eqb blanks 0 && Nat.eqb count 0 then mret (mk_pstring (Some b2) (len wstr) (size wstr))
    else
      let new_len := ((Z.of_nat (len wstr) - Z.of_nat (blanks + count)) mod 2 ^ 64)%Z in
      let bytes := ((new_len * Z.of_nat sizeof_wchar_t) mod 2 ^ 64)%Z in
      p ← realloc_bytes b2 bytes;
      match p with
      | None => abort "p"
      | Some b3 =>
        b4 ← pure (store b3 (Z.to_nat (new_len - 1)) 0%Z);
        mret (mk_pstring (Some b4) (Z.to_nat new_len) (Z.to_nat bytes))
      end
  end.

(** ** The two conventions *)

(** [d] holds the text [s] and its length leaves the terminator out. *)
Definition text_of (d : pstring) (s : wstr) : Prop :=
  (s = [] /\ d = mk_pstring None 0 0) \/
  d = mk_pstring (Some (holding s [])) (length s) ((1 + length s) * sizeof_wchar_t).

(** [d] holds the text [s] and its length counts the terminator. *)
Definition created (s : wstr) : pstring :=
  mk_pstring (Some (holding s [])) (1 + length s) ((1 + length s) * sizeof_wchar_t).

(** The text a reader of [buf] sees. *)
Definition contents (d : pstring) : outcome wstr :=
  match buf d with None => UB "null buffer" | Some b => string_at b 0 end.

(** ** Conversions in a run where every allocation succeeds *)
Section ConversionLemmas.
Context `{AllocTotal} `{LocaleLaws}.

Lemma char_to_wchar_ok str w m :
  mbs_decode str = Some w -> w <> [] ->
  char_to_wchar str m = Ok (Some (holding w []), tick m).
Proof.
  intros Hd Hw. unfold char_to_wchar. rewrite Hd.
  destruct (Nat.eqb_spec (length w) 0) as [->%nil_length_inv|_]; [done|].
  erewrite prog_bind_ok; [|apply malloc_buf_run].
  change (1 + length w) with (S (length w)). rewrite replicate_S_end.
  rewrite <- (app_nil_l (replicate _ _ ++ _)).
  run_prim. rewrite store_all_middle by len_lia. cbn [app].
  rewrite store_middle by len_lia. done.
Qed.

Lemma pstring_new_ok m : pstring_new m = Ok (Some (mk_pstring None 0 0), tick m).
Proof. unfold pstring_new. by step_with alloc_run. Qed.

Lemma pstring_create_ok s m :
  nz s -> pstring_create s m = Ok (Some (created s), ticks 2 m).
Proof.
  intros Hs. unfold pstring_create. step_with pstring_new_ok. step_with strdup_buf_run.
  erewrite prog_bind_ok; [|apply pure_ok; unfold strlen_at; by rewrite string_at_start].
  done.
Qed.

Lemma char_to_pstring_ok str w m :
  nz str -> mbs_decode str = Some w -> str <> [] ->
  char_to_pstring str m = Ok (Some (created w), ticks 3 m).
Proof.
  intros Hs Hd Hne. unfold char_to_pstring.
  pose proof (decode_nz _ _ Hs Hd) as Hw.
  assert (w <> []) as Hne' by (intros ->; by apply decode_nil_inv in Hd).
  step_with (char_to_wchar_ok str w m Hd Hne').
  step_with (pure_ok _ _ (tick m) (string_at_start w [] Hw)).
  by rewrite pstring_create_ok.
Qed.

Lemma wchar_to_char_ok b w s m :
  string_at b 0 = Ok w -> wcs_encode w = Some s -> s <> [] ->
  wchar_to_char (Some b) m = Ok (Some (holding s []), tick m).
Proof.
  intros Hb He Hs. unfold wchar_to_char.
  erewrite prog_bind_ok by reflexivity. cbn [default].
  cbv beta. step_with (pure_ok _ _ m Hb). rewrite He.
  destruct (Nat.eqb_spec (length s) 0) as [->%nil_length_inv|_]; [done|].
  step_with calloc_buf_run. rewrite replicate_add.
  rewrite <- (app_nil_l (replicate _ _ ++ _)).
  run_prim. by rewrite store_all_middle by len_lia.
Qed.
End ConversionLemmas.

(** ** The texts that chomping and compressing produce *)
Section Texts.
Context (rc : Z).
Implicit Types s t p : list Z.

Definition removable (c : Z) : Prop := removable_char rc c = true.

Fixpoint drop_char (ch : Z) s : list Z :=
  match s with
  | c :: s' => if Z.eqb c ch then drop_char ch s' else s
  | [] => []
  end.

Definition starts_with (c : Z) s : bool :=
  match s with c' :: _ => Z.eqb c' c | [] => false end.

(** The text without the newlines that are followed by a newline at its
    start. *)
Fixpoint skip_nl s : list Z :=
  match s with
  | c :: s' => if Z.eqb c NL && starts_with NL s' then skip_nl s' else s
  | [] => []
  end.

(** One pass from the label [again] over a text: what is left, and the two
    counters. *)
Fixpoint squeeze (fuel : nat) s (count blanks : nat) : list Z * nat * nat :=
  match fuel with
  | 0 => (s, count, blanks)
  | S fuel' =>
    let s1 := skip_nl s in
    let s2 := drop_char rc s1 in
    let blanks1 := blanks + (length s - length s1) in
    let k := length s1 - length s2 in
    if Nat.eqb k 0 then (s1, count, blanks1)
    else if starts_with NL s2 && negb (Nat.eqb k 1) then
      let s3 := drop_char NL s2 in
      if starts_with rc s3 then squeeze fuel' s3 (count + k) blanks1
      else (s3, count + k, blanks1 + 1)
    else (s1, 0, blanks1)
  end.

Fixpoint squeeze_all (fuel : nat) s (count blanks : nat) : list Z * nat * nat :=
  match fuel with
  | 0 => ([], count, blanks)
  | S fuel' =>
    match s with
    | [] => ([], count, blanks)
    | _ :: _ =>
      match squeeze (length s) s count blanks with
      | (c :: s', count1, blanks1) =>
        let '(out, count2, blanks2) := squeeze_all fuel' s' count1 blanks1 in
        (c :: out, count2, blanks2)
      | ([], count1, blanks1) => ([], count1, blanks1)
      end
    end
  end.

(** The text [pstring_compress] leaves: when the characters it counted are
    exactly the ones it removed, the terminator goes on the last one kept. *)
Definition compress_text s : list Z :=
  let '(out, count, blanks) := squeeze_all (length s) s 0 0 in
  if negb (Nat.eqb (blanks + count) 0) && Nat.eqb (length s - (blanks + count)) (length out)
  then removelast out else out.

(** The text [pstring_chomp] leaves. *)
Fixpoint trailing s : nat :=
  match s with
  | c :: s' => if removable_char rc c then S (trailing s') else 0
  | [] => 0
  end.
Definition chomp_text s : list Z :=
  let k := trailing (rev s) in
  if Nat.ltb (length s) 2 || Nat.leb k 1 then s else take (length s - k) s ++ [NL].

(** At most one removable character ends the text. *)
Definition settled s : Prop :=
  forall p t, s = p ++ t -> Forall removable t -> length t <= 1.
End Texts.

(** The characters that neither routine may remove. *)
Definition kept (rc : Z) (s : list Z) : list Z :=
  List.filter (fun c => negb (removable_char rc c)) s.

Lemma kept_app rc s t : kept rc (s ++ t) = kept rc s ++ kept rc t.
Proof. apply List.filter_app. Qed.

Lemma kept_cons rc c s : kept rc (c :: s) = kept rc [c] ++ kept rc s.
Proof. apply (kept_app rc [c] s). Qed.

Lemma kept_removable rc s : Forall (removable rc) s -> kept rc s = [].
Proof. induction 1 as [|c s Hc _ IH]; [done|]. cbn. by rewrite Hc. Qed.

(** ** Facts about the texts *)
Section TextLemmas.
Context (rc : Z).
Implicit Types s t p : list Z.

Lemma drop_char_split ch s :
  exists k, s = replicate k ch ++ drop_char ch s /\ starts_with ch (drop_char ch s) = false.
Proof.
  induction s as [|c s (k & E & Hs)]; [by exists 0|]. cbn.
  destruct (Z.eqb_spec c ch) as [->|Hc].
  - exists (S k). cbn. by rewrite <- E.
  - exists 0. cbn. split; [done|]. by apply Z.eqb_neq.
Qed.

Lemma skip_nl_split s :
  exists k, s = replicate k NL ++ skip_nl s /\ (s <> [] -> skip_nl s <> []) /\
    (starts_with NL s = false -> skip_nl s = s) /\
    (starts_with NL (skip_nl s) = true -> starts_with NL (tail (skip_nl s)) = false).
Proof.
  induction s as [|c s (k & E & Hne & Hid & Ht)]; [by exists 0|]. cbn.
  destruct (Z.eqb_spec c NL) as [->|Hc]; cbn.
  - destruct (starts_with NL s) eqn:Hs.
    + exists (S k). cbn. rewrite <- E. split; [done|]. split; [|by split].
      intros _. apply Hne. by destruct s.
    + exists 0. by cbn.
  - exists 0. split; [done|]. split; [done|]. split; [done|].
    cbn. apply Z.eqb_neq in Hc. by rewrite Hc.
Qed.

Lemma replicate_removable k c : removable rc c -> Forall (removable rc) (replicate k c).
Proof. intros Hc. by apply Forall_replicate. Qed.

Lemma removable_NL : removable rc NL.
Proof. done. Qed.

Lemma removable_rc : removable rc rc.
Proof. unfold removable, removable_char. by rewrite Z.eqb_refl, orb_true_r. Qed.

Lemma settled_app p s : settled rc (p ++ s) -> settled rc s.
Proof. intros H q t -> Ht. apply (H (p ++ q)); [by rewrite app_assoc|done]. Qed.

(** What one pass removes is removable and is at least what it counts. *)
Lemma squeeze_spec fuel s count blanks s' count' blanks' :
  rc <> NL -> settled rc s -> s <> [] ->
  squeeze rc fuel s count blanks = (s', count', blanks') ->
  exists p, s = p ++ s' /\ Forall (removable rc) p /\ s' <> [] /\
    blanks' + count' <= blanks + count + length p.
Proof.
  intros Hrc. revert s count blanks.
  induction fuel as [|fuel IH]; intros s count blanks Hset Hne; cbn [squeeze].
  { intros [= -> -> ->]. exists []. split_and!; [done|constructor|done|cbn; lia]. }
  destruct (skip_nl_split s) as (k0 & E1 & Hne1 & _ & _).
  specialize (Hne1 Hne). set (s1 := skip_nl s) in *.
  destruct (drop_char_split rc s1) as (k1 & E2 & Hs2). set (s2 := drop_char rc s1) in *.
  assert (length s - length s1 = k0) as -> by (rewrite E1; len_lia).
  assert (length s1 - length s2 = k1) as -> by (rewrite E2; len_lia).
  pose proof (replicate_removable k0 NL removable_NL) as F0.
  pose proof (replicate_removable k1 rc removable_rc) as F1.
  destruct (Nat.eqb_spec k1 0) as [->|Hk1].
  { intros [= -> <- <-]. exists (replicate k0 NL). split_and!; [done|done|done|len_lia]. }
  destruct (starts_with NL s2 && negb (Nat.eqb k1 1)) eqn:Hc; cycle 1.
  { intros [= -> <- <-]. exists (replicate k0 NL). split_and!; [done|done|done|len_lia]. }
  apply andb_prop in Hc as [Hnl Hk]. apply negb_true_iff, Nat.eqb_neq in Hk.
  destruct (drop_char_split NL s2) as (k2 & E3 & Hs3). set (s3 := drop_char NL s2) in *.
  pose proof (replicate_removable k2 NL removable_NL) as F2.
  assert (0 < k2) as Hk2.
  { destruct k2; [|lia]. cbn in E3. rewrite <- E3 in Hs3. congruence. }
  assert (s = (replicate k0 NL ++ replicate k1 rc ++ replicate k2 NL) ++ s3) as Es.
  { rewrite E1, E2, E3 at 1. by rewrite <- !app_assoc. }
  assert (Forall (removable rc) (replicate k0 NL ++ replicate k1 rc ++ replicate k2 NL)) as F.
  { rewrite !Forall_app. done. }
  assert (s3 <> []) as Hne3.
  { intros E. rewrite E, app_nil_r in Es. specialize (Hset [] _ Es F). len_lia. }
  destruct (starts_with rc s3).
  - intros H. apply IH in H as (p & -> & Hp & Hs' & Hle); [|by rewrite Es in Hset; apply settled_app in Hset|done].
    exists ((replicate k0 NL ++ replicate k1 rc ++ replicate k2 NL) ++ p).
    split_and!; [by rewrite <- app_assoc|rewrite Forall_app; done|done|len_lia].
  - intros [= -> <- <-]. eexists. split_and!; [exact Es|done|done|len_lia].
Qed.

(** After a pass no newline is followed by a newline, and none is met at
    once when the text did not start with one. *)
Lemma squeeze_newlines fuel s count blanks s' count' blanks' :
  rc <> NL -> squeeze rc (S fuel) s count blanks = (s', count', blanks') ->
  (starts_with NL s' = true -> starts_with NL (tail s') = false) /\
  (starts_with NL s = false -> starts_with NL s' = false).
Proof.
  intros Hrc. revert s count blanks.
  induction fuel as [|fuel IH]; intros s count blanks.
  all: cbn [squeeze]; destruct (skip_nl_split s) as (k0 & _ & _ & Hid & Ht).
  all: set (s1 := skip_nl s) in *.
  all: destruct (Nat.eqb _ 0);
    [intros [= <- <- <-]; split; [done|]; intros E; by rewrite (Hid E)|].
  all: destruct (_ && _);
    [|intros [= <- <- <-]; split; [done|]; intros E; by rewrite (Hid E)].
  all: destruct (drop_char_split NL (drop_char rc s1)) as (k2 & _ & Hs3);
    set (s3 := drop_char NL _) in *.
  all: destruct (starts_with rc s3) eqn:Hr.
  2,4: intros [= <- <- <-]; split; [by rewrite Hs3|done].
  - cbn. intros [= <- <- <-]. split; [by rewrite Hs3|done].
  - intros H. apply IH in H as [A B]. split; [done|]. intros _. by apply B.
Qed.

Lemma squeeze_all_spec fuel s count blanks out count' blanks' :
  rc <> NL -> settled rc s -> length s <= fuel ->
  squeeze_all rc fuel s count blanks = (out, count', blanks') ->
  out `sublist_of` s /\ kept rc out = kept rc s /\
  blanks' + count' + length out <= blanks + count + length s.
Proof.
  intros Hrc. revert s count blanks out.
  induction fuel as [|fuel IH]; intros s count blanks out Hset Hfuel; cbn [squeeze_all].
  { intros [= <- <- <-]. destruct s; [|cbn in Hfuel; lia]. split_and!; [done|done|cbn; lia]. }
  destruct s as [|x s0] eqn:Es; [intros [= <- <- <-]; split_and!; [done|done|cbn; lia]|].
  rewrite <- Es in *. assert (s <> []) as Hne by (by rewrite Es). clear Es x s0.
  destruct (squeeze rc (length s) s count blanks) as [[s' c1] b1] eqn:E.
  destruct (squeeze_spec _ _ _ _ _ _ _ Hrc Hset Hne E) as (p & -> & Hp & Hs' & Hle).
  destruct s' as [|c s']; [done|].
  destruct (squeeze_all rc fuel s' c1 b1) as [[out1 c2] b2] eqn:E2.
  intros [= <- <- <-].
  apply settled_app in Hset. change (c :: s') with ([c] ++ s') in Hset. apply settled_app in Hset.
  apply IH in E2 as (Hsub & Hk & Hl); [|done|len_lia].
  split_and!; [|by rewrite kept_app, (kept_removable rc p), (kept_cons _ c out1), (kept_cons _ c s'), Hk|len_lia].
  apply sublist_inserts_l. by apply sublist_skip.
Qed.

(** No blank line is left. *)
Definition no_blank_line s : Prop := forall p t, s <> p ++ NL :: NL :: t.

Lemma no_blank_line_cons c s :
  no_blank_line s -> (c = NL -> starts_with NL s = false) -> no_blank_line (c :: s).
Proof.
  intros H Hc [|d p] t [= E1 E2].
  - subst. by specialize (Hc eq_refl).
  - by apply (H p t).
Qed.

Lemma squeeze_all_no_blank_line fuel s count blanks out count' blanks' :
  rc <> NL -> squeeze_all rc fuel s count blanks = (out, count', blanks') ->
  no_blank_line out /\ (starts_with NL s = false -> starts_with NL out = false).
Proof.
  intros Hrc. revert s count blanks out.
  induction fuel as [|fuel IH]; intros s count blanks out; cbn [squeeze_all].
  { intros [= <- <- <-]. split; [by intros [|??] ?|done]. }
  destruct s as [|x s0] eqn:Es; [intros [= <- <- <-]; split; [by intros [|??] ?|done]|].
  rewrite <- Es. replace (length s) with (S (length s0)) by (by rewrite Es). clear Es.
  destruct (squeeze rc _ s count blanks) as [[s' c1] b1] eqn:E.
  destruct (squeeze_newlines _ _ _ _ _ _ _ Hrc E) as [Ht Hh].
  destruct s' as [|c s']; [intros [= <- <- <-]; split; [by intros [|??] ?|done]|].
  destruct (squeeze_all rc fuel s' c1 b1) as [[out1 c2] b2] eqn:E2.
  intros [= <- <- <-]. destruct (IH _ _ _ _ E2) as [A B]. split; [|done].
  apply no_blank_line_cons; [done|]. intros ->. apply B, Ht. done.
Qed.
End TextLemmas.

(** ** The loops over the buffer compute these texts *)
Section Refinement.
Context (rc : Z) (junk : buffer).
Implicit Types (b : buffer) (s t out : list Z).

(** From index [to] on, the buffer [b] holds [s]. *)
Definition rest b (to : nat) s : Prop := drop to b = holding s junk.

Lemma rest_load b to s : rest b to s -> load b to = Ok (default 0%Z (head s)).
Proof.
  unfold rest. intros H. rewrite <- (take_drop to b), H. unfold load.
  assert (length (take to b) = to) as E.
  { apply (f_equal length) in H. rewrite length_drop, length_holding in H. len_lia. }
  rewrite lookup_app_r, E, Nat.sub_diag by lia. by destruct s.
Qed.

Lemma rest_drop b to s k : rest b to s -> k <= length s -> rest b (to + k) (drop k s).
Proof.
  unfold rest. intros H Hk. rewrite <- drop_drop, H. unfold holding.
  rewrite drop_app_le by len_lia. by rewrite <- skipn_map.
Qed.

Lemma rest_app b to p s : rest b to (p ++ s) -> rest b (to + length p) s.
Proof. intros H. apply (rest_drop _ _ _ (length p)) in H; [|len_lia]. by rewrite drop_app_length in H. Qed.

Lemma rest_cons b to c s : rest b to (c :: s) -> rest b (to + 1) s.
Proof. apply (rest_app b to [c] s). Qed.

Lemma rest_length b to s : rest b to s -> to + length s < length b.
Proof.
  intros H. apply (f_equal length) in H. rewrite length_drop, length_holding in H. lia.
Qed.

Lemma skip_char_ok ch fuel b to s :
  ch <> 0%Z -> rest b to s -> length s < fuel ->
  skip_char fuel ch b to = Ok (to + (length s - length (drop_char ch s))) /\
  rest b (to + (length s - length (drop_char ch s))) (drop_char ch s).
Proof.
  intros Hch. revert b to s. induction fuel as [|fuel IH]; intros b to s Hr Hf; [lia|].
  cbn [skip_char]. rewrite (rest_load _ _ _ Hr). cbn [mbind outcome_bind].
  destruct s as [|c s]; cbn [from_option id head drop_char].
  { destruct (Z.eqb_spec 0 ch) as [|_]; [congruence|].
    rewrite Nat.sub_diag, Nat.add_0_r. done. }
  destruct (Z.eqb_spec c ch) as [_|_].
  - apply rest_cons in Hr as Hr'. destruct (IH _ _ _ Hr') as [A B]; [cbn in Hf; lia|].
    destruct (drop_char_split ch s) as (k & E & _).
    assert (length (drop_char ch s) <= length s) by (rewrite E at 2; len_lia).
    replace (to + (length (c :: s) - length (drop_char ch s)))
      with (to + 1 + (length s - length (drop_char ch s))) by (cbn; lia).
    split; [exact A|exact B].
  - rewrite Nat.sub_diag, Nat.add_0_r. done.
Qed.

Lemma skip_blank_lines_ok fuel b to blanks s :
  rest b to s -> length s < fuel ->
  let k := length s - length (skip_nl s) in
  skip_blank_lines fuel b to blanks = Ok (to + k, blanks + k) /\ rest b (to + k) (skip_nl s).
Proof.
  revert to blanks s. induction fuel as [|fuel IH]; intros to blanks s Hr Hf; [lia|].
  cbn [skip_blank_lines]. rewrite (rest_load _ _ _ Hr). cbn [mbind outcome_bind].
  destruct s as [|c s]; cbn [from_option id head skip_nl].
  { cbn. by rewrite !Nat.add_0_r. }
  apply rest_cons in Hr as Hr'. rewrite (rest_load _ _ _ Hr'). cbn [mbind outcome_bind].
  replace (Z.eqb (default 0%Z (head s)) NL) with (starts_with NL s) by by destruct s.
  destruct (Z.eqb c NL); cbn [andb]; [|by rewrite Nat.sub_diag, !Nat.add_0_r].
  destruct (starts_with NL s); [|by rewrite Nat.sub_diag, !Nat.add_0_r].
  destruct (IH (to + 1) (blanks + 1) s Hr') as [A B]; [cbn in Hf; lia|].
  destruct (skip_nl_split s) as (k & E & _).
  assert (length (skip_nl s) <= length s) by (rewrite E at 2; len_lia).
  rewrite A. replace (length (c :: s) - length (skip_nl s))
    with (1 + (length s - length (skip_nl s))) by (cbn; lia).
  rewrite !Nat.add_assoc in *. done.
Qed.

(** At the end of the text nothing is skipped. *)
Lemma compress_again_end cfuel b to count blanks :
  rc <> 0%Z -> rest b to [] -> compress_again (S cfuel) rc b to count blanks = Ok (to, count, blanks).
Proof.
  intros Hrc Hr. pose proof (rest_length _ _ _ Hr) as Hl. cbn [compress_again].
  destruct (skip_blank_lines_ok (S (length b)) b to blanks [] Hr) as [-> H0]; [cbn in *; lia|].
  cbn in H0. cbn [mbind outcome_bind]. cbn [length Nat.sub skip_nl]. rewrite !Nat.add_0_r in *.
  destruct (skip_char_ok rc (S (length b)) b to [] Hrc Hr) as [-> _]; [cbn in *; lia|].
  cbn [mbind outcome_bind length Nat.sub drop_char].
  by rewrite Nat.add_0_r, Nat.eqb_refl, Nat.sub_diag, Nat.add_0_r.
Qed.

(** A round that skips an indent character leaves less of the text. *)
Lemma squeeze_shorter s :
  let s1 := skip_nl s in let s2 := drop_char rc s1 in let s3 := drop_char NL s2 in
  length s3 + (length s1 - length s2) <= length s.
Proof.
  cbv zeta. destruct (drop_char_split NL (drop_char rc (skip_nl s))) as (k2 & E2 & _).
  destruct (drop_char_split rc (skip_nl s)) as (k1 & E1 & _). destruct (skip_nl_split s) as (k0 & E0 & _).
  apply (f_equal length) in E0, E1, E2. rewrite length_app, length_replicate in E0, E1, E2. lia.
Qed.

Lemma compress_again_ok fuel cfuel b to s count blanks s' count' blanks' :
  rc <> 0%Z -> rest b to s -> length s <= fuel -> fuel < cfuel ->
  squeeze rc fuel s count blanks = (s', count', blanks') ->
  exists to', compress_again cfuel rc b to count blanks = Ok (to', count', blanks') /\
              rest b to' s' /\ to <= to'.
Proof.
  intros Hrc. revert cfuel to s count blanks.
  induction fuel as [|fuel IH]; intros [|cfuel] to s count blanks Hr Hf Hcf Hsq; [lia| |lia|].
  { destruct s; [|cbn in Hf; lia]. injection Hsq as <- <- <-. exists to.
    by split_and!; [apply compress_again_end| |]. }
  cbn [squeeze] in Hsq. cbn [compress_again].
  pose proof (rest_length _ _ _ Hr) as Hl.
  destruct (skip_blank_lines_ok (S (length b)) b to blanks s Hr) as [-> Hr1]; [lia|].
  cbn [mbind outcome_bind]. set (s1 := skip_nl s) in *.
  set (k0 := length s - length s1) in *. set (to1 := to + k0) in *.
  pose proof (rest_length _ _ _ Hr1) as Hl1.
  destruct (skip_char_ok rc (S (length b)) b to1 s1 Hrc Hr1) as [-> Hr2]; [lia|].
  cbn [mbind outcome_bind]. set (s2 := drop_char rc s1) in *.
  set (k1 := length s1 - length s2) in *.
  replace (Nat.eqb (to1 + k1) to1) with (Nat.eqb k1 0)
    by (destruct (Nat.eqb_spec k1 0), (Nat.eqb_spec (to1 + k1) to1); lia).
  replace (to1 + k1 - to1) with k1 by lia.
  destruct (Nat.eqb_spec k1 0) as [Hk1|Hk1].
  { injection Hsq as <- <- <-. rewrite Hk1 in *. rewrite !Nat.add_0_r in *.
    exists to1. split_and!; [done|done|lia]. }
  rewrite (rest_load _ _ _ Hr2). cbn [mbind outcome_bind].
  replace (Z.eqb (default 0%Z (head s2)) NL) with (starts_with NL s2) by by destruct s2.
  replace (Nat.eqb (to1 + k1) (to1 + 1)) with (Nat.eqb k1 1)
    by (destruct (Nat.eqb_spec k1 1), (Nat.eqb_spec (to1 + k1) (to1 + 1)); lia).
  destruct (starts_with NL s2 && negb (Nat.eqb k1 1)) eqn:Hc; cycle 1.
  { injection Hsq as <- <- <-. exists to1. split_and!; [done|done|lia]. }
  pose proof (rest_length _ _ _ Hr2) as Hl2.
  destruct (skip_char_ok NL (S (length b)) b _ s2 ltac:(done) Hr2) as [-> Hr3]; [lia|].
  cbn [mbind outcome_bind]. set (s3 := drop_char NL s2) in *.
  rewrite (rest_load _ _ _ Hr3). cbn [mbind outcome_bind].
  replace (Z.eqb (default 0%Z (head s3)) rc) with (starts_with rc s3); cycle 1.
  { destruct s3; [|done]. change (false = Z.eqb 0 rc). symmetry. apply Z.eqb_neq. congruence. }
  destruct (starts_with rc s3); cycle 1.
  { injection Hsq as <- <- <-. eexists. split_and!; [done|done|lia]. }
  assert (length s3 <= fuel) as Hf3 by (pose proof (squeeze_shorter s : length s3 + k1 <= length s); lia).
  destruct (IH cfuel _ _ _ _ Hr3 Hf3 ltac:(lia) Hsq) as (to' & -> & Hr' & Hle).
  exists to'. split_and!; [done|done|lia].
Qed.

Lemma take_insert_snoc b i x :
  i < length b -> take (i + 1) (<[i := x]> b) = take i b ++ [x].
Proof.
  intros H. rewrite insert_take_drop by done.
  rewrite (cons_middle _ (take i b)), app_assoc, take_app_exact; [done|len_lia].
Qed.

Lemma compress_loop_ok fuel b from to s out0 count blanks out count' blanks' :
  rc <> 0%Z -> rc <> NL -> nz s -> settled rc s ->
  rest b to s -> from <= to -> take from b = map Some out0 -> length s < fuel ->
  squeeze_all rc (length s) s count blanks = (out, count', blanks') ->
  exists b', compress_loop fuel rc b from to count blanks
             = Ok (b', from + length out, count', blanks') /\
    length b' = length b /\ take (from + length out) b' = map Some (out0 ++ out) /\
    from + length out < length b.
Proof.
  intros Hrc Hnl. set (n := length s) at 2. assert (length s <= n) as Hn by lia. clearbody n.
  revert b from to s out0 count blanks out n Hn.
  induction fuel as [|fuel IH];
    intros b from to s out0 count blanks out n Hn Hnz Hset Hr Hft Hout Hf Hsq; [lia|].
  pose proof (rest_length _ _ _ Hr) as Hl.
  cbn [compress_loop]. rewrite (rest_load _ _ _ Hr). cbn [mbind outcome_bind].
  destruct s as [|x s0] eqn:Es.
  { exists b. destruct n; injection Hsq as <- <- <-;
    cbn [from_option id head Z.eqb length]; rewrite Nat.add_0_r, app_nil_r;
    (split_and!; [done|done|done|cbn in Hl; lia]). }
  assert (Z.eqb (default 0%Z (head (x :: s0))) 0 = false) as ->.
  { apply Z.eqb_neq. by inversion Hnz. }
  destruct n as [|n]; [cbn in Hn; lia|]. cbn [squeeze_all] in Hsq. rewrite <- Es in *.
  assert (s <> []) as Hne by (by rewrite Es). clear Es x s0.
  destruct (squeeze rc (length s) s count blanks) as [[s' c1] b1] eqn:E.
  destruct (squeeze_spec _ _ _ _ _ _ _ _ Hnl Hset Hne E) as (p & Ep & _ & Hs' & _).
  destruct s' as [|c s']; [done|].
  destruct (squeeze_all rc n s' c1 b1) as [[out1 c2] b2] eqn:E2. injection Hsq as <- <- <-.
  destruct (compress_again_ok (length s) (S (length b)) b to s count blanks (c :: s') c1 b1)
    as (to1 & -> & Hr1 & Hle); [done|done|done|lia|done|].
  cbn [mbind outcome_bind].
  rewrite (rest_load _ _ _ Hr1). cbn [mbind outcome_bind from_option id head].
  unfold store. rewrite bool_decide_true by lia. cbn [mbind outcome_bind].
  rewrite Ep in Hset, Hnz. apply settled_app in Hset. apply (settled_app rc [c]) in Hset.
  apply Forall_app_inv in Hnz as [_ [_ Hnz]%Forall_cons_1].
  assert (length s = length p + S (length s')) as Els by (rewrite Ep; len_lia).
  destruct (IH (<[from:=Some c]> b) (from + 1) (to1 + 1) s' (out0 ++ [c]) c1 b1 out1 n)
    as (b' & Hrun & Hlen & Htake & Hlt); try done; try lia.
  - unfold rest. rewrite drop_insert_lt by lia. exact (rest_cons _ _ _ _ Hr1).
  - rewrite take_insert_snoc by lia. by rewrite map_app, Hout.
  - exists b'. rewrite Hrun. rewrite length_insert in Hlen, Hlt. cbn [length].
    split_and!; [|done| |lia].
    + by replace (from + S (length out1)) with (from + 1 + length out1) by lia.
    + replace (from + S (length out1)) with (from + 1 + length out1) by lia.
      rewrite Htake. by rewrite <- app_assoc.
Qed.
End Refinement.
(** ** Chomping *)
Section Chomp.
Context (rc : Z).
Implicit Types s t p : list Z.

(** The string has a character that chomping must keep. *)
Definition has_kept s : Prop := Exists (fun c => ~ removable rc c) s.

Lemma chomp_loop_ok s b r :
  has_kept s -> take (length s) b = map Some s ->
  chomp_loop rc b (length s) r = Ok (r + trailing rc (rev s)).
Proof.
  revert r. induction s as [|c s IH] using rev_ind; intros r Hk Hb; [by inversion Hk|].
  rewrite length_app, Nat.add_1_r, rev_app_distr in *. cbn [chomp_loop rev app trailing].
  assert (b !! length s = Some (Some c) /\ take (length s) b = map Some s) as [Hl Hs].
  { rewrite map_app in Hb. split.
    - rewrite <- (lookup_take_lt _ (S (length s))) by lia. rewrite Hb.
      apply lookup_app_at. by rewrite length_map.
    - apply (f_equal (take (length s))) in Hb. rewrite take_take, Nat.min_l in Hb by lia.
      rewrite Hb. apply take_app_exact. by rewrite length_map. }
  unfold load. rewrite Hl. cbn [mbind outcome_bind].
  destruct (removable_char rc c) eqn:Hc; [|by rewrite Nat.add_0_r].
  rewrite IH; [f_equal; lia| |done].
  apply Exists_app in Hk as [Hk|Hk]; [done|].
  apply Exists_cons in Hk as [Hk|Hk]; [done|by inversion Hk].
Qed.

Lemma trailing_le s : trailing rc s <= length s.
Proof. induction s as [|c s IH]; cbn; [lia|]. destruct (removable_char rc c); lia. Qed.

Lemma trailing_lt s : has_kept s -> trailing rc (rev s) < length s.
Proof.
  intros Hk. rewrite <- length_rev.
  assert (has_kept (rev s)) as Hr by by apply Exists_rev.
  induction (rev s) as [|c r IH]; [by inversion Hr|]. cbn.
  destruct (removable_char rc c) eqn:Hc; [|lia].
  apply Exists_cons in Hr as [Hr|Hr]; [done|]. specialize (IH Hr). lia.
Qed.

Lemma trailing_all p t : Forall (removable rc) p -> trailing rc (p ++ t) = length p + trailing rc t.
Proof. induction 1 as [|c p Hc _ IH]; [done|]. cbn. by rewrite Hc, IH. Qed.

Lemma trailing_drop s : trailing rc (drop (trailing rc s) s) = 0.
Proof. induction s as [|c s IH]; [done|]. cbn. destruct (removable_char rc c) eqn:E; [done|]. cbn. by rewrite E. Qed.

Lemma trailing_settled s : trailing rc (rev s) <= 1 -> settled rc s.
Proof.
  intros H p t -> Ht. rewrite rev_app_distr, trailing_all in H by by apply Forall_rev.
  rewrite length_rev in H. lia.
Qed.

Lemma chomp_text_settled s : settled rc (chomp_text rc s).
Proof.
  unfold chomp_text. destruct (Nat.ltb_spec (length s) 2) as [Hl|Hl]; cbn [orb].
  { intros p t -> _. rewrite length_app in Hl. lia. }
  destruct (Nat.leb_spec (trailing rc (rev s)) 1) as [Hk|Hk]; [by apply trailing_settled|].
  pose proof (trailing_le (rev s)) as Hle. rewrite length_rev in Hle.
  apply trailing_settled. rewrite rev_app_distr, firstn_skipn_rev, rev_involutive.
  replace (length s - (length s - trailing rc (rev s))) with (trailing rc (rev s)) by lia.
  change (1 + trailing rc (drop (trailing rc (rev s)) (rev s)) <= 1).
  by rewrite trailing_drop.
Qed.

Lemma trailing_removable s : Forall (removable rc) (take (trailing rc s) s).
Proof.
  induction s as [|c s IH]; [constructor|]. cbn.
  destruct (removable_char rc c) eqn:Hc; cbn; [by constructor|constructor].
Qed.

(** Chomping only drops removable characters, all of them at the end. *)
Lemma chomp_text_kept s :
  kept rc (chomp_text rc s) = kept rc s /\
  exists p t, chomp_text rc s = p ++ t /\ p `prefix_of` s /\ (t = [] \/ t = [NL]).
Proof.
  unfold chomp_text. destruct (_ || _).
  { split; [done|]. exists s, []. rewrite app_nil_r. naive_solver. }
  set (k := trailing rc (rev s)). split.
  - assert (Forall (removable rc) (drop (length s - k) s)) as Hd.
    { pose proof (trailing_removable (rev s)) as H. fold k in H.
      rewrite firstn_skipn_rev, rev_involutive, length_rev in H.
      apply Forall_rev in H. by rewrite rev_involutive in H. }
    transitivity (kept rc (take (length s - k) s ++ drop (length s - k) s));
      [|by rewrite take_drop].
    by rewrite !kept_app, (kept_removable _ _ Hd).
  - exists (take (length s - k) s), [NL]. split; [done|]. split; [|by right].
    by apply prefix_take.
Qed.

Lemma chomp_text_nz s : nz s -> nz (chomp_text rc s).
Proof.
  intros Hs. unfold chomp_text. destruct (_ || _); [done|].
  apply nz_app. split; [by apply nz_take|]. by repeat constructor.
Qed.

Lemma length_chomp_text s : length (chomp_text rc s) <= length s.
Proof.
  unfold chomp_text. destruct (Nat.ltb_spec (length s) 2); [done|].
  destruct (Nat.leb_spec (trailing rc (rev s)) 1); cbn [orb]; len_lia.
Qed.

Lemma pstring_chomp_ok d s junk :
  buf d = Some (holding s junk) -> len d = length s -> has_kept s ->
  exists d' junk', pstring_chomp rc d = Ok d' /\
    buf d' = Some (holding (chomp_text rc s) junk') /\ len d' = length (chomp_text rc s).
Proof.
  intros Hb Hl Hk. unfold pstring_chomp. rewrite Hl, Hb. unfold chomp_text.
  destruct (Nat.ltb_spec (length s) 2) as [Hs|Hs]; cbn [orb]; [by exists d, junk|].
  rewrite chomp_loop_ok; [|done|unfold holding; apply take_app_exact; by rewrite length_map].
  cbn [mbind outcome_bind]. rewrite Nat.add_0_l.
  pose proof (trailing_lt s Hk) as Hlt. set (k := trailing rc (rev s)) in *.
  destruct (Nat.ltb_spec 1 k) as [Hk1|Hk1]; [|by rewrite (proj2 (Nat.leb_le k 1)); eauto].
  rewrite (proj2 (Nat.leb_gt k 1)) by lia.
  set (n := length s - (k - 1)). replace (length s - k) with (n - 1) by lia.
  assert (length (take (n - 1) s) = n - 1) as Hn by (rewrite length_take; lia).
  assert (exists y z rest, holding s junk = map Some (take (n - 1) s) ++ y :: z :: rest)
    as (y & z & junk' & ->).
  { unfold holding.
    assert (map Some s = map Some (take (n - 1) s) ++ map Some (drop (n - 1) s)) as ->
      by by rewrite <- map_app, take_drop.
    rewrite <- app_assoc.
    destruct (drop (n - 1) s) as [|y [|z t]] eqn:E.
    all: apply (f_equal length) in E; rewrite length_drop in E; cbn in E; try lia.
    all: by eexists _, _, _. }
  rewrite store_middle by len_lia. cbn [mbind outcome_bind].
  rewrite (cons_middle _ (map Some _)), app_assoc.
  rewrite store_middle by len_lia. cbn [mbind outcome_bind].
  eexists _, junk'. split; [done|]. cbn [buf len]. split; [|len_lia].
  f_equal. unfold holding. by rewrite map_app.
Qed.
End Chomp.
(** ** Compressing *)
Section Compress.
Context `{AllocTotal} (rc : Z).

Lemma store_end_contents out junk i :
  nz out -> length out <= i < length out + S (length junk) ->
  exists b, store (holding out junk) i 0%Z = Ok b /\ string_at b 0 = Ok out.
Proof.
  intros Hnz Hi. unfold store. rewrite bool_decide_true by len_lia.
  eexists. split; [done|].
  assert (exists junk', <[i:=Some 0%Z]> (holding out junk) = holding out junk') as (junk' & ->).
  { unfold holding. rewrite insert_app_r_alt by len_lia. rewrite length_map.
    destruct (i - length out) as [|j]; cbn; eauto. }
  by apply string_at_start.
Qed.

Lemma squeeze_all_nonempty fuel s count blanks :
  rc <> NL -> settled rc s -> s <> [] ->
  0 < length (squeeze_all rc (S fuel) s count blanks).1.1.
Proof.
  intros Hrc Hset Hne. cbn [squeeze_all]. destruct s as [|x s0] eqn:Es; [done|].
  rewrite <- Es in *. clear Es x s0.
  destruct (squeeze rc (length s) s count blanks) as [[s' c1] b1] eqn:E.
  destruct (squeeze_spec _ _ _ _ _ _ _ _ Hrc Hset Hne E) as (p & _ & _ & Hs' & _).
  destruct s' as [|c s']; [done|].
  destruct (squeeze_all rc fuel s' c1 b1) as [[out c2] b2]. cbn. lia.
Qed.

(** The reallocation that ends [pstring_compress], for [k] counted
    characters. *)
Lemma compress_finish out junk n k m :
  nz out -> 0 < length out -> k + length out <= n -> n < length (holding out junk) ->
  (Z.of_nat n < 2 ^ 60)%Z ->
  let new_len := ((Z.of_nat n - Z.of_nat k) mod 2 ^ 64)%Z in
  let bytes := ((new_len * Z.of_nat sizeof_wchar_t) mod 2 ^ 64)%Z in
  exists b3 b4, realloc_bytes (holding out junk) bytes m = Ok (Some b3, tick m) /\
    store b3 (Z.to_nat (new_len - 1)) 0%Z = Ok b4 /\
    string_at b4 0 = Ok (if Nat.eqb (n - k) (length out) then removelast out else out).
Proof.
  intros Hnz Hout Hk Hn Hbig new_len bytes. subst new_len bytes.
  rewrite (Z.mod_small (Z.of_nat n - Z.of_nat k)) by lia.
  replace (Z.of_nat n - Z.of_nat k)%Z with (Z.of_nat (n - k)) by lia.
  set (l := n - k). change (Z.of_nat sizeof_wchar_t) with 4%Z.
  rewrite Z.mod_small by lia. unfold realloc_bytes.
  replace (Z.eqb (Z.of_nat l * 4) 0) with false by lia.
  replace (Z.ltb (2 ^ 63 - 1) (Z.of_nat l * 4)) with false by lia. cbn [orb].
  rewrite Z.div_mul, Nat2Z.id by done. rewrite realloc_buf_run.
  replace (Z.to_nat (Z.of_nat l - 1)) with (l - 1) by lia. cbn [default from_option id].
  rewrite resize_shrink by lia. unfold holding at 1.
  destruct (Nat.eqb_spec l (length out)) as [E|E].
  - rewrite take_app_exact by len_lia.
    destruct (exists_last (l := out)) as (o & c & Eo); [intros ->; cbn in Hout; lia|]. subst out.
    rewrite map_app. cbn [map]. eexists _, _. split; [done|].
    rewrite store_middle by len_lia. split; [done|].
    rewrite removelast_last. apply nz_app in Hnz as [Hnz _]. by apply string_at_start.
  - exists (holding out (take (l - length out - 1) junk)).
    destruct (store_end_contents out (take (l - length out - 1) junk) (l - 1) Hnz)
      as (b4 & Hb4 & Hs); [len_lia|].
    exists b4. split; [|done].
    assert (take l (map Some out ++ Some 0%Z :: junk)
            = holding out (take (l - length out - 1) junk)) as ->; [|done].
    rewrite take_app_ge by len_lia. rewrite length_map.
    destruct (l - length out) as [|j] eqn:Ej; [lia|]. cbn [take Nat.sub].
    by rewrite Nat.sub_0_r.
Qed.

Lemma pstring_compress_ok d s junk m :
  buf d = Some (holding s junk) -> len d = length s ->
  nz s -> settled rc s -> rc <> 0%Z -> rc <> NL -> (Z.of_nat (length s) < 2 ^ 60)%Z ->
  exists d' m', pstring_compress rc d m = Ok (d', m') /\ contents d' = Ok (compress_text rc s).
Proof.
  intros Hb Hl Hnz Hset Hr0 Hrn Hbig. unfold pstring_compress, compress_text. rewrite Hb, Hl.
  destruct (squeeze_all rc (length s) s 0 0) as [[out count] blanks] eqn:E.
  destruct (squeeze_all_spec _ _ _ _ _ _ _ _ Hrn Hset (le_n _) E) as (Hsub & _ & Hle).
  pose proof (nz_sublist _ _ Hsub Hnz) as Hnzo.
  destruct (compress_loop_ok rc junk (S (length (holding s junk))) (holding s junk) 0 0 s []
              0 0 out count blanks) as (b1 & Hrun & Hlen & Htake & Hlt);
    [done|done|done|done|done|done|done|len_lia|done|].
  step_with (pure_ok _ _ m Hrun). cbn [app Nat.add] in *.
  assert (store b1 (length out) 0%Z = Ok (holding out (drop (S (length out)) b1))) as E3.
  { unfold store. rewrite bool_decide_true by lia. rewrite insert_take_drop by lia.
    unfold holding. by rewrite Htake. }
  assert (length (holding out (drop (S (length out)) b1)) = length b1) as Hlen2 by len_lia.
  step_with (pure_ok _ _ m E3). set (junk2 := drop (S (length out)) b1) in *.
  replace (Nat.eqb blanks 0 && Nat.eqb count 0) with (Nat.eqb (blanks + count) 0)
    by (destruct (Nat.eqb_spec blanks 0), (Nat.eqb_spec count 0), (Nat.eqb_spec (blanks + count) 0); lia).
  destruct (Nat.eqb_spec (blanks + count) 0) as [Hz|Hz]; cbn [negb andb].
  { eexists _, _. split; [done|]. unfold contents. cbn [buf]. by apply string_at_start. }
  assert (0 < length out) as Hout.
  { destruct s as [|x s0]; [injection E; lia|].
    pose proof (squeeze_all_nonempty (length s0) (x :: s0) 0 0 Hrn Hset ltac:(done)) as Hx.
    cbn [length] in E. rewrite E in Hx. exact Hx. }
  destruct (compress_finish out junk2 (length s) (blanks + count) m Hnzo Hout)
    as (b3 & b4 & Hr & Hst & Hc); [lia|len_lia|done|].
  step_with Hr. step_with (pure_ok _ _ (tick m) Hst).
  eexists _, _. split; [done|]. exact Hc.
Qed.
End Compress.
(** ** What the string routines promise *)

(** [pstring_chomp] of a string with at least one character that is
    neither a newline nor the indent character is free of undefined behaviour
    and leaves exactly [chomp_text]: a prefix of the text, followed by at most
    one newline, with no other character lost, and at most one removable
    character at its end. *)
Theorem pstring_chomp_correct (rc : Z) (d : pstring) (s : wstr) (junk : buffer) :
  buf d = Some (holding s junk) -> len d = length s -> has_kept rc s ->
  exists d' junk',
    pstring_chomp rc d = Ok d' /\
    buf d' = Some (holding (chomp_text rc s) junk') /\ len d' = length (chomp_text rc s) /\
    kept rc (chomp_text rc s) = kept rc s /\ settled rc (chomp_text rc s) /\
    (exists p t, chomp_text rc s = p ++ t /\ p `prefix_of` s /\ (t = [] \/ t = [NL])).
Proof.
  intros Hb Hl Hk. destruct (pstring_chomp_ok rc d s junk Hb Hl Hk) as (d' & j' & Hr & Hb' & Hl').
  destruct (chomp_text_kept rc s) as [A B].
  exists d', j'. split_and!; try done. apply chomp_text_settled.
Qed.

Lemma pstring_chomp_witness :
  exists d' junk', pstring_chomp SPACE (mk_pstring (Some (holding (lit "ab" ++ [NL; SPACE; NL]) [])) 5 24)
                   = Ok d' /\
    buf d' = Some (holding (lit "ab" ++ [NL]) junk') /\ len d' = 3.
Proof.
  destruct (pstring_chomp_correct SPACE
              (mk_pstring (Some (holding (lit "ab" ++ [NL; SPACE; NL]) [])) 5 24)
              (lit "ab" ++ [NL; SPACE; NL]) []) as (d' & j' & A & B & C & _);
    [reflexivity|reflexivity|by apply Exists_cons_hd|].
  by exists d', j'.
Defined.

(** C35: what [main] does to the finished document, [pstring_chomp] and then
    [pstring_compress]: the two calls together are free of undefined
    behaviour on any text with a character to keep, whatever the indent
    character is (but a newline), and leave the text
    [compress_text (chomp_text s)]. *)
Theorem chomp_compress_correct `{AllocTotal} (rc : Z) (d : pstring) (s : wstr) (m : mem) :
  text_of d s -> nz s -> has_kept rc s -> rc <> 0%Z -> rc <> NL ->
  (Z.of_nat (length s) < 2 ^ 60)%Z ->
  exists d1 d2 m', pstring_chomp rc d = Ok d1 /\ pstring_compress rc d1 m = Ok (d2, m') /\
    contents d2 = Ok (compress_text rc (chomp_text rc s)).
Proof.
  intros [[-> _]| ->] Hnz Hk Hr0 Hrn Hbig; [by inversion Hk|].
  destruct (pstring_chomp_ok rc (mk_pstring (Some (holding s [])) (length s)
              ((1 + length s) * sizeof_wchar_t)) s [] eq_refl eq_refl Hk)
    as (d1 & j & Hr & Hb & Hl).
  destruct (pstring_compress_ok rc d1 (chomp_text rc s) j m Hb Hl) as (d2 & m' & A & B);
    [by apply chomp_text_nz|apply chomp_text_settled|done|done| |by exists d1, d2, m'].
  pose proof (length_chomp_text rc s). lia.
Qed.

Lemma chomp_compress_witness :
  let s := lit "a:" ++ [NL; NL; SPACE; SPACE; NL] ++ lit "b" ++ [NL; SPACE] in
  exists d1 d2 m', pstring_chomp SPACE (mk_pstring (Some (holding s [])) (length s)
                                          ((1 + length s) * sizeof_wchar_t)) = Ok d1 /\
    @pstring_compress total_allocator SPACE d1 mem0 = Ok (d2, m') /\
    contents d2 = Ok (lit "a:" ++ [NL] ++ lit "b").
Proof.
  apply (@chomp_compress_correct total_allocator total_allocator_total SPACE _
           (lit "a:" ++ [NL; NL; SPACE; SPACE; NL] ++ lit "b" ++ [NL; SPACE]) mem0).
  - by right.
  - nz_lit.
  - by apply Exists_cons_hd.
  - done.
  - done.
  - reflexivity.
Defined.

(** The text [pstring_compress] leaves has no blank line, is the original
    with some newlines and indent characters left out, keeps every other
    character in order, except that when the counters equal the number of
    characters removed, the last character left is cut off by the
    terminator. *)
Theorem compress_text_correct (rc : Z) (s : wstr) :
  rc <> NL -> settled rc s ->
  exists out, (compress_text rc s = out \/ compress_text rc s = removelast out) /\
    out `sublist_of` s /\ kept rc out = kept rc s /\ no_blank_line out.
Proof.
  intros Hrc Hset. unfold compress_text.
  destruct (squeeze_all rc (length s) s 0 0) as [[out count] blanks] eqn:E.
  destruct (squeeze_all_spec _ _ _ _ _ _ _ _ Hrc Hset (le_n _) E) as (A & B & _).
  destruct (squeeze_all_no_blank_line _ _ _ _ _ _ _ _ Hrc E) as [D _].
  exists out. split_and!; try done. destruct (_ && _); auto.
Qed.

Lemma compress_text_witness :
  exists out, (compress_text SPACE (lit "k: v") = out \/
               compress_text SPACE (lit "k: v") = removelast out) /\
    out `sublist_of` lit "k: v" /\ kept SPACE out = lit "k:v" /\ no_blank_line out.
Proof.
  apply (compress_text_correct SPACE (lit "k: v")); [done|].
  apply (trailing_settled SPACE). vm_compute. lia.
Defined.

(** The cut is real: one blank line in the text, and the last character of the
    text is lost. *)
Example compress_cuts_last :
  compress_text SPACE (lit "a" ++ [NL; NL] ++ lit "b") = lit "a" ++ [NL].
Proof. reflexivity. Qed.

(** A line that only ends in two indent characters is merged with the next,
    here with a character lost as well. *)
Example compress_merges_lines :
  compress_text SPACE (lit "x:  " ++ [NL] ++ lit "yz") = lit "x:y".
Proof. reflexivity. Qed.

(** [char_to_pstring] followed by [pstring_to_char] gives back the bytes of
    any non-empty string that is valid in the locale. *)
Theorem pstring_roundtrip `{AllocTotal} `{LocaleLaws} (str : bytes) (w : wstr) (m : mem) :
  nz str -> str <> [] -> mbs_decode str = Some w ->
  exists d m', char_to_pstring str m = Ok (Some d, m') /\ d = created w /\
    pstring_to_char d m' = Ok (Some (holding str []), tick m').
Proof.
  intros Hs Hne Hd. exists (created w), (ticks 3 m).
  split_and!; [by apply char_to_pstring_ok|done|].
  apply (wchar_to_char_ok _ w); [|by apply encode_decode|done].
  by apply string_at_start, (decode_nz str).
Qed.

Lemma pstring_roundtrip_witness :
  exists d m', @char_to_pstring total_allocator c_locale (lit "env") mem0 = Ok (Some d, m') /\
    d = created (lit "env") /\
    @pstring_to_char total_allocator c_locale d m' = Ok (Some (holding (lit "env") []), tick m').
Proof.
  apply (@pstring_roundtrip total_allocator total_allocator_total c_locale c_locale_laws
           (lit "env") (lit "env") mem0); [nz_lit|done|reflexivity].
Defined.
