(* ===== verification/StringUtil.v ===== *)
(** StringUtil: growing strings and formatted appends
    (src/src/string-util.c), over [char] buffers and over [pstring]s.

    A function that takes [char **dest] or [pstring **dest] takes and returns
    an option here.  The growth loops take fuel; [appendva] and [wappendva]
    supply one more than the length of the formatted text, which the theorems
    show is enough, and a text that cannot be converted makes
    [wappendva] spend any fuel. *)
From S2P Require Import Prelude Memory Locale PString.

Definition DEFAULT_ALLOC_GUESS_SIZE : nat := 8.

Section Ops.
Context `{Allocator} `{Locale}.

(** ** Multi-byte strings *)
Definition appendn (dest : option buffer) (src : bytes) (n : nat) : prog mem (option buffer) :=
  if Nat.eqb n 0 then mret dest
  else
    d ← (match dest with
         | Some b => mret b
         | None =>
           p ← strdup_buf [];
           match p with
           | Some b => mret b
           | None => die "failed to allocate space for string"
           end
         end);
    k ← pure (strlen_at d 0);
    let total := k + 1 + n in
    p ← realloc_buf (Some d) total;
    match p with
    | None => abort "*dest"
    | Some b =>
      b1 ← pure (strncat_at b 0 src n);
      last ← pure (load b1 (total - 1));
      assert_ (Z.eqb last 0) "(*dest)[total-1] == 0";;
      mret (Some b1)
    end.

Definition append (dest : option buffer) (src : bytes) : prog mem (option buffer) :=
  appendn dest src (length src).

(** The loop of [appendva], [s] being the text [vsnprintf (3)] produces; it
    writes what fits in [n] bytes and returns the full length. *)
Fixpoint appendva_loop (fuel : nat) (s : bytes) (new : buffer) (n : nat) : prog mem buffer :=
  match fuel with
  | 0 => diverge
  | S fuel' =>
    new1 ← pure (store_all new 0 (take (n - 1) s ++ [0%Z]));
    if Nat.ltb (length s) n then mret new1
    else
      p ← realloc_buf (Some new1) (1 + S n);
      match p with
      | None => die "failed to allocate space for string"
      | Some new2 => appendva_loop fuel' s new2 (S n)
      end
  end.

Definition appendva (dest : option buffer) (fmt : bytes) (ap : list arg)
  : prog mem (option buffer) :=
  p ← malloc_buf (1 + DEFAULT_ALLOC_GUESS_SIZE);
  match p with
  | None => die "failed to allocate space for string"
  | Some new =>
    new0 ← pure (memset new 0 (1 + DEFAULT_ALLOC_GUESS_SIZE));
    ret ← pure (format_mbs fmt ap);
    match ret with
    | None => die "failed to format string"
    | Some s =>
      new1 ← appendva_loop (S (length s)) s new0 DEFAULT_ALLOC_GUESS_SIZE;
      match dest with
      | Some _ => t ← pure (string_at new1 0); append dest t
      | None => mret (Some new1)
      end
    end
  end.

Definition appendf (dest : option buffer) (fmt : bytes) (args : list arg)
  : prog mem (option buffer) := appendva dest fmt args.

(** ** Wide strings *)
Definition wappendn (dest : option pstring) (src : wstr) (n : nat) : prog mem (option pstring) :=
  if Nat.eqb n 0 then mret dest
  else
    d ← (match dest with
         | Some d => mret d
         | None =>
           p ← pstring_new;
           match p with
           | Some d => mret d
           | None => die "failed to allocate space for pstring"
           end
         end);
    let total := len d + n in
    let bytes := (1 + total) * sizeof_wchar_t in
    p ← realloc_buf (buf d) (1 + total);
    match p with
    | None => abort "p"
    | Some b =>
      b1 ← (if Nat.eqb (len d) 0 then pure (memset b 0 (1 + total)) else mret b);
      b2 ← pure (store b1 total 0%Z);
      b3 ← pure (strncat_at b2 (len d) src n);
      last ← pure (load b3 total);
      assert_ (Z.eqb last 0) "(*dest)->buf[total] == 0";;
      mret (Some (mk_pstring (Some b3) total bytes))
    end.

Definition wappend (dest : option pstring) (src : wstr) : prog mem (option pstring) :=
  wappendn dest src (length src).

Definition wmappend (dest : option pstring) (src : bytes) : prog mem (option pstring) :=
  p ← char_to_wchar src;
  match p with
  | None => die "failed to allocate space for wide string"
  | Some b => wide_src ← pure (string_at b 0); wappend dest wide_src
  end.

Definition wmappendn (dest : option pstring) (src : bytes) (n : nat) : prog mem (option pstring) :=
  if Nat.eqb n 0 then mret dest
  else
    p ← char_to_wchar src;
    match p with
    | None => die "failed to allocate space for wide string"
    | Some b =>
      wide_src ← pure (string_at b 0);
      wappendn dest wide_src (length wide_src)
    end.

(** [vswprintf (3)] into [n] wide characters: a text that does not fit and
    one that cannot be converted ([None]) both give -1, and what is in the
    first [n] elements is then unspecified. *)
Definition vswprintf (new : buffer) (n : nat) (text : option wstr)
  : outcome (buffer * option nat) :=
  match text with
  | Some s =>
    if Nat.ltb (length s) n then b ← store_all new 0 (s ++ [0%Z]); Ok (b, Some (length s))
    else Ok (replicate n None ++ drop n new, None)
  | None => Ok (replicate n None ++ drop n new, None)
  end.

Fixpoint wappendva_loop (fuel : nat) (text : option wstr) (new : buffer) (n : nat)
  : prog mem (buffer * nat) :=
  match fuel with
  | 0 => diverge
  | S fuel' =>
    '(new1, ret) ← pure (vswprintf new n text);
    match ret with
    | Some r => mret (new1, r + 1)
    | None =>
      p ← realloc_buf (Some new1) (1 + S n);
      match p with
      | None => die "failed to allocate space for string"
      | Some new2 =>
        new3 ← pure (memset new2 0 (1 + S n));
        wappendva_loop fuel' text new3 (S n)
      end
    end
  end.

Definition wappendva (dest : option pstring) (fmt : wstr) (ap : list arg)
  : prog mem (option pstring) :=
  p ← malloc_buf (1 + DEFAULT_ALLOC_GUESS_SIZE);
  match p with
  | None => die "failed to allocate space for wide string"
  | Some new =>
    new0 ← pure (memset new 0 (1 + DEFAULT_ALLOC_GUESS_SIZE));
    text ← pure (format_wcs fmt ap);
    '(new1, n) ← wappendva_loop (S (length (default [] text))) text new0 DEFAULT_ALLOC_GUESS_SIZE;
    match dest with
    | Some _ => t ← pure (string_at new1 0); wappend dest t
    | None =>
      p ← realloc_buf (Some new1) (1 + n);
      match p with
      | None => die "failed to reallocate space"
      | Some new2 =>
        q ← pstring_new;
        match q with
        | None => abort "*dest"
        | Some _ => mret (Some (mk_pstring (Some new2) n ((1 + n) * sizeof_wchar_t)))
        end
      end
    end
  end.

Definition wappendf (dest : option pstring) (fmt : wstr) (args : list arg)
  : prog mem (option pstring) := wappendva dest fmt args.

Definition wmappendva (dest : option pstring) (fmt : bytes) (ap : list arg)
  : prog mem (option pstring) :=
  p ← char_to_wchar fmt;
  match p with
  | None => die "failed to allocate memory for wide format"
  | Some b => wide_fmt ← pure (string_at b 0); wappendva dest wide_fmt ap
  end.

Definition wmappendf (dest : option pstring) (fmt : bytes) (args : list arg)
  : prog mem (option pstring) :=
  p ← char_to_wchar fmt;
  match p with
  | None => die "failed to allocate memory for wide format"
  | Some b => wide_fmt ← pure (string_at b 0); wappendva dest wide_fmt args
  end.

Definition pappend (dest : option pstring) (src : pstring) : prog mem (option pstring) :=
  if Nat.eqb (len src) 0 then mret dest
  else
    d ← (match dest with
         | Some d => mret d
         | None =>
           p ← pstring_new;
           match p with
           | Some d => mret d
           | None => die "failed to allocate space for pstring"
           end
         end);
    let total := len d + len src - 1 in
    let bytes := (1 + total) * sizeof_wchar_t in
    p ← realloc_buf (buf d) (1 + total);
    match p with
    | None => abort "p"
    | Some b =>
      t ← pure (contents src);
      b1 ← pure (strncat_at b (len d) t (len src));
      b2 ← pure (store b1 total 0%Z);
      mret (Some (mk_pstring (Some b2) total bytes))
    end.
End Ops.

(** ** [split_fields] *)
Section Fields.
Context (delimiter : Z) (compress : bool).

Fixpoint skip_delimiters (s : bytes) : bytes :=
  match s with
  | c :: s' => if Z.eqb c delimiter then skip_delimiters s' else s
  | [] => []
  end.

(** A field and the rest of the string. *)
Fixpoint take_field (s : bytes) : bytes * bytes :=
  match s with
  | c :: s' =>
    if Z.eqb c delimiter then ([], s)
    else let '(f, r) := take_field s' in (c :: f, r)
  | [] => ([], [])
  end.

Fixpoint fields_loop (fuel : nat) (p : bytes) : outcome (list bytes) :=
  match fuel with
  | 0 => Diverge
  | S fuel' =>
    match p with
    | [] => Ok []
    | _ :: _ =>
      match (if compress then skip_delimiters p else p) with
      | [] => Ok []
      | c :: p' =>
        let '(elem, r) := take_field (if compress then c :: p' else p') in
        rest ← fields_loop fuel' r;
        Ok (elem :: rest)
      end
    end
  end.

Definition split_fields (string : bytes) : outcome (list bytes) :=
  if Z.eqb delimiter 0 then Abort "delimiter"
  else fields_loop (S (length string)) string.
End Fields.

(** ** The loops and the appends in a run where every allocation succeeds *)
Section Lemmas.
Context `{AllocTotal} `{LocaleLaws}.

(** A [char *] variable that holds the text [s]; a null pointer is the empty
    text. *)
Definition cstr_of (dest : option buffer) (s : bytes) : Prop :=
  match dest with
  | None => s = []
  | Some b => exists junk, b = holding s junk
  end.

(** The same buffer, after [realloc (3)] to [k] elements more than needed. *)
Lemma resize_holding s junk k :
  exists j', resize (length s + 1 + k) (holding s junk) = holding s j' /\ length j' = k.
Proof.
  destruct (decide (length s + 1 + k <= length (holding s junk))) as [Hle|Hgt].
  - rewrite resize_shrink by done. exists (take k junk). rewrite length_holding in Hle.
    split; [|len_lia]. unfold holding. rewrite take_app_ge by len_lia.
    rewrite length_map. replace (length s + 1 + k - length s) with (S k) by lia. done.
  - rewrite resize_grow by lia. eexists. unfold holding. rewrite <- app_assoc.
    split; [done|]. rewrite length_holding in Hgt. len_lia.
Qed.

Lemma appendn_ok dest s src n m :
  cstr_of dest s -> nz s -> nz src -> 0 < n <= length src ->
  exists m', appendn dest src n m = Ok (Some (holding (s ++ take n src) []), m') /\ ticked m m'.
Proof.
  intros Hd Hs Hsrc Hn. unfold appendn.
  destruct (Nat.eqb_spec n 0) as [|_]; [lia|].
  assert (exists junk m1, (match dest with
         | Some b => mret b
         | None => p ← strdup_buf [];
           match p with
           | Some b => mret b
           | None => die "failed to allocate space for string"
           end
         end) m = Ok (holding s junk, m1) /\ ticked m m1) as (junk & m1 & E & Hm1).
  { destruct dest as [b|]; cbn in Hd.
    - destruct Hd as [junk ->]. exists junk, m. split; [done|apply ticked_refl].
    - subst s. exists [], (tick m). split; [|apply ticked_tick].
      by step_with (strdup_buf_run [] m). }
  step_with E. step_with (pure_ok _ _ m1 (strlen_at_start s junk Hs)).
  step_with (realloc_buf_run (Some (holding s junk)) (length s + 1 + n) m1).
  cbn [default from_option id].
  destruct (resize_holding s junk n) as (j' & -> & Hj).
  pose proof (strncat_holding [] s src j' [] 0 n Hs Hsrc eq_refl) as Hcat.
  cbn [app] in Hcat. rewrite app_nil_r in Hcat.
  step_with (pure_ok _ _ (tick m1) (Hcat ltac:(len_lia))).
  assert (load (holding (s ++ take n src) []) (length s + 1 + n - 1) = Ok 0%Z) as Hl.
  { unfold holding. apply load_middle. len_lia. }
  step_with (pure_ok _ _ (tick m1) Hl).
  eexists. split; [reflexivity|]. etrans; [exact Hm1|apply ticked_tick].
Qed.

Lemma cappend_ok dest s src m :
  cstr_of dest s -> nz s -> nz src ->
  exists d m', append dest src m = Ok (d, m') /\ cstr_of d (s ++ src) /\ ticked m m' /\
               (is_Some dest -> is_Some d).
Proof.
  intros Hd Hs Hsrc. unfold append. destruct src as [|c src].
  - exists dest, m. rewrite app_nil_r. split_and!; [done|done|apply ticked_refl|done].
  - destruct (appendn_ok dest s (c :: src) (length (c :: src)) m Hd Hs Hsrc)
      as (m' & E & Hm); [cbn; lia|].
    eexists _, m'. split; [exact E|]. split_and!; [|done|by eexists].
    rewrite take_ge by done. by exists [].
Qed.

Lemma appendva_loop_ok fuel s new n m :
  nz s -> length new = S n -> S (length s) < fuel + n -> 0 < fuel -> 0 < n ->
  exists junk m', appendva_loop fuel s new n m = Ok (holding s junk, m') /\ ticked m m'.
Proof.
  intros Hs. revert new n m. induction fuel as [|fuel IH]; intros new n m Hnew Hf H0f Hn; [lia|].
  cbn [appendva_loop].
  set (t := take (n - 1) s ++ [0%Z]).
  assert (store_all new 0 t = Ok (map Some t ++ drop (length t) new)) as Est.
  { unfold store_all. rewrite bool_decide_true; [done|]. unfold t. len_lia. }
  step_with (pure_ok _ _ m Est).
  destruct (Nat.ltb_spec (length s) n) as [Hlt|Hge].
  - eexists _, m. split; [|apply ticked_refl].
    unfold t, holding. rewrite take_ge by lia. rewrite map_app, <- app_assoc. reflexivity.
  - step_with (realloc_buf_run (Some (map Some t ++ drop (length t) new)) (1 + S n) m).
    cbn [default from_option id].
    destruct (IH (resize (1 + S n) (map Some t ++ drop (length t) new)) (S n) (tick m))
      as (j & m' & E & Hm); [len_lia|lia|lia|lia|].
    exists j, m'. split; [exact E|]. etrans; [apply ticked_tick|exact Hm].
Qed.

Lemma wappendva_loop_ok fuel s n m :
  nz s -> S (length s) < fuel + n -> 0 < fuel ->
  exists k m', wappendva_loop fuel (Some s) (replicate (1 + n) (Some 0%Z)) n m
               = Ok ((holding s (replicate k (Some 0%Z)), length s + 1), m') /\
    0 < k /\ ticked m m'.
Proof.
  intros Hs. revert n m. induction fuel as [|fuel IH]; intros n m Hf H0f; [lia|].
  cbn [wappendva_loop]. unfold vswprintf.
  destruct (Nat.ltb_spec (length s) n) as [Hlt|Hge].
  - replace (1 + n) with (length (s ++ [0%Z]) + (n - length s)) by len_lia.
    rewrite replicate_add.
    assert (store_all (replicate (length (s ++ [0%Z])) (Some 0%Z)
                         ++ replicate (n - length s) (Some 0%Z)) 0 (s ++ [0%Z])
            = Ok (holding s (replicate (n - length s) (Some 0%Z)))) as E.
    { pose proof (store_all_middle [] (replicate (length (s ++ [0%Z])) (Some 0%Z))
                    (replicate (n - length s) (Some 0%Z)) (s ++ [0%Z]) 0 eq_refl) as Hst.
      cbn [app] in Hst. rewrite Hst by len_lia. unfold holding. rewrite map_app.
      by rewrite <- app_assoc. }
    rewrite E. cbn [mbind outcome_bind].
    exists (n - length s), m. split; [done|]. split; [lia|apply ticked_refl].
  - step_with (pure_ok (Ok (replicate n None ++ drop n (replicate (1 + n) (Some 0%Z)),
                          @None nat)) _ m
                 eq_refl).
    step_with (realloc_buf_run (Some (replicate n None ++ drop n (replicate (1 + n) (Some 0%Z))))
                 (1 + S n) m).
    step_with (pure_ok _ _ (tick m) (memset_all (resize (1 + S n) (replicate n None ++
                 drop n (replicate (1 + n) (Some 0%Z)))) 0%Z (1 + S n) ltac:(len_lia))).
    destruct (IH (S n) (tick m)) as (k & m' & E & Hk & Hm); [lia|lia|].
    exists k, m'. split_and!; [exact E|done|]. etrans; [apply ticked_tick|exact Hm].
Qed.

(** A [pstring *] variable whose text is [s], in the convention of
    [wappend]; a null pointer is the empty text. *)
Definition ptext (dest : option pstring) (s : wstr) : Prop :=
  match dest with None => s = [] | Some d => text_of d s end.

Lemma store_junk s junk i v :
  length s < i < length s + S (length junk) ->
  exists j', store (holding s junk) i v = Ok (holding s j') /\ length j' = length junk.
Proof.
  intros Hi. unfold store. rewrite bool_decide_true by len_lia.
  unfold holding. rewrite insert_app_r_alt by len_lia. rewrite length_map.
  destruct (i - length s) as [|k] eqn:E; [lia|].
  exists (<[k:=Some v]> junk). split; [done|]. apply length_insert.
Qed.

(** The buffer [wappendn] appends to: its text, then [n] elements. *)
Lemma wappendn_buffer d s n :
  text_of d s ->
  len d = length s /\ exists j, length j = n /\
    forall m : mem, (if Nat.eqb (len d) 0
               then pure (memset (resize (1 + (len d + n)) (default [] (buf d))) 0 (1 + (len d + n)))
               else mret (resize (1 + (len d + n)) (default [] (buf d)))) m
              = Ok (holding s j, m).
Proof.
  intros Hd. destruct (decide (s = [])) as [->|Hs].
  - assert (len d = 0) as -> by (destruct Hd as [[_ ->]| ->]; done). split; [done|].
    exists (replicate n (Some 0%Z)). split; [by rewrite length_replicate|]. intros m.
    cbn [Nat.eqb]. unfold pure. rewrite memset_all by len_lia. done.
  - destruct Hd as [[? _]| ->]; [done|]. cbn [buf len]. split; [done|].
    destruct (resize_holding s [] n) as (j & Hj & Hlen).
    exists j. split; [done|]. intros m.
    destruct (Nat.eqb_spec (length s) 0) as [->%nil_length_inv|_]; [done|].
    cbn [default from_option id]. replace (1 + (length s + n)) with (length s + 1 + n) by lia.
    by rewrite Hj.
Qed.

Lemma wappendn_ok dest s src n m :
  ptext dest s -> nz s -> nz src -> 0 < n <= length src ->
  exists d m', wappendn dest src n m = Ok (Some d, m') /\ text_of d (s ++ take n src) /\
               ticked m m'.
Proof.
  intros Hd Hs Hsrc Hn. unfold wappendn.
  destruct (Nat.eqb_spec n 0) as [|_]; [lia|].
  assert (exists d m1, (match dest with
         | Some d => mret d
         | None =>
           p ← pstring_new;
           match p with
           | Some d => mret d
           | None => die "failed to allocate space for pstring"
           end
         end) m = Ok (d, m1) /\ text_of d s /\ ticked m m1) as (d & m1 & E & Htd & Hm1).
  { destruct dest as [d|]; cbn in Hd.
    - exists d, m. split_and!; [done|done|apply ticked_refl].
    - subst s. exists (mk_pstring None 0 0), (tick m).
      split_and!; [|by left|apply ticked_tick]. by step_with (pstring_new_ok m). }
  step_with E. destruct (wappendn_buffer d s n Htd) as (Hl & j & Hj & Hb).
  step_with (realloc_buf_run (buf d) (1 + (len d + n)) m1).
  step_with (Hb (tick m1)). rewrite Hl.
  destruct (store_junk s j (length s + n) 0) as (j' & Hst & Hj'); [lia|].
  step_with (pure_ok _ _ (tick m1) Hst).
  assert (strncat_at (holding s j') (length s) src n = Ok (holding (s ++ take n src) [])) as Hcat.
  { rewrite <- (app_nil_r j'). apply strncat_end; [done|len_lia]. }
  step_with (pure_ok _ _ (tick m1) Hcat).
  assert (load (holding (s ++ take n src) []) (length s + n) = Ok 0%Z) as Hld.
  { unfold holding. apply load_middle. len_lia. }
  step_with (pure_ok _ _ (tick m1) Hld).
  eexists _, (tick m1). split; [reflexivity|].
  split; [|etrans; [exact Hm1|apply ticked_tick]].
  right. assert (length (s ++ take n src) = length s + n) as -> by len_lia. done.
Qed.

Lemma wappend_ok dest s src m :
  ptext dest s -> nz s -> nz src ->
  exists d m', wappend dest src m = Ok (d, m') /\ ptext d (s ++ src) /\ ticked m m' /\
               (is_Some dest -> is_Some d).
Proof.
  intros Hd Hs Hsrc. unfold wappend. destruct src as [|c src].
  - exists dest, m. rewrite app_nil_r. split_and!; [done|done|apply ticked_refl|done].
  - destruct (wappendn_ok dest s (c :: src) (length (c :: src)) m Hd Hs Hsrc)
      as (d & m' & E & Ht & Hm); [cbn; lia|].
    exists (Some d), m'. rewrite take_ge in Ht by done. split_and!; [done|done|done|by eexists].
Qed.

(** A formatted text that has been converted to [s]. *)
Lemma wappendva_text dest fmt args s m :
  format_wcs fmt args = Ok (Some s) -> nz s ->
  exists k m1, ticked m m1 /\
    wappendva dest fmt args m =
    (match dest with
     | Some _ => wappend dest s
     | None => fun m => Ok (Some (mk_pstring (Some (holding s [Some 0%Z])) (length s + 1)
                                 ((1 + (length s + 1)) * sizeof_wchar_t)), ticks k m)
     end) m1.
Proof.
  intros Hf Hs. unfold wappendva. step_with (malloc_buf_run (1 + DEFAULT_ALLOC_GUESS_SIZE) m).
  step_with (pure_ok _ _ (tick m) (memset_all (replicate (1 + DEFAULT_ALLOC_GUESS_SIZE) None)
                                    0%Z (1 + DEFAULT_ALLOC_GUESS_SIZE) eq_refl)).
  step_with (pure_ok _ _ (tick m) Hf). cbn [default from_option id].
  destruct (wappendva_loop_ok (S (length s)) s DEFAULT_ALLOC_GUESS_SIZE (tick m) Hs)
    as (k & m1 & E & Hk & Hm); [unfold DEFAULT_ALLOC_GUESS_SIZE; lia|lia|].
  step_with E. exists 2, m1. split; [etrans; [apply ticked_tick|exact Hm]|].
  destruct dest as [d|].
  - by step_with (pure_ok _ _ m1 (string_at_start s (replicate k (Some 0%Z)) Hs)).
  - step_with (realloc_buf_run (Some (holding s (replicate k (Some 0%Z)))) (1 + (length s + 1)) m1).
    step_with (pstring_new_ok (tick m1)). cbn [default from_option id].
    assert (resize (1 + (length s + 1)) (holding s (replicate k (Some 0%Z)))
            = holding s [Some 0%Z]) as ->; [|done].
    rewrite resize_shrink by len_lia. unfold holding. rewrite take_app_ge by len_lia.
    rewrite length_map. replace (1 + (length s + 1) - length s) with 2 by lia.
    destruct k as [|k]; [lia|]. done.
Qed.

Lemma wappendf_ok d s fmt args t m :
  text_of d s -> nz s -> format_wcs fmt args = Ok (Some t) -> nz t ->
  exists d' m', wappendf (Some d) fmt args m = Ok (Some d', m') /\ text_of d' (s ++ t) /\
                ticked m m'.
Proof.
  intros Hd Hs Hf Ht. unfold wappendf.
  destruct (wappendva_text (Some d) fmt args t m Hf Ht) as (_ & m1 & Hm & ->).
  destruct (wappend_ok (Some d) s t m1 Hd Hs Ht) as (d' & m' & E & Hp & Hm' & Hsome).
  destruct Hsome as [d0 ->]; [by eexists|].
  exists d0, m'. split_and!; [done|done|]. by etrans.
Qed.

Lemma appendf_ok dest s fmt args t m :
  cstr_of dest s -> nz s -> format_mbs fmt args = Ok (Some t) -> nz t ->
  exists b m', appendf dest fmt args m = Ok (Some b, m') /\ cstr_of (Some b) (s ++ t) /\
               ticked m m'.
Proof.
  intros Hd Hs Hf Ht. unfold appendf, appendva.
  step_with (malloc_buf_run (1 + DEFAULT_ALLOC_GUESS_SIZE) m).
  step_with (pure_ok _ _ (tick m) (memset_all (replicate (1 + DEFAULT_ALLOC_GUESS_SIZE) None)
                                    0%Z (1 + DEFAULT_ALLOC_GUESS_SIZE) eq_refl)).
  step_with (pure_ok _ _ (tick m) Hf).
  destruct (appendva_loop_ok (S (length t)) t
              (replicate (1 + DEFAULT_ALLOC_GUESS_SIZE) (Some 0%Z))
              DEFAULT_ALLOC_GUESS_SIZE (tick m) Ht)
    as (junk & m1 & E & Hm); [done|unfold DEFAULT_ALLOC_GUESS_SIZE; lia|lia|
                              unfold DEFAULT_ALLOC_GUESS_SIZE; lia|].
  step_with E. destruct dest as [b|]; cbn in Hd.
  - step_with (pure_ok _ _ m1 (string_at_start t junk Ht)).
    destruct (cappend_ok (Some b) s t m1 Hd Hs Ht) as (d' & m' & E' & Hc & Hm' & Hsome).
    destruct Hsome as [b' ->]; [by eexists|].
    exists b', m'. split_and!; [done|done|]. etrans; [apply ticked_tick|]. by etrans.
  - subst s. exists (holding t junk), m1. split_and!; [done|by exists junk|].
    etrans; [apply ticked_tick|exact Hm].
Qed.

Lemma wmappend_ok dest s src w m :
  ptext dest s -> nz s -> nz src -> mbs_decode src = Some w -> src <> [] ->
  exists d m', wmappend dest src m = Ok (d, m') /\ ptext d (s ++ w) /\ ticked m m' /\
               (is_Some dest -> is_Some d).
Proof.
  intros Hd Hs Hsrc Hw Hne. unfold wmappend.
  assert (w <> []) as Hwne by (intros ->; by apply decode_nil_inv in Hw).
  pose proof (decode_nz _ _ Hsrc Hw) as Hnz.
  step_with (char_to_wchar_ok src w m Hw Hwne).
  step_with (pure_ok _ _ (tick m) (string_at_start w [] Hnz)).
  destruct (wappend_ok dest s w (tick m) Hd Hs Hnz) as (d & m' & E & A & B & C).
  exists d, m'. split_and!; [done|done| |done]. etrans; [apply ticked_tick|exact B].
Qed.

(** Appending where the length counts the terminator and the next element,
    [x], is a terminator as well. *)
Lemma append_past_end s t x m sz :
  nz t -> t <> [] -> x = Some 0%Z ->
  exists d' m2,
    wappend (Some (mk_pstring (Some (holding s [x])) (length s + 1) sz)) t m = Ok (Some d', m2) /\
    buf d' = Some (holding s (holding t [])) /\ len d' = length s + 1 + length t.
Proof.
  intros Ht Hne ->. unfold wappend, wappendn. cbn [len buf].
  destruct t as [|c t'] eqn:Et; [done|]. rewrite <- Et in *.
  destruct (Nat.eqb_spec (length t) 0) as [Hz|_]; [by rewrite Et in Hz|].
  erewrite prog_bind_ok by reflexivity. cbn [len buf].
  set (pre := map Some s ++ [Some 0%Z]).
  step_with (realloc_buf_run (Some (holding s [Some 0%Z])) (1 + (length s + 1 + length t)) m).
  cbn [default from_option id].
  assert (resize (1 + (length s + 1 + length t)) (holding s [Some 0%Z])
          = pre ++ holding [] (replicate (length t) None)) as ->.
  { rewrite resize_grow by len_lia. unfold holding, pre. cbn [map app].
    rewrite <- !app_assoc. cbn [app].
    by replace (1 + (length s + 1 + length t) - length (map Some s ++ [Some 0%Z; Some 0%Z]))
      with (length t) by len_lia. }
  destruct (Nat.eqb_spec (length s + 1) 0) as [|_]; [lia|].
  erewrite prog_bind_ok by reflexivity. cbv beta.
  assert (length t = S (length t')) as Hlen by (by rewrite Et).
  set (mid := replicate (length t') None ++ [Some 0%Z]).
  assert (store (pre ++ holding [] (replicate (length t) None)) (length s + 1 + length t) 0%Z
          = Ok (pre ++ holding [] (mid ++ []))) as Hst.
  { rewrite Hlen, replicate_S_end. unfold holding, mid. cbn [map app].
    replace (pre ++ Some 0%Z :: replicate (length t') None ++ [None])
      with ((pre ++ Some 0%Z :: replicate (length t') None) ++ None :: [])
      by by rewrite <- app_assoc.
    rewrite store_middle by (unfold pre; len_lia). by rewrite <- !app_assoc. }
  step_with (pure_ok _ _ (tick m) Hst).
  pose proof (strncat_holding pre [] t mid [] (length s + 1) (length t) (Forall_nil_2 _) Ht
                ltac:(unfold pre; len_lia)) as Hcat.
  rewrite (take_ge t) in Hcat by done.
  step_with (pure_ok _ _ (tick m) (Hcat ltac:(unfold mid; len_lia))).
  assert (load (pre ++ holding ([] ++ t) []) (length s + 1 + length t) = Ok 0%Z) as Hld.
  { unfold holding. rewrite app_assoc. apply load_middle. unfold pre. len_lia. }
  step_with (pure_ok _ _ (tick m) Hld).
  eexists _, _. split; [reflexivity|]. cbn [buf len]. split; [|done].
  unfold pre, holding. cbn [app]. by rewrite <- app_assoc.
Qed.

(** [appendf] appends the formatted text to a [char] string, whether the
    string exists or not: the loop that guesses the buffer size ends, no
    access is out of bounds and the result is the old text followed by
    exactly what [printf (3)] produces. *)
Theorem appendf_correct (dest : option buffer) (s t : bytes) (fmt : bytes) (args : list arg)
  (m : mem) :
  cstr_of dest s -> nz s -> format_mbs fmt args = Ok (Some t) -> nz t ->
  exists b junk m', appendf dest fmt args m = Ok (Some b, m') /\ b = holding (s ++ t) junk /\
                    heap m' = heap m.
Proof.
  intros Hd Hs Hf Ht. destruct (appendf_ok dest s fmt args t m Hd Hs Hf Ht)
    as (b & m' & E & [junk Hb] & [k ->]). by exists b, junk, (ticks k m).
Qed.

(** in the document's convention (the length leaves the terminator out)
    [wappendf] on an existing string ends, is free of undefined behaviour and
    appends exactly the formatted text, the convention being kept. *)
Theorem wappendf_correct (d : pstring) (s t : wstr) (fmt : wstr) (args : list arg) (m : mem) :
  text_of d s -> nz s -> format_wcs fmt args = Ok (Some t) -> nz t ->
  exists d' m', wappendf (Some d) fmt args m = Ok (Some d', m') /\ text_of d' (s ++ t) /\
                contents d' = (if decide (s ++ t = [] /\ buf d' = None)
                               then UB "null buffer" else Ok (s ++ t)).
Proof.
  intros Hd Hs Hf Ht. destruct (wappendf_ok d s fmt args t m Hd Hs Hf Ht)
    as (d' & m' & E & Htd & _). exists d', m'. split_and!; [done|done|].
  assert (nz (s ++ t)) as Hnz by by apply nz_app.
  destruct Htd as [[-> ->]| ->]; [done|]. unfold contents. cbn [buf].
  rewrite decide_False by naive_solver. by apply string_at_start.
Qed.

(** C37: a wide text that cannot be converted (a value with a byte sequence
    invalid in the locale) makes [vswprintf (3)] fail at every size, and the
    loop of [wappendva] takes that for a buffer that is too small: whatever
    the number of rounds, it has not ended. *)
Theorem wappendva_never_ends (fuel n : nat) (new : buffer) (m : mem) :
  wappendva_loop fuel None new n m = Diverge.
Proof.
  revert new n m. induction fuel as [|fuel IH]; intros new n m; [done|].
  cbn [wappendva_loop vswprintf].
  step_with (pure_ok (Ok (replicate n None ++ drop n new, @None nat)) _ m eq_refl).
  step_with (realloc_buf_run (Some (replicate n None ++ drop n new)) (1 + S n) m).
  step_with (pure_ok _ _ (tick m) (memset_all (resize (1 + S n) (replicate n None ++ drop n new))
               0%Z (1 + S n) ltac:(len_lia))).
  apply IH.
Qed.

(** [wappendf] into a null [pstring] makes a string whose length counts
    the terminator, so a later [wappend] puts its text behind the
    terminator: nothing that reads the buffer sees it. *)
Theorem wappendf_null_hides_append (fmt : wstr) (args : list arg) (s t : wstr) (m : mem) :
  format_wcs fmt args = Ok (Some s) -> nz s -> nz t -> t <> [] ->
  exists d m1 d' m2, wappendf None fmt args m = Ok (Some d, m1) /\
    contents d = Ok s /\ len d = length s + 1 /\
    wappend (Some d) t m1 = Ok (Some d', m2) /\ contents d' = Ok s /\
    len d' = length s + 1 + length t.
Proof.
  intros Hf Hs Ht Hne. unfold wappendf.
  destruct (wappendva_text None fmt args s m Hf Hs) as (k & m1 & _ & ->).
  set (d := mk_pstring (Some (holding s [Some 0%Z])) (length s + 1)
              ((1 + (length s + 1)) * sizeof_wchar_t)).
  destruct (append_past_end s t (Some 0%Z) (ticks k m1) ((1 + (length s + 1)) * sizeof_wchar_t)
              Ht Hne eq_refl) as (d' & m2 & E & Hb & Hl).
  exists d, (ticks k m1), d', m2. split_and!; [done|by apply string_at_start|done|done| |done].
  unfold contents. rewrite Hb. by apply string_at_start.
Qed.

(** [pappend] onto a [pstring] that does not exist yet reads memory that
    was never written: [realloc (3)] of the null buffer is not cleared, and
    [wcsncat (3)] looks for a terminator in it. *)
Theorem pappend_null_undefined (src : pstring) (s : wstr) (m : mem) :
  nz s -> src = created s ->
  pappend None src m = UB "read of an indeterminate element".
Proof.
  intros Hs ->. unfold pappend, created. cbn [len].
  change (Nat.eqb (1 + length s) 0) with false. cbv iota.
  assert (((p ← pstring_new;
            match p with
            | Some d => mret d
            | None => die "failed to allocate space for pstring"
            end) : prog mem pstring) m = Ok (mk_pstring None 0 0, tick m)) as E
    by by step_with (pstring_new_ok m).
  step_with E. cbn [len buf].
  step_with (realloc_buf_run None (1 + (0 + (1 + length s) - 1)) (tick m)).
  cbn [default from_option id].
  assert (contents (mk_pstring (Some (holding s [])) (1 + length s)
            ((1 + length s) * sizeof_wchar_t)) = Ok s) as Hc by by apply string_at_start.
  step_with (pure_ok _ _ (tick (tick m)) Hc).
  unfold mbind at 1, prog_bind, pure, strncat_at, strlen_at, string_at.
  rewrite resize_grow by (cbn; lia). done.
Qed.

Lemma pappend_ok d s src t m :
  text_of d s -> s <> [] -> nz t -> contents src = Ok t -> len src = 1 + length t ->
  exists d' m', pappend (Some d) src m = Ok (Some d', m') /\ text_of d' (s ++ t) /\ ticked m m'.
Proof.
  intros [[? _]| ->] Hne Ht Hc Hl; [done|]. unfold pappend. rewrite Hl. cbn [len buf].
  change (Nat.eqb (1 + length t) 0) with false. cbv iota.
  erewrite prog_bind_ok by reflexivity. cbn [len buf].
  replace (length s + (1 + length t) - 1) with (length s + length t) by lia.
  step_with (realloc_buf_run (Some (holding s [])) (1 + (length s + length t)) m).
  cbn [default from_option id].
  destruct (resize_holding s [] (length t)) as (j & Hj & Hlen).
  replace (1 + (length s + length t)) with (length s + 1 + length t) by lia. rewrite Hj.
  step_with (pure_ok _ _ (tick m) Hc).
  assert (take (1 + length t) t = t) as Htk by (apply take_ge; lia).
  pose proof (strncat_end s t j [] (1 + length t) Ht) as Hcat. rewrite Htk, app_nil_r in Hcat.
  step_with (pure_ok _ _ (tick m) (Hcat Hlen)).
  assert (store (holding (s ++ t) []) (length s + length t) 0%Z = Ok (holding (s ++ t) [])) as Hst.
  { unfold holding. apply store_middle. len_lia. }
  step_with (pure_ok _ _ (tick m) Hst).
  eexists _, (tick m). split; [reflexivity|]. split; [|apply ticked_tick].
  right. f_equal; [by rewrite length_app|]. rewrite length_app. f_equal. lia.
Qed.

(** Onto an existing document [pappend] adds the text of a string made by
    [pstring_create], and the convention of the document is kept. *)
Theorem pappend_correct (d : pstring) (s t : wstr) (m : mem) :
  text_of d s -> s <> [] -> nz s -> nz t ->
  exists d' m', pappend (Some d) (created t) m = Ok (Some d', m') /\ text_of d' (s ++ t) /\
                heap m' = heap m.
Proof.
  intros Hd Hne Hs Ht.
  destruct (pappend_ok d s (created t) t m Hd Hne Ht) as (d' & m' & A & B & [k ->]);
    [by apply string_at_start|done|].
  by exists d', (ticks k m).
Qed.
End Lemmas.
(** ** The fields of a string *)
Section FieldLemmas.
Context (delimiter : Z).
Implicit Types s f : bytes.

(** [fields_of s fs]: the fields [fs] are the maximal runs of [s] without the
    delimiter, in order. *)
Inductive fields_of : bytes -> list bytes -> Prop :=
| fields_none k : fields_of (replicate k delimiter) []
| fields_some k f s fs :
    f <> [] -> delimiter ∉ f -> (s = [] \/ head s = Some delimiter) -> fields_of s fs ->
    fields_of (replicate k delimiter ++ f ++ s) (f :: fs).

(** The usual splitting at every delimiter. *)
Fixpoint split_on s : list bytes :=
  match s with
  | [] => [[]]
  | c :: s' =>
    if Z.eqb c delimiter then [] :: split_on s'
    else match split_on s' with
         | f :: fs => (c :: f) :: fs
         | [] => [[c]]
         end
  end.

Lemma skip_delimiters_split s :
  exists k, s = replicate k delimiter ++ skip_delimiters delimiter s /\
    head (skip_delimiters delimiter s) <> Some delimiter.
Proof.
  induction s as [|c s (k & E & Hh)]; [by exists 0|]. cbn.
  destruct (Z.eqb_spec c delimiter) as [->|Hc].
  - exists (S k). cbn. by rewrite <- E.
  - exists 0. cbn. split; [done|congruence].
Qed.

Lemma take_field_split s :
  let '(f, r) := take_field delimiter s in
  s = f ++ r /\ (delimiter ∉ f) /\ (r = [] \/ head r = Some delimiter) /\
  (s <> [] -> head s <> Some delimiter -> f <> []).
Proof.
  induction s as [|c s IH]; cbn; [split_and!; [done|set_solver|by left|done]|].
  destruct (Z.eqb_spec c delimiter) as [->|Hc].
  - split_and!; [done|set_solver|by right|done].
  - destruct (take_field delimiter s) as [f r]. destruct IH as (-> & Hf & Hr & _).
    split_and!; [done|set_solver|done|done].
Qed.

Lemma fields_loop_compress fuel s :
  length s < fuel ->
  exists fs, fields_loop delimiter true fuel s = Ok fs /\ fields_of s fs.
Proof.
  revert s. induction fuel as [|fuel IH]; intros s Hf; [lia|].
  cbn [fields_loop]. destruct s as [|x s0] eqn:Es; [exists []; split; [done|apply (fields_none 0)]|].
  rewrite <- Es in *. clear Es x s0.
  destruct (skip_delimiters_split s) as (k & E & Hh).
  destruct (skip_delimiters delimiter s) as [|c p'] eqn:Ep.
  - exists []. split; [done|]. rewrite E, app_nil_r. constructor.
  - pose proof (take_field_split (c :: p')) as Ht.
    destruct (take_field delimiter (c :: p')) as [f r].
    destruct Ht as (E2 & Hd & Hr & Hne). specialize (Hne ltac:(done) Hh).
    destruct (IH r) as (fs & -> & Hfs).
    { rewrite E, E2 in Hf. destruct f; [done|]. len_lia. }
    exists (f :: fs). split; [done|]. rewrite E, E2. by constructor.
Qed.

Lemma split_on_field s :
  let '(f, r) := take_field delimiter s in
  split_on s = f :: match r with [] => [] | _ :: r' => split_on r' end.
Proof.
  induction s as [|c s IH]; [done|]. cbn.
  destruct (Z.eqb c delimiter); [done|].
  destruct (take_field delimiter s) as [f r]. by rewrite IH.
Qed.

Lemma fields_loop_plain fuel c s :
  length s + 1 < fuel -> fields_loop delimiter false fuel (c :: s) = Ok (split_on s).
Proof.
  revert c s. induction fuel as [|fuel IH]; intros c s Hf; [lia|]. cbn [fields_loop].
  pose proof (split_on_field s) as Hs. pose proof (take_field_split s) as Ht.
  destruct (take_field delimiter s) as [f r]. rewrite Hs. destruct Ht as (-> & _).
  destruct r as [|d r]; [by destruct fuel; [len_lia|]|].
  rewrite IH by len_lia. done.
Qed.
End FieldLemmas.

(** C36: [split_fields] ends on every string.  With [compress] its fields are the
    maximal non-empty runs without the delimiter, in order; without it, they are
    those of the usual splitting of the string without its first character,
    which the code skips whatever it is. *)
Theorem split_fields_correct (delimiter : Z) (s : bytes) :
  delimiter <> 0%Z ->
  (exists fs, split_fields delimiter true s = Ok fs /\ fields_of delimiter s fs) /\
  split_fields delimiter false s =
    Ok (match s with [] => [] | _ :: s' => split_on delimiter s' end).
Proof.
  intros Hd. unfold split_fields. destruct (Z.eqb_spec delimiter 0) as [|_]; [done|]. split.
  - apply fields_loop_compress. lia.
  - destruct s as [|c s]; [done|]. apply fields_loop_plain. cbn. lia.
Qed.

Lemma split_fields_witness :
  (exists fs, split_fields SPACE true (lit " 12  ab") = Ok fs /\ fields_of SPACE (lit " 12  ab") fs) /\
  split_fields SPACE false (lit "12 ab") = Ok [lit "2"; lit "ab"].
Proof.
  split; [apply (split_fields_correct SPACE (lit " 12  ab")); done|].
  apply (split_fields_correct SPACE (lit "12 ab")). done.
Defined.

(** ** The theorems at concrete inputs *)
Lemma appendf_witness :
  exists b junk m',
    @appendf total_allocator c_locale (Some (holding (lit "fd: ") [])) (lit "%d (%s)")
      [ANum 3; AStr (lit "console")] mem0 = Ok (Some b, m') /\
    b = holding (lit "fd: 3 (console)") junk /\ heap m' = heap mem0.
Proof.
  apply (@appendf_correct total_allocator total_allocator_total c_locale
           (Some (holding (lit "fd: ") [])) (lit "fd: ") (lit "3 (console)")).
  - by exists [].
  - nz_lit.
  - reflexivity.
  - nz_lit.
Defined.

Lemma wappendf_witness :
  exists d' m',
    @wappendf total_allocator c_locale (Some (mk_pstring None 0 0)) (lit "%ls: %d")
      [AWStr (lit "pid"); ANum 1] mem0 = Ok (Some d', m') /\
    text_of d' (lit "pid: 1") /\
    contents d' = (if decide (lit "pid: 1" = [] /\ buf d' = None)
                   then UB "null buffer" else Ok (lit "pid: 1")).
Proof.
  apply (@wappendf_correct total_allocator total_allocator_total c_locale
           (mk_pstring None 0 0) [] (lit "pid: 1")).
  - by left.
  - constructor.
  - reflexivity.
  - nz_lit.
Defined.

Lemma wappendva_never_ends_witness :
  @wappendva_loop total_allocator 1000 None [] DEFAULT_ALLOC_GUESS_SIZE mem0 = Diverge.
Proof. apply (@wappendva_never_ends total_allocator total_allocator_total). Defined.

Lemma wappendf_null_witness :
  exists d m1 d' m2,
    @wappendf total_allocator c_locale None (lit "%d") [ANum 42] mem0 = Ok (Some d, m1) /\
    contents d = Ok (lit "42") /\ len d = 3 /\
    @wappend total_allocator (Some d) (lit "!") m1 = Ok (Some d', m2) /\
    contents d' = Ok (lit "42") /\ len d' = 4.
Proof.
  apply (@wappendf_null_hides_append total_allocator total_allocator_total c_locale
           (lit "%d") [ANum 42] (lit "42") (lit "!") mem0).
  - reflexivity.
  - nz_lit.
  - nz_lit.
  - done.
Defined.

Lemma pappend_null_witness :
  @pappend total_allocator None (created (lit "x")) mem0 = UB "read of an indeterminate element".
Proof.
  apply (@pappend_null_undefined total_allocator total_allocator_total _ (lit "x"));
    [nz_lit|reflexivity].
Defined.

Lemma pappend_witness :
  exists d' m', @pappend total_allocator
      (Some (mk_pstring (Some (holding (lit "a") [])) 1 8)) (created (lit "bc")) mem0
      = Ok (Some d', m') /\
    text_of d' (lit "abc") /\ heap m' = heap mem0.
Proof.
  apply (@pappend_correct total_allocator total_allocator_total _ (lit "a") (lit "bc")).
  - by right.
  - done.
  - nz_lit.
  - nz_lit.
Defined.
