(* ===== verification/Encode.v ===== *)
(** Encode: turning names and values into XML and JSON text ([output_translate]
    and [encode_string] of src/src/output.c), element by element of the
    buffers involved. *)
From S2P Require Import Prelude Memory Locale PString StringUtil.

Inductive OutputFormat : Type :=
| OUTPUT_FORMAT_TEXT
| OUTPUT_FORMAT_CRUMB
| OUTPUT_FORMAT_JSON
| OUTPUT_FORMAT_XML.

#[export] Instance OutputFormat_eq_dec : EqDecision OutputFormat.
Proof. solve_decision. Defined.

(** [translate_table]: the map of each format, without the entries that only
    fill the table up. *)
Definition translate_map (f : OutputFormat) : list (Z * wstr) :=
  match f with
  | OUTPUT_FORMAT_XML =>
    [ (39%Z, lit "&apos;");
      (DQUOTE, lit "&quot;");
      (38%Z, lit "&amp;");
      (60%Z, lit "&lt;");
      (62%Z, lit "&gt;") ]
  | _ =>
    [ (DQUOTE, [BACKSLASH; DQUOTE]);
      (BACKSLASH, [BACKSLASH; BACKSLASH; BACKSLASH; BACKSLASH]) ]
  end.

Fixpoint map_lookup (tbl : list (Z * wstr)) (c : Z) : option wstr :=
  match tbl with
  | [] => None
  | (from, to) :: tbl' => if Z.eqb c from then Some to else map_lookup tbl' c
  end.

(** The first pass over a character adds for every entry that matches. *)
Definition extra_of (tbl : list (Z * wstr)) (c : Z) : nat :=
  list_sum (map (fun e => if Z.eqb c (fst e) then length (snd e) - 1 else 0) tbl).

(** The second pass: [p] is the index of the head of [todo] and [start] the
    index of the first character not copied yet. *)
Fixpoint translate_loop (tbl : list (Z * wstr)) (s todo : wstr) (p start : nat)
  (b : buffer) (rlen : nat) : outcome (buffer * nat * nat) :=
  match todo with
  | [] => Ok (b, rlen, start)
  | c :: todo' =>
    match map_lookup tbl c with
    | None => translate_loop tbl s todo' (p + 1) start b rlen
    | Some to =>
      b1 ← strncat_at b rlen (drop start s) (p - start);
      b2 ← strncat_at b1 (rlen + (p - start)) to (length to);
      translate_loop tbl s todo' (p + 1) (p + 1) b2 (rlen + (p - start) + length to)
    end
  end.

Section Encode.
Context `{Allocator} `{Locale}.

Definition output_translate (output_format : OutputFormat) (pstr : pstring)
  : prog mem (option pstring) :=
  assert_ (negb (bool_decide (output_format = OUTPUT_FORMAT_TEXT)))
    "output_format != OUTPUT_FORMAT_TEXT";;
  assert_ (negb (bool_decide (output_format = OUTPUT_FORMAT_CRUMB)))
    "output_format != OUTPUT_FORMAT_CRUMB";;
  let table := translate_map output_format in
  match buf pstr with
  | None => abort "str"
  | Some sb =>
    s ← pure (string_at sb 0);
    let extra := list_sum (map (extra_of table) s) in
    if Nat.eqb extra 0 then pstring_create s
    else
      let n := len pstr + extra in
      result ← pstring_new;
      match result with
      | None => mret None
      | Some _ =>
        q ← malloc_buf n;
        match q with
        | None => mret None
        | Some b =>
          b0 ← pure (memset b 0 n);
          last ← pure (load b0 (n - 1));
          assert_ (Z.eqb last 0) "result->buf[len-1] == 0";;
          '(b1, rlen, start) ← pure (translate_loop table s s 0 0 b0 0);
          b2 ← pure (strncat_at b1 rlen (drop start s) (length s - start));
          last ← pure (load b2 (n - 1));
          assert_ (Z.eqb last 0) "result->buf[len-1] == 0";;
          mret (Some (mk_pstring (Some b2) (rlen + (length s - start) + 1)
                        (n * sizeof_wchar_t)))
        end
      end
  end.

Definition json_format : wstr := BACKSLASH :: lit "u%4.4x".
Definition xml_format : wstr := lit "&#x%2.2x;".

(** The length of "&#x..;" and of "\u....". *)
Definition escape_len : nat := 6.

(** [swprintf (q, n, fmt, c)] with [q] an index of [b]: what does not fit in
    [n] elements gives -1 and leaves those elements unspecified. *)
Definition swprintf_at (b : buffer) (q n : nat) (fmt : wstr) (c : Z) : outcome (buffer * Z) :=
  o ← format_wcs fmt [ANum c];
  match o with
  | Some t =>
    if Nat.ltb (length t) n then b' ← store_all b q (t ++ [0%Z]); Ok (b', Z.of_nat (length t))
    else if bool_decide (q + n <= length b)
         then Ok (take q b ++ replicate n None ++ drop (q + n) b, (-1)%Z)
         else UB "write outside the buffer"
  | None => UB "conversion of a number failed"
  end.

(** The loop that writes the printable characters as they are and the others
    as escapes; the result is the buffer and the last value of [ret]. *)
Fixpoint escape_loop (fmt : wstr) (new_size : nat) (s : wstr) (b : buffer) (q : Z) (ret : Z)
  : outcome (buffer * Z) :=
  match s with
  | [] => Ok (b, ret)
  | c :: s' =>
    if Z.ltb q 0 then UB "pointer before the buffer"
    else if iswprint c then
      b' ← store b (Z.to_nat q) c;
      escape_loop fmt new_size s' b' (q + 1)%Z ret
    else
      '(b', r) ← swprintf_at b (Z.to_nat q) new_size fmt c;
      escape_loop fmt new_size s' b' (q + r)%Z r
  end.

Definition encode_string (output_format : OutputFormat) (pstr : pstring)
  : prog mem (Z * pstring) :=
  if Nat.leb (len pstr) 1 then mret (0%Z, pstr)
  else
    new ← (match output_format with
           | OUTPUT_FORMAT_CRUMB | OUTPUT_FORMAT_TEXT => mret (Some pstr)
           | OUTPUT_FORMAT_JSON | OUTPUT_FORMAT_XML => output_translate output_format pstr
           end);
    match new with
    | None => mret ((-1)%Z, pstr)
    | Some pstr1 =>
      s ← pure (match buf pstr1 with None => Ok [] | Some b => string_at b 0 end);
      let non_printables := length (List.filter (fun c => negb (iswprint c)) s) in
      let fmt := match output_format with OUTPUT_FORMAT_JSON => json_format | _ => xml_format end in
      if negb (Nat.eqb non_printables 0) &&
         (bool_decide (output_format = OUTPUT_FORMAT_XML)
          || bool_decide (output_format = OUTPUT_FORMAT_JSON)) then
        let new_size := len pstr1 - non_printables + non_printables * escape_len in
        new ← pstring_new;
        match new with
        | None => mret ((-1)%Z, pstr1)
        | Some _ =>
          q ← malloc_buf (1 + new_size);
          match q with
          | None => mret ((-1)%Z, pstr1)
          | Some b =>
            b0 ← pure (memset b 0 (1 + new_size));
            '(b1, ret) ← pure (escape_loop fmt new_size s b0 0 0);
            n ← pure (strlen_at b1 0);
            mret (ret, mk_pstring (Some b1) (n + 1) ((1 + new_size) * sizeof_wchar_t))
          end
        end
      else mret (0%Z, pstr1)
    end.
End Encode.

(** ** The encoded text *)
Definition translate_char (tbl : list (Z * wstr)) (c : Z) : wstr :=
  default [c] (map_lookup tbl c).

Definition translate_text (f : OutputFormat) (s : wstr) : wstr :=
  concat (map (translate_char (translate_map f)) s).

Definition escape_format (f : OutputFormat) : wstr :=
  match f with OUTPUT_FORMAT_JSON => json_format | _ => xml_format end.

(** The escape of a character, four digits at least in JSON and two in XML. *)
Definition escape_char (f : OutputFormat) (c : Z) : wstr :=
  match f with
  | OUTPUT_FORMAT_JSON => BACKSLASH :: lit "u" ++ zeros 4 (digits 16 c)
  | _ => lit "&#x" ++ zeros 2 (digits 16 c) ++ lit ";"
  end.

Definition escape_text `{Locale} (f : OutputFormat) (s : wstr) : wstr :=
  concat (map (fun c => if iswprint c then [c] else escape_char f c) s).

Definition encode_text `{Locale} (f : OutputFormat) (s : wstr) : wstr :=
  match f with
  | OUTPUT_FORMAT_TEXT | OUTPUT_FORMAT_CRUMB => s
  | _ => escape_text f (translate_text f s)
  end.

(** The code points whose escape has the length the code allows for. *)
Definition escape_limit (f : OutputFormat) : Z :=
  match f with OUTPUT_FORMAT_JSON => 65536 | _ => 256 end.

Definition escapable `{Locale} (f : OutputFormat) (s : wstr) : Prop :=
  Forall (fun c => iswprint c = false -> (0 <= c < escape_limit f)%Z) s.

(** ** Escapes *)
Lemma format_escape `{Locale} f c :
  (0 <= c < 2 ^ 32)%Z -> format_wcs (escape_format f) [ANum c] = Ok (Some (escape_char f c)).
Proof.
  intros Hc.
  assert (to_unsigned 32 c = c) as E by (apply Z.mod_small; lia).
  assert (forall k, pad false k (zeros k (digits 16 c)) = zeros k (digits 16 c)) as Hp.
  { intros k. unfold pad. replace (k - length (zeros k (digits 16 c))) with 0; [done|].
    unfold zeros. len_lia. }
  unfold format_wcs, format_with.
  destruct f; cbv -[to_unsigned digits zeros pad app opt_app Z.pow];
    rewrite E, app_nil_l, Hp; cbn [opt_app app]; by rewrite ?app_nil_r.
Qed.

Lemma length_escape_char f c :
  (0 <= c < escape_limit f)%Z -> length (escape_char f c) = escape_len.
Proof.
  intros Hc. unfold escape_char, escape_limit in *.
  destruct f; cbn [length app]; rewrite ?length_app; rewrite zeros_length; try done;
    apply (digits_length 16); done || (cbn; lia).
Qed.

Lemma nz_digits c k : (0 <= c)%Z -> nz (zeros k (digits 16 c)).
Proof.
  intros Hc. unfold nz. eapply Forall_impl.
  - apply (zeros_chars 16); [lia|]. by apply digits_chars.
  - intros d Hd. apply is_digit_char_range in Hd; lia.
Qed.

Lemma nz_escape_char f c : (0 <= c)%Z -> nz (escape_char f c).
Proof.
  intros Hc. pose proof (nz_digits c 4 Hc). pose proof (nz_digits c 2 Hc).
  assert (nz (lit "&#x" ++ zeros 2 (digits 16 c) ++ lit ";")) as Hx.
  { apply nz_app. split; [nz_lit|]. apply nz_app. split; [done|nz_lit]. }
  assert (nz ([BACKSLASH; 117%Z] ++ zeros 4 (digits 16 c))) as Hj.
  { apply nz_app. split; [by repeat constructor|done]. }
  by destruct f.
Qed.

(** ** Translation *)
Lemma map_lookup_extra f c :
  length (translate_char (translate_map f) c) = 1 + extra_of (translate_map f) c.
Proof.
  unfold translate_char, extra_of.
  destruct f; cbn;
    repeat match goal with |- context [Z.eqb c ?k] => destruct (Z.eqb_spec c k) as [->|]; cbn end;
    done.
Qed.

Lemma nz_map_lookup f c t : map_lookup (translate_map f) c = Some t -> nz t.
Proof.
  destruct f; cbn;
    repeat match goal with |- context [Z.eqb c ?k] => destruct (Z.eqb_spec c k) as [->|]; cbn end;
    intros [= <-]; by repeat constructor.
Qed.

Lemma list_sum_cons x l : list_sum (x :: l) = x + list_sum l.
Proof. done. Qed.

Lemma length_translate_text f s :
  length (translate_text f s) = length s + list_sum (map (extra_of (translate_map f)) s).
Proof.
  unfold translate_text. induction s as [|c s IH]; [done|].
  cbn [map concat length]. rewrite length_app, IH, map_lookup_extra, list_sum_cons. lia.
Qed.

Lemma nz_translate_text f s : nz s -> nz (translate_text f s).
Proof.
  unfold translate_text. induction 1 as [|c s Hc Hs IH]; [constructor|].
  cbn. apply nz_app. split; [|done]. unfold translate_char.
  destruct (map_lookup _ c) eqn:E; [by eapply nz_map_lookup|by repeat constructor].
Qed.

Lemma translate_text_same f s :
  list_sum (map (extra_of (translate_map f)) s) = 0 -> translate_text f s = s.
Proof.
  unfold translate_text. induction s as [|c s IH]; [done|]. cbn [map concat].
  rewrite list_sum_cons. intros Hz.
  rewrite IH by lia. assert (extra_of (translate_map f) c = 0) as Hc by lia.
  assert (translate_char (translate_map f) c = [c]) as ->; [|done].
  revert Hc. unfold translate_char, extra_of.
  destruct f; cbn;
    repeat match goal with |- context [Z.eqb c ?k] => destruct (Z.eqb_spec c k) as [->|]; cbn end;
    done.
Qed.

Section Translate.
Context (f : OutputFormat).
Let tbl := translate_map f.
Let tr := translate_text f.

(** [t] is what has been written, [pend] what has been read but not
    written. *)
Lemma translate_loop_ok s front pend todo t j :
  nz s -> s = front ++ pend ++ todo -> length j = length pend + length (tr todo) ->
  exists front' pend' t' j',
    translate_loop tbl s todo (length front + length pend) (length front) (holding t j) (length t)
      = Ok (holding t' j', length t', length front') /\
    s = front' ++ pend' /\ t' ++ pend' = t ++ pend ++ tr todo /\ length j' = length pend'.
Proof.
  intros Hnz. revert front pend t j.
  induction todo as [|c todo IH]; intros front pend t j Es Hj; cbn [translate_loop].
  { exists front, pend, t, j. change (tr []) with (@nil Z) in *. cbn [length] in Hj.
    rewrite !app_nil_r in *. split_and!; [done|done|done|lia]. }
  assert (tr (c :: todo) = translate_char tbl c ++ tr todo) as Etr by done.
  destruct (map_lookup tbl c) as [to|] eqn:E.
  - assert (translate_char tbl c = to) as Ec by (unfold translate_char; by rewrite E).
    rewrite Ec in Etr. rewrite Etr in *. rewrite length_app in Hj.
    pose proof (nz_map_lookup f c to E) as Hto.
    replace (length front + length pend - length front) with (length pend) by lia.
    assert (drop (length front) s = pend ++ c :: todo) as -> by by rewrite Es, drop_app_length.
    assert (nz (pend ++ c :: todo)) as Hp by (rewrite Es in Hnz; by apply nz_app in Hnz as [_ ?]).
    pose proof (take_app_length pend (c :: todo)) as Htk.
    pose proof (strncat_end t (pend ++ c :: todo) (take (length pend) j) (drop (length pend) j)
                  (length pend) Hp) as H1.
    rewrite take_drop, Htk in H1. rewrite H1 by len_lia. cbn [mbind outcome_bind].
    replace (length t + length pend) with (length (t ++ pend)) by len_lia.
    pose proof (strncat_end (t ++ pend) to (take (length to) (drop (length pend) j))
                  (drop (length to) (drop (length pend) j)) (length to) Hto) as H2.
    rewrite take_drop, (take_ge to) in H2 by done. rewrite H2 by len_lia. cbn [mbind outcome_bind].
    replace (length (t ++ pend) + length to) with (length ((t ++ pend) ++ to)) by len_lia.
    destruct (IH (front ++ pend ++ [c]) [] ((t ++ pend) ++ to)
                (drop (length to) (drop (length pend) j)))
      as (front' & pend' & t' & j' & Hrun & E1 & E2 & E3).
    + rewrite Es. by rewrite <- !app_assoc.
    + cbn [length]. len_lia.
    + exists front', pend', t', j'. split_and!; [|done|by rewrite E2, <- !app_assoc|done].
      rewrite <- Hrun. f_equal; len_lia.
  - assert (translate_char tbl c = [c]) as Ec by (unfold translate_char; by rewrite E).
    rewrite Ec in Etr. rewrite Etr in *.
    destruct (IH front (pend ++ [c]) t j) as (front' & pend' & t' & j' & Hrun & E1 & E2 & E3).
    + rewrite Es. by rewrite <- app_assoc.
    + len_lia.
    + exists front', pend', t', j'. split_and!; [|done|by rewrite E2, <- !app_assoc|done].
      rewrite <- Hrun. f_equal. len_lia.
Qed.
End Translate.

Lemma map_lookup_ascii f c t :
  map_lookup (translate_map f) c = Some t -> Forall (fun c => (32 <= c <= 126)%Z) t.
Proof.
  destruct f; cbn;
    repeat match goal with |- context [Z.eqb c ?k] => destruct (Z.eqb_spec c k) as [->|]; cbn end;
    intros [= <-]; repeat constructor; unfold BACKSLASH, DQUOTE; lia.
Qed.

(** ** The two passes in a run where every allocation succeeds *)
Section EncodeLemmas.
Context `{AllocTotal} `{LocaleLaws}.
Implicit Types (s t : wstr) (f : OutputFormat).

(** A string as [encode_string] takes and returns it: the length counts the
    terminator. *)
Definition encoded (d : pstring) s : Prop :=
  (exists junk, buf d = Some (holding s junk)) /\ len d = length s + 1.

Definition markup f : Prop := f = OUTPUT_FORMAT_JSON \/ f = OUTPUT_FORMAT_XML.

Lemma load_zeros n i : i < n -> load (replicate n (Some 0%Z)) i = Ok 0%Z.
Proof. intros Hi. unfold load. by rewrite lookup_replicate_2. Qed.

Lemma output_translate_ok f d s m :
  markup f -> encoded d s -> nz s ->
  exists d' m', output_translate f d m = Ok (Some d', m') /\ encoded d' (translate_text f s) /\
                ticked m m'.
Proof.
  intros Hf [[junk Hb] Hl] Hnz. unfold output_translate.
  erewrite prog_bind_ok by (by destruct Hf as [-> | ->]). cbv beta.
  erewrite prog_bind_ok by (by destruct Hf as [-> | ->]). cbv beta. rewrite Hb.
  step_with (pure_ok _ _ m (string_at_start s junk Hnz)).
  destruct (Nat.eqb_spec (list_sum (map (extra_of (translate_map f)) s)) 0) as [E|E].
  { rewrite (translate_text_same f s E).
    exists (created s), (ticks 2 m). split_and!; [by apply pstring_create_ok| |apply ticked_ticks].
    split; [by exists []|]. cbn. lia. }
  pose proof (length_translate_text f s) as Hlen. set (extra := list_sum _) in *.
  rewrite Hl. step_with (pstring_new_ok m).
  step_with (malloc_buf_run (length s + 1 + extra) (tick m)).
  set (m2 := tick (tick m)). set (n := length s + 1 + extra) in *.
  step_with (pure_ok _ _ m2 (memset_all (replicate n None) 0%Z n ltac:(len_lia))).
  step_with (pure_ok _ _ m2 (load_zeros n (n - 1) ltac:(lia))).
  erewrite prog_bind_ok by reflexivity. cbv beta.
  assert (replicate n (Some 0%Z) = holding [] (replicate (n - 1) (Some 0%Z))) as ->.
  { by replace n with (S (n - 1)) at 1 by lia. }
  destruct (translate_loop_ok f s [] [] s [] (replicate (n - 1) (Some 0%Z)) Hnz eq_refl)
    as (front & pend & t & j & Hrun & Es & Et & Hj); [cbn [length]; len_lia|].
  cbn [length Nat.add] in Hrun. step_with (pure_ok _ _ m2 Hrun).
  assert (drop (length front) s = pend) as -> by by rewrite Es, drop_app_length.
  assert (length s - length front = length pend) as -> by (rewrite Es; len_lia).
  assert (nz pend) as Hp by (rewrite Es in Hnz; by apply nz_app in Hnz as [_ ?]).
  pose proof (strncat_end t pend j [] (length pend) Hp) as Hcat.
  rewrite app_nil_r, take_ge in Hcat by done.
  step_with (pure_ok _ _ m2 (Hcat Hj)). cbn [app] in Et.
  rewrite Et. assert (length t + length pend = length (translate_text f s)) as El.
  { rewrite <- length_app. by rewrite Et. }
  assert (load (holding (translate_text f s) []) (n - 1) = Ok 0%Z) as Hld.
  { unfold holding. apply load_middle. len_lia. }
  step_with (pure_ok _ _ m2 Hld). erewrite prog_bind_ok by reflexivity. cbv beta.
  eexists _, m2. split; [reflexivity|]. split; [|by exists 2].
  split; [by exists []|]. cbn [len]. lia.
Qed.

(** ** What the escapes need

    The buffer of [encode_string] has room for [escape_len] characters a
    non-printable one, [swprintf] being told of one more than the text can
    need; the characters an escape has beyond [escape_len] are its excess. *)
Definition escape_excess f s : nat :=
  list_sum (map (fun c => if iswprint c then 0 else length (escape_char f c) - escape_len) s).

(** In all, one character more than expected is no harm, except when the string
    is that one character. *)
Definition escapes_fit f s : bool :=
  Nat.leb (escape_excess f s) (if Nat.eqb (length s) 1 then 0 else 1).

(** The characters [%x] prints as they are. *)
Definition coded s : Prop := Forall (fun c => iswprint c = false -> (0 <= c < 2 ^ 32)%Z) s.

Definition unprintables s : nat := length (List.filter (fun c => negb (iswprint c)) s).

(** The part of [encode_string] that escapes. *)
Definition escape_size s : nat := length s + 1 - unprintables s + unprintables s * escape_len.

Definition escape_run f s : outcome (buffer * nat * Z) :=
  '(b, ret) ← escape_loop (escape_format f) (escape_size s) s
                (replicate (1 + escape_size s) (Some 0%Z)) 0 0;
  n ← strlen_at b 0; Ok (b, n, ret).

Lemma length_escape_char_range f c :
  (0 <= c < 2 ^ 32)%Z -> escape_len <= length (escape_char f c) <= 12.
Proof.
  intros Hc.
  assert (length (digits 16 c) <= 8) as Hu by (apply (digits_length 16); [lia|change (16 ^ Z.of_nat 8)%Z with (2 ^ 32)%Z; lia]).
  unfold escape_len. destruct f; cbn [escape_char]; unfold zeros;
    change (lit "&#x") with [38%Z; 35%Z; 120%Z]; change (lit "u") with [117%Z];
    change (lit ";") with [59%Z]; len_lia.
Qed.

Lemma length_escape_text f s :
  coded s ->
  length (escape_text f s) = length s + (escape_len - 1) * unprintables s + escape_excess f s /\
  unprintables s <= length s.
Proof.
  unfold escape_text, unprintables, escape_excess. induction 1 as [|c s Hc _ [IH1 IH2]]; [done|].
  cbn [map concat List.filter]. rewrite list_sum_cons, length_app, IH1.
  destruct (iswprint c); cbn [negb length]; [lia|].
  pose proof (length_escape_char_range f c (Hc eq_refl)). unfold escape_len in *. lia.
Qed.

Lemma unprintables_app s t : unprintables (s ++ t) = unprintables s + unprintables t.
Proof. unfold unprintables. by rewrite List.filter_app, length_app. Qed.

Lemma unprintables_none s : unprintables s = 0 -> Forall (fun c => iswprint c = true) s.
Proof.
  unfold unprintables. induction s as [|c s IH]; [constructor|]. cbn.
  destruct (iswprint c) eqn:E; cbn; [|done]. intros Hs. constructor; auto.
Qed.

(** No escape is longer than the excess of them all allows for. *)
Lemma escape_excess_char f s c :
  c ∈ s -> iswprint c = false -> length (escape_char f c) <= escape_len + escape_excess f s.
Proof.
  intros Hin Hp. unfold escape_excess. induction s as [|x s IH]; [by apply not_elem_of_nil in Hin|].
  cbn [map]. rewrite list_sum_cons. apply elem_of_cons in Hin as [<-|Hin]; [rewrite Hp; lia|].
  specialize (IH Hin). lia.
Qed.

Lemma escapable_coded f s : escapable f s -> coded s /\ escape_excess f s = 0.
Proof.
  unfold escapable, coded, escape_excess. intros Hs. split.
  - eapply Forall_impl; [exact Hs|]. intros c Hc Hp. specialize (Hc Hp). destruct f; cbn in Hc; lia.
  - induction Hs as [|c s Hc _ IH]; [done|]. cbn [map]. rewrite list_sum_cons, IH.
    destruct (iswprint c); [done|]. by rewrite length_escape_char by by apply Hc.
Qed.

Lemma coded_translate f s : coded s -> coded (translate_text f s).
Proof.
  unfold coded, translate_text. induction 1 as [|c s Hc _ IH]; [constructor|].
  cbn [map concat]. apply Forall_app. split; [|done]. unfold translate_char.
  destruct (map_lookup _ c) as [t|] eqn:E; cbn; [|by constructor].
  apply map_lookup_ascii in E. eapply Forall_impl; [exact E|].
  intros d Hd. by rewrite iswprint_ascii.
Qed.

Lemma nz_escape_text f s : nz s -> coded s -> nz (escape_text f s).
Proof.
  unfold coded, escape_text. intros Hnz. induction 1 as [|c s Hc _ IH]; [constructor|].
  apply Forall_cons_1 in Hnz as [Hc0 Hnz]. cbn [map concat]. apply nz_app. split; [|by apply IH].
  destruct (iswprint c); [by repeat constructor|]. by apply nz_escape_char, Hc.
Qed.

Lemma escape_text_printable f s : unprintables s = 0 -> escape_text f s = s.
Proof.
  intros Hs%unprintables_none. unfold escape_text.
  induction Hs as [|c s Hc _ IH]; [done|]. cbn. by rewrite Hc, IH.
Qed.

(** The loop after [t], [r] cells being left: one character more. *)
Lemma escape_step_printable f s c t r n ret :
  iswprint c = true ->
  escape_loop (escape_format f) n (c :: s) (map Some t ++ replicate (S r) (Some 0%Z))
    (Z.of_nat (length t)) ret
  = escape_loop (escape_format f) n s (map Some (t ++ [c]) ++ replicate r (Some 0%Z))
      (Z.of_nat (length (t ++ [c]))) ret.
Proof.
  intros Hp. cbn [escape_loop]. destruct (Z.ltb_spec (Z.of_nat (length t)) 0) as [|_]; [lia|].
  rewrite Nat2Z.id, Hp. cbn [replicate]. rewrite store_middle by len_lia. cbn [mbind outcome_bind].
  rewrite map_app, <- app_assoc. f_equal. len_lia.
Qed.

Lemma escape_step_escape f s c t r n ret :
  iswprint c = false -> (0 <= c < 2 ^ 32)%Z -> length (escape_char f c) < n ->
  length (escape_char f c) < r ->
  escape_loop (escape_format f) n (c :: s) (map Some t ++ replicate r (Some 0%Z))
    (Z.of_nat (length t)) ret
  = escape_loop (escape_format f) n s
      (map Some (t ++ escape_char f c) ++ replicate (r - length (escape_char f c)) (Some 0%Z))
      (Z.of_nat (length (t ++ escape_char f c))) (Z.of_nat (length (escape_char f c))).
Proof.
  intros Hp Hc Hn Hr. cbn [escape_loop].
  destruct (Z.ltb_spec (Z.of_nat (length t)) 0) as [|_]; [lia|].
  rewrite Nat2Z.id, Hp. unfold swprintf_at. rewrite format_escape by done. cbn [mbind outcome_bind].
  set (e := escape_char f c) in *. destruct (Nat.ltb_spec (length e) n) as [_|]; [|lia].
  replace r with (length (e ++ [0%Z]) + (r - length (e ++ [0%Z]))) at 1 by len_lia.
  rewrite replicate_add. rewrite store_all_middle by len_lia. cbn [mbind outcome_bind]. f_equal; [|len_lia].
  replace (r - length e) with (S (r - length (e ++ [0%Z]))) by len_lia.
  by rewrite !map_app, <- !app_assoc.
Qed.

Lemma escape_loop_ok f s t r n ret :
  Forall (fun c => iswprint c = false -> (0 <= c < 2 ^ 32)%Z /\ length (escape_char f c) < n) s ->
  length (escape_text f s) < r -> (0 <= ret)%Z ->
  exists r' ret',
    escape_loop (escape_format f) n s (map Some t ++ replicate r (Some 0%Z)) (Z.of_nat (length t)) ret
      = Ok (holding (t ++ escape_text f s) (replicate r' (Some 0%Z)), ret') /\ (0 <= ret')%Z.
Proof.
  intros Hs. revert t r ret. induction Hs as [|c s Hc _ IH]; intros t r ret Hr Hret.
  { exists (r - 1), ret. split; [|done]. cbn [escape_loop]. rewrite app_nil_r.
    destruct r as [|r]; [cbn in Hr; lia|]. unfold holding. cbn. by rewrite Nat.sub_0_r. }
  unfold escape_text in *. cbn [map concat] in *. rewrite length_app in Hr. rewrite app_assoc.
  destruct (iswprint c) eqn:Hp.
  - cbn [length] in Hr. destruct r as [|r]; [lia|]. rewrite escape_step_printable by done.
    apply IH; [lia|done].
  - destruct (Hc eq_refl). rewrite escape_step_escape by (done || lia). apply IH; lia.
Qed.

(** The loop when there is no room left for a terminator: either it writes
    outside the buffer or the text it leaves has no end. *)
Lemma escape_loop_overflow f s t r n ret :
  nz t -> nz s ->
  Forall (fun c => iswprint c = false -> (0 <= c < 2 ^ 32)%Z /\ length (escape_char f c) < n) s ->
  r <= length (escape_text f s) ->
  exists why,
    ('(b, ret) ← escape_loop (escape_format f) n s (map Some t ++ replicate r (Some 0%Z))
                   (Z.of_nat (length t)) ret;
     k ← strlen_at b 0; Ok (b, k, ret)) = UB why.
Proof.
  intros Ht Hnz Hs. revert t r ret Ht. induction Hs as [|c s Hc Hs IH]; intros t r ret Ht Hr.
  { cbn in Hr. assert (r = 0) as -> by lia. cbn [escape_loop mbind outcome_bind replicate].
    rewrite app_nil_r. unfold strlen_at, string_at. rewrite bool_decide_true by lia. rewrite drop_0.
    exists "no terminator in the buffer".
    induction Ht as [|c t Hc Ht IH]; [done|]. cbn. destruct c; [done| |].
    all: revert IH; destruct (scan (map Some t)); cbn; congruence. }
  apply Forall_cons_1 in Hnz as [Hc0 Hnz]. specialize (IH Hnz).
  unfold escape_text in *. cbn [map concat] in *. rewrite length_app in Hr.
  destruct (iswprint c) eqn:Hp.
  - cbn [length] in *. destruct r as [|r].
    { cbn [escape_loop replicate]. destruct (Z.ltb_spec (Z.of_nat (length t)) 0) as [|_]; [lia|].
      rewrite Nat2Z.id, Hp, app_nil_r. unfold store. rewrite bool_decide_false by len_lia. by eexists. }
    rewrite escape_step_printable by done. apply IH; [|lia]. apply nz_app. split; [done|by repeat constructor].
  - destruct (Hc eq_refl) as [Hc32 Hfit]. destruct (decide (length (escape_char f c) < r)) as [Hlt|Hge].
    + rewrite escape_step_escape by done. apply IH; [|lia]. apply nz_app. split; [done|].
      apply nz_escape_char. lia.
    + cbn [escape_loop]. destruct (Z.ltb_spec (Z.of_nat (length t)) 0) as [|_]; [lia|].
      rewrite Nat2Z.id, Hp. unfold swprintf_at. rewrite format_escape by done. cbn [mbind outcome_bind].
      destruct (Nat.ltb_spec (length (escape_char f c)) n) as [_|]; [|lia].
      unfold store_all. rewrite bool_decide_false by len_lia. by eexists.
Qed.

(** A [swprintf] that fails, in a string that has no other non-printable
    character: it has made the text unreadable and moved back by one. *)
Lemma scan_indeterminate t b : nz t -> exists why, scan (map Some t ++ None :: b) = UB why.
Proof.
  induction 1 as [|c t Hc _ [why IH]]; [by eexists|]. exists why. cbn.
  destruct c; [done| |]; by rewrite IH.
Qed.

Lemma escape_loop_printable n fmt s t k b ret :
  Forall (fun c => iswprint c = true) s -> length s <= k ->
  escape_loop fmt n s (map Some t ++ replicate k None ++ b) (Z.of_nat (length t)) ret
  = Ok (map Some (t ++ s) ++ replicate (k - length s) None ++ b, ret).
Proof.
  intros Hs. revert t k. induction Hs as [|c s Hc _ IH]; intros t k Hk; cbn [escape_loop].
  { by rewrite app_nil_r, Nat.sub_0_r. }
  destruct (Z.ltb_spec (Z.of_nat (length t)) 0) as [|_]; [lia|]. rewrite Nat2Z.id, Hc.
  destruct k as [|k]; [cbn in Hk; lia|]. cbn [replicate app length] in *.
  rewrite store_middle by len_lia. cbn [mbind outcome_bind].
  specialize (IH (t ++ [c]) k ltac:(lia)). rewrite map_app, <- !app_assoc in IH. cbn [map app] in IH.
  replace (Z.of_nat (length t) + 1)%Z with (Z.of_nat (length (t ++ [c]))) by len_lia. by rewrite IH.
Qed.

Lemma escape_loop_prefix f t1 s t r n ret :
  Forall (fun c => iswprint c = true) t1 -> length t1 <= r ->
  escape_loop (escape_format f) n (t1 ++ s) (map Some t ++ replicate r (Some 0%Z))
    (Z.of_nat (length t)) ret
  = escape_loop (escape_format f) n s (map Some (t ++ t1) ++ replicate (r - length t1) (Some 0%Z))
      (Z.of_nat (length (t ++ t1))) ret.
Proof.
  intros Hs. revert t r. induction Hs as [|c t1 Hc _ IH]; intros t r Hr.
  { by rewrite app_nil_r, Nat.sub_0_r. }
  cbn [app length] in *. destruct r as [|r]; [lia|].
  rewrite escape_step_printable by done. rewrite IH by lia. by rewrite <- !app_assoc.
Qed.

Lemma escape_run_failing f t1 c t2 n :
  Forall (fun c => iswprint c = true) t1 -> Forall (fun c => iswprint c = true) t2 ->
  iswprint c = false -> (0 <= c < 2 ^ 32)%Z -> nz t1 -> nz t2 ->
  n <= length (escape_char f c) -> length t1 + length t2 < n ->
  exists why,
    ('(b, ret) ← escape_loop (escape_format f) n (t1 ++ c :: t2) (replicate (1 + n) (Some 0%Z)) 0 0;
     k ← strlen_at b 0; Ok (b, k, ret)) = UB why.
Proof.
  intros Hp1 Hp2 Hp Hc Hnz1 Hnz Hn Hl.
  pose proof (escape_loop_prefix f t1 (c :: t2) [] (1 + n) n 0 Hp1 ltac:(lia)) as E.
  cbn [map app length] in E. change (Z.of_nat 0) with 0%Z in E. rewrite E. clear E. cbn [escape_loop].
  destruct (Z.ltb_spec (Z.of_nat (length t1)) 0) as [|_]; [lia|]. rewrite Nat2Z.id, Hp.
  unfold swprintf_at. rewrite format_escape by done. cbn [mbind outcome_bind].
  destruct (Nat.ltb_spec (length (escape_char f c)) n) as [|_]; [lia|].
  destruct (decide (length t1 <= 1)) as [Ht|Ht]; cycle 1.
  { rewrite bool_decide_false by len_lia. by eexists. }
  rewrite bool_decide_true by len_lia. cbn [mbind outcome_bind].
  destruct t1 as [|x [|]]; [| |cbn in Ht; lia]; cbn [length map app take] in *.
  - cbn [take app]. destruct t2 as [|y t2]; cbn; [|by eexists].
    destruct n as [|n]; [lia|]. by eexists.
  - rewrite drop_ge by len_lia. rewrite app_nil_r.
    destruct t2 as [|y t2]; cbn [escape_loop].
    { destruct n as [|n]; [lia|]. cbn [mbind outcome_bind]. unfold strlen_at, string_at. cbn. clear Hp1 Hl Hn.
      apply Forall_cons_1 in Hnz1 as [Hx _]. destruct x; [done| |]; by eexists. }
    apply Forall_cons_1 in Hp2 as [Hy Hp2]. apply Forall_cons_1 in Hnz as [Hy0 Hnz]. rewrite Hy.
    cbn [length] in Hl.
    pose proof (escape_loop_printable n (escape_format f) t2 [y] n [] (-1) Hp2 ltac:(lia)) as E.
    rewrite app_nil_r in E. cbn in E. change (Z.of_nat 1) with 1%Z in E.
    change (Z.of_nat 1 + -1)%Z with 0%Z. cbn [Z.ltb Z.compare].
    change (Z.to_nat 0) with 0. rewrite take_0. cbn [app].
    pose proof (store_middle [] (Some x) (replicate n None) y 0 eq_refl) as Es. cbn [app] in Es.
    rewrite Es. cbn [mbind outcome_bind].
    change (0 + 1)%Z with 1%Z. rewrite E. cbn [mbind outcome_bind].
    destruct (scan_indeterminate (y :: t2) (replicate (n - length t2 - 1) None)) as [why Hw];
      [by constructor|].
    exists why. unfold strlen_at, string_at. rewrite bool_decide_true by lia. rewrite drop_0, app_nil_r.
    replace (n - length t2) with (S (n - length t2 - 1)) by lia. cbn in *. by rewrite Hw.
Qed.

(** ** The two outcomes of the escapes *)
Lemma escape_size_eq f s : coded s -> escape_size s = length s + 1 + (escape_len - 1) * unprintables s.
Proof. intros Hs. destruct (length_escape_text f s Hs). unfold escape_size, escape_len in *. lia. Qed.

Lemma escapes_fit_true f s :
  escapes_fit f s = true <-> escape_excess f s <= (if Nat.eqb (length s) 1 then 0 else 1).
Proof. apply Nat.leb_le. Qed.

Lemma escape_run_ok f s :
  nz s -> coded s -> unprintables s <> 0 -> escapes_fit f s = true ->
  exists r ret, (0 <= ret)%Z /\
    escape_run f s = Ok (holding (escape_text f s) (replicate r (Some 0%Z)),
                         length (escape_text f s), ret).
Proof.
  intros Hnz Hs Hn Hfit%escapes_fit_true. destruct (length_escape_text f s Hs) as [Hl Hle].
  pose proof (escape_size_eq f s Hs) as Hz. unfold escape_run. set (n := escape_size s) in *.
  destruct (escape_loop_ok f s [] (1 + n) n 0) as (r & ret & E & Hret); [| |done|].
  - apply Forall_forall. intros c Hin Hp. split.
    + by apply (proj1 (Forall_forall _ _) Hs c Hin).
    + pose proof (escape_excess_char f s c Hin Hp). unfold escape_len in *.
      destruct (Nat.eqb_spec (length s) 1); lia.
  - destruct (Nat.eqb_spec (length s) 1); lia.
  - cbn [map app length] in E. change (Z.of_nat 0) with 0%Z in E. rewrite E.
    cbn [mbind outcome_bind app].
    rewrite strlen_at_start by by apply nz_escape_text. by exists r, ret.
Qed.

Lemma escape_run_undefined f s :
  nz s -> coded s -> unprintables s <> 0 -> escapes_fit f s = false ->
  exists why, escape_run f s = UB why.
Proof.
  intros Hnz Hs Hn Hfit. destruct (length_escape_text f s Hs) as [Hl Hle].
  pose proof (escape_size_eq f s Hs) as Hz. unfold escape_run. set (n := escape_size s) in *. clearbody n.
  apply Nat.leb_gt in Hfit. unfold escape_len in Hl, Hz.
  destruct (decide (Forall (fun c => iswprint c = false -> length (escape_char f c) < n) s)) as [Hall|Hnot].
  - apply (escape_loop_overflow f s [] (1 + n) n 0); [constructor|done| |].
    + eapply Forall_impl; [exact (proj2 (Forall_and _ _) (conj Hs Hall))|]. cbn. tauto.
    + destruct (Nat.eqb_spec (length s) 1) as [Hone|]; [|lia]. exfalso.
      destruct s as [|c [|]]; [done| |done]. revert Hn Hfit Hz. unfold unprintables, escape_excess.
      apply Forall_cons_1 in Hall as [Hc _]. cbn. destruct (iswprint c); cbn; [lia|]. specialize (Hc eq_refl).
      unfold escape_len. lia.
  - apply not_Forall_Exists, Exists_exists in Hnot as (c & Hin & Hc); [|intros c; apply _]. cbn in Hc.
    assert (iswprint c = false) as Hp by (destruct (iswprint c) eqn:Ep; [destruct Hc; congruence|done]).
    assert (n <= length (escape_char f c)) as Hge by (destruct (decide (n <= length (escape_char f c))); [done|destruct Hc; lia]).
    pose proof (proj1 (Forall_forall _ _) Hs c Hin Hp) as Hcc.
    pose proof (length_escape_char_range f c Hcc).
    apply list_elem_of_split in Hin as (t1 & t2 & ->).
    rewrite unprintables_app, length_app in *. cbn [length] in *.
    assert (unprintables (c :: t2) = S (unprintables t2)) as Hu
      by (unfold unprintables; cbn; by rewrite Hp).
    apply nz_app in Hnz as [Hnz1 [_ Hnz]%Forall_cons_1].
    apply escape_run_failing; try done; try (apply unprintables_none); lia.
Qed.

Lemma encode_markup f s : markup f -> encode_text f s = escape_text f (translate_text f s).
Proof. by intros [-> | ->]. Qed.

(** Without markup the string is left as it is. *)
Lemma encode_string_plain f d s m :
  encoded d s -> nz s -> ~ markup f -> 1 < len d ->
  encode_string f d m = Ok ((0%Z, d), m) /\ encode_text f s = s.
Proof.
  intros [[junk Hb] Hlen] Hnz Hf Hl.
  assert (f = OUTPUT_FORMAT_TEXT \/ f = OUTPUT_FORMAT_CRUMB) as Hf'
    by (destruct f; [by left|by right|by destruct Hf; left|by destruct Hf; right]).
  split; [|by destruct Hf' as [-> | ->]]. unfold encode_string.
  destruct (Nat.leb_spec (len d) 1); [lia|].
  erewrite prog_bind_ok by (by destruct Hf' as [-> | ->]). cbv beta iota. rewrite Hb.
  step_with (pure_ok _ _ m (string_at_start s junk Hnz)).
  rewrite andb_false_intro2; [done|]. by destruct Hf' as [-> | ->].
Qed.

(** Markup: what the escapes leave is the result. *)
Lemma encode_string_run f d s m :
  markup f -> encoded d s -> nz s -> unprintables (translate_text f s) <> 0 ->
  exists m', ticked m m' /\
    encode_string f d m
    = ('(b, n, ret) ← pure (escape_run f (translate_text f s));
       mret (ret, mk_pstring (Some b) (n + 1)
                    ((1 + escape_size (translate_text f s)) * sizeof_wchar_t))) m'.
Proof.
  intros Hf Hd Hnz Hn. unfold encode_string. destruct (Nat.leb_spec (len d) 1) as [Hl|_].
  { destruct Hn. assert (s = []) as -> by (destruct Hd as [_ E]; destruct s; [done|cbn in E; lia]). done. }
  destruct (output_translate_ok f d s m Hf Hd Hnz) as (d1 & m1 & Htr & [[junk Hb1] Hl1] & Hm1).
  set (s1 := translate_text f s) in *.
  assert (nz s1) as Hnz1 by by apply nz_translate_text.
  erewrite prog_bind_ok; [|by destruct Hf as [-> | ->]; exact Htr]. cbv beta iota. rewrite Hb1.
  step_with (pure_ok _ _ m1 (string_at_start s1 junk Hnz1)).
  assert (bool_decide (f = OUTPUT_FORMAT_XML) || bool_decide (f = OUTPUT_FORMAT_JSON) = true) as ->
    by by destruct Hf as [-> | ->].
  fold (unprintables s1). rewrite andb_true_r, (proj2 (Nat.eqb_neq _ _) Hn). cbn [negb].
  rewrite Hl1. fold (escape_size s1).
  step_with (pstring_new_ok m1). step_with (malloc_buf_run (1 + escape_size s1) (tick m1)).
  set (m2 := tick (tick m1)).
  step_with (pure_ok _ _ m2 (memset_all (replicate (1 + escape_size s1) None) 0%Z (1 + escape_size s1)
                              ltac:(len_lia))).
  replace (match f with OUTPUT_FORMAT_JSON => json_format | _ => xml_format end)
    with (escape_format f) by by destruct Hf as [-> | ->].
  exists m2. split; [etrans; [exact Hm1|]; by exists 2|].
  unfold escape_run. destruct (escape_loop _ _ _ _ _ _) as [[b ret]| | | | |]; [|reflexivity..].
  erewrite prog_bind_ok by reflexivity. cbn [mbind outcome_bind]. by destruct (strlen_at b 0).
Qed.

(** Nothing to escape: the translation is the result. *)
Lemma encode_string_translated f d s m :
  markup f -> encoded d s -> nz s -> unprintables (translate_text f s) = 0 ->
  exists d' m', encode_string f d m = Ok ((0%Z, d'), m') /\ encoded d' (translate_text f s) /\ ticked m m'.
Proof.
  intros Hf Hd Hnz Hn. unfold encode_string. destruct (Nat.leb_spec (len d) 1) as [Hl|_].
  { exists d, m. assert (s = []) as -> by (destruct Hd as [_ E]; destruct s; [done|cbn in E; lia]).
    split_and!; [done|done|apply ticked_refl]. }
  destruct (output_translate_ok f d s m Hf Hd Hnz) as (d1 & m1 & Htr & [[junk Hb1] Hl1] & Hm1).
  assert (nz (translate_text f s)) as Hnz1 by by apply nz_translate_text.
  erewrite prog_bind_ok; [|by destruct Hf as [-> | ->]; exact Htr]. cbv beta iota. rewrite Hb1.
  step_with (pure_ok _ _ m1 (string_at_start _ junk Hnz1)).
  fold (unprintables (translate_text f s)). rewrite Hn. exists d1, m1. split_and!; [done| |done].
  split; [by exists junk|done].
Qed.

(** [encode_string] on a string whose escapes fit. *)
Lemma encode_string_fits f d s m :
  encoded d s -> nz s ->
  (markup f -> coded (translate_text f s) /\ escapes_fit f (translate_text f s) = true) ->
  exists ret d' m', encode_string f d m = Ok ((ret, d'), m') /\ (0 <= ret)%Z /\
    encoded d' (encode_text f s) /\ nz (encode_text f s) /\ ticked m m'.
Proof.
  intros Hd Hnz Hesc. destruct (decide (markup f)) as [Hf|Hf]; cycle 1.
  { destruct (Nat.leb_spec (len d) 1) as [Hl|Hl].
    - exists 0%Z, d, m. assert (s = []) as -> by (destruct Hd as [_ E]; destruct s; [done|cbn in E; lia]).
      unfold encode_string. rewrite (proj2 (Nat.leb_le _ _) Hl).
      split_and!; [done|done|by destruct f|by destruct f|apply ticked_refl].
    - destruct (encode_string_plain f d s m Hd Hnz Hf Hl) as [E ->].
      exists 0%Z, d, m. by split_and!; [|done| | |apply ticked_refl]. }
  destruct (Hesc Hf) as [Hc Hfit]. rewrite (encode_markup f s Hf).
  assert (nz (translate_text f s)) as Hnz1 by by apply nz_translate_text.
  destruct (decide (unprintables (translate_text f s) = 0)) as [Hn|Hn].
  - destruct (encode_string_translated f d s m Hf Hd Hnz Hn) as (d' & m' & E & Hd' & Hm').
    exists 0%Z, d', m'. rewrite (escape_text_printable f _ Hn). by split_and!.
  - destruct (encode_string_run f d s m Hf Hd Hnz Hn) as (m' & Hm' & E).
    destruct (escape_run_ok f _ Hnz1 Hc Hn Hfit) as (r & ret & Hret & Hrun).
    rewrite Hrun in E. eexists ret, _, m'. split_and!; [exact E|done| |by apply nz_escape_text|done].
    split; [by eexists|done].
Qed.

(** [encode_string] on a string it can escape. *)
Lemma encode_string_ok f d s m :
  encoded d s -> nz s -> (markup f -> escapable f (translate_text f s)) ->
  exists ret d' m', encode_string f d m = Ok ((ret, d'), m') /\ (0 <= ret)%Z /\
    encoded d' (encode_text f s) /\ nz (encode_text f s) /\ ticked m m'.
Proof.
  intros Hd Hnz Hesc. apply encode_string_fits; [done|done|]. intros Hf.
  destruct (escapable_coded f _ (Hesc Hf)) as [Hc He]. split; [done|].
  apply escapes_fit_true. rewrite He. lia.
Qed.

(** The text as [contents] reads it. *)
Lemma encoded_contents d s : encoded d s -> nz s -> contents d = Ok s.
Proof. intros [[junk Hb] _] Hnz. unfold contents. rewrite Hb. by apply string_at_start. Qed.
End EncodeLemmas.

(** ** Decoders: what an XML or JSON reader makes of the text

    Both read the characters of a name or value one by one.  [pending] is the
    part of an entity reference read so far, and [jstate] the progress within
    an escape.  [ok] says which characters the reader lets a document hold, as
    themselves or by reference: [xml_char] is the production Char of XML 1.0,
    which leaves out most control characters, and [any_char] is a reader that
    takes every character reference. *)
Definition is_hex (c : Z) : bool :=
  (Z.leb 48 c && Z.leb c 57) || (Z.leb 97 c && Z.leb c 102) || (Z.leb 65 c && Z.leb c 70).

Definition hex_val (c : Z) : Z :=
  (if c <? 58 then c - 48 else if c <? 97 then c - 55 else c - 87)%Z.

Definition hex_value (ds : list Z) : Z := fold_left (fun acc c => (16 * acc + hex_val c)%Z) ds 0%Z.

Definition entity_value (name : list Z) : option Z :=
  match name with
  | 35%Z :: 120%Z :: d :: ds =>
    if forallb is_hex (d :: ds) then Some (hex_value (d :: ds)) else None
  | _ =>
    if decide (name = lit "apos") then Some 39%Z
    else if decide (name = lit "quot") then Some DQUOTE
    else if decide (name = lit "amp") then Some 38%Z
    else if decide (name = lit "lt") then Some 60%Z
    else if decide (name = lit "gt") then Some 62%Z
    else None
  end.

Definition xml_plain (c : Z) : bool :=
  Z.leb 32 c && negb (bool_decide (c ∈ [39; DQUOTE; 38; 60; 62]%Z)).

Definition any_char (c : Z) : bool := true.

Definition xml_char (c : Z) : bool :=
  bool_decide (c ∈ [9; 10; 13]%Z) || (Z.leb 32 c && Z.leb c 0xD7FF)
  || (Z.leb 0xE000 c && Z.leb c 0xFFFD) || (Z.leb 0x10000 c && Z.leb c 0x10FFFF).

Fixpoint xml_decode (ok : Z -> bool) (pending : option (list Z)) (s : list Z) : option (list Z) :=
  match s, pending with
  | [], None => Some []
  | [], Some _ => None
  | c :: s', None =>
    if Z.eqb c 38 then xml_decode ok (Some []) s'
    else if xml_plain c && ok c then cons c <$> xml_decode ok None s' else None
  | c :: s', Some acc =>
    if Z.eqb c 59
    then v ← entity_value (rev acc); if ok v then cons v <$> xml_decode ok None s' else None
    else xml_decode ok (Some (c :: acc)) s'
  end.

(** What is read holds allowed characters only. *)
Lemma xml_decode_allowed ok s v : xml_decode ok None s = Some v -> forallb ok v = true.
Proof.
  enough (forall p, xml_decode ok p s = Some v -> forallb ok v = true) as Hp by apply Hp.
  revert v. induction s as [|c s IH]; intros v p; cbn [xml_decode].
  { destruct p; [done|]. by intros [= <-]. }
  assert (forall d, ok d = true -> cons d <$> xml_decode ok None s = Some v -> forallb ok v = true) as Hc.
  { intros d Hd. destruct (xml_decode ok None s) as [u|] eqn:E; [|done].
    intros [= <-]. cbn. by rewrite Hd, (IH u None). }
  destruct p as [acc|].
  - destruct (Z.eqb c 59); [|apply IH]. destruct (entity_value (rev acc)) as [d|]; [|done]. cbn.
    destruct (ok d) eqn:Hd; [by apply Hc|done].
  - destruct (Z.eqb c 38); [apply IH|]. destruct (xml_plain c); [|done]. cbn.
    destruct (ok c) eqn:Hd; [by apply Hc|done].
Qed.

Inductive jstate : Type := JPlain | JEscape | JHex (acc : list Z).

Definition json_escape (c : Z) : option Z :=
  if Z.eqb c DQUOTE then Some DQUOTE else if Z.eqb c BACKSLASH then Some BACKSLASH
  else if Z.eqb c 47 then Some 47%Z else if Z.eqb c 98 then Some 8%Z
  else if Z.eqb c 102 then Some 12%Z else if Z.eqb c 110 then Some 10%Z
  else if Z.eqb c 114 then Some 13%Z else if Z.eqb c 116 then Some 9%Z else None.

Fixpoint json_decode (st : jstate) (s : list Z) : option (list Z) :=
  match s with
  | [] => match st with JPlain => Some [] | _ => None end
  | c :: s' =>
    match st with
    | JPlain =>
      if Z.eqb c BACKSLASH then json_decode JEscape s'
      else if Z.eqb c DQUOTE || Z.ltb c 32 then None
      else cons c <$> json_decode JPlain s'
    | JEscape =>
      if Z.eqb c 117 then json_decode (JHex []) s'
      else v ← json_escape c; cons v <$> json_decode JPlain s'
    | JHex acc =>
      if is_hex c then
        if Nat.eqb (length acc) 3
        then cons (hex_value (rev (c :: acc))) <$> json_decode JPlain s'
        else json_decode (JHex (c :: acc)) s'
      else None
    end
  end.

Section Decoding.
Context `{LocaleLaws}.
Implicit Types (s t : wstr) (f : OutputFormat).

(** What becomes of one character. *)
Definition encode_char f (c : Z) : wstr :=
  default (if iswprint c then [c] else escape_char f c) (map_lookup (translate_map f) c).

Lemma escape_text_app f s t : escape_text f (s ++ t) = escape_text f s ++ escape_text f t.
Proof. unfold escape_text. by rewrite map_app, concat_app. Qed.

Lemma escape_text_ascii f s : Forall (fun c => (32 <= c <= 126)%Z) s -> escape_text f s = s.
Proof.
  induction 1 as [|c s Hc _ IH]; [done|]. unfold escape_text in *. cbn [map concat].
  by rewrite iswprint_ascii, IH.
Qed.

Lemma encode_text_chars f s : markup f -> encode_text f s = concat (map (encode_char f) s).
Proof.
  intros Hf. rewrite encode_markup by done. unfold translate_text.
  induction s as [|c s IH]; [done|]. cbn [map concat]. rewrite escape_text_app, IH. f_equal.
  unfold translate_char, encode_char. destruct (map_lookup _ c) as [t|] eqn:E; cbn.
  - by eapply escape_text_ascii, map_lookup_ascii.
  - unfold escape_text. cbn. by rewrite app_nil_r.
Qed.

Lemma escapable_translate f s : escapable f s -> escapable f (translate_text f s).
Proof.
  unfold escapable, translate_text. induction 1 as [|c s Hc _ IH]; [constructor|].
  cbn [map concat]. apply Forall_app. split; [|done]. unfold translate_char.
  destruct (map_lookup _ c) as [t|] eqn:E; cbn; [|by constructor].
  apply map_lookup_ascii in E. eapply Forall_impl; [exact E|].
  intros d Hd. by rewrite iswprint_ascii.
Qed.

(** The escapes are read back as the character they stand for. *)
Lemma hex_value_digits s : Forall (is_digit_char 16) s -> hex_value s = value 16 s.
Proof.
  intros Hs. unfold hex_value, value.
  assert (forall c, is_digit_char 16 c -> hex_val c = digit_val c) as Hd.
  { intros c Hc. apply is_digit_char_range in Hc; [|lia]. unfold hex_val, digit_val.
    destruct (Z.ltb_spec c 58); [done|]. destruct (Z.ltb_spec c 97); lia. }
  induction s as [|c s IH] using rev_ind; [done|].
  apply Forall_app_inv in Hs as [Hs [Hc _]%Forall_cons_1].
  rewrite fold_left_app, rev_app_distr. cbn. rewrite IH, Hd by done. lia.
Qed.

Lemma digit_char_hex c : is_digit_char 16 c -> is_hex c = true.
Proof. intros Hc. apply is_digit_char_range in Hc; [|lia]. unfold is_hex. lia. Qed.

Lemma digits_forallb s : Forall (is_digit_char 16) s -> forallb is_hex s = true.
Proof. induction 1 as [|c s Hc _ IH]; [done|]. cbn. by rewrite digit_char_hex, IH. Qed.

Lemma xml_decode_pending ok name acc t :
  Forall (fun c => c <> 59%Z) name ->
  xml_decode ok (Some acc) (name ++ 59%Z :: t)
  = (v ← entity_value (rev acc ++ name); if ok v then cons v <$> xml_decode ok None t else None).
Proof.
  intros Hn. revert acc. induction Hn as [|c name Hc _ IH]; intros acc; cbn.
  - by rewrite app_nil_r.
  - destruct (Z.eqb_spec c 59) as [|_]; [done|]. rewrite IH. cbn.
    by rewrite <- app_assoc.
Qed.

Lemma xml_decode_entity ok name v t :
  Forall (fun c => c <> 59%Z) name -> entity_value name = Some v ->
  xml_decode ok None (38%Z :: name ++ 59%Z :: t)
  = if ok v then cons v <$> xml_decode ok None t else None.
Proof. intros Hn Hv. cbn. rewrite xml_decode_pending by done. cbn. by rewrite Hv. Qed.

Lemma xml_decode_escape ok c t :
  (0 <= c)%Z ->
  xml_decode ok None (escape_char OUTPUT_FORMAT_XML c ++ t)
  = if ok c then cons c <$> xml_decode ok None t else None.
Proof.
  intros Hc. set (ds := zeros 2 (digits 16 c)).
  assert (Forall (is_digit_char 16) ds) as Hds by (apply zeros_chars, digits_chars; lia).
  replace (escape_char OUTPUT_FORMAT_XML c ++ t) with (38%Z :: (lit "#x" ++ ds) ++ 59%Z :: t)
    by (unfold escape_char; fold ds; by rewrite <- !app_assoc).
  apply xml_decode_entity.
  - apply Forall_app. split; [by repeat constructor|]. eapply Forall_impl; [exact Hds|].
    intros d Hd. apply is_digit_char_range in Hd; lia.
  - destruct ds as [|d ds'] eqn:E.
    { exfalso. apply (digits_nonempty 16 c). unfold ds, zeros in E.
      by apply app_eq_nil in E as [_ ?]. }
    change (entity_value (lit "#x" ++ d :: ds'))
      with (if forallb is_hex (d :: ds') then Some (hex_value (d :: ds')) else None).
    rewrite digits_forallb, hex_value_digits by done. rewrite <- E. unfold ds.
    by rewrite value_zeros, digits_value by lia.
Qed.

Lemma json_decode_escape c t :
  (0 <= c < 65536)%Z ->
  json_decode JPlain (escape_char OUTPUT_FORMAT_JSON c ++ t) = cons c <$> json_decode JPlain t.
Proof.
  intros Hc. cbn [escape_char]. set (ds := zeros 4 (digits 16 c)).
  assert (Forall (is_digit_char 16) ds) as Hds by (apply zeros_chars, digits_chars; lia).
  assert (length ds = 4) as Hl by (apply zeros_length, (digits_length 16); cbn; lia).
  assert (hex_value ds = c) as Hv.
  { rewrite hex_value_digits by done. unfold ds. by rewrite value_zeros, digits_value by lia. }
  clearbody ds. destruct ds as [|d1 [|d2 [|d3 [|d4 [|]]]]]; try done.
  apply Forall_cons_1 in Hds as [H1' Hds]. apply Forall_cons_1 in Hds as [H2' Hds].
  apply Forall_cons_1 in Hds as [H3' Hds]. apply Forall_cons_1 in Hds as [H4' _].
  cbn. rewrite !digit_char_hex by done. cbn. cbn in Hv. by rewrite Hv.
Qed.

Lemma xml_decode_char ok c t :
  (0 <= c)%Z ->
  xml_decode ok None (encode_char OUTPUT_FORMAT_XML c ++ t)
  = if ok c then cons c <$> xml_decode ok None t else None.
Proof.
  intros Hc. unfold encode_char.
  destruct (map_lookup (translate_map OUTPUT_FORMAT_XML) c) as [u|] eqn:E; cbn [default].
  - revert E. cbn.
    repeat match goal with |- context [Z.eqb c ?k] => destruct (Z.eqb_spec c k) as [->|] end;
      by intros [= <-].
  - destruct (iswprint c) eqn:Hp; cbn [from_option id]; [|by apply xml_decode_escape].
    assert (32 <= c)%Z as H32.
    { destruct (Z.lt_ge_cases c 32); [|done]. rewrite iswprint_control in Hp by lia. done. }
    revert E. cbn.
    repeat match goal with |- context [Z.eqb c ?k] => destruct (Z.eqb_spec c k) as [->|] end;
      try done. intros _. unfold xml_plain.
    rewrite bool_decide_false by set_solver. by replace (Z.leb 32 c) with true by lia.
Qed.

(** In JSON a backslash is written as four and read back as two. *)
Definition double_backslash (c : Z) : wstr := if Z.eqb c BACKSLASH then [c; c] else [c].

Lemma json_decode_char c t :
  (0 < c)%Z -> (iswprint c = false -> 0 <= c < 65536)%Z ->
  json_decode JPlain (encode_char OUTPUT_FORMAT_JSON c ++ t)
  = app (double_backslash c) <$> json_decode JPlain t.
Proof.
  intros Hpos Hc. unfold encode_char, double_backslash.
  destruct (map_lookup (translate_map OUTPUT_FORMAT_JSON) c) as [u|] eqn:E; cbn [default].
  - revert E. cbn.
    repeat match goal with |- context [Z.eqb c ?k] => destruct (Z.eqb_spec c k) as [->|] end;
      intros [= <-]; cbn; by destruct (json_decode JPlain t).
  - revert E. cbn.
    repeat match goal with |- context [Z.eqb c ?k] => destruct (Z.eqb_spec c k) as [->|] end;
      try done. intros _.
    destruct (iswprint c) eqn:Hp; cbn [from_option id]; [|apply json_decode_escape; by apply Hc].
    assert (32 <= c)%Z as H32.
    { destruct (Z.lt_ge_cases c 32); [|done]. rewrite iswprint_control in Hp by lia. done. }
    cbn [app json_decode].
    rewrite (proj2 (Z.eqb_neq c BACKSLASH)), (proj2 (Z.eqb_neq c DQUOTE)) by done. cbn [orb].
    by replace (Z.ltb c 32) with false by lia.
Qed.

Lemma escapable_check f s :
  forallb (fun c => iswprint c || (Z.leb 0 c && Z.ltb c (escape_limit f))) s = true ->
  escapable f s.
Proof.
  intros Hs. apply Forall_forall. intros c Hc Hp. rewrite forallb_forall in Hs.
  apply list_elem_of_In, Hs in Hc. rewrite Hp in Hc. cbn [orb] in Hc. lia.
Qed.

Lemma json_encode_decodes' s :
  positive s -> escapable OUTPUT_FORMAT_JSON s ->
  json_decode JPlain (encode_text OUTPUT_FORMAT_JSON s) = Some (concat (map double_backslash s)).
Proof.
  intros Hs He. rewrite encode_text_chars by by left. unfold escapable in He. cbn [escape_limit] in He.
  induction Hs as [|c s Hc _ IH]; [done|]. apply Forall_cons_1 in He as [He1 He].
  cbn [map concat]. rewrite json_decode_char; [by rewrite (IH He)|lia|intros Hp; specialize (He1 Hp); lia].
Qed.

Lemma xml_encode_decodes ok s :
  positive s -> forallb ok s = true -> xml_decode ok None (encode_text OUTPUT_FORMAT_XML s) = Some s.
Proof.
  intros Hs. rewrite encode_text_chars by by right.
  induction Hs as [|c s Hc _ IH]; [done|]. cbn [forallb map concat].
  intros [Hok Hoks]%andb_prop. rewrite xml_decode_char, Hok by lia. by rewrite IH.
Qed.

Lemma forallb_any s : forallb any_char s = true.
Proof. by induction s. Qed.

(** A reader that follows XML 1.0 takes the text or does not, by the characters
    of the string. *)
Lemma xml_encode_decoded ok s :
  positive s ->
  xml_decode ok None (encode_text OUTPUT_FORMAT_XML s) = (if forallb ok s then Some s else None).
Proof.
  intros Hs. destruct (forallb ok s) eqn:E; [by apply xml_encode_decodes|].
  rewrite encode_text_chars by by right. revert E.
  induction Hs as [|c s Hc _ IH]; [done|]. cbn [forallb map concat].
  destruct (ok c) eqn:Hok; cbn [andb].
  - intros E. rewrite xml_decode_char, Hok by lia. by rewrite IH.
  - intros _. by rewrite xml_decode_char, Hok by lia.
Qed.

Lemma backslash_doubled s : BACKSLASH ∉ s -> concat (map double_backslash s) = s.
Proof.
  induction s as [|c s IH]; [done|]. intros Hn. cbn [map concat].
  rewrite IH by set_solver. unfold double_backslash.
  destruct (Z.eqb_spec c BACKSLASH) as [->|]; [set_solver|done].
Qed.

End Decoding.

Section Claims.
Context `{AllocTotal} `{LocaleLaws}.
Implicit Types (s t : wstr) (f : OutputFormat).

(** C16: on every string whose non-printable characters have escapes of the
    expected length (below 256 for XML, below 65536 for JSON),
    [encode_string] succeeds without any access out of bounds: it leaves text
    and crumb strings alone and turns the others into [encode_text], the
    translated and then escaped text, its length counting the terminator. *)
Theorem encode_string_correct f d s m :
  encoded d s -> nz s -> (markup f -> escapable f s) ->
  exists ret d' m', encode_string f d m = Ok ((ret, d'), m') /\ (0 <= ret)%Z /\
    contents d' = Ok (encode_text f s) /\ len d' = length (encode_text f s) + 1 /\
    heap m' = heap m.
Proof.
  intros Hd Hnz Hesc.
  destruct (encode_string_ok f d s m Hd Hnz) as (ret & d' & m' & E & Hr & [[junk Hb] Hl] & Hnz' & [k ->]).
  { intros Hf. apply escapable_translate. by apply Hesc. }
  exists ret, d', (ticks k m). split_and!; try done.
  unfold contents. rewrite Hb. by apply string_at_start.
Qed.

(** C14: an XML reader gets back every name and value: on a string whose
    non-printable characters are below 256, [encode_string] succeeds and leaves
    a text that decodes, with the five predefined entities and the numeric
    references, to the string itself.  The text is one that XML 1.0 allows
    exactly when the string holds no control character but tab, newline and
    carriage return, no surrogate and neither U+FFFE nor U+FFFF. *)
Theorem xml_encode_roundtrip d s m :
  encoded d s -> positive s -> escapable OUTPUT_FORMAT_XML s ->
  exists ret d' m' txt,
    encode_string OUTPUT_FORMAT_XML d m = Ok ((ret, d'), m') /\ contents d' = Ok txt /\
    xml_decode any_char None txt = Some s /\
    xml_decode xml_char None txt = (if forallb xml_char s then Some s else None).
Proof.
  intros Hd Hs Hesc. pose proof (positive_nz s Hs) as Hnz.
  destruct (encode_string_ok OUTPUT_FORMAT_XML d s m Hd Hnz) as (ret & d' & m' & E & _ & Hd' & Hnz' & _).
  { intros _. by apply escapable_translate. }
  exists ret, d', m', (encode_text OUTPUT_FORMAT_XML s).
  split_and!; [done|by apply encoded_contents|by apply xml_encode_decodes; [|apply forallb_any]|].
  by apply xml_encode_decoded.
Qed.

(** C15: what a JSON reader (RFC 8259 string rules: no raw control character,
    no bare quote, escapes of the standard) gets from the text that
    [encode_string] leaves, on a string whose non-printable characters are below
    65536, is the original string with every backslash doubled; without
    backslashes it is the string itself. *)
Theorem json_encode_decodes d s m :
  encoded d s -> positive s -> escapable OUTPUT_FORMAT_JSON s ->
  exists ret d' m' txt,
    encode_string OUTPUT_FORMAT_JSON d m = Ok ((ret, d'), m') /\ contents d' = Ok txt /\
    json_decode JPlain txt = Some (concat (map double_backslash s)) /\
    (BACKSLASH ∉ s -> json_decode JPlain txt = Some s).
Proof.
  intros Hd Hs Hesc. pose proof (positive_nz s Hs) as Hnz.
  destruct (encode_string_ok OUTPUT_FORMAT_JSON d s m Hd Hnz) as (ret & d' & m' & E & _ & Hd' & Hnz' & _).
  { intros _. by apply escapable_translate. }
  exists ret, d', m', (encode_text OUTPUT_FORMAT_JSON s).
  pose proof (json_encode_decodes' s Hs Hesc) as Hdec.
  split_and!; [done|by apply encoded_contents|done|]. intros Hb. by rewrite Hdec, backslash_doubled.
Qed.

(** C17: when the buffer of [encode_string] is large enough.  It has room for
    six characters an escape, and the bound given to [swprintf (3)] is not
    reduced as the text grows.  In XML and JSON, on any string of code points
    below 2^32: when the characters that the escapes have beyond six are at most
    one in all (none, for a string of one character), the result is the
    translated and escaped text; whenever they are more, whatever the other
    characters, the run is undefined behaviour, a write outside the buffer, a
    pointer before it or a read of what a failed [swprintf] has left. *)
Theorem encode_string_overflow f d s m :
  markup f -> encoded d s -> nz s -> coded s ->
  let t := translate_text f s in
  (escape_excess f t <= (if Nat.eqb (length t) 1 then 0 else 1) ->
   exists ret d' m', encode_string f d m = Ok ((ret, d'), m') /\ (0 <= ret)%Z /\
     contents d' = Ok (encode_text f s) /\ len d' = length (encode_text f s) + 1) /\
  ((if Nat.eqb (length t) 1 then 0 else 1) < escape_excess f t ->
   exists why, encode_string f d m = UB why).
Proof.
  intros Hf Hd Hnz Hc t. subst t. pose proof (coded_translate f s Hc) as Hct. split; intros Hx.
  - destruct (encode_string_fits f d s m Hd Hnz) as (ret & d' & m' & E & Hr & Hd' & Hnz' & _).
    { intros _. split; [done|by apply escapes_fit_true]. }
    exists ret, d', m'. split_and!; [done|done|by apply encoded_contents|apply Hd'].
  - assert (escapes_fit f (translate_text f s) = false) as Hfit by by apply Nat.leb_gt.
    assert (unprintables (translate_text f s) <> 0) as Hn.
    { intros Hn%unprintables_none. revert Hx. unfold escape_excess. clear Hfit. intros Hx.
      enough (escape_excess f (translate_text f s) = 0) as E0 by (unfold escape_excess in E0; lia).
      unfold escape_excess. clear Hx Hct. induction Hn as [|c u Hp _ IH]; [done|]. cbn [map].
      by rewrite list_sum_cons, IH, Hp. }
    destruct (encode_string_run f d s m Hf Hd Hnz Hn) as (m' & _ & E).
    destruct (escape_run_undefined f _ (nz_translate_text f s Hnz) Hct Hn Hfit) as [why Hw].
    exists why. rewrite E, Hw. done.
Qed.
End Claims.

Lemma encode_string_witness :
  exists ret d' m',
    @encode_string total_allocator c_locale OUTPUT_FORMAT_XML (created (lit "<a>" ++ [27%Z])) mem0
      = Ok ((ret, d'), m') /\ (0 <= ret)%Z /\
    contents d' = Ok (lit "&lt;a&gt;&#x1b;") /\ len d' = 16 /\ heap m' = heap mem0.
Proof.
  apply (@encode_string_correct total_allocator total_allocator_total c_locale c_locale_laws
           OUTPUT_FORMAT_XML (created (lit "<a>" ++ [27%Z])) (lit "<a>" ++ [27%Z]) mem0).
  - split; [by exists []|done].
  - repeat constructor; done.
  - intros _. repeat constructor; cbn; lia.
Defined.

(** [a<b&c] and a newline. *)
Lemma xml_encode_witness :
  exists ret d' m' txt,
    @encode_string total_allocator c_locale OUTPUT_FORMAT_XML (created (lit "a<b&c" ++ [NL])) mem0
      = Ok ((ret, d'), m') /\ contents d' = Ok txt /\
    xml_decode any_char None txt = Some (lit "a<b&c" ++ [NL]) /\
    xml_decode xml_char None txt = Some (lit "a<b&c" ++ [NL]).
Proof.
  apply (@xml_encode_roundtrip total_allocator total_allocator_total c_locale c_locale_laws
           (created (lit "a<b&c" ++ [NL])) (lit "a<b&c" ++ [NL]) mem0).
  - split; [by exists []|done].
  - by apply positive_check.
  - by apply escapable_check.
Defined.

Lemma json_encode_witness :
  exists ret d' m' txt,
    @encode_string total_allocator c_locale OUTPUT_FORMAT_JSON
      (created (DQUOTE :: BACKSLASH :: lit "x" ++ [NL])) mem0 = Ok ((ret, d'), m') /\
    contents d' = Ok txt /\
    json_decode JPlain txt = Some (DQUOTE :: BACKSLASH :: BACKSLASH :: lit "x" ++ [NL]) /\
    (BACKSLASH ∉ DQUOTE :: BACKSLASH :: lit "x" ++ [NL] ->
     json_decode JPlain txt = Some (DQUOTE :: BACKSLASH :: lit "x" ++ [NL])).
Proof.
  apply (@json_encode_decodes total_allocator total_allocator_total c_locale c_locale_laws
           (created (DQUOTE :: BACKSLASH :: lit "x" ++ [NL])) (DQUOTE :: BACKSLASH :: lit "x" ++ [NL]) mem0).
  - split; [by exists []|done].
  - by apply positive_check.
  - by apply escapable_check.
Defined.

(** U+FF and U+100 among letters do fit, U+100 twice does not. *)
Lemma encode_string_overflow_witness :
  (exists ret d' m',
     @encode_string total_allocator c_locale OUTPUT_FORMAT_XML (created [97; 255; 98; 256]%Z) mem0
       = Ok ((ret, d'), m') /\ (0 <= ret)%Z /\
     contents d' = Ok (lit "a&#xff;b&#x100;") /\ len d' = 16) /\
  (exists why, @encode_string total_allocator c_locale OUTPUT_FORMAT_XML (created [256; 97; 256]%Z) mem0
               = UB why).
Proof.
  split.
  - refine (proj1 (@encode_string_overflow total_allocator total_allocator_total c_locale c_locale_laws
             OUTPUT_FORMAT_XML (created [97; 255; 98; 256]%Z) [97; 255; 98; 256]%Z mem0 _ _ _ _) _).
    + by right.
    + split; [by exists []|done].
    + repeat constructor; done.
    + repeat constructor; done.
    + by vm_compute; lia.
  - refine (proj2 (@encode_string_overflow total_allocator total_allocator_total c_locale c_locale_laws
             OUTPUT_FORMAT_XML (created [256; 97; 256]%Z) [256; 97; 256]%Z mem0 _ _ _ _) _).
    + by right.
    + split; [by exists []|done].
    + repeat constructor; done.
    + repeat constructor; done.
    + by vm_compute; lia.
Defined.

(** An escape character, as [TERMCAP] has under a terminal multiplexer, becomes
    a reference that XML 1.0 does not allow. *)
Example xml_control_character :
  exists d' m',
    @encode_string total_allocator c_locale OUTPUT_FORMAT_XML (created [27%Z]) mem0
      = Ok ((6%Z, d'), m') /\ contents d' = Ok (lit "&#x1b;") /\
    xml_decode any_char None (lit "&#x1b;") = Some [27%Z] /\
    xml_decode xml_char None (lit "&#x1b;") = None.
Proof. by eexists _, _; vm_compute. Qed.
