(* ===== verification/Output.v ===== *)
(** Output: the document builder (src/src/output.c): its global state, the
    setters, the indent, the breadcrumbs, the element state machines of the
    four formats and the calls that write entries, sections, containers and
    objects, and the routines that send the text to its destination.

    The globals of the file, with those of procenv.c it reads, are the fields
    of [ostate]; a function of the file is a computation on it. *)
From S2P Require Import Prelude Memory PrList Locale PString StringUtil Encode.

Inductive ElementType : Type :=
| ELEMENT_TYPE_ENTRY
| ELEMENT_TYPE_SECTION_OPEN
| ELEMENT_TYPE_SECTION_CLOSE
| ELEMENT_TYPE_CONTAINER_OPEN
| ELEMENT_TYPE_CONTAINER_CLOSE
| ELEMENT_TYPE_OBJECT_OPEN
| ELEMENT_TYPE_OBJECT_CLOSE
| ELEMENT_TYPE_NONE.

Inductive Output : Type :=
| OUTPUT_FILE
| OUTPUT_STDERR
| OUTPUT_STDOUT
| OUTPUT_SYSLOG
| OUTPUT_TERM.

#[export] Instance ElementType_eq_dec : EqDecision ElementType.
Proof. solve_decision. Defined.
#[export] Instance Output_eq_dec : EqDecision Output.
Proof. solve_decision. Defined.

(** The calls that leave the program, with what they returned. *)
Inductive event : Type :=
| EvOpenlog
| EvCloselog
| EvSyslog (str : bytes)
| EvFputs (stream : Output) (str : bytes) (ret : Z)
| EvOpen (path : bytes) (append : bool) (ret : Z)
| EvWrite (fd : Z) (str : bytes) (ret : Z)
| EvClose (fd : Z).

(** What the system answers, depending on everything done so far. *)
Class Host : Type := {
  fputs_ret : list event -> Output -> bytes -> Z;
  open_ret : list event -> bytes -> bool -> Z;
  write_ret : list event -> Z -> bytes -> Z
}.

(** The names that config.h, a generated file, gives the package. *)
Class Package : Type := {
  PACKAGE_NAME : bytes;
  PACKAGE_VERSION : bytes;
  PACKAGE_STRING : bytes
}.

Record ostate : Type := mk_ostate {
  o_mem : mem;
  doc : option pstring;
  indent : Z;
  indent_amount : Z;
  indent_char : option bytes;
  wide_indent_char : Z;
  crumb_list : nat;
  crumb_separator : option bytes;
  text_separator : bytes;
  last_element : ElementType;
  current_element : ElementType;
  output_format : OutputFormat;
  output : Output;
  output_file : option bytes;
  output_file_append : bool;
  output_fd : Z;
  user_tty_fd : Z;
  user_euid : Z;
  events : list event
}.

Definition DEFAULT_INDENT_CHAR : bytes := [SPACE].
Definition DEFAULT_INDENT_AMOUNT : Z := 2.
Definition PROCENV_DEFAULT_CRUMB_SEPARATOR : bytes := lit ":".
Definition PROCENV_DEFAULT_TEXT_SEPARATOR : bytes := lit ": ".
Definition PROCENV_FORMAT_VERSION : Z := 24.
Definition NON_STR : bytes := lit "non".
Definition PRIVILEGED_STR : bytes := lit "privileged".

(** The initial values of the globals. *)
Definition initial_state (m : mem) (d : option pstring) : ostate :=
  mk_ostate m d 0 DEFAULT_INDENT_AMOUNT (Some DEFAULT_INDENT_CHAR) 0 NULL
    (Some PROCENV_DEFAULT_CRUMB_SEPARATOR) PROCENV_DEFAULT_TEXT_SEPARATOR
    ELEMENT_TYPE_NONE ELEMENT_TYPE_NONE OUTPUT_FORMAT_TEXT OUTPUT_STDOUT None false (-1) (-1) 0 [].

(** ** Assignments to the globals *)
Definition set_mem m s := mk_ostate m (doc s) (indent s) (indent_amount s) (indent_char s)
  (wide_indent_char s) (crumb_list s) (crumb_separator s) (text_separator s) (last_element s)
  (current_element s) (output_format s) (output s) (output_file s) (output_file_append s)
  (output_fd s) (user_tty_fd s) (user_euid s) (events s).
Definition set_doc d s := mk_ostate (o_mem s) d (indent s) (indent_amount s) (indent_char s)
  (wide_indent_char s) (crumb_list s) (crumb_separator s) (text_separator s) (last_element s)
  (current_element s) (output_format s) (output s) (output_file s) (output_file_append s)
  (output_fd s) (user_tty_fd s) (user_euid s) (events s).
Definition set_indent i s := mk_ostate (o_mem s) (doc s) i (indent_amount s) (indent_char s)
  (wide_indent_char s) (crumb_list s) (crumb_separator s) (text_separator s) (last_element s)
  (current_element s) (output_format s) (output s) (output_file s) (output_file_append s)
  (output_fd s) (user_tty_fd s) (user_euid s) (events s).
Definition put_indent_amount a s := mk_ostate (o_mem s) (doc s) (indent s) a (indent_char s)
  (wide_indent_char s) (crumb_list s) (crumb_separator s) (text_separator s) (last_element s)
  (current_element s) (output_format s) (output s) (output_file s) (output_file_append s)
  (output_fd s) (user_tty_fd s) (user_euid s) (events s).
Definition put_indent_char c s := mk_ostate (o_mem s) (doc s) (indent s) (indent_amount s) c
  (wide_indent_char s) (crumb_list s) (crumb_separator s) (text_separator s) (last_element s)
  (current_element s) (output_format s) (output s) (output_file s) (output_file_append s)
  (output_fd s) (user_tty_fd s) (user_euid s) (events s).
Definition put_wide_indent_char c s := mk_ostate (o_mem s) (doc s) (indent s) (indent_amount s)
  (indent_char s) c (crumb_list s) (crumb_separator s) (text_separator s) (last_element s)
  (current_element s) (output_format s) (output s) (output_file s) (output_file_append s)
  (output_fd s) (user_tty_fd s) (user_euid s) (events s).
Definition set_crumb_list l s := mk_ostate (o_mem s) (doc s) (indent s) (indent_amount s)
  (indent_char s) (wide_indent_char s) l (crumb_separator s) (text_separator s) (last_element s)
  (current_element s) (output_format s) (output s) (output_file s) (output_file_append s)
  (output_fd s) (user_tty_fd s) (user_euid s) (events s).
Definition put_crumb_separator c s := mk_ostate (o_mem s) (doc s) (indent s) (indent_amount s)
  (indent_char s) (wide_indent_char s) (crumb_list s) c (text_separator s) (last_element s)
  (current_element s) (output_format s) (output s) (output_file s) (output_file_append s)
  (output_fd s) (user_tty_fd s) (user_euid s) (events s).
Definition put_text_separator t s := mk_ostate (o_mem s) (doc s) (indent s) (indent_amount s)
  (indent_char s) (wide_indent_char s) (crumb_list s) (crumb_separator s) t (last_element s)
  (current_element s) (output_format s) (output s) (output_file s) (output_file_append s)
  (output_fd s) (user_tty_fd s) (user_euid s) (events s).
Definition set_elements l c s := mk_ostate (o_mem s) (doc s) (indent s) (indent_amount s)
  (indent_char s) (wide_indent_char s) (crumb_list s) (crumb_separator s) (text_separator s) l
  c (output_format s) (output s) (output_file s) (output_file_append s)
  (output_fd s) (user_tty_fd s) (user_euid s) (events s).
Definition put_output_format f s := mk_ostate (o_mem s) (doc s) (indent s) (indent_amount s)
  (indent_char s) (wide_indent_char s) (crumb_list s) (crumb_separator s) (text_separator s)
  (last_element s) (current_element s) f (output s) (output_file s) (output_file_append s)
  (output_fd s) (user_tty_fd s) (user_euid s) (events s).
Definition put_output o s := mk_ostate (o_mem s) (doc s) (indent s) (indent_amount s)
  (indent_char s) (wide_indent_char s) (crumb_list s) (crumb_separator s) (text_separator s)
  (last_element s) (current_element s) (output_format s) o (output_file s) (output_file_append s)
  (output_fd s) (user_tty_fd s) (user_euid s) (events s).
Definition put_output_file f a s := mk_ostate (o_mem s) (doc s) (indent s) (indent_amount s)
  (indent_char s) (wide_indent_char s) (crumb_list s) (crumb_separator s) (text_separator s)
  (last_element s) (current_element s) (output_format s) (output s) f a
  (output_fd s) (user_tty_fd s) (user_euid s) (events s).
Definition set_output_fd fd s := mk_ostate (o_mem s) (doc s) (indent s) (indent_amount s)
  (indent_char s) (wide_indent_char s) (crumb_list s) (crumb_separator s) (text_separator s)
  (last_element s) (current_element s) (output_format s) (output s) (output_file s)
  (output_file_append s) fd (user_tty_fd s) (user_euid s) (events s).
Definition add_event e s := mk_ostate (o_mem s) (doc s) (indent s) (indent_amount s)
  (indent_char s) (wide_indent_char s) (crumb_list s) (crumb_separator s) (text_separator s)
  (last_element s) (current_element s) (output_format s) (output s) (output_file s)
  (output_file_append s) (output_fd s) (user_tty_fd s) (user_euid s) (events s ++ [e]).

Definition INT_MAX : Z := 2147483647.

(** ** The operations *)
Section Ops.
Context `{Allocator} `{Locale}.

Definition in_mem {A} (m : prog mem A) : prog ostate A := zoom o_mem set_mem m.

(** A call on [&doc]. *)
Definition on_doc (f : option pstring -> prog mem (option pstring)) : prog ostate unit :=
  d ← gets doc;
  d' ← in_mem (f d);
  modify (set_doc d').

Definition wappend_doc (s : wstr) : prog ostate unit := on_doc (fun d => wappend d s).
Definition wappendf_doc (fmt : wstr) (args : list arg) : prog ostate unit :=
  on_doc (fun d => wappendf d fmt args).

(** The macros [common_assert] and [assert_not_reached]. *)
Definition common_assert : prog ostate unit :=
  d ← gets doc;
  assert_ (bool_decide (is_Some d)) "doc";;
  a ← gets indent_amount;
  assert_ (Z.leb 0 a) "get_indent_amount() >= 0".

Definition assert_not_reached : prog ostate unit := die "Not reached assertion failed".

(** *** Getters and setters *)
Definition set_indent_amount (amount : Z) : prog ostate unit := modify (put_indent_amount amount).
Definition get_indent_amount : prog ostate Z := gets indent_amount.
Definition get_text_separator : prog ostate bytes := gets text_separator.
Definition set_text_separator (s : bytes) : prog ostate unit := modify (put_text_separator s).

Definition strdup (s : bytes) : prog ostate (option bytes) :=
  p ← in_mem alloc; mret (match p with None => None | Some _ => Some s end).

Definition set_indent_char (c : option bytes) : prog ostate unit :=
  match c with
  | None => mret tt
  | Some c => p ← strdup c; modify (put_indent_char p)
  end.

Definition get_indent_char : prog ostate (option bytes) := gets indent_char.

Definition set_crumb_separator (c : option bytes) : prog ostate unit :=
  match c with
  | None => mret tt
  | Some c => p ← strdup c; modify (put_crumb_separator p)
  end.

Definition set_output_file (f : option bytes) : prog ostate unit :=
  match f with
  | None => mret tt
  | Some f => modify (fun s => put_output_file (Some f) (output_file_append s) s)
  end.

Definition set_output_file_append : prog ostate unit :=
  modify (fun s => put_output_file (output_file s) true s).

Definition get_crumb_separator : prog ostate (option bytes) := gets crumb_separator.

Definition reset_indent : prog ostate unit := modify (set_indent 0).

Definition inc_indent : prog ostate unit :=
  i ← gets indent;
  assert_ (Z.leb 0 i) "indent >= 0";;
  a ← gets indent_amount;
  if Z.ltb INT_MAX (i + a) then ub "signed overflow" else modify (set_indent (i + a)).

Definition dec_indent : prog ostate unit :=
  i ← gets indent;
  assert_ (Z.leb 0 i) "indent >= 0";;
  a ← gets indent_amount;
  modify (set_indent (i - a));;
  assert_ (Z.leb 0 (i - a)) "indent >= 0".

Definition the_indent_char : prog ostate bytes :=
  c ← gets indent_char;
  match c with Some c => mret c | None => ub "null indent_char" end.

(** The text of a [pstring] as an argument of a format. *)
Definition wide_arg (p : pstring) : prog ostate arg :=
  w ← pure (contents p); mret (AWStr w).

Definition add_indent : prog ostate unit :=
  common_assert;;
  i ← gets indent;
  if Z.eqb i 0 then mret tt
  else
    c ← the_indent_char;
    if Z.eqb (strcmp c DEFAULT_INDENT_CHAR) 0 then wappendf_doc (lit "%*s") [ANum i; AStr c]
    else
      w ← gets wide_indent_char;
      buffer ← in_mem (wappendf None (lit "%*lc") [ANum i; AWChar w]);
      match buffer with
      | None => ub "null buffer"
      | Some p =>
        match buf p with
        | None => ub "null buffer"
        | Some b =>
          k ← pure (strlen_at b 0);
          b' ← pure (memset b w k);
          on_doc (fun d => pappend d (mk_pstring (Some b') (len p) (size p)))
        end
      end.

(** *** Breadcrumbs *)
Definition add_breadcrumb (name : bytes) : prog ostate unit :=
  l ← gets crumb_list;
  (if nonnull l then mret tt
   else l' ← in_mem (pr_list_new None); modify (set_crumb_list l'));;
  l ← gets crumb_list;
  assert_ (nonnull l) "crumb_list";;
  in_mem (pr_list_prepend_str l name);;
  mret tt.

Definition remove_breadcrumb : prog ostate unit :=
  l ← gets crumb_list;
  assert_ (nonnull l) "crumb_list";;
  p ← in_mem (get_prev l);
  e ← in_mem (pr_list_remove p);
  assert_ (nonnull e) "entry";;
  in_mem (get_data e);;
  in_mem (free_node e).

Fixpoint clear_loop (fuel : nat) : prog ostate unit :=
  match fuel with
  | 0 => diverge
  | S fuel' =>
    l ← gets crumb_list;
    p ← in_mem (get_prev l);
    if Nat.eqb p l then mret tt else remove_breadcrumb;; clear_loop fuel'
  end.

Definition clear_breadcrumbs : prog ostate unit :=
  l ← gets crumb_list;
  assert_ (nonnull l) "crumb_list";;
  fuel ← gets (fun s => S (allocs (o_mem s)));
  clear_loop fuel.

Definition free_breadcrumbs : prog ostate unit :=
  f ← gets output_format;
  l ← gets crumb_list;
  if bool_decide (f = OUTPUT_FORMAT_CRUMB) && nonnull l then
    clear_breadcrumbs;;
    in_mem (free_node l)
  else mret tt.

(** *** The element state machines *)

(** The four actions of their cases: a separator with the current indent, with
    a deeper one and with a shallower one; nothing is [mret tt]. *)
Definition same_level (sep : wstr) : prog ostate unit := wappend_doc sep;; add_indent.
Definition open_level : prog ostate unit := wappend_doc [NL];; inc_indent;; add_indent.
Definition close_level : prog ostate unit := wappend_doc [NL];; dec_indent;; add_indent.

Definition format_text_element : prog ostate unit :=
  common_assert;;
  last ← gets last_element;
  current ← gets current_element;
  match last with
  | ELEMENT_TYPE_ENTRY =>
    match current with
    | ELEMENT_TYPE_ENTRY | ELEMENT_TYPE_SECTION_OPEN | ELEMENT_TYPE_CONTAINER_OPEN => same_level [NL]
    | ELEMENT_TYPE_CONTAINER_CLOSE | ELEMENT_TYPE_SECTION_CLOSE => close_level
    | _ => assert_not_reached
    end
  | ELEMENT_TYPE_SECTION_OPEN =>
    match current with
    | ELEMENT_TYPE_ENTRY | ELEMENT_TYPE_SECTION_OPEN | ELEMENT_TYPE_CONTAINER_OPEN => open_level
    | ELEMENT_TYPE_SECTION_CLOSE => mret tt
    | _ => assert_not_reached
    end
  | ELEMENT_TYPE_SECTION_CLOSE =>
    match current with
    | ELEMENT_TYPE_SECTION_CLOSE | ELEMENT_TYPE_CONTAINER_CLOSE => close_level
    | ELEMENT_TYPE_ENTRY | ELEMENT_TYPE_CONTAINER_OPEN | ELEMENT_TYPE_SECTION_OPEN => same_level [NL]
    | _ => assert_not_reached
    end
  | ELEMENT_TYPE_CONTAINER_OPEN =>
    match current with
    | ELEMENT_TYPE_ENTRY | ELEMENT_TYPE_SECTION_OPEN | ELEMENT_TYPE_CONTAINER_OPEN => open_level
    | ELEMENT_TYPE_CONTAINER_CLOSE => mret tt
    | _ => assert_not_reached
    end
  | ELEMENT_TYPE_CONTAINER_CLOSE =>
    match current with
    | ELEMENT_TYPE_SECTION_CLOSE | ELEMENT_TYPE_CONTAINER_CLOSE => close_level
    | ELEMENT_TYPE_SECTION_OPEN | ELEMENT_TYPE_ENTRY | ELEMENT_TYPE_CONTAINER_OPEN => same_level [NL]
    | _ => assert_not_reached
    end
  | ELEMENT_TYPE_NONE =>
    match current with
    | ELEMENT_TYPE_ENTRY | ELEMENT_TYPE_CONTAINER_OPEN | ELEMENT_TYPE_SECTION_OPEN
    | ELEMENT_TYPE_SECTION_CLOSE | ELEMENT_TYPE_CONTAINER_CLOSE => add_indent
    | ELEMENT_TYPE_OBJECT_OPEN | ELEMENT_TYPE_OBJECT_CLOSE => mret tt
    | _ => assert_not_reached
    end
  | _ => assert_not_reached
  end.

Definition COMMA_NL : wstr := lit "," ++ [NL].

(** The cases of [format_json_element] after an entry, an opening and a
    closing element. *)
Definition json_after_entry (current : ElementType) : prog ostate unit :=
  match current with
  | ELEMENT_TYPE_ENTRY | ELEMENT_TYPE_SECTION_OPEN | ELEMENT_TYPE_CONTAINER_OPEN => same_level COMMA_NL
  | ELEMENT_TYPE_SECTION_CLOSE | ELEMENT_TYPE_CONTAINER_CLOSE | ELEMENT_TYPE_OBJECT_CLOSE => close_level
  | _ => assert_not_reached
  end.

Definition json_after_section_open (current : ElementType) : prog ostate unit :=
  match current with
  | ELEMENT_TYPE_ENTRY | ELEMENT_TYPE_SECTION_OPEN | ELEMENT_TYPE_CONTAINER_OPEN => open_level
  | ELEMENT_TYPE_SECTION_CLOSE | ELEMENT_TYPE_OBJECT_OPEN => mret tt
  | ELEMENT_TYPE_CONTAINER_CLOSE => assert_not_reached
  | _ => assert_not_reached
  end.

Definition json_after_section_close (current : ElementType) : prog ostate unit :=
  match current with
  | ELEMENT_TYPE_ENTRY | ELEMENT_TYPE_SECTION_OPEN | ELEMENT_TYPE_CONTAINER_OPEN => same_level COMMA_NL
  | ELEMENT_TYPE_OBJECT_OPEN => mret tt
  | ELEMENT_TYPE_SECTION_CLOSE | ELEMENT_TYPE_CONTAINER_CLOSE => close_level
  | ELEMENT_TYPE_OBJECT_CLOSE => close_level
  | _ => assert_not_reached
  end.

Definition json_after_container_open (current : ElementType) : prog ostate unit :=
  match current with
  | ELEMENT_TYPE_ENTRY | ELEMENT_TYPE_CONTAINER_OPEN | ELEMENT_TYPE_SECTION_OPEN
  | ELEMENT_TYPE_OBJECT_OPEN => open_level
  | ELEMENT_TYPE_OBJECT_CLOSE | ELEMENT_TYPE_SECTION_CLOSE => assert_not_reached
  | ELEMENT_TYPE_CONTAINER_CLOSE => mret tt
  | _ => assert_not_reached
  end.

Definition json_after_container_close (current : ElementType) : prog ostate unit :=
  match current with
  | ELEMENT_TYPE_ENTRY | ELEMENT_TYPE_SECTION_OPEN | ELEMENT_TYPE_OBJECT_OPEN
  | ELEMENT_TYPE_CONTAINER_OPEN => same_level COMMA_NL
  | ELEMENT_TYPE_SECTION_CLOSE | ELEMENT_TYPE_CONTAINER_CLOSE | ELEMENT_TYPE_OBJECT_CLOSE => close_level
  | _ => assert_not_reached
  end.

Definition json_after_object_open (current : ElementType) : prog ostate unit :=
  match current with
  | ELEMENT_TYPE_ENTRY | ELEMENT_TYPE_CONTAINER_OPEN | ELEMENT_TYPE_SECTION_OPEN => open_level
  | ELEMENT_TYPE_OBJECT_CLOSE => mret tt
  | _ => assert_not_reached
  end.

Definition json_after_object_close (current : ElementType) : prog ostate unit :=
  match current with
  | ELEMENT_TYPE_CONTAINER_CLOSE | ELEMENT_TYPE_SECTION_CLOSE => close_level
  | ELEMENT_TYPE_OBJECT_OPEN | ELEMENT_TYPE_SECTION_OPEN => same_level COMMA_NL
  | _ => assert_not_reached
  end.

(** After no element, in JSON and in XML. *)
Definition after_none (current : ElementType) : prog ostate unit :=
  match current with
  | ELEMENT_TYPE_ENTRY | ELEMENT_TYPE_SECTION_OPEN | ELEMENT_TYPE_SECTION_CLOSE
  | ELEMENT_TYPE_CONTAINER_OPEN | ELEMENT_TYPE_CONTAINER_CLOSE | ELEMENT_TYPE_OBJECT_OPEN
  | ELEMENT_TYPE_OBJECT_CLOSE => add_indent
  | _ => assert_not_reached
  end.

Definition format_json_element : prog ostate unit :=
  common_assert;;
  last ← gets last_element;
  current ← gets current_element;
  match last with
  | ELEMENT_TYPE_ENTRY => json_after_entry current
  | ELEMENT_TYPE_SECTION_OPEN => json_after_section_open current
  | ELEMENT_TYPE_SECTION_CLOSE => json_after_section_close current
  | ELEMENT_TYPE_CONTAINER_OPEN => json_after_container_open current
  | ELEMENT_TYPE_CONTAINER_CLOSE => json_after_container_close current
  | ELEMENT_TYPE_OBJECT_OPEN => json_after_object_open current
  | ELEMENT_TYPE_OBJECT_CLOSE => json_after_object_close current
  | ELEMENT_TYPE_NONE => after_none current
  end.

Definition xml_after_entry (current : ElementType) : prog ostate unit :=
  match current with
  | ELEMENT_TYPE_ENTRY | ELEMENT_TYPE_SECTION_OPEN | ELEMENT_TYPE_OBJECT_OPEN
  | ELEMENT_TYPE_CONTAINER_OPEN => same_level [NL]
  | ELEMENT_TYPE_SECTION_CLOSE | ELEMENT_TYPE_CONTAINER_CLOSE | ELEMENT_TYPE_OBJECT_CLOSE => close_level
  | _ => assert_not_reached
  end.

Definition xml_after_section_open (current : ElementType) : prog ostate unit :=
  match current with
  | ELEMENT_TYPE_ENTRY | ELEMENT_TYPE_SECTION_OPEN | ELEMENT_TYPE_CONTAINER_OPEN => open_level
  | ELEMENT_TYPE_SECTION_CLOSE => same_level [NL]
  | ELEMENT_TYPE_CONTAINER_CLOSE => assert_not_reached
  | _ => assert_not_reached
  end.

Definition xml_after_section_close (current : ElementType) : prog ostate unit :=
  match current with
  | ELEMENT_TYPE_SECTION_CLOSE | ELEMENT_TYPE_CONTAINER_CLOSE => close_level
  | ELEMENT_TYPE_OBJECT_CLOSE => same_level [NL]
  | ELEMENT_TYPE_SECTION_OPEN | ELEMENT_TYPE_ENTRY | ELEMENT_TYPE_CONTAINER_OPEN => same_level [NL]
  | _ => assert_not_reached
  end.

Definition xml_after_container_open (current : ElementType) : prog ostate unit :=
  match current with
  | ELEMENT_TYPE_ENTRY | ELEMENT_TYPE_SECTION_OPEN | ELEMENT_TYPE_CONTAINER_OPEN => open_level
  | ELEMENT_TYPE_SECTION_CLOSE => assert_not_reached
  | ELEMENT_TYPE_CONTAINER_CLOSE => same_level [NL]
  | ELEMENT_TYPE_OBJECT_OPEN => add_indent
  | _ => assert_not_reached
  end.

Definition xml_after_container_close (current : ElementType) : prog ostate unit :=
  match current with
  | ELEMENT_TYPE_SECTION_CLOSE | ELEMENT_TYPE_CONTAINER_CLOSE | ELEMENT_TYPE_OBJECT_CLOSE => close_level
  | ELEMENT_TYPE_ENTRY | ELEMENT_TYPE_SECTION_OPEN | ELEMENT_TYPE_CONTAINER_OPEN => same_level [NL]
  | _ => assert_not_reached
  end.

Definition xml_after_object_open (current : ElementType) : prog ostate unit :=
  match current with
  | ELEMENT_TYPE_ENTRY | ELEMENT_TYPE_SECTION_OPEN => open_level
  | ELEMENT_TYPE_CONTAINER_OPEN => open_level
  | ELEMENT_TYPE_OBJECT_CLOSE => mret tt
  | _ => assert_not_reached
  end.

Definition xml_after_object_close (current : ElementType) : prog ostate unit :=
  match current with
  | ELEMENT_TYPE_OBJECT_OPEN | ELEMENT_TYPE_SECTION_CLOSE => mret tt
  | ELEMENT_TYPE_CONTAINER_CLOSE | ELEMENT_TYPE_ENTRY => wappend_doc [NL];; dec_indent
  | _ => assert_not_reached
  end.

Definition format_xml_element : prog ostate unit :=
  common_assert;;
  last ← gets last_element;
  current ← gets current_element;
  match last with
  | ELEMENT_TYPE_ENTRY => xml_after_entry current
  | ELEMENT_TYPE_SECTION_OPEN => xml_after_section_open current
  | ELEMENT_TYPE_SECTION_CLOSE => xml_after_section_close current
  | ELEMENT_TYPE_CONTAINER_OPEN => xml_after_container_open current
  | ELEMENT_TYPE_CONTAINER_CLOSE => xml_after_container_close current
  | ELEMENT_TYPE_OBJECT_OPEN => xml_after_object_open current
  | ELEMENT_TYPE_OBJECT_CLOSE => xml_after_object_close current
  | ELEMENT_TYPE_NONE => after_none current
  end.

Definition format_element : prog ostate unit :=
  f ← gets output_format;
  match f with
  | OUTPUT_FORMAT_TEXT => format_text_element
  | OUTPUT_FORMAT_CRUMB => mret tt
  | OUTPUT_FORMAT_JSON => format_json_element
  | OUTPUT_FORMAT_XML => format_xml_element
  end.

Definition change_element (new : ElementType) : prog ostate unit :=
  common_assert;;
  modify (fun s => set_elements (current_element s) (current_element s) s);;
  modify (fun s => set_elements (last_element s) new s);;
  format_element.

(** *** Elements *)
Definition object_open (retain : bool) : prog ostate unit :=
  common_assert;;
  f ← gets output_format;
  (if bool_decide (f = OUTPUT_FORMAT_JSON)
   then (if retain then format_element else change_element ELEMENT_TYPE_OBJECT_OPEN)
   else mret tt);;
  match f with
  | OUTPUT_FORMAT_CRUMB | OUTPUT_FORMAT_TEXT => mret tt
  | OUTPUT_FORMAT_JSON => wappend_doc (lit "{")
  | OUTPUT_FORMAT_XML => mret tt
  end.

Definition object_close (retain : bool) : prog ostate unit :=
  common_assert;;
  f ← gets output_format;
  (if bool_decide (f = OUTPUT_FORMAT_JSON)
   then (if retain then format_element else change_element ELEMENT_TYPE_OBJECT_CLOSE)
   else mret tt);;
  match f with
  | OUTPUT_FORMAT_CRUMB | OUTPUT_FORMAT_TEXT => mret tt
  | OUTPUT_FORMAT_JSON => wappend_doc (lit "}")
  | OUTPUT_FORMAT_XML => mret tt
  end.

(** A call of [encode_string], whose failure is fatal. *)
Definition encode_or_die (p : pstring) (msg : string) : prog ostate pstring :=
  f ← gets output_format;
  '(ret, p') ← in_mem (encode_string f p);
  if Z.ltb ret 0 then die msg else mret p'.

Definition name_to_wide_name (name : bytes) : prog ostate pstring :=
  p ← in_mem (char_to_pstring name);
  match p with
  | None => die "failed to convert string to pstring"
  | Some encoded_name => encode_or_die encoded_name "failed to encode name"
  end.

Definition json_section_format : wstr := DQUOTE :: lit "%ls" ++ DQUOTE :: lit " : {".
Definition xml_section_format : wstr := lit "<section name=" ++ DQUOTE :: lit "%ls" ++ DQUOTE :: lit ">".
Definition json_container_format : wstr := DQUOTE :: lit "%ls" ++ DQUOTE :: lit " : [".
Definition xml_container_format : wstr := lit "<container name=" ++ DQUOTE :: lit "%ls" ++ DQUOTE :: lit ">".

Definition section_open (name : bytes) : prog ostate unit :=
  common_assert;;
  encoded_name ← name_to_wide_name name;
  change_element ELEMENT_TYPE_SECTION_OPEN;;
  f ← gets output_format;
  a ← wide_arg encoded_name;
  match f with
  | OUTPUT_FORMAT_TEXT => wappendf_doc (lit "%ls:") [a]
  | OUTPUT_FORMAT_CRUMB => add_breadcrumb name
  | OUTPUT_FORMAT_JSON => wappendf_doc json_section_format [a]
  | OUTPUT_FORMAT_XML => wappendf_doc xml_section_format [a]
  end.

Definition section_close : prog ostate unit :=
  common_assert;;
  change_element ELEMENT_TYPE_SECTION_CLOSE;;
  f ← gets output_format;
  match f with
  | OUTPUT_FORMAT_TEXT => mret tt
  | OUTPUT_FORMAT_CRUMB => remove_breadcrumb
  | OUTPUT_FORMAT_JSON => wappend_doc (lit "}")
  | OUTPUT_FORMAT_XML => wappend_doc (lit "</section>")
  end.

Definition container_open (name : bytes) : prog ostate unit :=
  common_assert;;
  encoded_name ← name_to_wide_name name;
  change_element ELEMENT_TYPE_CONTAINER_OPEN;;
  f ← gets output_format;
  a ← wide_arg encoded_name;
  match f with
  | OUTPUT_FORMAT_TEXT => wappendf_doc (lit "%ls:") [a]
  | OUTPUT_FORMAT_CRUMB => add_breadcrumb name
  | OUTPUT_FORMAT_JSON => wappendf_doc json_container_format [a]
  | OUTPUT_FORMAT_XML => wappendf_doc xml_container_format [a]
  end.

Definition container_close : prog ostate unit :=
  common_assert;;
  change_element ELEMENT_TYPE_CONTAINER_CLOSE;;
  f ← gets output_format;
  match f with
  | OUTPUT_FORMAT_TEXT => mret tt
  | OUTPUT_FORMAT_CRUMB => remove_breadcrumb
  | OUTPUT_FORMAT_JSON => wappend_doc (lit "]")
  | OUTPUT_FORMAT_XML => wappend_doc (lit "</container>")
  end.

Definition json_entry_format : wstr :=
  DQUOTE :: lit "%ls" ++ DQUOTE :: lit " : " ++ DQUOTE :: lit "%ls" ++ [DQUOTE].
Definition xml_entry_format : wstr :=
  lit "<entry name=" ++ DQUOTE :: lit "%ls" ++ DQUOTE :: lit ">%ls</entry>".

(** A [char *] argument of a format; a null pointer is not allowed. *)
Definition str_arg (s : option bytes) : prog ostate arg :=
  match s with Some s => mret (AStr s) | None => ub "null argument for %s" end.

Definition entry (name fmt : bytes) (ap : list arg) : prog ostate unit :=
  common_assert;;
  change_element ELEMENT_TYPE_ENTRY;;
  p ← in_mem (char_to_pstring name);
  match p with
  | None => die "failed to encode name"
  | Some name1 =>
    encoded_name ← encode_or_die name1 "failed to encode name";
    v ← in_mem (wmappendva None fmt ap);
    match v with
    | None => abort "*pstr"
    | Some value1 =>
      encoded_value ← encode_or_die value1 "failed to encode value";
      f ← gets output_format;
      n ← wide_arg encoded_name;
      v ← wide_arg encoded_value;
      match f with
      | OUTPUT_FORMAT_CRUMB =>
        l ← gets crumb_list;
        assert_ (nonnull l) "crumb_list";;
        iters ← in_mem (PR_LIST_FOREACH l);
        for_each iters (fun iter =>
          d ← in_mem (get_data iter);
          crumb ← str_arg d;
          sep ← (c ← gets crumb_separator; str_arg c);
          wappendf_doc (lit "%s%s") [crumb; sep]);;
        sep ← gets text_separator;
        wappendf_doc (lit "%ls%s%ls" ++ [NL]) [n; AStr sep; v]
      | OUTPUT_FORMAT_TEXT =>
        sep ← gets text_separator;
        wappendf_doc (lit "%ls%s%ls") [n; AStr sep; v]
      | OUTPUT_FORMAT_JSON => wappendf_doc json_entry_format [n; v]
      | OUTPUT_FORMAT_XML => wappendf_doc xml_entry_format [n; v]
      end
    end
  end.

Definition header (name : bytes) : prog ostate unit := common_assert;; section_open name.
Definition footer : prog ostate unit := common_assert;; section_close.

Section Master.
Context `{Package}.

Definition xml_declaration : wstr :=
  lit "<?xml version=" ++ DQUOTE :: lit "1.0" ++ DQUOTE :: lit " encoding=" ++
  DQUOTE :: lit "UTF-8" ++ DQUOTE :: lit "?>" ++ [NL].

Definition xml_root_format : wstr :=
  lit "<%s version=" ++ DQUOTE :: lit "%s" ++ DQUOTE :: lit " package_string=" ++
  DQUOTE :: lit "%s" ++ DQUOTE :: lit " mode=" ++ DQUOTE :: lit "%s%s" ++
  DQUOTE :: lit " format_version=" ++ DQUOTE :: lit "%d" ++ DQUOTE :: lit ">" ++ [NL].

Definition master_header : prog ostate unit :=
  common_assert;;
  f ← gets output_format;
  match f with
  | OUTPUT_FORMAT_CRUMB | OUTPUT_FORMAT_TEXT => mret tt
  | OUTPUT_FORMAT_JSON => object_open false
  | OUTPUT_FORMAT_XML =>
    wappend_doc xml_declaration;;
    euid ← gets user_euid;
    wappendf_doc xml_root_format
      [AStr PACKAGE_NAME; AStr PACKAGE_VERSION; AStr PACKAGE_STRING;
       AStr (if Z.eqb euid 0 then [] else NON_STR ++ lit "-"); AStr PRIVILEGED_STR;
       ANum PROCENV_FORMAT_VERSION];;
    inc_indent
  end.

Definition master_footer : prog ostate unit :=
  common_assert;;
  f ← gets output_format;
  match f with
  | OUTPUT_FORMAT_CRUMB | OUTPUT_FORMAT_TEXT => wappend_doc [NL]
  | OUTPUT_FORMAT_JSON => object_close false;; wappend_doc [NL]
  | OUTPUT_FORMAT_XML =>
    wappend_doc [NL];;
    dec_indent;;
    wappendf_doc (lit "</%s>" ++ [NL]) [AStr PACKAGE_NAME]
  end.
End Master.

(** *** Options of the output *)
Definition output_map : list (bytes * Output) :=
  [ (lit "file", OUTPUT_FILE); (lit "stderr", OUTPUT_STDERR); (lit "stdout", OUTPUT_STDOUT);
    (lit "syslog", OUTPUT_SYSLOG); (lit "terminal", OUTPUT_TERM) ].

Definition output_format_map : list (bytes * OutputFormat) :=
  [ (lit "text", OUTPUT_FORMAT_TEXT); (lit "crumb", OUTPUT_FORMAT_CRUMB);
    (lit "json", OUTPUT_FORMAT_JSON); (lit "xml", OUTPUT_FORMAT_XML) ].

(** The search for a name in a [procenv_map]. *)
Fixpoint map_find {A} (map : list (bytes * A)) (name : bytes) : option A :=
  match map with
  | [] => None
  | (n, num) :: map' => if Z.eqb (strcmp name n) 0 then Some num else map_find map' name
  end.

Definition set_output_value (name : bytes) : prog ostate unit :=
  match map_find output_map name with
  | Some num => modify (put_output num)
  | None => die "invalid output value"
  end.

Definition set_output_value_raw (o : Output) : prog ostate unit := modify (put_output o).

Definition set_output_format (name : bytes) : prog ostate unit :=
  match map_find output_format_map name with
  | Some num => modify (put_output_format num)
  | None => die "invalid output format value"
  end.

Fixpoint map_name (map : list (bytes * OutputFormat)) (f : OutputFormat) : option bytes :=
  match map with
  | [] => None
  | (n, num) :: map' => if bool_decide (f = num) then Some n else map_name map' f
  end.

Definition get_output_format_name : prog ostate bytes :=
  f ← gets output_format;
  match map_name output_format_map f with
  | Some n => mret n
  | None => die "invalid output format"
  end.

Definition handle_indent_char : prog ostate unit :=
  new ← the_indent_char;
  match mbs_decode new with
  | Some [c] => modify (put_wide_indent_char c)
  | _ => die "invalid indent character"
  end.

(** *** Sending the text out *)
Section Sink.
Context `{Host}.

Definition log (e : event) : prog ostate unit := modify (add_event e).

(** [fputs (str, stream)]: its value decides whether the output failed. *)
Definition fputs_to (stream : Output) (str : bytes) : prog ostate Z :=
  evs ← gets events;
  let ret := fputs_ret evs stream str in
  log (EvFputs stream str ret);; mret ret.

Definition write_to (fd : Z) (str : bytes) : prog ostate Z :=
  evs ← gets events;
  let ret := write_ret evs fd str in
  log (EvWrite fd str ret);; mret ret.

Definition exit_failure {A} (msg : string) : prog ostate A := fun _ => Exit msg.

Definition _show_output (str : bytes) : prog ostate unit :=
  o ← gets output;
  ret ← (match o with
         | OUTPUT_SYSLOG => log (EvSyslog str);; mret 0%Z
         | OUTPUT_STDOUT => fputs_to OUTPUT_STDOUT str
         | OUTPUT_STDERR => fputs_to OUTPUT_STDERR str
         | OUTPUT_TERM =>
           fd ← gets user_tty_fd;
           assert_ (negb (Z.eqb fd (-1))) "user.tty_fd != -1";;
           ret ← write_to fd str;
           if Z.ltb ret 0 then exit_failure "failed to write to terminal" else mret ret
         | OUTPUT_FILE =>
           file ← gets output_file;
           app ← gets output_file_append;
           assert_ (bool_decide (is_Some file)) "output_file";;
           fd ← gets output_fd;
           (if Z.ltb fd 0 then
              evs ← gets events;
              let new := open_ret evs (default [] file) app in
              log (EvOpen (default [] file) app new);;
              modify (set_output_fd new);;
              (if Z.ltb new 0 then exit_failure "failed to open file" else mret tt)
            else mret tt);;
           fd ← gets output_fd;
           ret ← write_to fd str;
           if Z.ltb ret 0 then exit_failure "failed to write to file" else mret ret
         end);
  if Z.ltb ret 0 then exit_failure "failed to output message" else mret tt.

(** [pstring_to_char] returns a null pointer for an empty document, which
    the assertion of [_show_output] catches. *)
Definition _show_output_pstring (pstr : pstring) : prog ostate unit :=
  str ← in_mem (pstring_to_char pstr);
  match str with
  | None => abort "str"
  | Some b => s ← pure (string_at b 0); _show_output s
  end.

Definition _show (prefix : option bytes) (amount : Z) (fmt : bytes) (ap : list arg)
  : prog ostate unit :=
  b1 ← (if Z.eqb amount 0 then mret None
        else c ← the_indent_char;
             in_mem (appendf None (lit "%*s") [ANum amount; AStr c]));
  b2 ← (match prefix with
        | Some ((_ :: _) as p) => in_mem (appendf b1 (lit "%s: ") [AStr p])
        | _ => mret b1
        end);
  b3 ← in_mem (appendva b2 fmt ap);
  b4 ← in_mem (append b3 [NL]);
  match b4 with
  | None => abort "str"
  | Some b => s ← pure (string_at b 0); _show_output s
  end.

Definition output_init : prog ostate unit :=
  o ← gets output;
  if bool_decide (o = OUTPUT_SYSLOG) then log EvOpenlog else mret tt.

Definition output_finalise : prog ostate unit :=
  fd ← gets output_fd;
  (if Z.eqb fd (-1) then mret tt else log (EvClose fd));;
  free_breadcrumbs;;
  o ← gets output;
  if bool_decide (o = OUTPUT_SYSLOG) then log EvCloselog else mret tt.
End Sink.
End Ops.
