(* ===== verification/OutputSpec.v ===== *)
(** OutputSpec: an abstract document and the refinement of [Output] to it.

    The abstract document is a text, an indent level, the last two elements
    and the path of breadcrumbs.  [yields m a a'] says that the computation [m]
    runs without failing from every concrete state that represents [a] and ends
    in one that represents [a'].  [layout] is the specification of the element
    state machines: what separates two consecutive elements. *)
From S2P Require Import Prelude Memory PrList PrListSpec Locale PString StringUtil Encode Output.

Record adoc : Type := mk_adoc {
  a_text : wstr;
  a_level : Z;
  a_last : ElementType;
  a_cur : ElementType;
  a_path : list bytes
}.

(** What belongs to the destination of the document, and the calls made so far
    that left the program: building a document leaves all of it alone. *)
Record sink : Type := mk_sink {
  k_wide : Z;
  k_output : Output;
  k_file : option bytes;
  k_append : bool;
  k_fd : Z;
  k_events : list event
}.

Definition sink_of (w : ostate) : sink :=
  mk_sink (wide_indent_char w) (output w) (output_file w) (output_file_append w) (output_fd w) (events w).

(** The settings that do not change while a document is built. *)
Record settings : Type := mk_settings {
  s_format : OutputFormat;
  s_amount : Z;
  s_pad : Z;
  s_separator : wstr;
  s_crumb_separator : wstr;
  s_euid : Z;
  s_tty : Z;
  s_sink : sink
}.

(** ** The layout of a document *)
Definition opening (e : ElementType) : bool :=
  match e with
  | ELEMENT_TYPE_SECTION_OPEN | ELEMENT_TYPE_CONTAINER_OPEN | ELEMENT_TYPE_OBJECT_OPEN => true
  | _ => false
  end.

Definition closing (e : ElementType) : bool :=
  match e with
  | ELEMENT_TYPE_SECTION_CLOSE | ELEMENT_TYPE_CONTAINER_CLOSE | ELEMENT_TYPE_OBJECT_CLOSE => true
  | _ => false
  end.

(** What is written between two consecutive elements: nothing, the indent
    alone, a separator and the indent, or a newline and the indent of the next
    or the previous level. *)
Inductive glue : Type :=
| Nothing
| Indent
| Same
| Deeper
| Shallower.

(** The first element of a document is indented; an element is one level
    deeper than the element that opens it; a closing element goes back one
    level, unless it closes what has just been opened. *)
Definition layout (f : OutputFormat) (last cur : ElementType) : glue :=
  if bool_decide (f = OUTPUT_FORMAT_CRUMB) then Nothing
  else if bool_decide (last = ELEMENT_TYPE_NONE) then Indent
  else if opening last then
    if closing cur then (if bool_decide (f = OUTPUT_FORMAT_XML) then Same else Nothing) else Deeper
  else if closing cur then Shallower else Same.

(** The elements that may follow one another. *)
Definition member (e : ElementType) : bool :=
  match e with
  | ELEMENT_TYPE_ENTRY | ELEMENT_TYPE_SECTION_OPEN | ELEMENT_TYPE_CONTAINER_OPEN => true
  | _ => false
  end.

Definition allowed (f : OutputFormat) (last cur : ElementType) : bool :=
  match f with
  | OUTPUT_FORMAT_CRUMB => true
  | OUTPUT_FORMAT_JSON =>
    match last, cur with
    | ELEMENT_TYPE_NONE, ELEMENT_TYPE_OBJECT_OPEN => true
    | ELEMENT_TYPE_OBJECT_OPEN, ELEMENT_TYPE_OBJECT_CLOSE
    | ELEMENT_TYPE_SECTION_OPEN, ELEMENT_TYPE_SECTION_CLOSE
    | ELEMENT_TYPE_CONTAINER_OPEN, ELEMENT_TYPE_CONTAINER_CLOSE
    | ELEMENT_TYPE_CONTAINER_OPEN, ELEMENT_TYPE_OBJECT_OPEN
    | ELEMENT_TYPE_OBJECT_CLOSE, ELEMENT_TYPE_OBJECT_OPEN
    | ELEMENT_TYPE_OBJECT_CLOSE, ELEMENT_TYPE_CONTAINER_CLOSE => true
    | (ELEMENT_TYPE_OBJECT_OPEN | ELEMENT_TYPE_SECTION_OPEN), _ => member cur
    | (ELEMENT_TYPE_ENTRY | ELEMENT_TYPE_SECTION_CLOSE | ELEMENT_TYPE_CONTAINER_CLOSE), _ =>
      member cur || bool_decide (cur = ELEMENT_TYPE_SECTION_CLOSE)
      || bool_decide (cur = ELEMENT_TYPE_OBJECT_CLOSE)
    | _, _ => false
    end
  | OUTPUT_FORMAT_XML | OUTPUT_FORMAT_TEXT =>
    match last, cur with
    | ELEMENT_TYPE_SECTION_OPEN, ELEMENT_TYPE_SECTION_CLOSE
    | ELEMENT_TYPE_CONTAINER_OPEN, ELEMENT_TYPE_CONTAINER_CLOSE => true
    | (ELEMENT_TYPE_NONE | ELEMENT_TYPE_SECTION_OPEN | ELEMENT_TYPE_CONTAINER_OPEN), _ => member cur
    | (ELEMENT_TYPE_ENTRY | ELEMENT_TYPE_SECTION_CLOSE | ELEMENT_TYPE_CONTAINER_CLOSE), _ =>
      member cur || bool_decide (cur = ELEMENT_TYPE_SECTION_CLOSE)
      || bool_decide (cur = ELEMENT_TYPE_CONTAINER_CLOSE)
    | _, _ => false
    end
  end.

Definition separator (f : OutputFormat) : wstr :=
  match f with OUTPUT_FORMAT_JSON => COMMA_NL | _ => [NL] end.

Section Refinement.
Context `{AllocTotal} `{LocaleLaws} (cfg : settings).
Implicit Types (w : ostate) (a : adoc).

(** The indent character in force is [s_pad]: a space, or any other single
    character the user chose. *)
Definition indents w : Prop :=
  (indent_char w = Some DEFAULT_INDENT_CHAR /\ s_pad cfg = SPACE) \/
  (exists c, indent_char w = Some c /\ strcmp c DEFAULT_INDENT_CHAR <> 0%Z /\
             wide_indent_char w = s_pad cfg).

Definition separators w : Prop :=
  (mbs_decode (text_separator w) = Some (s_separator cfg) /\ nz (s_separator cfg)) /\
  exists c, crumb_separator w = Some c /\ mbs_decode c = Some (s_crumb_separator cfg) /\
            nz (s_crumb_separator cfg).

Definition configured w : Prop :=
  output_format w = s_format cfg /\ indent_amount w = s_amount cfg /\ (0 <= s_amount cfg)%Z /\
  s_pad cfg <> 0%Z /\ indents w /\ separators w /\ user_euid w = s_euid cfg /\
  user_tty_fd w = s_tty cfg /\ sink_of w = s_sink cfg.

(** The breadcrumbs of the list, from the first to the last. *)
Definition crumbs (m : mem) (l : nat) (path : list bytes) : Prop :=
  (l = NULL /\ path = []) \/
  exists xs, ring (heap m) l xs /\
             map (data_of (heap m)) xs = map (fun s => Some (Some s)) path.

Record rep w a : Prop := mk_rep {
  rep_configured : configured w;
  rep_doc : exists d, doc w = Some d /\ text_of d (a_text a);
  rep_nz : nz (a_text a);
  rep_indent : indent w = a_level a;
  rep_level : (0 <= a_level a <= INT_MAX)%Z;
  rep_empty : a_text a = [] -> a_level a = 0%Z;
  rep_last : last_element w = a_last a;
  rep_cur : current_element w = a_cur a;
  rep_mem : mem_ok (o_mem w);
  rep_crumbs : crumbs (o_mem w) (crumb_list w) (a_path a)
}.

Definition yields (m : prog ostate unit) a a' : Prop :=
  forall w, rep w a -> exists w', m w = Ok (tt, w') /\ rep w' a'.

(** ** Sequencing *)
Lemma yields_ret a : yields (mret tt) a a.
Proof. intros w Hw. by exists w. Qed.

Lemma yields_bind m k a a1 a2 :
  yields m a a1 -> yields (k tt) a1 a2 -> yields (m ≫= k) a a2.
Proof.
  intros Hm Hk w Hw. destruct (Hm w Hw) as (w1 & E1 & Hw1).
  destruct (Hk w1 Hw1) as (w2 & E2 & Hw2). exists w2. split; [|done].
  by step_with E1.
Qed.

Lemma yields_gets {A} (g : ostate -> A) v k a a' :
  (forall w, rep w a -> g w = v) -> yields (k v) a a' -> yields (gets g ≫= k) a a'.
Proof.
  intros Hg Hk w Hw. destruct (Hk w Hw) as (w' & E & Hw'). exists w'. split; [|done].
  erewrite prog_bind_ok by reflexivity. by rewrite (Hg w Hw).
Qed.

(** A computation with a value that only allocates. *)
Lemma ticked_mem_ok m m' : ticked m m' -> mem_ok m -> mem_ok m'.
Proof. intros [n ->] Hm x Hx. apply Hm in Hx. cbn. lia. Qed.

Lemma rep_ticked w a m' : rep w a -> ticked (o_mem w) m' -> rep (set_mem m' w) a.
Proof.
  intros [] Ht. constructor; try done; cbn.
  - by eapply ticked_mem_ok.
  - destruct Ht as [n ->]. done.
Qed.

Lemma yields_mem {A} (m : prog mem A) (Q : A -> Prop) k a a' :
  (forall m0, exists v m1, m m0 = Ok (v, m1) /\ Q v /\ ticked m0 m1) ->
  (forall v, Q v -> yields (k v) a a') -> yields (in_mem m ≫= k) a a'.
Proof.
  intros Hm Hk w Hw. destruct (Hm (o_mem w)) as (v & m1 & E & Hq & Ht).
  destruct (Hk v Hq (set_mem m1 w)) as (w' & E' & Hw'); [by apply rep_ticked|].
  exists w'. split; [|done]. unfold in_mem. by step_with (zoom_ok o_mem set_mem m w v m1 E).
Qed.

(** ** The text *)
Definition add_text (s : wstr) a : adoc :=
  mk_adoc (a_text a ++ s) (a_level a) (a_last a) (a_cur a) (a_path a).

Lemma rep_text w a s d m' :
  rep w a -> nz s -> text_of d (a_text a ++ s) -> ticked (o_mem w) m' ->
  rep (set_doc (Some d) (set_mem m' w)) (add_text s a).
Proof.
  intros Hw Hs Hd Ht. destruct (rep_ticked w a m' Hw Ht). constructor; try done; cbn.
  - by exists d.
  - by apply nz_app.
  - intros E. apply app_eq_nil in E as [E _]. by apply rep_empty0.
Qed.

Lemma yields_on_doc f s a :
  nz s ->
  (forall d m, text_of d (a_text a) -> (a_text a = [] -> a_level a = 0%Z) ->
     exists d' m', f (Some d) m = Ok (Some d', m') /\ text_of d' (a_text a ++ s) /\ ticked m m') ->
  yields (on_doc f) a (add_text s a).
Proof.
  intros Hs Hf w Hw. destruct (rep_doc _ _ Hw) as (d & Ed & Hd).
  destruct (Hf d (o_mem w) Hd (rep_empty _ _ Hw)) as (d' & m' & E & Hd' & Ht).
  exists (set_doc (Some d') (set_mem m' w)). split; [|by apply rep_text].
  unfold on_doc. erewrite prog_bind_ok by reflexivity. rewrite Ed.
  unfold in_mem. by step_with (zoom_ok o_mem set_mem (f (Some d)) w (Some d') m' E).
Qed.

Lemma yields_wappend s a : nz (a_text a) -> nz s -> yields (wappend_doc s) a (add_text s a).
Proof.
  intros Hnz Hs. apply yields_on_doc; [done|]. intros d m Hd _.
  destruct (wappend_ok (Some d) (a_text a) s m Hd Hnz Hs) as (o & m' & E & Hp & Ht & Hsome).
  destruct Hsome as [d' ->]; [by eexists|]. by exists d', m'.
Qed.

Lemma yields_wappendf fmt args s a :
  nz (a_text a) -> format_wcs fmt args = Ok (Some s) -> nz s ->
  yields (wappendf_doc fmt args) a (add_text s a).
Proof.
  intros Hnz Hf Hs. apply yields_on_doc; [done|]. intros d m Hd _.
  destruct (wappendf_ok d (a_text a) fmt args s m Hd Hnz Hf Hs) as (d' & m' & E & Ht & Htk).
  by exists d', m'.
Qed.

Lemma yields_with_nz m a a' : (nz (a_text a) -> yields m a a') -> yields m a a'.
Proof. intros Hm w Hw. apply Hm; [|done]. by destruct Hw. Qed.

Lemma run_common_assert w a : rep w a -> common_assert w = Ok (tt, w).
Proof.
  intros Hw. unfold common_assert.
  destruct (rep_doc _ _ Hw) as (d & Ed & _).
  destruct (rep_configured _ _ Hw) as (_ & Ea & Hpos & _).
  erewrite prog_bind_ok by reflexivity. rewrite Ed.
  erewrite prog_bind_ok by reflexivity. erewrite prog_bind_ok by reflexivity.
  rewrite Ea. unfold assert_. by replace (Z.leb 0 (s_amount cfg)) with true by lia.
Qed.

Lemma yields_common_assert a : yields common_assert a a.
Proof. intros w Hw. exists w. split; [by eapply run_common_assert|done]. Qed.

(** ** Indents *)
Definition padding (n : Z) : wstr := replicate (Z.to_nat n) (s_pad cfg).

Lemma to_signed_small i : (0 <= i <= INT_MAX)%Z -> to_signed 32 i = i.
Proof.
  unfold INT_MAX. intros Hi. unfold to_signed. rewrite Z.mod_small by lia.
  by replace (Z.ltb i (2 ^ (32 - 1))) with true by lia.
Qed.

Lemma pad_one i c :
  (0 < i)%Z -> pad false (Z.to_nat i) [c] = replicate (Z.to_nat i - 1) SPACE ++ [c].
Proof. done. Qed.

Lemma format_indent i :
  (0 < i <= INT_MAX)%Z ->
  format_wcs (lit "%*s") [ANum i; AStr DEFAULT_INDENT_CHAR]
  = Ok (Some (replicate (Z.to_nat i) SPACE)).
Proof.
  intros Hi. unfold format_wcs, format_with.
  cbv -[to_signed pad Z.to_nat Z.abs Z.ltb mbs_decode opt_app DEFAULT_INDENT_CHAR].
  rewrite decode_ascii by ascii_lit. rewrite to_signed_small by lia.
  replace (Z.ltb i 0) with false by lia. rewrite Z.abs_eq by lia.
  unfold DEFAULT_INDENT_CHAR. rewrite pad_one by lia.
  rewrite <- replicate_S_end. replace (S (Z.to_nat i - 1)) with (Z.to_nat i) by lia.
  cbn [opt_app]. by rewrite app_nil_r.
Qed.

Lemma format_indent_char i c :
  (0 < i <= INT_MAX)%Z ->
  format_wcs (lit "%*lc") [ANum i; AWChar c]
  = Ok (Some (replicate (Z.to_nat i - 1) SPACE ++ [c])).
Proof.
  intros Hi. unfold format_wcs, format_with.
  cbv -[to_signed pad Z.to_nat Z.abs Z.ltb mbs_decode opt_app].
  rewrite to_signed_small by lia.
  replace (Z.ltb i 0) with false by lia. rewrite Z.abs_eq by lia.
  rewrite pad_one by lia. cbn [opt_app]. by rewrite app_nil_r.
Qed.

Lemma nz_padding n : s_pad cfg <> 0%Z -> nz (padding n).
Proof. apply nz_replicate. Qed.

Lemma memset_holding t junk c :
  memset (holding t junk) c (length t) = Ok (holding (replicate (length t) c) junk).
Proof.
  unfold memset, holding. rewrite <- (app_nil_l (map Some t ++ _)).
  rewrite store_all_middle by len_lia. done.
Qed.

Lemma yields_with_rep m a a' : (forall w, rep w a -> yields m a a') -> yields m a a'.
Proof. intros Hm w Hw. by apply (Hm w Hw). Qed.

Lemma add_text_nil a : add_text [] a = a.
Proof. destruct a. unfold add_text. cbn. by rewrite app_nil_r. Qed.

Lemma add_text_app s t a : add_text t (add_text s a) = add_text (s ++ t) a.
Proof. unfold add_text. cbn. by rewrite app_assoc. Qed.

Lemma yields_pure {A} (o : outcome A) v k a a' :
  o = Ok v -> yields (k v) a a' -> yields (pure o ≫= k) a a'.
Proof.
  intros Ho Hk w Hw. destruct (Hk w Hw) as (w' & E & Hw'). exists w'. split; [|done].
  by step_with (pure_ok o v w Ho).
Qed.

Lemma run_the_indent_char w c : indent_char w = Some c -> the_indent_char w = Ok (c, w).
Proof. intros Hc. unfold the_indent_char. erewrite prog_bind_ok by reflexivity. by rewrite Hc. Qed.

Lemma yields_add_indent a : yields add_indent a (add_text (padding (a_level a)) a).
Proof.
  apply yields_with_rep. intros w0 Hw0.
  pose proof (rep_level _ _ Hw0) as Hlev. pose proof (rep_nz _ _ Hw0) as Hnz.
  destruct (rep_configured _ _ Hw0) as (_ & _ & _ & Hpad & _ & _ & _). clear w0 Hw0.
  unfold add_indent. eapply yields_bind; [apply yields_common_assert|].
  apply yields_gets with (a_level a); [intros w Hw; apply (rep_indent _ _ Hw)|].
  destruct (Z.eqb_spec (a_level a) 0) as [E|E].
  { rewrite E. unfold padding. cbn. rewrite add_text_nil. apply yields_ret. }
  assert (0 < a_level a <= INT_MAX)%Z as Hi by lia.
  intros w Hw. destruct (rep_configured _ _ Hw) as (_ & _ & _ & _ & Hind & _).
  destruct Hind as [[Hc Hp]|(c & Hc & Hcmp & Hwide)]; step_with (run_the_indent_char w _ Hc).
  - cbn [strcmp DEFAULT_INDENT_CHAR].
    change (Z.eqb (strcmp [SPACE] [SPACE]) 0) with true. cbv iota.
    assert (padding (a_level a) = replicate (Z.to_nat (a_level a)) SPACE) as ->
      by (unfold padding; by rewrite Hp).
    apply yields_wappendf; [done|by apply format_indent|by apply nz_replicate|done].
  - rewrite (proj2 (Z.eqb_neq _ _) Hcmp).
    erewrite prog_bind_ok by reflexivity. rewrite Hwide.
    set (i := Z.to_nat (a_level a)). set (t := replicate (i - 1) SPACE ++ [s_pad cfg]).
    assert (nz t) as Ht by (apply nz_app; split; [by apply nz_replicate|by repeat constructor]).
    assert (length t = i) as Hlt by (unfold t, i; len_lia).
    destruct (wappendva_text None (lit "%*lc") [ANum (a_level a); AWChar (s_pad cfg)] t (o_mem w)
                (format_indent_char _ _ Hi) Ht) as (k & m1 & Hm1 & Hrun).
    assert (wappendf None (lit "%*lc") [ANum (a_level a); AWChar (s_pad cfg)] (o_mem w)
            = Ok (Some (mk_pstring (Some (holding t [Some 0%Z])) (length t + 1)
                         ((1 + (length t + 1)) * sizeof_wchar_t)), ticks k m1)) as E2 by exact Hrun.
    unfold in_mem. step_with (zoom_ok o_mem set_mem _ w _ _ E2). cbn [buf len size].
    assert (rep (set_mem (ticks k m1) w) a) as Hw1.
    { apply rep_ticked; [done|]. etrans; [exact Hm1|apply ticked_ticks]. }
    step_with (pure_ok _ _ (set_mem (ticks k m1) w) (strlen_at_start t [Some 0%Z] Ht)).
    step_with (pure_ok _ _ (set_mem (ticks k m1) w) (memset_holding t [Some 0%Z] (s_pad cfg))).
    rewrite Hlt. change (replicate i (s_pad cfg)) with (padding (a_level a)).
    apply yields_on_doc; [by apply nz_padding| |done].
    intros d m Hd He. apply pappend_ok; [done| |by apply nz_padding| |].
    + intros Et. specialize (He Et). lia.
    + unfold contents. cbn [buf]. by apply string_at_start, nz_padding.
    + cbn [len]. unfold padding. len_lia.
Qed.

(** ** Levels *)
Definition set_level (l : Z) a : adoc := mk_adoc (a_text a) l (a_last a) (a_cur a) (a_path a).

Lemma yields_inc_indent a :
  a_text a <> [] -> (a_level a + s_amount cfg <= INT_MAX)%Z ->
  yields inc_indent a (set_level (a_level a + s_amount cfg) a).
Proof.
  intros Hne Hle w Hw. exists (set_indent (a_level a + s_amount cfg) w).
  destruct (rep_configured _ _ Hw) as (_ & Ha & Hpos & _). pose proof (rep_level _ _ Hw) as Hl.
  split.
  - unfold inc_indent. erewrite prog_bind_ok by reflexivity. rewrite (rep_indent _ _ Hw).
    erewrite prog_bind_ok; [|apply assert_run; lia].
    erewrite prog_bind_ok by reflexivity. rewrite Ha.
    by replace (Z.ltb INT_MAX (a_level a + s_amount cfg)) with false by lia.
  - destruct Hw. constructor; try done; cbn; lia.
Qed.

Lemma yields_dec_indent a :
  (s_amount cfg <= a_level a)%Z -> yields dec_indent a (set_level (a_level a - s_amount cfg) a).
Proof.
  intros Hle w Hw. exists (set_indent (a_level a - s_amount cfg) w).
  destruct (rep_configured _ _ Hw) as (_ & Ha & Hpos & _). pose proof (rep_level _ _ Hw) as Hl.
  split.
  - unfold dec_indent. erewrite prog_bind_ok by reflexivity. rewrite (rep_indent _ _ Hw).
    erewrite prog_bind_ok; [|apply assert_run; lia].
    erewrite prog_bind_ok by reflexivity. rewrite Ha.
    erewrite prog_bind_ok by reflexivity. apply assert_run. lia.
  - destruct Hw. constructor; try done; cbn; [lia|]. intros E. specialize (rep_empty0 E). lia.
Qed.

(** ** The state machines refine the layout *)
Definition apply_glue (g : glue) a : adoc :=
  match g with
  | Nothing => a
  | Indent => add_text (padding (a_level a)) a
  | Same => add_text (separator (s_format cfg) ++ padding (a_level a)) a
  | Deeper =>
    add_text ([NL] ++ padding (a_level a + s_amount cfg)) (set_level (a_level a + s_amount cfg) a)
  | Shallower =>
    add_text ([NL] ++ padding (a_level a - s_amount cfg)) (set_level (a_level a - s_amount cfg) a)
  end.

Definition glue_fits (g : glue) a : Prop :=
  match g with
  | Deeper => (a_level a + s_amount cfg <= INT_MAX)%Z
  | Shallower => (s_amount cfg <= a_level a)%Z
  | _ => True
  end.

Lemma nz_separator f : nz (separator f).
Proof. destruct f; nz_lit. Qed.

Lemma yields_same_level sep a :
  nz sep -> yields (same_level sep) a (add_text (sep ++ padding (a_level a)) a).
Proof.
  intros Hs. apply yields_with_nz. intros Hnz. unfold same_level.
  eapply yields_bind; [by apply yields_wappend|].
  rewrite <- add_text_app. exact (yields_add_indent (add_text sep a)).
Qed.

Lemma yields_open_level a :
  glue_fits Deeper a -> yields open_level a (apply_glue Deeper a).
Proof.
  intros Hf. apply yields_with_nz. intros Hnz. unfold open_level.
  eapply yields_bind; [apply (yields_wappend [NL]); [done|nz_lit]|].
  eapply yields_bind; [apply yields_inc_indent; [|done]|].
  { cbn. by destruct (a_text a). }
  replace (apply_glue Deeper a)
    with (add_text (padding (a_level a + s_amount cfg))
            (set_level (a_level (add_text [NL] a) + s_amount cfg) (add_text [NL] a))).
  - exact (yields_add_indent (set_level _ (add_text [NL] a))).
  - unfold apply_glue, add_text, set_level. cbn. by rewrite <- app_assoc.
Qed.

Lemma yields_close_level a :
  glue_fits Shallower a -> yields close_level a (apply_glue Shallower a).
Proof.
  intros Hf. apply yields_with_nz. intros Hnz. unfold close_level.
  eapply yields_bind; [apply (yields_wappend [NL]); [done|nz_lit]|].
  eapply yields_bind; [by apply yields_dec_indent|].
  replace (apply_glue Shallower a)
    with (add_text (padding (a_level a - s_amount cfg))
            (set_level (a_level (add_text [NL] a) - s_amount cfg) (add_text [NL] a))).
  - exact (yields_add_indent (set_level _ (add_text [NL] a))).
  - unfold apply_glue, add_text, set_level. cbn. by rewrite <- app_assoc.
Qed.

Lemma yields_same a : yields (same_level (separator (s_format cfg))) a (apply_glue Same a).
Proof. apply yields_same_level, nz_separator. Qed.

Lemma yields_format_element a :
  allowed (s_format cfg) (a_last a) (a_cur a) = true ->
  glue_fits (layout (s_format cfg) (a_last a) (a_cur a)) a ->
  yields format_element a (apply_glue (layout (s_format cfg) (a_last a) (a_cur a)) a).
Proof.
  intros Hal Hfit. unfold format_element.
  apply yields_gets with (s_format cfg); [intros w Hw; apply (rep_configured _ _ Hw)|].
  pose proof (yields_same a) as Hsame. pose proof (yields_open_level a) as Hopen.
  pose proof (yields_close_level a) as Hclose. pose proof (yields_add_indent a) as Hind.
  pose proof (yields_ret a) as Hret.
  assert (forall m a', yields m a a' ->
    yields (common_assert;; m) a a') as Hassert
    by (intros m a' Hm; eapply yields_bind; [apply yields_common_assert|exact Hm]).
  assert (forall k a', yields (k (a_last a) (a_cur a)) a a' ->
    yields (last ← gets last_element; current ← gets current_element; k last current) a a') as Hcase.
  { intros k a' Hk. apply yields_gets with (a_last a); [intros w Hw; apply (rep_last _ _ Hw)|].
    apply yields_gets with (a_cur a); [intros w Hw; apply (rep_cur _ _ Hw)|exact Hk]. }
  destruct (s_format cfg).
  - apply Hassert, Hcase. destruct (a_last a), (a_cur a); try discriminate Hal; cbn in *; auto.
  - exact Hret.
  - apply Hassert, Hcase. destruct (a_last a), (a_cur a); try discriminate Hal; cbn in *; auto.
  - apply Hassert, Hcase. destruct (a_last a), (a_cur a); try discriminate Hal; cbn in *; auto.
Qed.

Definition step_elements (new : ElementType) a : adoc :=
  mk_adoc (a_text a) (a_level a) (a_cur a) new (a_path a).

(** The state after [change_element]. *)
Definition changed (new : ElementType) a : adoc :=
  apply_glue (layout (s_format cfg) (a_cur a) new) (step_elements new a).

Definition may_follow (new : ElementType) a : Prop :=
  allowed (s_format cfg) (a_cur a) new = true /\
  glue_fits (layout (s_format cfg) (a_cur a) new) a.

Lemma yields_change_element new a :
  may_follow new a -> yields (change_element new) a (changed new a).
Proof.
  intros [Hal Hfit]. unfold change_element.
  eapply yields_bind; [apply yields_common_assert|].
  eapply yields_bind; [|eapply (yields_bind _ _ _ (step_elements new a));
                        [|apply (yields_format_element (step_elements new a)); done]].
  - instantiate (1 := mk_adoc (a_text a) (a_level a) (a_cur a) (a_cur a) (a_path a)).
    intros w Hw. eexists. split; [reflexivity|]. destruct Hw. constructor; try done.
  - intros w Hw. eexists. split; [reflexivity|]. destruct Hw. constructor; try done.
Qed.

(** ** Breadcrumbs *)
Definition set_path p a : adoc := mk_adoc (a_text a) (a_level a) (a_last a) (a_cur a) p.

Lemma rep_crumb_change w a m' l p :
  rep w a -> mem_ok m' -> crumbs m' l p ->
  rep (set_crumb_list l (set_mem m' w)) (set_path p a).
Proof. intros [] Hm Hc. constructor; done. Qed.

(** The data of a live entry is in the heap whatever else changes. *)
Lemma crumbs_data m l p :
  crumbs m l p -> l <> NULL ->
  exists xs, ring (heap m) l xs /\ map (data_of (heap m)) xs = map (fun s => Some (Some s)) p.
Proof. intros [[? _]|Hx] Hl; [done|exact Hx]. Qed.

Lemma prepend_crumb m l xs name :
  mem_ok m -> ring (heap m) l xs ->
  exists e m', pr_list_prepend_str l name m = Ok (e, m') /\ mem_ok m' /\
    ring (heap m') l (xs ++ [e]) /\
    map (data_of (heap m')) (xs ++ [e]) = map (data_of (heap m)) xs ++ [Some (Some name)].
Proof.
  intros Hm Hr. destruct (prepend_str_ok m l xs name Hm Hr) as (m' & e & E & He & Hst).
  destruct Hst as (Hm' & Hr' & _ & Hd & Hf).
  exists e, m'. split_and!; [done|done|done|]. rewrite map_app. cbn. rewrite Hd. f_equal.
  apply map_ext_in. intros c Hc. apply Hf. apply list_elem_of_In in Hc. set_solver.
Qed.

Lemma yields_add_breadcrumb name a :
  yields (add_breadcrumb name) a (set_path (a_path a ++ [name]) a).
Proof.
  intros w Hw. pose proof (rep_mem _ _ Hw) as Hm. pose proof (rep_crumbs _ _ Hw) as Hc.
  unfold add_breadcrumb. erewrite prog_bind_ok by reflexivity.
  assert (exists w1 xs, (if nonnull (crumb_list w) then mret tt
            else l' ← in_mem (pr_list_new None); modify (set_crumb_list l')) w = Ok (tt, w1) /\
          rep w1 a /\ nonnull (crumb_list w1) = true /\ ring (heap (o_mem w1)) (crumb_list w1) xs /\
          map (data_of (heap (o_mem w1))) xs = map (fun s => Some (Some s)) (a_path a))
    as (w1 & xs & E1 & Hw1 & Hnn & Hr & Hd).
  { destruct Hc as [[Hl Hp]|(xs & Hr & Hd)].
    - rewrite Hl. cbn [nonnull Nat.eqb negb NULL].
      destruct (new_ok (o_mem w) None Hm) as (m1 & En & Hm1 & Hr1 & _ & _ & _).
      exists (set_crumb_list (S (allocs (o_mem w))) (set_mem m1 w)), [].
      split_and!.
      + unfold in_mem. by step_with (zoom_ok o_mem set_mem _ w _ _ En).
      + pose proof (rep_crumb_change w a m1 (S (allocs (o_mem w))) [] Hw Hm1
                      (or_intror (ex_intro _ [] (conj Hr1 eq_refl)))) as Hx.
        destruct a. cbn in Hp. subst. exact Hx.
      + done.
      + done.
      + by rewrite Hp.
    - exists w, xs. rewrite (ring_nonnull _ _ _ (crumb_list w) Hm Hr) by set_solver.
      by split_and!. }
  step_with E1. erewrite prog_bind_ok by reflexivity.
  step_with (assert_run _ "crumb_list" w1 Hnn).
  destruct (prepend_crumb (o_mem w1) (crumb_list w1) xs name (rep_mem _ _ Hw1) Hr)
    as (e & m' & E2 & Hm' & Hr' & Hd').
  unfold in_mem. step_with (zoom_ok o_mem set_mem _ w1 _ _ E2).
  eexists. split; [reflexivity|].
  pose proof (rep_crumb_change w1 a m' (crumb_list w1) (a_path a ++ [name]) Hw1 Hm') as Hrep.
  destruct w1. apply Hrep. right. exists (xs ++ [e]). split; [done|].
  by rewrite Hd', Hd, map_app.
Qed.

Lemma free_ok m e l xs :
  mem_ok m -> live m e -> ring (heap m) l xs -> (e ∉ l :: xs) ->
  exists m', free_node e m = Ok (tt, m') /\ mem_ok m' /\ ring (heap m') l xs /\
    map (data_of (heap m')) xs = map (data_of (heap m)) xs.
Proof.
  intros Hm [n Hn] Hr He. unfold free_node. rewrite Hn. eexists. split; [done|]. cbn. split_and!.
  - intros c. cbn. rewrite lookup_delete_is_Some. intros [_ Hc]. by apply Hm.
  - eapply ring_frame; [|exact Hr]. intros c Hc. apply lookup_delete_ne. set_solver.
  - apply map_ext_in. intros c Hc. apply list_elem_of_In in Hc. unfold data_of.
    rewrite lookup_delete_ne; [done|set_solver].
Qed.

Lemma yields_remove_breadcrumb name p a :
  a_path a = p ++ [name] -> yields remove_breadcrumb a (set_path p a).
Proof.
  intros Hp w Hw. pose proof (rep_mem _ _ Hw) as Hm.
  destruct (rep_crumbs _ _ Hw) as [[_ E]|(xs0 & Hr & Hd)]; [rewrite Hp in E; by destruct p|].
  rewrite Hp, map_app in Hd. apply map_eq_app in Hd as (xs & es & -> & Hd & He).
  destruct es as [|e [|]]; cbn in He; try done. injection He as He.
  unfold remove_breadcrumb. erewrite prog_bind_ok by reflexivity.
  assert (nonnull (crumb_list w) = true) as Hnn by (eapply ring_nonnull; [done..|set_solver]).
  step_with (assert_run _ "crumb_list" w Hnn).
  pose proof (ring_prev _ _ _ Hr) as Hprev. rewrite last_last in Hprev.
  unfold in_mem.
  step_with (zoom_ok o_mem set_mem _ w _ _ (get_prev_run _ _ _ Hprev)).
  assert (set_mem (o_mem w) w = w) as -> by by destruct w.
  destruct (remove_ok (o_mem w) (crumb_list w) xs e [] Hm Hr) as (m1 & E1 & Hr1 & Hself & Hs).
  rewrite app_nil_r in Hr1. pose proof (same_data_mem_ok _ _ Hs Hm) as Hm1.
  step_with (zoom_ok o_mem set_mem _ w _ _ E1).
  step_with (assert_run _ "entry" (set_mem m1 w) (ring_nonnull m1 e [] e Hm1 Hself ltac:(set_solver))).
  assert (data_of (heap m1) e = Some (Some name)) as Hde by (destruct Hs as [_ ->]; done).
  step_with (zoom_ok o_mem set_mem _ (set_mem m1 w) _ _ (get_data_run _ _ _ Hde)).
  assert (e ∉ crumb_list w :: xs) as Hnin.
  { destruct Hr as [Hnd _]. rewrite app_comm_cons in Hnd. apply NoDup_app in Hnd as (_ & Hx & _).
    intros Hin. apply (Hx e Hin). set_solver. }
  destruct (free_ok m1 e (crumb_list w) xs Hm1 (ring_live m1 e [] e Hself ltac:(set_solver)) Hr1 Hnin)
    as (m2 & E2 & Hm2 & Hr2 & Hd2).
  rewrite (zoom_ok o_mem set_mem _ (set_mem m1 (set_mem m1 w)) _ _ E2).
  eexists. split; [reflexivity|].
  pose proof (rep_crumb_change w a m2 (crumb_list w) p Hw Hm2) as Hrep.
  destruct w. apply Hrep. right. exists xs. split; [done|]. rewrite Hd2, <- Hd.
  apply map_ext. destruct Hs as [_ Hs]. exact Hs.
Qed.

(** ** Names and values *)
Let f := s_format cfg.

(** A name (or format) the calls accept: it is not empty, it is valid in the
    locale, and in XML and JSON its characters can be escaped. *)
Definition name_is (name : bytes) (t : wstr) : Prop :=
  nz name /\ name <> [] /\ mbs_decode name = Some t /\ (markup f -> escapable f t).

Definition value_is (fmt : bytes) (ap : list arg) (v : wstr) : Prop :=
  nz fmt /\ fmt <> [] /\
  (exists wfmt, mbs_decode fmt = Some wfmt /\ format_wcs wfmt ap = Ok (Some v)) /\
  positive v /\ (markup f -> escapable f v).

Lemma yields_assoc {A B} (m : prog ostate A) (g : A -> prog ostate B) k a a' :
  yields (x ← m; g x ≫= k) a a' -> yields ((m ≫= g) ≫= k) a a'.
Proof.
  intros Hm w Hw. destruct (Hm w Hw) as (w' & E & Hw'). exists w'. split; [|done].
  revert E. unfold mbind, prog_bind. by destruct (m w) as [[x w1]| | | | |].
Qed.

Lemma yields_encode p msg s k a a' :
  encoded p s -> nz s -> (markup f -> escapable f s) ->
  (forall p', contents p' = Ok (encode_text f s) -> nz (encode_text f s) -> yields (k p') a a') ->
  yields (encode_or_die p msg ≫= k) a a'.
Proof.
  intros Hp Hs He Hk. unfold encode_or_die. apply yields_assoc.
  apply yields_gets with f; [intros w Hw; apply (rep_configured _ _ Hw)|]. apply yields_assoc.
  apply yields_mem with (fun r => (0 <= r.1)%Z /\ contents r.2 = Ok (encode_text f s) /\
                                  nz (encode_text f s)).
  - intros m0. destruct (encode_string_ok f p s m0 Hp Hs) as (r & p' & m1 & E & Hr & Hen & Hnz & Ht).
    { intros Hf. by apply escapable_translate, He. }
    exists (r, p'), m1. split_and!; try done. destruct Hen as [[junk Hb] _].
    unfold contents. cbn. rewrite Hb. by apply string_at_start.
  - intros [r p'] (Hr & Hc & Hnz). cbn in *.
    replace (Z.ltb r 0) with false by lia.
    intros w Hw. destruct (Hk p' Hc Hnz w Hw) as (w' & E & Hw'). exists w'. split; [|done].
    by erewrite prog_bind_ok by reflexivity.
Qed.

Lemma yields_wide_arg p t k a a' :
  contents p = Ok t -> yields (k (AWStr t)) a a' -> yields (wide_arg p ≫= k) a a'.
Proof.
  intros Hc Hk. unfold wide_arg. apply yields_assoc. eapply yields_pure; [exact Hc|].
  intros w Hw. destruct (Hk w Hw) as (w' & E & Hw'). exists w'. split; [|done].
  by erewrite prog_bind_ok by reflexivity.
Qed.

Lemma yields_char_to_pstring name t k a a' :
  name_is name t ->
  (encoded (created t) t -> nz t -> yields (k (Some (created t))) a a') ->
  yields (in_mem (char_to_pstring name) ≫= k) a a'.
Proof.
  intros (Hnz & Hne & Hd & _) Hk.
  apply yields_mem with (fun p => p = Some (created t)).
  - intros m0. exists (Some (created t)), (ticks 3 m0).
    split_and!; [by apply char_to_pstring_ok|done|apply ticked_ticks].
  - intros p ->. apply Hk; [|by apply (decode_nz name)]. split; [by exists []|]. cbn. lia.
Qed.

Lemma yields_name name t k a a' :
  name_is name t ->
  (forall p, contents p = Ok (encode_text f t) -> nz (encode_text f t) -> yields (k p) a a') ->
  yields (name_to_wide_name name ≫= k) a a'.
Proof.
  intros Hn Hk. unfold name_to_wide_name. apply yields_assoc.
  apply yields_char_to_pstring with t; [done|]. intros He Hnz.
  apply yields_encode with t; [done|done|apply Hn|done].
Qed.

Lemma yields_value fmt ap v k a a' :
  value_is fmt ap v ->
  (forall p, encoded p v -> nz v -> yields (k (Some p)) a a') ->
  yields (in_mem (wmappendva None fmt ap) ≫= k) a a'.
Proof.
  intros (Hnz & Hne & (wfmt & Hd & Hf) & Hv%positive_nz & _) Hk.
  apply yields_mem with (fun o => exists p, o = Some p /\ encoded p v).
  - intros m0. unfold wmappendva.
    assert (wfmt <> []) as Hwne by (intros ->; by apply decode_nil_inv in Hd).
    pose proof (decode_nz _ _ Hnz Hd) as Hwnz.
    destruct (wappendva_text None wfmt ap v (tick m0) Hf Hv) as (n & m1 & Ht & Hrun).
    eexists _, _. split_and!.
    + step_with (char_to_wchar_ok fmt wfmt m0 Hd Hwne).
      step_with (pure_ok _ _ (tick m0) (string_at_start wfmt [] Hwnz)). exact Hrun.
    + eexists. split; [reflexivity|]. split; [by eexists|done].
    + etrans; [apply ticked_tick|]. etrans; [exact Ht|apply ticked_ticks].
  - intros o (p & -> & He). by apply Hk.
Qed.

(** ** Elements *)
Inductive kind : Type := KSection | KContainer.

Definition open_element (k : kind) : ElementType :=
  match k with KSection => ELEMENT_TYPE_SECTION_OPEN | KContainer => ELEMENT_TYPE_CONTAINER_OPEN end.
Definition close_element (k : kind) : ElementType :=
  match k with KSection => ELEMENT_TYPE_SECTION_CLOSE | KContainer => ELEMENT_TYPE_CONTAINER_CLOSE end.
Definition block_open (k : kind) : bytes -> prog ostate unit :=
  match k with KSection => section_open | KContainer => container_open end.
Definition block_close (k : kind) : prog ostate unit :=
  match k with KSection => section_close | KContainer => container_close end.

Definition quoted (t : wstr) : wstr := [DQUOTE] ++ t ++ [DQUOTE].
Definition tag (k : kind) : wstr :=
  match k with KSection => lit "section" | KContainer => lit "container" end.

(** The text of each element, its name and value already encoded. *)
Definition open_text (k : kind) (t : wstr) : wstr :=
  match f with
  | OUTPUT_FORMAT_TEXT => t ++ lit ":"
  | OUTPUT_FORMAT_CRUMB => []
  | OUTPUT_FORMAT_JSON =>
    quoted t ++ lit " : " ++ match k with KSection => lit "{" | KContainer => lit "[" end
  | OUTPUT_FORMAT_XML => lit "<" ++ tag k ++ lit " name=" ++ quoted t ++ lit ">"
  end.

Definition close_text (k : kind) : wstr :=
  match f with
  | OUTPUT_FORMAT_TEXT | OUTPUT_FORMAT_CRUMB => []
  | OUTPUT_FORMAT_JSON => match k with KSection => lit "}" | KContainer => lit "]" end
  | OUTPUT_FORMAT_XML => lit "</" ++ tag k ++ lit ">"
  end.

Definition crumb_text (path : list bytes) : wstr :=
  concat (map (fun c => default [] (mbs_decode c) ++ s_crumb_separator cfg) path).

Definition entry_text (path : list bytes) (t v : wstr) : wstr :=
  match f with
  | OUTPUT_FORMAT_TEXT => t ++ s_separator cfg ++ v
  | OUTPUT_FORMAT_CRUMB => crumb_text path ++ t ++ s_separator cfg ++ v ++ [NL]
  | OUTPUT_FORMAT_JSON => quoted t ++ lit " : " ++ quoted v
  | OUTPUT_FORMAT_XML => lit "<entry name=" ++ quoted t ++ lit ">" ++ v ++ lit "</entry>"
  end.

Definition open_path (name : bytes) a : adoc :=
  if bool_decide (f = OUTPUT_FORMAT_CRUMB) then set_path (a_path a ++ [name]) a else a.

(** The formats. *)
Lemma format_open_text k t :
  f <> OUTPUT_FORMAT_CRUMB ->
  (f = OUTPUT_FORMAT_TEXT -> format_wcs (lit "%ls:") [AWStr t] = Ok (Some (open_text k t))) /\
  (f = OUTPUT_FORMAT_JSON ->
     format_wcs (match k with KSection => json_section_format | KContainer => json_container_format end)
       [AWStr t] = Ok (Some (open_text k t))) /\
  (f = OUTPUT_FORMAT_XML ->
     format_wcs (match k with KSection => xml_section_format | KContainer => xml_container_format end)
       [AWStr t] = Ok (Some (open_text k t))).
Proof.
  intros _. unfold open_text, quoted.
  split_and!; intros ->; destruct k; cbv iota; rewrite <- ?app_assoc; vm_compute; reflexivity.
Qed.

Lemma nz_quoted t : nz t -> nz (quoted t).
Proof. intros Ht. apply nz_app. split; [nz_lit|]. apply nz_app. split; [done|nz_lit]. Qed.

Lemma nz_open_text k t : nz t -> nz (open_text k t).
Proof.
  intros Ht. pose proof (nz_quoted t Ht). unfold open_text.
  destruct f, k; nz_parts.
Qed.

Lemma nz_close_text k : nz (close_text k).
Proof. unfold close_text. destruct f, k; nz_lit. Qed.

Lemma yields_format k a a' : yields (k f) a a' -> yields (gets output_format ≫= k) a a'.
Proof. apply yields_gets. intros w Hw. apply (rep_configured _ _ Hw). Qed.

Lemma yields_block_open k name t a :
  name_is name t -> may_follow (open_element k) a ->
  yields (block_open k name) a
    (add_text (open_text k (encode_text f t)) (open_path name (changed (open_element k) a))).
Proof.
  intros Hn Hm.
  assert (forall p, contents p = Ok (encode_text f t) -> nz (encode_text f t) ->
    yields (change_element (open_element k);; f0 ← gets output_format; x ← wide_arg p;
            match f0 with
            | OUTPUT_FORMAT_TEXT => wappendf_doc (lit "%ls:") [x]
            | OUTPUT_FORMAT_CRUMB => add_breadcrumb name
            | OUTPUT_FORMAT_JSON =>
              wappendf_doc (match k with KSection => json_section_format
                                       | KContainer => json_container_format end) [x]
            | OUTPUT_FORMAT_XML =>
              wappendf_doc (match k with KSection => xml_section_format
                                       | KContainer => xml_container_format end) [x]
            end) a
      (add_text (open_text k (encode_text f t)) (open_path name (changed (open_element k) a))))
    as Hbody.
  { intros p Hp Hnz. eapply yields_bind; [by apply yields_change_element|].
    apply yields_format. eapply yields_wide_arg; [exact Hp|].
    apply yields_with_nz. intros Hnza. pose proof (nz_open_text k _ Hnz) as Hnzo.
    unfold open_path. destruct (decide (f = OUTPUT_FORMAT_CRUMB)) as [Hf|Hf].
    - rewrite bool_decide_true by done. unfold open_text at 1. rewrite Hf, add_text_nil.
      apply yields_add_breadcrumb.
    - rewrite bool_decide_false by done.
      destruct (format_open_text k (encode_text f t) Hf) as (H1' & H2' & H3').
      destruct f; try done; apply yields_wappendf; auto. }
  destruct k; cbn [block_open]; unfold section_open, container_open.
  all: eapply yields_bind; [apply yields_common_assert|].
  all: by apply yields_name with t.
Qed.

Definition close_path a : adoc :=
  if bool_decide (f = OUTPUT_FORMAT_CRUMB) then set_path (removelast (a_path a)) a else a.

Lemma yields_block_close k a :
  may_follow (close_element k) a -> (f = OUTPUT_FORMAT_CRUMB -> a_path a <> []) ->
  yields (block_close k) a (add_text (close_text k) (close_path (changed (close_element k) a))).
Proof.
  intros Hm Hp. destruct k; cbn [block_close]; unfold section_close, container_close.
  all: eapply yields_bind; [apply yields_common_assert|].
  all: eapply yields_bind; [by apply yields_change_element|].
  all: apply yields_with_nz; intros Hnz; apply yields_format.
  all: unfold close_path, close_text; destruct f eqn:Ef.
  all: try rewrite bool_decide_false by done.
  all: try (rewrite add_text_nil; apply yields_ret).
  all: try (apply yields_wappend; [done|nz_lit]).
  all: rewrite bool_decide_true by done; rewrite add_text_nil.
  all: assert (a_path (changed (close_element KSection) a) = a_path a /\
               a_path (changed (close_element KContainer) a) = a_path a) as [E1 E2]
    by (unfold changed, layout; fold f; by rewrite Ef).
  all: destruct (exists_last (Hp eq_refl)) as (q & x & Eq).
  all: apply yields_remove_breadcrumb with x; cbn [close_element] in *; rewrite ?E1, ?E2, Eq.
  all: by rewrite removelast_last.
Qed.

Lemma yields_object_open a :
  f = OUTPUT_FORMAT_JSON -> may_follow ELEMENT_TYPE_OBJECT_OPEN a ->
  yields (object_open false) a (add_text (lit "{") (changed ELEMENT_TYPE_OBJECT_OPEN a)).
Proof.
  intros Hf Hm. unfold object_open.
  eapply yields_bind; [apply yields_common_assert|]. apply yields_format. rewrite Hf.
  eapply yields_bind; [by apply yields_change_element|].
  apply yields_with_nz; intros Hnz. apply yields_wappend; [done|nz_lit].
Qed.

Lemma yields_object_close a :
  f = OUTPUT_FORMAT_JSON -> may_follow ELEMENT_TYPE_OBJECT_CLOSE a ->
  yields (object_close false) a (add_text (lit "}") (changed ELEMENT_TYPE_OBJECT_CLOSE a)).
Proof.
  intros Hf Hm. unfold object_close.
  eapply yields_bind; [apply yields_common_assert|]. apply yields_format. rewrite Hf.
  eapply yields_bind; [by apply yields_change_element|].
  apply yields_with_nz; intros Hnz. apply yields_wappend; [done|nz_lit].
Qed.

(** In the other formats objects leave no trace. *)
Lemma yields_object_ignored b a :
  f <> OUTPUT_FORMAT_JSON -> yields (object_open b) a a /\ yields (object_close b) a a.
Proof.
  intros Hf. unfold object_open, object_close.
  split; (eapply yields_bind; [apply yields_common_assert|]); apply yields_format.
  all: rewrite bool_decide_false by done; eapply yields_bind; [apply yields_ret|].
  all: destruct f; try done; apply yields_ret.
Qed.

(** ** Entries *)
Lemma format_entry_markup t v :
  format_wcs json_entry_format [AWStr t; AWStr v]
    = Ok (Some (quoted t ++ lit " : " ++ quoted v)) /\
  format_wcs xml_entry_format [AWStr t; AWStr v]
    = Ok (Some (lit "<entry name=" ++ quoted t ++ lit ">" ++ v ++ lit "</entry>")).
Proof. unfold quoted. split; rewrite <- ?app_assoc; vm_compute; reflexivity. Qed.

Lemma format_entry_text t sep s v :
  mbs_decode sep = Some s ->
  format_wcs (lit "%ls%s%ls") [AWStr t; AStr sep; AWStr v] = Ok (Some (t ++ s ++ v)) /\
  format_wcs (lit "%ls%s%ls" ++ [NL]) [AWStr t; AStr sep; AWStr v]
    = Ok (Some (t ++ s ++ v ++ [NL])).
Proof.
  intros Hd.
  let fmt := eval vm_compute in (lit "%ls%s%ls" ++ [NL]) in
  change (lit "%ls%s%ls" ++ [NL]) with fmt.
  unfold format_wcs, format_with. split; cbv -[mbs_decode app opt_app]; rewrite Hd; cbn [opt_app];
    by rewrite ?app_nil_l, ?app_nil_r.
Qed.

Lemma format_crumb c t sep s :
  mbs_decode c = Some t -> mbs_decode sep = Some s ->
  format_wcs (lit "%s%s") [AStr c; AStr sep] = Ok (Some (t ++ s)).
Proof.
  intros Hc Hs. unfold format_wcs, format_with. cbv -[mbs_decode app opt_app].
  rewrite Hc, Hs. cbn [opt_app]. by rewrite app_nil_r.
Qed.

(** The crumbs that can be written. *)
Definition path_ok (path : list bytes) : Prop :=
  Forall (fun c => exists t, mbs_decode c = Some t /\ nz t) path.

Lemma crumb_loop_ok h xs path w a :
  rep w a -> heap (o_mem w) = h -> path_ok path ->
  map (data_of h) xs = map (fun s => Some (Some s)) path ->
  exists w', for_each xs (fun iter =>
      d ← in_mem (get_data iter);
      crumb ← str_arg d;
      sep ← (c ← gets crumb_separator; str_arg c);
      wappendf_doc (lit "%s%s") [crumb; sep]) w = Ok (tt, w') /\
    rep w' (add_text (crumb_text path) a).
Proof.
  revert path w a. induction xs as [|x xs IH]; intros [|c path] w a Hw Hh Hp Hd; try done.
  { exists w. split; [done|]. by rewrite add_text_nil. }
  injection Hd as Hdx Hd. apply Forall_cons_1 in Hp as [(t & Ht & Hnzt) Hp].
  cbn [for_each]. rewrite <- Hh in Hdx.
  destruct (rep_configured _ _ Hw) as (_ & _ & _ & _ & _ & [_ (sep & Hsep & Hds & Hnzs)] & _ & _).
  destruct (rep_doc _ _ Hw) as (d & Ed & Htd).
  destruct (wappendf_ok d (a_text a) (lit "%s%s") [AStr c; AStr sep] _ (o_mem w) Htd
              (rep_nz _ _ Hw) (format_crumb c t sep _ Ht Hds)) as (d' & m' & E & Htd' & Hm').
  { apply nz_app. by split. }
  assert ((d ← in_mem (get_data x);
      crumb ← str_arg d;
      sep ← (c ← gets crumb_separator; str_arg c);
      wappendf_doc (lit "%s%s") [crumb; sep]) w
      = Ok (tt, set_doc (Some d') (set_mem m' w))) as Hone.
  { unfold in_mem. step_with (zoom_ok o_mem set_mem _ w _ _ (get_data_run _ _ _ Hdx)).
    assert (set_mem (o_mem w) w = w) as -> by by destruct w.
    erewrite prog_bind_ok by reflexivity.
    assert ((c ← gets crumb_separator; str_arg c) w = Ok (AStr sep, w)) as Es.
    { erewrite prog_bind_ok by reflexivity. by rewrite Hsep. }
    step_with Es. unfold wappendf_doc, on_doc. erewrite prog_bind_ok by reflexivity. rewrite Ed.
    unfold in_mem. by step_with (zoom_ok o_mem set_mem _ w _ _ E). }
  step_with Hone.
  destruct (IH path (set_doc (Some d') (set_mem m' w)) (add_text (t ++ s_crumb_separator cfg) a))
    as (w' & Hrun & Hw'); [|destruct Hm' as [k ->]; done|done|done|].
  - apply rep_text; [done|by apply nz_app|done|done].
  - exists w'. split; [exact Hrun|]. rewrite add_text_app in Hw'.
    unfold crumb_text. cbn [map concat]. by rewrite Ht.
Qed.

Lemma yields_crumbs a k a' :
  path_ok (a_path a) -> f = OUTPUT_FORMAT_CRUMB -> a_path a <> [] ->
  yields (k tt) (add_text (crumb_text (a_path a)) a) a' ->
  yields (l ← gets crumb_list;
          assert_ (nonnull l) "crumb_list";;
          iters ← in_mem (PR_LIST_FOREACH l);
          for_each iters (fun iter =>
            d ← in_mem (get_data iter);
            crumb ← str_arg d;
            sep ← (c ← gets crumb_separator; str_arg c);
            wappendf_doc (lit "%s%s") [crumb; sep]) ≫= k) a a'.
Proof.
  intros Hp Hf Hne Hk w Hw. erewrite prog_bind_ok by reflexivity.
  destruct (rep_crumbs _ _ Hw) as [[_ ?]|(xs & Hr & Hd)]; [done|].
  pose proof (rep_mem _ _ Hw) as Hm.
  step_with (assert_run _ "crumb_list" w (ring_nonnull _ _ _ (crumb_list w) Hm Hr ltac:(set_solver))).
  assert (PR_LIST_FOREACH (crumb_list w) (o_mem w) = Ok (xs, o_mem w)) as E.
  { unfold PR_LIST_FOREACH. step_with (get_next_run _ _ _ (ring_next _ _ _ Hr)).
    erewrite prog_bind_ok by reflexivity. pose proof (ring_length _ _ _ Hm Hr) as Hl.
    destruct Hr as [Hnd Hpath]. apply NoDup_cons in Hnd as [Hnd _].
    eapply foreach_forward; [exact Hpath|done|cbn in Hl; lia]. }
  unfold in_mem. step_with (zoom_ok o_mem set_mem _ w _ _ E).
  assert (set_mem (o_mem w) w = w) as -> by by destruct w.
  destruct (crumb_loop_ok _ xs (a_path a) w a Hw eq_refl Hp Hd) as (w1 & E1 & Hw1).
  destruct (Hk w1 Hw1) as (w2 & E2 & Hw2). exists w2. split; [|done]. by step_with E1.
Qed.

Lemma nz_entry_text path t v :
  path_ok path -> nz t -> nz v -> nz (s_separator cfg) -> nz (s_crumb_separator cfg) ->
  nz (entry_text path t v).
Proof.
  intros Hp Ht Hv Hs Hc. pose proof (nz_quoted t Ht). pose proof (nz_quoted v Hv).
  assert (nz (crumb_text path)) as Hcr.
  { unfold crumb_text. induction Hp as [|c path (u & Hu & Hnu) _ IH]; [constructor|].
    cbn [map concat]. rewrite Hu. apply nz_app. split; [|done]. by apply nz_app. }
  unfold entry_text. destruct f; nz_parts.
Qed.

Lemma yields_entry name t fmt ap v a :
  name_is name t -> value_is fmt ap v -> may_follow ELEMENT_TYPE_ENTRY a ->
  (f = OUTPUT_FORMAT_CRUMB -> a_path a <> [] /\ path_ok (a_path a)) ->
  yields (entry name fmt ap) a
    (add_text (entry_text (a_path a) (encode_text f t) (encode_text f v))
              (changed ELEMENT_TYPE_ENTRY a)).
Proof.
  intros Hn Hv Hm Hc. unfold entry.
  eapply yields_bind; [apply yields_common_assert|].
  eapply yields_bind; [by apply yields_change_element|]. set (b := changed ELEMENT_TYPE_ENTRY a).
  apply yields_char_to_pstring with t; [done|]. intros Hen Hnt. cbv iota.
  apply yields_encode with t; [done|done|apply Hn|]. intros p Hcp Hnp.
  apply yields_value with v; [done|]. intros q Hq Hnv. cbv iota.
  apply yields_encode with v; [done|done|apply Hv|]. intros p2 Hcp2 Hnp2.
  apply yields_format. eapply yields_wide_arg; [exact Hcp|]. eapply yields_wide_arg; [exact Hcp2|].
  apply yields_with_rep. intros w0 Hw0. pose proof (rep_nz _ _ Hw0) as Hnb.
  destruct (rep_configured _ _ Hw0) as (_ & _ & _ & _ & _ & [[_ Hnsep] (_ & _ & _ & Hncs)] & _).
  clear w0 Hw0. set (et := encode_text f t) in *. set (ev := encode_text f v) in *.
  destruct (format_entry_markup et ev) as [Hj Hx].
  pose proof (nz_quoted et Hnp) as Hqt. pose proof (nz_quoted ev Hnp2) as Hqv.
  unfold entry_text. destruct f eqn:Ef.
  - intros w Hw. destruct (rep_configured _ _ Hw) as (_ & _ & _ & _ & _ & [[Hd _] _] & _).
    destruct (format_entry_text et _ _ ev Hd) as [Ht _].
    erewrite prog_bind_ok by reflexivity.
    apply (yields_wappendf _ _ _ _ Hnb Ht); [|done]. nz_parts.
  - destruct (Hc eq_refl) as [Hne Hpok].
    assert (a_path b = a_path a) as Hpath
      by (unfold b, changed, layout; fold f; by rewrite Ef).
    apply yields_crumbs; rewrite ?Hpath; [done|done|done|].
    intros w Hw. destruct (rep_configured _ _ Hw) as (_ & _ & _ & _ & _ & [[Hd _] _] & _).
    destruct (format_entry_text et _ _ ev Hd) as [_ Ht].
    erewrite prog_bind_ok by reflexivity. rewrite <- add_text_app.
    apply (yields_wappendf _ _ _ _ (rep_nz _ _ Hw) Ht); [|done].
    nz_parts.
  - apply (yields_wappendf _ _ _ _ Hnb Hj). nz_parts.
  - apply (yields_wappendf _ _ _ _ Hnb Hx). nz_parts.
Qed.
End Refinement.
