(* ===== verification/Json.v ===== *)
(** Json: the JSON format.

    [jvalue] is the grammar of RFC 8259 (values limited to strings, objects and
    arrays, which is all the program writes), each rule with the value it
    denotes; the strings are those that the reader [json_decode] accepts.  The
    main theorem is that a complete run (header, any tree of calls the format
    allows, footer) leaves one JSON text that denotes the tree. *)
From S2P Require Import Prelude Memory PrList Locale PString StringUtil Encode Output OutputSpec Document.

#[local] Set Warnings "-register-all".

(** ** The grammar *)
Inductive json : Type :=
| JString (s : wstr)
| JObject (members : list (wstr * json))
| JArray (elements : list json).

Definition json_ws_char (c : Z) : Prop := c = SPACE \/ c = 9%Z \/ c = NL \/ c = 13%Z.
Definition json_ws (w : wstr) : Prop := Forall json_ws_char w.

Definition jstring (txt s : wstr) : Prop :=
  exists inner, txt = quoted inner /\ json_decode JPlain inner = Some s.

Inductive jvalue : wstr -> json -> Prop :=
| jvalue_string txt s : jstring txt s -> jvalue txt (JString s)
| jvalue_object_empty w : json_ws w -> jvalue (lit "{" ++ w ++ lit "}") (JObject [])
| jvalue_object txt ms : jmembers txt ms -> jvalue (lit "{" ++ txt ++ lit "}") (JObject ms)
| jvalue_array_empty w : json_ws w -> jvalue (lit "[" ++ w ++ lit "]") (JArray [])
| jvalue_array txt vs : jelements txt vs -> jvalue (lit "[" ++ txt ++ lit "]") (JArray vs)
with jmembers : wstr -> list (wstr * json) -> Prop :=
| jmembers_one w1 name n w2 w3 txt v w4 :
    json_ws w1 -> jstring name n -> json_ws w2 -> json_ws w3 -> jvalue txt v -> json_ws w4 ->
    jmembers (w1 ++ name ++ w2 ++ lit ":" ++ w3 ++ txt ++ w4) [(n, v)]
| jmembers_cons w1 name n w2 w3 txt v w4 rest ms :
    json_ws w1 -> jstring name n -> json_ws w2 -> json_ws w3 -> jvalue txt v -> json_ws w4 ->
    jmembers rest ms ->
    jmembers (w1 ++ name ++ w2 ++ lit ":" ++ w3 ++ txt ++ w4 ++ lit "," ++ rest) ((n, v) :: ms)
with jelements : wstr -> list json -> Prop :=
| jelements_one w1 txt v w2 :
    json_ws w1 -> jvalue txt v -> json_ws w2 -> jelements (w1 ++ txt ++ w2) [v]
| jelements_cons w1 txt v w2 rest vs :
    json_ws w1 -> jvalue txt v -> json_ws w2 -> jelements rest vs ->
    jelements (w1 ++ txt ++ w2 ++ lit "," ++ rest) (v :: vs).

(** ** The value of a tree *)
Definition doubled (s : wstr) : wstr := concat (map double_backslash s).

Fixpoint json_of (t : tree) : json :=
  match t with
  | TEntry _ v => JString (doubled v)
  | TBlock KSection _ ts => JObject (map (fun t => (doubled (tree_name t), json_of t)) ts)
  | TBlock KContainer _ ts => JArray (map json_of ts)
  | TObject ts => JObject (map (fun t => (doubled (tree_name t), json_of t)) ts)
  end.

Definition member_of (t : tree) : wstr * json := (doubled (tree_name t), json_of t).

Section Json.
Context `{AllocTotal} `{LocaleLaws} (cfg : settings).
Context (Hf : s_format cfg = OUTPUT_FORMAT_JSON) (Hpad : json_ws_char (s_pad cfg)).

Lemma ws_pad l : json_ws (pad_at cfg l).
Proof. apply Forall_replicate. exact Hpad. Qed.

Lemma ws_newline_pad l : json_ws ([NL] ++ pad_at cfg l).
Proof. constructor; [unfold json_ws_char; auto|apply ws_pad]. Qed.

Lemma ws_space : json_ws (lit " ").
Proof. repeat constructor. Qed.

Lemma jstring_encoded name w :
  name_is cfg name w -> jstring (quoted (encode_text OUTPUT_FORMAT_JSON w)) (doubled w).
Proof.
  intros (Hnz & _ & Hd & He). exists (encode_text OUTPUT_FORMAT_JSON w). split; [done|].
  apply json_encode_decodes'; [by eapply decode_positive|]. rewrite Hf in He. apply He. by left.
Qed.

Lemma jstring_value fmt ap v :
  value_is cfg fmt ap v -> jstring (quoted (encode_text OUTPUT_FORMAT_JSON v)) (doubled v).
Proof.
  intros (_ & _ & _ & Hv & He). exists (encode_text OUTPUT_FORMAT_JSON v). split; [done|].
  apply json_encode_decodes'; [done|]. rewrite Hf in He. apply He. by left.
Qed.

(** A member and an element as [items] writes them. *)
Definition member_text (x : wstr) (m : wstr * json) : Prop :=
  exists name txt, x = name ++ lit " : " ++ txt /\ jstring name m.1 /\ jvalue txt m.2.

Lemma following_sep l x xs :
  following cfg l (x :: xs) = lit "," ++ ([NL] ++ pad_at cfg l) ++ x ++ following cfg l xs.
Proof. rewrite following_cons. unfold sep. rewrite Hf. by rewrite <- !app_assoc. Qed.

Lemma jmembers_joined l w x xs ms wend :
  json_ws w -> json_ws wend -> Forall2 member_text (x :: xs) ms ->
  jmembers (w ++ x ++ following cfg l xs ++ wend) ms.
Proof.
  revert w x ms. induction xs as [|x' xs IH]; intros w x ms Hw Hend Hms;
    apply Forall2_cons_inv_l in Hms as ([n v] & ms' & (name & txt & -> & Hn & Hv) & Hms & ->);
    cbn in Hn, Hv.
  - apply Forall2_nil_inv_l in Hms as ->. cbn [following map concat app].
    rewrite <- !app_assoc.
    change (lit " : " ++ txt ++ wend) with (lit " " ++ lit ":" ++ lit " " ++ txt ++ wend).
    apply jmembers_one; auto using ws_space.
  - specialize (IH ([NL] ++ pad_at cfg l) x' ms' (ws_newline_pad l) Hend Hms).
    rewrite following_sep, <- !app_assoc in *.
    pose proof (jmembers_cons w name n (lit " ") (lit " ") txt v [] _ ms' Hw Hn ws_space ws_space Hv
                  (Forall_nil_2 _) IH) as Hc.
    exact Hc.
Qed.

Lemma jelements_joined l w x xs vs wend :
  json_ws w -> json_ws wend -> Forall2 jvalue (x :: xs) vs ->
  jelements (w ++ x ++ following cfg l xs ++ wend) vs.
Proof.
  revert w x vs. induction xs as [|x' xs IH]; intros w x vs Hw Hend Hvs;
    apply Forall2_cons_inv_l in Hvs as (v & vs' & Hv & Hvs & ->).
  - apply Forall2_nil_inv_l in Hvs as ->. cbn [following map concat app].
    by apply jelements_one.
  - specialize (IH ([NL] ++ pad_at cfg l) x' vs' (ws_newline_pad l) Hend Hvs).
    rewrite following_sep, <- !app_assoc in *.
    exact (jelements_cons w x v [] _ vs' Hw Hv (Forall_nil_2 _) IH).
Qed.

(** The brackets with what stands between them. *)
Lemma jvalue_members l xs ms :
  Forall2 member_text xs ms -> jvalue (lit "{" ++ body cfg l xs ++ lit "}") (JObject ms).
Proof.
  intros Hms. destruct xs as [|x xs]; cbn [body].
  - apply Forall2_nil_inv_l in Hms as ->. rewrite Hf. cbn. apply (jvalue_object_empty []). constructor.
  - apply jvalue_object. rewrite !(app_assoc [NL]).
    apply jmembers_joined; [apply ws_newline_pad|apply ws_newline_pad|done].
Qed.

Lemma jvalue_elements l xs vs :
  Forall2 jvalue xs vs -> jvalue (lit "[" ++ body cfg l xs ++ lit "]") (JArray vs).
Proof.
  intros Hvs. destruct xs as [|x xs]; cbn [body].
  - apply Forall2_nil_inv_l in Hvs as ->. rewrite Hf. cbn. apply (jvalue_array_empty []). constructor.
  - apply jvalue_array. rewrite !(app_assoc [NL]).
    apply jelements_joined; [apply ws_newline_pad|apply ws_newline_pad|done].
Qed.

(** ** The items of a tree denote it *)
Definition item_denotes (t : tree) : Prop :=
  forall c l, well_placed c t = true ->
  exists x, items cfg l t = [x] /\
    match c with CMembers => member_text x (member_of t) | CObjects => jvalue x (json_of t) end.

Lemma members_items l ts :
  Forall item_denotes ts -> forallb (well_placed CMembers) ts = true ->
  Forall2 member_text (flat_map (items cfg l) ts) (map member_of ts).
Proof.
  induction 1 as [|t ts Ht _ IH]; cbn; [constructor|]. intros [Hp Hps]%andb_prop.
  destruct (Ht CMembers l Hp) as (x & -> & Hx). cbn. constructor; [done|by apply IH].
Qed.

Lemma elements_items l ts :
  Forall item_denotes ts -> forallb (well_placed CObjects) ts = true ->
  Forall2 jvalue (flat_map (items cfg l) ts) (map json_of ts).
Proof.
  induction 1 as [|t ts Ht _ IH]; cbn; [constructor|]. intros [Hp Hps]%andb_prop.
  destruct (Ht CObjects l Hp) as (x & -> & Hx). cbn. constructor; [done|by apply IH].
Qed.

Lemma denotes_items ns ts : denotes_all cfg ns ts -> Forall item_denotes ts.
Proof.
  apply (denotes_all_mut cfg (fun _ t => item_denotes t) (fun _ ts => Forall item_denotes ts)).
  - intros name fmt ap w v Hn Hv [|] l; [|done]. intros _. eexists. split; [reflexivity|].
    rewrite Hf. cbn [entry_text]. unfold entry_text. rewrite Hf. eexists _, _. split; [done|].
    split; [by eapply jstring_encoded|]. apply jvalue_string. by eapply jstring_value.
  - intros k name w ns' ts' Hn _ Hts [|] l; [|done]. cbn [well_placed]. intros Hp.
    rewrite items_block. eexists. split; [reflexivity|]. unfold open_text, close_text. rewrite Hf.
    eexists (quoted _), _. rewrite <- !app_assoc. split; [reflexivity|].
    split; [by eapply jstring_encoded|]. destruct k; cbn [json_of member_of snd].
    + apply jvalue_members. by apply members_items.
    + apply jvalue_elements. by apply elements_items.
  - intros ns' ts' _ Hts [|] l; [done|]. cbn [well_placed]. intros Hp.
    rewrite items_object, Hf. eexists. split; [reflexivity|]. apply jvalue_members.
    by apply members_items.
  - constructor.
  - intros. by constructor.
  - done.
  - intros. by apply Forall_app.
Qed.

(** The text of a document. *)
Definition json_text (ts : list tree) : wstr :=
  lit "{" ++ body cfg 0 (flat_map (items cfg (0 + s_amount cfg)) ts) ++ lit "}".

Lemma json_text_denotes ns ts :
  denotes_all cfg ns ts -> forallb (well_placed CMembers) ts = true ->
  jvalue (json_text ts) (JObject (map member_of ts)).
Proof. intros Hd Hp. apply jvalue_members. apply members_items; [|done]. by eapply denotes_items. Qed.

Lemma json_yields `{Package} (ns : list call) (ts : list tree) :
  (0 <= s_amount cfg)%Z -> denotes_all cfg ns ts -> forallb (well_placed CMembers) ts = true ->
  fits cfg 0 (TObject ts) ->
  exists a, yields cfg (master_header;; emit_all ns;; master_footer) start_doc a /\
    a_text a = json_text ts ++ [NL] /\ a_level a = 0%Z.
Proof.
  intros Ha Hd Hp Hfit.
  pose proof (denotes_all_writes cfg ns ts ltac:(by rewrite Hf) Ha Hd) as Hns.
  destruct (object_parts cfg ns ts 0 start_doc Hf Ha Hns) as (b & a1 & Hopen & Hy & Hclose);
    [by intros _|done|unfold cur_ok; by rewrite Hf|done|done|].
  cbn [a_text a_cur a_path start_doc app] in Hclose.
  assert (lead cfg 0 start_doc = []) as Elead by done. rewrite Elead, app_nil_l in Hclose.
  exists (add_text [NL] (mk_adoc (json_text ts) 0 (a_cur a1) ELEMENT_TYPE_OBJECT_CLOSE [])).
  split; [|done]. eapply yields_bind; [|eapply yields_bind; [exact Hy|]].
  - unfold master_header. eapply yields_bind; [apply yields_common_assert|].
    apply yields_format. rewrite Hf. exact Hopen.
  - unfold master_footer. eapply yields_bind; [apply yields_common_assert|].
    apply yields_format. rewrite Hf. eapply yields_bind; [exact Hclose|].
    apply yields_with_nz. intros Hnz. apply yields_wappend; [done|nz_lit].
Qed.

Lemma json_run `{Package} (w : ostate) (ns : list call) (ts : list tree) :
  rep cfg w start_doc -> denotes_all cfg ns ts ->
  forallb (well_placed CMembers) ts = true -> fits cfg 0 (TObject ts) ->
  exists w' txt, (master_header;; emit_all ns;; master_footer) w = Ok (tt, w') /\
    document w' = Ok (txt ++ [NL]) /\ jvalue txt (JObject (map member_of ts)) /\ indent w' = 0%Z.
Proof.
  intros Hw Hd Hp Hfit. destruct (rep_configured _ _ _ Hw) as (_ & _ & Ha & _).
  destruct (json_yields ns ts Ha Hd Hp Hfit) as (a & Hy & Ht & Hl).
  destruct (Hy w Hw) as (w' & E & Hw'). exists w', (json_text ts). split_and!; [exact E| | |].
  - rewrite (rep_document cfg w' _ Hw'), Ht; [done|]. rewrite Ht. by destruct (json_text ts).
  - by eapply json_text_denotes.
  - by rewrite (rep_indent _ _ _ Hw').
Qed.

(** C5: a complete run in JSON, [master_header], the calls of any tree (members
    that are entries, sections and containers of objects) and
    [master_footer], succeeds and leaves one JSON text by the grammar of RFC
    8259; what the text denotes is the tree, the members in the order of the
    calls, each string with its backslashes doubled; the indent is back at
    0. *)
Theorem json_document `{Package} (w : ostate) (ns : list call) (ts : list tree) :
  rep cfg w start_doc -> denotes_all cfg ns ts ->
  forallb (well_placed CMembers) ts = true -> fits cfg 0 (TObject ts) ->
  exists w' txt, (master_header;; emit_all ns;; master_footer) w = Ok (tt, w') /\
    document w' = Ok (txt ++ [NL]) /\ jvalue txt (JObject (map member_of ts)) /\ indent w' = 0%Z.
Proof. apply json_run. Qed.
End Json.

Lemma json_document_witness :
  exists w' txt,
    (@master_header total_allocator c_locale sample_package;;
     @emit_all total_allocator c_locale sample_calls;;
     @master_footer total_allocator c_locale sample_package) (start_state OUTPUT_FORMAT_JSON)
      = Ok (tt, w') /\
    document w' = Ok (txt ++ [NL]) /\
    jvalue txt (JObject
      [ (lit "meta", JObject [(lit "build-type", JString (lit "standard")); (lit "count", JString (lit "2"))]);
        (lit "list", JArray [JObject [(lit "argv[0]", JString (lit "<a>"))]; JObject []]) ]) /\
    indent w' = 0%Z.
Proof.
  apply (@json_document total_allocator total_allocator_total c_locale c_locale_laws
           (start_settings OUTPUT_FORMAT_JSON) eq_refl (or_introl eq_refl) sample_package
           (start_state OUTPUT_FORMAT_JSON) sample_calls sample_trees);
    [apply start_rep|apply sample_denotes|done|by vm_compute].
Defined.
