(* ===== verification/Crumb.v ===== *)
(** Crumb: the breadcrumb format, one line for each entry.

    [lines] is the specification: the names of the sections and containers
    around the entry, each followed by the crumb separator, then the name, the
    text separator and the value.  The path of the program is the ring of
    [PrList], grown by [add_breadcrumb] and shrunk by [remove_breadcrumb]. *)
From S2P Require Import Prelude Memory PrList PrListSpec Locale PString StringUtil Encode Output OutputSpec Document.

#[local] Set Warnings "-register-all".

Section Lines.
Context (crumb_sep text_sep : wstr).

Definition line (path : list wstr) (name v : wstr) : wstr :=
  concat (map (fun c => c ++ crumb_sep) path) ++ name ++ text_sep ++ v ++ [NL].

Fixpoint lines (path : list wstr) (t : tree) : list wstr :=
  match t with
  | TEntry name v => [line path name v]
  | TBlock _ name ts => flat_map (lines (path ++ [name])) ts
  | TObject ts => flat_map (lines path) ts
  end.
End Lines.

(** No entry stands outside all sections and containers. *)
Fixpoint rooted (t : tree) : bool :=
  match t with
  | TEntry _ _ => false
  | TBlock _ _ _ => true
  | TObject ts => forallb rooted ts
  end.

Section Crumb.
Context `{AllocTotal} `{LocaleLaws} (cfg : settings).
Context (Hf : s_format cfg = OUTPUT_FORMAT_CRUMB).
Implicit Types (a : adoc) (t : tree).

Let the_lines : list wstr -> tree -> list wstr :=
  lines (s_crumb_separator cfg) (s_separator cfg).

(** The path as wide strings. *)
Definition path_is (p : list bytes) (path : list wstr) : Prop :=
  Forall2 (fun c u => mbs_decode c = Some u /\ nz u) p path.

Lemma path_is_ok p path : path_is p path -> path_ok p.
Proof. induction 1 as [|c u p path Hc _ IH]; constructor; [by exists u|done]. Qed.

Lemma crumb_text_is p path :
  path_is p path ->
  crumb_text cfg p = concat (map (fun c => c ++ s_crumb_separator cfg) path).
Proof.
  unfold crumb_text. induction 1 as [|c u p path [Hc _] _ IH]; [done|].
  cbn [map concat]. by rewrite Hc, IH.
Qed.

Lemma changed_crumb e a : changed cfg e a = step_elements e a.
Proof. unfold changed, layout. by rewrite Hf. Qed.

Lemma may_follow_crumb e a : may_follow cfg e a.
Proof. split; [by rewrite Hf|]. unfold layout. by rewrite Hf. Qed.

Definition wrote_lines (xs : list wstr) a a' : Prop :=
  a_text a' = a_text a ++ concat xs /\ a_path a' = a_path a /\ a_level a' = a_level a.

Definition writes_lines (n : call) t : Prop :=
  forall a path, path_is (a_path a) path -> path <> [] \/ rooted t = true ->
    exists a', yields cfg (emit n) a a' /\ wrote_lines (the_lines path t) a a'.

Definition writes_all_lines (ns : list call) (ts : list tree) : Prop :=
  forall a path, path_is (a_path a) path -> path <> [] \/ forallb rooted ts = true ->
    exists a', yields cfg (emit_all ns) a a' /\ wrote_lines (flat_map (the_lines path) ts) a a'.

Lemma lines_entry name fmt ap w v :
  name_is cfg name w -> value_is cfg fmt ap v -> writes_lines (CEntry name fmt ap) (TEntry w v).
Proof.
  intros Hn Hv a path Hp [Hne|]; [|done].
  eexists. split.
  - apply (yields_entry cfg name w fmt ap v a Hn Hv (may_follow_crumb _ _)).
    intros _. split; [|by eapply path_is_ok]. intros E. rewrite E in Hp. by inversion Hp; subst.
  - rewrite changed_crumb. split_and!; [|done|done]. cbn [a_text add_text step_elements].
    unfold entry_text. rewrite Hf. cbn [encode_text the_lines lines concat].
    rewrite app_nil_r. unfold line. by rewrite (crumb_text_is _ _ Hp).
Qed.

Lemma lines_block k name w ns ts :
  name_is cfg name w -> writes_all_lines ns ts -> writes_lines (CBlock k name ns) (TBlock k w ts).
Proof.
  intros Hn Hns a path Hp _. rewrite emit_block.
  pose proof (yields_block_open cfg k name w a Hn (may_follow_crumb _ _)) as Hopen.
  rewrite changed_crumb in Hopen. unfold open_path, open_text in Hopen. rewrite Hf in Hopen.
  rewrite bool_decide_true, add_text_nil in Hopen by done.
  set (b := set_path _ _) in Hopen.
  destruct (Hns b (path ++ [w])) as (a1 & Hy & T & P & L).
  - apply Forall2_app; [done|]. constructor; [|constructor].
    destruct Hn as (Hnz & _ & Hd & _). split; [done|by apply (decode_nz name)].
  - left. by destruct path.
  - assert (a_path a1 = a_path a ++ [name]) as P1 by by rewrite P.
    pose proof (yields_block_close cfg k a1 (may_follow_crumb _ _)) as Hclose.
    rewrite changed_crumb in Hclose. unfold close_path, close_text in Hclose. rewrite Hf in Hclose.
    rewrite bool_decide_true, add_text_nil in Hclose by done.
    eexists. split.
    + eapply yields_bind; [exact Hopen|]. eapply yields_bind; [exact Hy|].
      apply Hclose. intros _ E. rewrite P1 in E. by destruct (a_path a).
    + split_and!; [exact T| |exact L]. cbn [a_path set_path step_elements].
      rewrite P1. apply removelast_last.
Qed.

Lemma lines_object ns ts : writes_all_lines ns ts -> writes_lines (CObject ns) (TObject ts).
Proof.
  intros Hns a path Hp Hr. rewrite emit_object.
  assert (s_format cfg <> OUTPUT_FORMAT_JSON) as Hj by by rewrite Hf.
  destruct (yields_object_ignored cfg false a Hj) as [Hopen _].
  destruct (Hns a path Hp Hr) as (a1 & Hy & Hw).
  destruct (yields_object_ignored cfg false a1 Hj) as [_ Hclose].
  exists a1. split; [|exact Hw].
  eapply yields_bind; [exact Hopen|]. by eapply yields_bind.
Qed.

Lemma lines_cons n t ns ts :
  writes_lines n t -> writes_all_lines ns ts -> writes_all_lines (n :: ns) (t :: ts).
Proof.
  intros Hn Hns a path Hp Hr.
  destruct (Hn a path Hp) as (a1 & Hy1 & T1 & P1 & L1).
  { destruct Hr as [|Hr]; [by left|right]. by apply andb_prop in Hr as [? _]. }
  destruct (Hns a1 path) as (a2 & Hy2 & T2 & P2 & L2).
  { by rewrite P1. }
  { destruct Hr as [|Hr]; [by left|right]. by apply andb_prop in Hr as [_ ?]. }
  exists a2. split; [cbn [emit_all]; by eapply yields_bind|].
  split_and!; [|by rewrite P2|by rewrite L2].
  rewrite T2, T1. cbn [flat_map]. by rewrite concat_app, app_assoc.
Qed.

Lemma denotes_lines ns ts : denotes_all cfg ns ts -> writes_all_lines ns ts.
Proof.
  apply (denotes_all_mut cfg writes_lines writes_all_lines).
  - intros. by apply lines_entry.
  - intros. by apply lines_block.
  - intros. by apply lines_object.
  - intros a path _ _. exists a. split; [apply yields_ret|].
    split_and!; [by rewrite app_nil_r|done|done].
  - intros. by apply lines_cons.
  - intros m ns' ts' Hm _ Hns a path Hp Hr. destruct (Hns a path Hp Hr) as (a' & Hy & Hw).
    exists a'. split; [cbn [emit_all]; by eapply yields_bind|done].
  - intros A m k b ts1 ns' ts2 Hm _ Hk _ Hns a path Hp Hr. rewrite forallb_app in Hr.
    destruct (Hk a path Hp) as (a1 & Hy1 & T1 & P1 & L1).
    { destruct Hr as [|Hr]; [by left|right]. by apply andb_prop in Hr as [? _]. }
    destruct (Hns a1 path) as (a2 & Hy2 & T2 & P2 & L2).
    { by rewrite P1. }
    { destruct Hr as [|Hr]; [by left|right]. by apply andb_prop in Hr as [_ ?]. }
    exists a2. split; [cbn [emit_all]; eapply yields_bind; [by eapply yields_let|done]|].
    split_and!; [|by rewrite P2|by rewrite L2].
    rewrite T2, T1. by rewrite flat_map_app, concat_app, app_assoc.
Qed.

(** C9: a run in the crumb format (sections, containers and entries in any
    nesting, no entry outside all of them) succeeds and writes one line for
    each entry, in order: the names of the blocks open around it with the
    crumb separator after each, its name, the text separator and its value;
    the breadcrumbs are gone at the end, whatever the tree. *)
Theorem crumb_document `{Package} (w : ostate) (ns : list call) (ts : list tree) :
  rep cfg w start_doc -> denotes_all cfg ns ts -> forallb rooted ts = true ->
  exists w', (master_header;; emit_all ns;; master_footer) w = Ok (tt, w') /\
    document w' = Ok (concat (flat_map (lines (s_crumb_separator cfg) (s_separator cfg) []) ts) ++ [NL]) /\
    crumbs (o_mem w') (crumb_list w') [].
Proof.
  intros Hw Hd Hr.
  destruct (denotes_lines ns ts Hd start_doc []) as (a1 & Hy & T & P & L); [constructor|by right|].
  assert (yields cfg (master_header;; emit_all ns;; master_footer) start_doc (add_text [NL] a1)) as Hall.
  { eapply yields_bind; [|eapply yields_bind; [exact Hy|]].
    - unfold master_header. eapply yields_bind; [apply yields_common_assert|].
      apply yields_format. rewrite Hf. apply yields_ret.
    - unfold master_footer. eapply yields_bind; [apply yields_common_assert|].
      apply yields_format. rewrite Hf.
      apply yields_with_nz. intros Hnz. apply yields_wappend; [done|nz_lit]. }
  destruct (Hall w Hw) as (w' & E & Hw'). exists w'. split; [exact E|]. split.
  - rewrite (rep_document cfg w' _ Hw'); cbn [a_text add_text]; [by rewrite T|].
    by destruct (a_text a1).
  - pose proof (rep_crumbs _ _ _ Hw') as Hc. cbn [a_path add_text] in Hc. by rewrite P in Hc.
Qed.
End Crumb.

Lemma crumb_document_witness :
  exists w',
    (@master_header total_allocator c_locale (Build_Package [] [] []);;
     @emit_all total_allocator c_locale sample_calls;;
     @master_footer total_allocator c_locale (Build_Package [] [] []))
      (start_state OUTPUT_FORMAT_CRUMB) = Ok (tt, w') /\
    document w' = Ok (lit "meta:build-type: standard" ++ [NL] ++ lit "meta:count: 2" ++ [NL] ++
                      lit "list:argv[0]: <a>" ++ [NL; NL]) /\
    crumbs (o_mem w') (crumb_list w') [].
Proof.
  apply (@crumb_document total_allocator total_allocator_total c_locale c_locale_laws
           (start_settings OUTPUT_FORMAT_CRUMB) eq_refl (Build_Package [] [] [])
           (start_state OUTPUT_FORMAT_CRUMB) sample_calls sample_trees);
    [apply start_rep|apply sample_denotes|done].
Defined.
