(* ===== verification/Xml.v ===== *)
(** Xml: the XML format.

    [xelement] and [xcontent] are a grammar of XML elements with a [name]
    attribute, whose content is character data or white space and elements, the
    start and end tags matching; each rule has the tree it denotes, attribute
    values and character data being read by [xml_decode].  The grammar has the
    characters that a document may hold as a parameter: those of XML 1.0
    ([xml_char]), or any.  The main theorem is that a complete run leaves an XML
    declaration and one root element that denotes the tree of the calls, objects
    being invisible, for a reader that takes any character reference, and that it
    does so by XML 1.0 exactly when the names and values hold characters of XML
    1.0 only. *)
From S2P Require Import Prelude Memory PrList Locale PString StringUtil Encode Output OutputSpec Document.

#[local] Set Warnings "-register-all".

(** ** The grammar *)
Inductive xml : Type :=
| XLeaf (tg name text : wstr)
| XNode (tg name : wstr) (children : list xml).

Definition xml_ws (w : wstr) : Prop :=
  Forall (fun c => c = SPACE \/ c = 9%Z \/ c = NL \/ c = 13%Z) w.

(** Tag names of lower-case letters. *)
Definition tag_name (tg : wstr) : Prop := tg <> [] /\ Forall (fun c => (97 <= c <= 122)%Z) tg.

Definition start_tag (tg attr : wstr) : wstr := lit "<" ++ tg ++ lit " name=" ++ quoted attr ++ lit ">".
Definition end_tag (tg : wstr) : wstr := lit "</" ++ tg ++ lit ">".

Inductive xelement (ok : Z -> bool) : wstr -> xml -> Prop :=
| xelement_text tg attr name txt v :
    tag_name tg -> xml_decode ok None attr = Some name -> xml_decode ok None txt = Some v ->
    xelement ok (start_tag tg attr ++ txt ++ end_tag tg) (XLeaf tg name v)
| xelement_node tg attr name inner xs :
    tag_name tg -> xml_decode ok None attr = Some name -> xcontent ok inner xs ->
    xelement ok (start_tag tg attr ++ inner ++ end_tag tg) (XNode tg name xs)
with xcontent (ok : Z -> bool) : wstr -> list xml -> Prop :=
| xcontent_ws w : xml_ws w -> xcontent ok w []
| xcontent_cons w txt x rest xs :
    xml_ws w -> xelement ok txt x -> xcontent ok rest xs -> xcontent ok (w ++ txt ++ rest) (x :: xs).

Scheme xelement_ind2 := Induction for xelement Sort Prop
  with xcontent_ind2 := Induction for xcontent Sort Prop.
Combined Scheme xml_mutind from xelement_ind2, xcontent_ind2.

(** The names and values of the elements hold allowed characters only. *)
Fixpoint xml_allowed (ok : Z -> bool) (x : xml) : bool :=
  match x with
  | XLeaf _ name v => forallb ok name && forallb ok v
  | XNode _ name xs => forallb ok name && forallb (xml_allowed ok) xs
  end.

(** What a reader accepts is made of the characters it allows. *)
Lemma xml_read_allowed ok :
  (forall s x, xelement ok s x -> xml_allowed ok x = true) /\
  (forall s xs, xcontent ok s xs -> forallb (xml_allowed ok) xs = true).
Proof.
  apply xml_mutind; cbn; intros;
    repeat match goal with E : xml_decode _ _ _ = Some _ |- _ => apply xml_decode_allowed in E end;
    rewrite ?andb_true_iff; auto.
Qed.

Lemma xcontent_allowed ok s xs : xcontent ok s xs -> forallb (xml_allowed ok) xs = true.
Proof. apply xml_read_allowed. Qed.

Lemma xml_allowed_any x : xml_allowed any_char x = true.
Proof.
  revert x. fix IH 1. intros [tg name v|tg name xs]; cbn; rewrite !forallb_any; [done|].
  cbn. induction xs as [|x xs IHxs]; [done|]. cbn. by rewrite IH, IHxs.
Qed.

Lemma forallb_allowed_any xs : forallb (xml_allowed any_char) xs = true.
Proof. induction xs as [|x xs IH]; [done|]. cbn. by rewrite xml_allowed_any, IH. Qed.

Fixpoint xml_of (t : tree) : list xml :=
  match t with
  | TEntry name v => [XLeaf (lit "entry") name v]
  | TBlock k name ts => [XNode (tag k) name (flat_map xml_of ts)]
  | TObject ts => flat_map xml_of ts
  end.

(** The name attribute of an element. *)
Definition xml_title (x : xml) : wstr :=
  match x with XLeaf _ name _ => name | XNode _ name _ => name end.

Lemma xml_titles ts :
  [] ∉ map tree_name ts -> map xml_title (flat_map xml_of ts) = map tree_name ts.
Proof.
  induction ts as [|t ts IH]; [done|]. cbn [map flat_map]. intros [Ht Hts]%not_elem_of_cons.
  destruct t; [..|done]; cbn [xml_of app map xml_title tree_name]; f_equal; auto.
Qed.

Section Xml.
Context `{AllocTotal} `{LocaleLaws} (cfg : settings).
Context (Hf : s_format cfg = OUTPUT_FORMAT_XML).
Context (Hpad : s_pad cfg = SPACE \/ s_pad cfg = 9%Z \/ s_pad cfg = NL \/ s_pad cfg = 13%Z).

Lemma xml_ws_pad l : xml_ws (pad_at cfg l).
Proof. apply Forall_replicate. exact Hpad. Qed.

Lemma xml_ws_newline_pad l : xml_ws ([NL] ++ pad_at cfg l).
Proof. constructor; [auto|apply xml_ws_pad]. Qed.

Lemma tag_name_check tg :
  negb (Nat.eqb (length tg) 0) && forallb (fun c => Z.leb 97 c && Z.leb c 122) tg = true ->
  tag_name tg.
Proof.
  intros [Hl Hc]%andb_prop. split; [by destruct tg|].
  apply Forall_forall. intros c Hin. rewrite forallb_forall in Hc.
  apply list_elem_of_In, Hc in Hin. lia.
Qed.

Context (ok : Z -> bool).

Lemma name_decodes name w :
  name_is cfg name w -> forallb ok w = true ->
  xml_decode ok None (encode_text OUTPUT_FORMAT_XML w) = Some w.
Proof.
  intros (Hnz & _ & Hd & _). apply xml_encode_decodes. by eapply decode_positive.
Qed.

(** Elements one after the other, with white space before each and at the
    end. *)
Lemma xcontent_joined l w xs ys wend :
  xml_ws w -> xml_ws wend -> Forall2 (xelement ok) xs ys ->
  xcontent ok (match xs with [] => w | x :: xs' => w ++ x ++ following cfg l xs' end ++ wend) ys.
Proof.
  intros Hw Hend Hxs. revert w Hw. induction Hxs as [|x y xs ys Hx Hxs IH]; intros w Hw.
  - apply xcontent_ws. by apply Forall_app.
  - rewrite <- !app_assoc. apply xcontent_cons; [done|done|].
    destruct xs as [|x' xs]; [apply (IH []); constructor|].
    specialize (IH ([NL] ++ pad_at cfg l) (xml_ws_newline_pad l)).
    rewrite following_cons. unfold sep. rewrite Hf. cbn [separator].
    rewrite <- !app_assoc in *. exact IH.
Qed.

Lemma xcontent_body l xs ys : Forall2 (xelement ok) xs ys -> xcontent ok (body cfg l xs) ys.
Proof.
  intros Hxs.
  pose proof (xcontent_joined (l + s_amount cfg) ([NL] ++ pad_at cfg (l + s_amount cfg)) xs ys
                ([NL] ++ pad_at cfg l) (xml_ws_newline_pad _) (xml_ws_newline_pad _) Hxs) as Hc.
  destruct xs as [|x xs]; cbn [body].
  - apply Forall2_nil_inv_l in Hxs as ->. rewrite Hf. apply xcontent_ws, xml_ws_newline_pad.
  - rewrite <- !app_assoc in Hc. exact Hc.
Qed.

Definition item_elements (t : tree) : Prop :=
  forallb (xml_allowed ok) (xml_of t) = true ->
  forall l, Forall2 (xelement ok) (items cfg l t) (xml_of t).

Lemma elements_all l ts :
  Forall item_elements ts -> forallb (xml_allowed ok) (flat_map xml_of ts) = true ->
  Forall2 (xelement ok) (flat_map (items cfg l) ts) (flat_map xml_of ts).
Proof.
  induction 1 as [|t ts Ht _ IH]; cbn [flat_map]; [constructor|].
  rewrite forallb_app. intros [Hok Hoks]%andb_prop. apply Forall2_app; [by apply Ht|by apply IH].
Qed.

Lemma denotes_elements ns ts : denotes_all cfg ns ts -> Forall item_elements ts.
Proof.
  apply (denotes_all_mut cfg (fun _ t => item_elements t) (fun _ ts => Forall item_elements ts)).
  - intros name fmt ap w v Hn Hv Hok l. cbn [items xml_of] in *. rewrite Hf.
    cbn [forallb xml_allowed] in Hok. rewrite andb_true_r in Hok. apply andb_prop in Hok as [Hw Hok].
    constructor; [|constructor]. unfold entry_text. rewrite Hf.
    pose proof (xelement_text ok (lit "entry") (encode_text OUTPUT_FORMAT_XML w) w
                  (encode_text OUTPUT_FORMAT_XML v) v) as Hx.
    unfold start_tag, end_tag in Hx. rewrite <- !app_assoc in Hx. apply Hx.
    + by apply tag_name_check.
    + by eapply name_decodes.
    + apply xml_encode_decodes; [|done]. by destruct Hv as (_ & _ & _ & ? & _).
  - intros k name w ns' ts' Hn _ Hts Hok l. rewrite items_block. cbn [xml_of] in *.
    cbn [forallb xml_allowed] in Hok. rewrite andb_true_r in Hok. apply andb_prop in Hok as [Hw Hok].
    constructor; [|constructor]. unfold open_text, close_text. rewrite Hf.
    pose proof (xelement_node ok (tag k) (encode_text OUTPUT_FORMAT_XML w) w
                  (body cfg l (flat_map (items cfg (l + s_amount cfg)) ts')) (flat_map xml_of ts')) as Hx.
    unfold start_tag, end_tag in Hx. rewrite <- !app_assoc in Hx. rewrite <- !app_assoc. apply Hx.
    + apply tag_name_check. by destruct k.
    + by eapply name_decodes.
    + apply xcontent_body. by apply elements_all.
  - intros ns' ts' _ Hts Hok l. rewrite items_object, Hf. cbn [xml_of] in *. by apply elements_all.
  - constructor.
  - intros. by constructor.
  - done.
  - intros. by apply Forall_app.
Qed.

(** ** The whole document *)
Context `{Package}.

Definition package_decodes (pn pv ps : wstr) : Prop :=
  mbs_decode PACKAGE_NAME = Some pn /\ mbs_decode PACKAGE_VERSION = Some pv /\
  mbs_decode PACKAGE_STRING = Some ps /\ nz pn /\ nz pv /\ nz ps.

Definition mode_text (euid : Z) : wstr := (if Z.eqb euid 0 then [] else lit "non-") ++ lit "privileged".

(** The root start tag. *)
Definition root_tag (pn pv ps mode : wstr) : wstr :=
  lit "<" ++ pn ++ lit " version=" ++ quoted pv ++ lit " package_string=" ++ quoted ps ++
  lit " mode=" ++ quoted mode ++ lit " format_version=" ++ quoted (lit "24") ++ lit ">".

Lemma format_root pn pv ps euid :
  package_decodes pn pv ps ->
  format_wcs xml_root_format
    [AStr PACKAGE_NAME; AStr PACKAGE_VERSION; AStr PACKAGE_STRING;
     AStr (if Z.eqb euid 0 then [] else NON_STR ++ lit "-"); AStr PRIVILEGED_STR;
     ANum PROCENV_FORMAT_VERSION]
  = Ok (Some (root_tag pn pv ps (mode_text euid) ++ [NL])).
Proof.
  intros (Hn & Hv & Hs & _).
  assert (mbs_decode (if Z.eqb euid 0 then [] else NON_STR ++ lit "-")
          = Some (if Z.eqb euid 0 then [] else lit "non-")) as Hm
    by (destruct (Z.eqb euid 0); apply decode_ascii; ascii_lit).
  assert (mbs_decode PRIVILEGED_STR = Some (lit "privileged")) as Hp by (apply decode_ascii; ascii_lit).
  unfold root_tag, mode_text, quoted. rewrite <- !app_assoc.
  generalize dependent (if Z.eqb euid 0 then [] else NON_STR ++ lit "-").
  generalize dependent (if Z.eqb euid 0 then [] else lit "non-"). intros mt mb Hm.
  generalize dependent PRIVILEGED_STR. intros pb Hp.
  generalize dependent PACKAGE_NAME. generalize dependent PACKAGE_VERSION.
  generalize dependent PACKAGE_STRING. intros sb Hs vb Hv nb Hn.
  let fmt := eval vm_compute in xml_root_format in change xml_root_format with fmt.
  unfold format_wcs, format_with. cbv -[mbs_decode app opt_app].
  rewrite Hn, Hv, Hs, Hm, Hp. cbn [opt_app]. by rewrite ?app_nil_l, ?app_nil_r.
Qed.

(** The header leaves the user's effective id alone until it writes the mode. *)
Lemma on_doc_euid g w w' : on_doc g w = Ok (tt, w') -> user_euid w' = user_euid w.
Proof.
  unfold on_doc. erewrite prog_bind_ok by reflexivity. unfold in_mem, zoom, mbind, prog_bind.
  destruct (g (doc w) (o_mem w)) as [[d m]| | | | |]; try done. by intros [= <-].
Qed.

Definition header_text (pn pv ps mode : wstr) : wstr :=
  xml_declaration ++ root_tag pn pv ps mode ++ [NL].

Lemma nz_root_tag pn pv ps mode :
  nz pn -> nz pv -> nz ps -> nz mode -> nz (root_tag pn pv ps mode ++ [NL]).
Proof. intros. unfold root_tag, quoted. nz_parts; try done; nz_lit. Qed.

Lemma nz_mode_text euid : nz (mode_text euid).
Proof. unfold mode_text. destruct (Z.eqb euid 0); nz_lit. Qed.

Lemma run_master_header pn pv ps w :
  package_decodes pn pv ps -> rep cfg w start_doc -> (0 <= s_amount cfg <= INT_MAX)%Z ->
  exists w', master_header w = Ok (tt, w') /\
    rep cfg w' (mk_adoc (header_text pn pv ps (mode_text (user_euid w))) (s_amount cfg)
                        ELEMENT_TYPE_NONE ELEMENT_TYPE_NONE []).
Proof.
  intros Hp Hw Ha.
  unfold master_header. step_with (run_common_assert cfg w start_doc Hw).
  erewrite prog_bind_ok by reflexivity.
  rewrite (proj1 (rep_configured _ _ _ Hw)), Hf.
  destruct (yields_wappend cfg xml_declaration start_doc ltac:(nz_lit) ltac:(unfold xml_declaration; nz_lit) w Hw)
    as (w1 & E1 & Hw1).
  step_with E1. erewrite prog_bind_ok by reflexivity.
  rewrite (on_doc_euid _ _ _ E1). destruct Hp as (? & ? & ? & ? & ? & ?).
  destruct (yields_bind cfg (wappendf_doc xml_root_format
        [AStr PACKAGE_NAME; AStr PACKAGE_VERSION; AStr PACKAGE_STRING;
         AStr (if Z.eqb (user_euid w) 0 then [] else NON_STR ++ lit "-"); AStr PRIVILEGED_STR;
         ANum PROCENV_FORMAT_VERSION]) (fun _ => inc_indent) (add_text xml_declaration start_doc)
    (mk_adoc (header_text pn pv ps (mode_text (user_euid w))) 0 ELEMENT_TYPE_NONE ELEMENT_TYPE_NONE [])
    (mk_adoc (header_text pn pv ps (mode_text (user_euid w))) (s_amount cfg)
             ELEMENT_TYPE_NONE ELEMENT_TYPE_NONE [])) with w1 as (w2 & E2 & Hw2); [| |done|].
  - apply yields_wappendf; [unfold xml_declaration; nz_lit|by apply format_root|].
    apply nz_root_tag; [done..|apply nz_mode_text].
  - apply (yields_inc_indent cfg (mk_adoc _ 0 _ _ _)); [done|cbn; lia].
  - exists w2. by split.
Qed.

Lemma yields_master_footer pn pv ps a :
  package_decodes pn pv ps -> a_level a = s_amount cfg ->
  yields cfg master_footer a (set_level 0 (add_text ([NL] ++ lit "</" ++ pn ++ lit ">" ++ [NL]) a)).
Proof.
  intros (Hn & _ & _ & Hnz & _) Hl. apply yields_with_nz. intros Ha.
  unfold master_footer. eapply yields_bind; [apply yields_common_assert|].
  apply yields_format. rewrite Hf.
  eapply yields_bind; [apply (yields_wappend cfg [NL]); [done|nz_lit]|].
  eapply yields_bind; [apply yields_dec_indent; cbn; lia|].
  replace (set_level 0 _)
    with (add_text (lit "</" ++ pn ++ lit ">" ++ [NL])
            (set_level (a_level (add_text [NL] a) - s_amount cfg) (add_text [NL] a))).
  - apply yields_wappendf; [cbn; nz_parts| |nz_parts].
    generalize dependent PACKAGE_NAME. intros nb Hn.
    set (fmt := lit "</%s>" ++ [NL]). vm_compute in fmt. subst fmt.
    unfold format_wcs, format_with. cbv -[mbs_decode app opt_app]. rewrite Hn.
    cbn [opt_app]. by rewrite ?app_nil_r.
  - unfold add_text, set_level. cbn. rewrite <- !app_assoc. f_equal. lia.
Qed.

(** The text of a document, between the root tag and its end. *)
Definition xml_inner (ts : list tree) : wstr :=
  match flat_map (items cfg (s_amount cfg)) ts with
  | [] => []
  | x :: xs => pad_at cfg (s_amount cfg) ++ x ++ following cfg (s_amount cfg) xs
  end ++ [NL].

Definition xml_text (ts : list tree) (pn pv ps mode : wstr) : wstr :=
  header_text pn pv ps mode ++ xml_inner ts ++ lit "</" ++ pn ++ lit ">".

Lemma xml_inner_read ns ts :
  denotes_all cfg ns ts -> forallb (xml_allowed ok) (flat_map xml_of ts) = true ->
  xcontent ok (xml_inner ts) (flat_map xml_of ts).
Proof.
  intros Hd Hok. unfold xml_inner. set (xs := flat_map (items cfg (s_amount cfg)) ts).
  assert (Forall2 (xelement ok) xs (flat_map xml_of ts)) as Hxs
    by (apply elements_all; [by eapply denotes_elements|done]).
  destruct xs as [|x xs'] eqn:Exs.
  - inversion Hxs. apply xcontent_ws. constructor; [auto|constructor].
  - exact (xcontent_joined (s_amount cfg) (pad_at cfg (s_amount cfg)) (x :: xs') _ [NL]
             (xml_ws_pad _) ltac:(constructor; [auto|constructor]) Hxs).
Qed.

Lemma xml_yields (w : ostate) (ns : list call) (ts : list tree) (pn pv ps : wstr) :
  rep cfg w start_doc -> denotes_all cfg ns ts -> package_decodes pn pv ps ->
  fits cfg 0 (TObject ts) ->
  exists w' a, (master_header;; emit_all ns;; master_footer) w = Ok (tt, w') /\ rep cfg w' a /\
    a_text a = xml_text ts pn pv ps (mode_text (user_euid w)) ++ [NL] /\ a_level a = 0%Z.
Proof.
  intros Hw Hd Hp Hfit. destruct (rep_configured _ _ _ Hw) as (_ & _ & Ha & _).
  destruct (fits_children cfg 0 ts Ha Hfit) as [Hmax Hfits]. rewrite Z.add_0_l in *.
  destruct (run_master_header pn pv ps w Hp Hw ltac:(lia)) as (w1 & E1 & Hw1).
  set (a := mk_adoc _ _ _ _ _) in Hw1.
  destruct (denotes_all_writes cfg ns ts ltac:(by rewrite Hf) Ha Hd CMembers (s_amount cfg) a)
    as (a1 & Hy & Hwr).
  { apply Forall_forall. intros t _ E. by rewrite Hf in E. }
  { done. }
  { unfold cur_ok. by rewrite Hf. }
  { done. }
  { done. }
  assert (a_level a1 = s_amount cfg) as Hl.
  { destruct Hwr as (_ & _ & N & C). destruct (flat_map _ ts); [by rewrite (N eq_refl)|].
    by apply C. }
  destruct (Hy w1 Hw1) as (w2 & E2 & Hw2).
  destruct (yields_master_footer pn pv ps a1 Hp Hl w2 Hw2) as (w3 & E3 & Hw3).
  eexists w3, _. split_and!; [step_with E1; step_with E2; exact E3|exact Hw3| |done].
  destruct Hwr as (T & _). cbn [a_text set_level add_text]. rewrite T. unfold xml_text, xml_inner, glued.
  rewrite <- !app_assoc. by destruct (flat_map _ ts).
Qed.

End Xml.

(** The text is content for a lenient reader, and by XML 1.0 when the characters
    are those of XML 1.0. *)
Definition xml_reads (inner : wstr) (ns : list xml) : Prop :=
  xcontent any_char inner ns /\
  (xcontent xml_char inner ns <-> forallb (xml_allowed xml_char) ns = true).

Section Documents.
Context `{AllocTotal} `{LocaleLaws} (cfg : settings).
Context (Hf : s_format cfg = OUTPUT_FORMAT_XML).
Context (Hpad : s_pad cfg = SPACE \/ s_pad cfg = 9%Z \/ s_pad cfg = NL \/ s_pad cfg = 13%Z).
Context `{Package}.

Lemma xml_inner_denotes ns ts :
  denotes_all cfg ns ts -> xml_reads (xml_inner cfg ts) (flat_map xml_of ts).
Proof.
  intros Hd. split; [|split; [apply xcontent_allowed|]].
  - apply (xml_inner_read cfg Hf Hpad any_char ns ts Hd), forallb_allowed_any.
  - by apply (xml_inner_read cfg Hf Hpad xml_char ns ts Hd).
Qed.

Lemma xml_run (w : ostate) (ns : list call) (ts : list tree) (pn pv ps : wstr) :
  rep cfg w start_doc -> denotes_all cfg ns ts -> package_decodes pn pv ps ->
  fits cfg 0 (TObject ts) ->
  exists w' inner, (master_header;; emit_all ns;; master_footer) w = Ok (tt, w') /\
    document w' = Ok (header_text pn pv ps (mode_text (user_euid w)) ++
                      inner ++ lit "</" ++ pn ++ lit ">" ++ [NL]) /\
    xml_reads inner (flat_map xml_of ts) /\ indent w' = 0%Z.
Proof.
  intros Hw Hd Hp Hfit. destruct (xml_yields cfg Hf w ns ts pn pv ps Hw Hd Hp Hfit) as (w' & a & E & Hw' & Ht & Hl).
  exists w', (xml_inner cfg ts). split_and!; [exact E| |by eapply xml_inner_denotes|by rewrite (rep_indent _ _ _ Hw')].
  rewrite (rep_document cfg w' _ Hw'), Ht; [|rewrite Ht; by destruct (xml_text cfg ts pn pv ps _)].
  unfold xml_text. by rewrite <- !app_assoc.
Qed.

(** C6: a complete run in XML, [master_header], the calls of any tree of
    entries, sections, containers and objects and [master_footer], succeeds
    and leaves an XML declaration, the root start tag (with the package's
    name, version and string, whether the user is privileged and the format
    version), content that by the grammar is the tree of the calls, each
    name and value read back as it was given by a reader that takes any
    character reference, and the matching end tag; the indent is back at 0.
    The content is that tree by XML 1.0 exactly when no name or value holds a
    character that XML 1.0 forbids, such as an escape character. *)
Theorem xml_document (w : ostate) (ns : list call) (ts : list tree) (pn pv ps : wstr) :
  rep cfg w start_doc -> denotes_all cfg ns ts -> package_decodes pn pv ps ->
  fits cfg 0 (TObject ts) ->
  exists w' inner, (master_header;; emit_all ns;; master_footer) w = Ok (tt, w') /\
    document w' = Ok (header_text pn pv ps (mode_text (user_euid w)) ++
                      inner ++ lit "</" ++ pn ++ lit ">" ++ [NL]) /\
    (xcontent any_char inner (flat_map xml_of ts) /\
     (xcontent xml_char inner (flat_map xml_of ts) <->
      forallb (xml_allowed xml_char) (flat_map xml_of ts) = true)) /\ indent w' = 0%Z.
Proof. apply xml_run. Qed.
End Documents.

Definition sample_elements : list xml :=
  [ XNode (lit "section") (lit "meta") [XLeaf (lit "entry") (lit "build-type") (lit "standard");
                                        XLeaf (lit "entry") (lit "count") (lit "2")];
    XNode (lit "container") (lit "list") [XLeaf (lit "entry") (lit "argv[0]") (lit "<a>")] ].

Lemma xml_document_witness :
  exists w' inner,
    (@master_header total_allocator c_locale sample_package;;
     @emit_all total_allocator c_locale sample_calls;;
     @master_footer total_allocator c_locale sample_package) (start_state OUTPUT_FORMAT_XML)
      = Ok (tt, w') /\
    document w' = Ok (header_text (lit "procenv") (lit "0.60") (lit "procenv 0.60") (lit "privileged")
                      ++ inner ++ lit "</" ++ lit "procenv" ++ lit ">" ++ [NL]) /\
    (xcontent any_char inner sample_elements /\
     (xcontent xml_char inner sample_elements <->
      forallb (xml_allowed xml_char) sample_elements = true)) /\
    indent w' = 0%Z.
Proof.
  apply (@xml_document total_allocator total_allocator_total c_locale c_locale_laws
           (start_settings OUTPUT_FORMAT_XML) eq_refl (or_introl eq_refl) sample_package
           (start_state OUTPUT_FORMAT_XML) sample_calls sample_trees);
    [apply start_rep|apply sample_denotes| |by vm_compute].
  split_and!; [apply decode_ascii; ascii_lit..|nz_lit|nz_lit|nz_lit].
Defined.
