(* ===== verification/Tidy.v ===== *)
(** Tidy: the documents that the trimming at the end of the program leaves as
    they are.

    [pstring_chomp] and [pstring_compress] (src/src/pstring.c) take newlines and
    indent characters away, and in general lines with them ([PString]).  A text
    is [tidy] when no newline stands behind a newline or an indent character.
    What is built in JSON and XML is tidy: names and values are encoded, so that
    they hold no newline, and every line ends in a character of the format. *)
From S2P Require Import Prelude Memory PrList Locale PString StringUtil Encode Output OutputSpec Document Json Xml.

(** ** Tidy texts *)

(** The characters that a document of JSON or XML is made of. *)
Definition printing `{Locale} (c : Z) : Prop := iswprint c = true.
Definition writable `{Locale} (c : Z) : Prop := printing c \/ is_ascii c.

(** The locale has a byte sequence for each of these characters: [wcstombs (3)]
    converts a text made of them. *)
Class EncodesWritable `{Locale} : Prop :=
  encode_writable w : Forall writable w -> w <> [] -> exists s, wcs_encode w = Some s /\ s <> [] /\ nz s.

#[export] Instance c_locale_encodes : EncodesWritable.
Proof.
  intros w Hw Hne. exists w. assert (Forall is_ascii w) as Ha.
  { eapply Forall_impl; [exact Hw|]. intros c [Hc|Hc]; [|done]. unfold printing in Hc. cbn in Hc. unfold is_ascii. lia. }
  split_and!; [apply encode_decode, decode_ascii, Ha|done|].
  eapply Forall_impl; [exact Ha|]. unfold is_ascii. cbn. lia.
Qed.

(** The last character of a text behind [p]. *)
Fixpoint ending (p : Z) (s : wstr) : Z :=
  match s with [] => p | c :: s' => ending c s' end.

Section Texts.
Context `{LocaleLaws} (rc : Z).
Implicit Types (p c : Z) (s t : wstr).

(** A text behind the character [p]. *)
Fixpoint tidy p s : Prop :=
  match s with
  | [] => True
  | c :: s' => writable c /\ (c = NL -> p <> NL /\ p <> rc) /\ tidy c s'
  end.

(** A text that is tidy wherever it stands, and one that also ends in a
    character that stays at the end of a line. *)
Definition loose s : Prop := forall p, tidy p s.
Definition solid c : Prop := c <> NL /\ c <> rc.
Definition neat s : Prop := loose s /\ forall p, solid (ending p s).

Lemma ending_app p s t : ending p (s ++ t) = ending (ending p s) t.
Proof. revert p. induction s as [|c s IH]; intros p; [done|]. apply IH. Qed.

Lemma tidy_app p s t : tidy p (s ++ t) <-> tidy p s /\ tidy (ending p s) t.
Proof. revert p. induction s as [|c s IH]; intros p; cbn; [tauto|]. rewrite IH. tauto. Qed.

Lemma printing_not_NL c : printing c -> c <> NL.
Proof. intros Hc ->. pose proof (iswprint_control NL ltac:(unfold NL; lia)). unfold printing in Hc. congruence. Qed.

Lemma loose_printing s : Forall printing s -> loose s.
Proof.
  intros Hs p. revert p. induction Hs as [|c s Hc _ IH]; intros p; [done|].
  split; [by left|]. split; [intros E; by apply printing_not_NL in Hc|apply IH].
Qed.

Lemma printing_lit s : forallb (fun c => Z.leb 32 c && Z.leb c 126) s = true -> Forall printing s.
Proof.
  intros Hs. apply Forall_forall. intros c Hc%list_elem_of_In. rewrite forallb_forall in Hs.
  apply iswprint_ascii. specialize (Hs c Hc). lia.
Qed.

Lemma loose_app s t : loose s -> loose t -> loose (s ++ t).
Proof. intros Hs Ht p. apply tidy_app. by split. Qed.

Lemma neat_app s t : loose s -> neat t -> neat (s ++ t).
Proof. intros Hs [Ht He]. split; [by apply loose_app|]. intros p. rewrite ending_app. apply He. Qed.

Lemma loose_line s t : neat s -> loose t -> loose (s ++ NL :: t).
Proof.
  intros [Hs He] Ht p. apply tidy_app. split; [apply Hs|].
  split; [by right|]. split; [intros _; apply He|apply Ht].
Qed.

Lemma neat_line s t : neat s -> neat t -> neat (s ++ NL :: t).
Proof.
  intros Hs [Ht He]. split; [by apply loose_line|]. intros p. rewrite ending_app. apply He.
Qed.

Lemma neat_printing s c : Forall printing (s ++ [c]) -> c <> rc -> neat (s ++ [c]).
Proof.
  intros Hs Hc. split; [by apply loose_printing|]. intros p. rewrite ending_app. split; [|done].
  apply Forall_app in Hs as [_ Hs]. by apply Forall_cons in Hs as [Hp%printing_not_NL _].
Qed.

Lemma tidy_writable p s : tidy p s -> Forall writable s.
Proof. revert p. induction s as [|c s IH]; intros p; [constructor|]. intros (Hc & _ & Hs). constructor; eauto. Qed.

(** ** Trimming *)
Lemma tidy_skip_nl p s : tidy p s -> skip_nl s = s.
Proof.
  destruct s as [|c [|d s]]; cbn; try done; [by rewrite andb_false_r|].
  intros (_ & _ & _ & Hd & _). destruct (Z.eqb_spec c NL) as [->|]; [|done].
  destruct (Z.eqb_spec d NL) as [->|]; [|done]. by destruct (Hd eq_refl).
Qed.

(** No newline behind the indent characters at the start. *)
Lemma tidy_drop_char p s :
  tidy p s -> starts_with rc s = true -> starts_with NL (drop_char rc s) = false.
Proof.
  intros Hs Hr.
  assert (forall q t, tidy q t -> q = rc -> starts_with NL (drop_char rc t) = false) as Hrun.
  { intros q t. revert q. induction t as [|c t IH]; intros q; [done|]. intros (_ & Hc & Ht) ->. cbn.
    destruct (Z.eqb_spec c rc) as [->|Hne]; [by apply (IH rc)|]. cbn.
    apply Z.eqb_neq. intros ->. by destruct (Hc eq_refl). }
  destruct s as [|c s]; [done|]. destruct Hs as (_ & _ & Hs). cbn in Hr |- *.
  apply Z.eqb_eq in Hr as ->. rewrite Z.eqb_refl. by apply (Hrun rc).
Qed.

Lemma squeeze_tidy p s fuel blanks : tidy p s -> squeeze rc fuel s 0 blanks = (s, 0, blanks).
Proof.
  intros Hs. destruct fuel as [|fuel]; [done|]. cbn [squeeze]. rewrite (tidy_skip_nl p s Hs), Nat.sub_diag, Nat.add_0_r.
  destruct (Nat.eqb_spec (length s - length (drop_char rc s)) 0) as [_|Hk]; [done|].
  rewrite (tidy_drop_char p s Hs); [done|]. destruct s as [|c s]; [done|]. cbn in Hk |- *.
  destruct (Z.eqb c rc); [done|]. cbn in Hk. lia.
Qed.

Lemma squeeze_all_tidy p s fuel : tidy p s -> length s <= fuel -> squeeze_all rc fuel s 0 0 = (s, 0, 0).
Proof.
  revert p s. induction fuel as [|fuel IH]; intros p s Hs Hf; [by destruct s; [|cbn in Hf; lia]|].
  destruct s as [|c s]; [done|]. cbn [squeeze_all]. rewrite (squeeze_tidy p _ _ _ Hs).
  destruct Hs as (_ & _ & Hs). by rewrite (IH c s Hs) by (cbn in Hf; lia).
Qed.

Lemma chomp_neat s : neat s -> chomp_text rc (s ++ [NL]) = s ++ [NL].
Proof.
  intros [_ He]. unfold chomp_text. assert (trailing rc (rev (s ++ [NL])) = 1) as ->; [|by rewrite orb_true_r].
  rewrite rev_app_distr. cbn. f_equal. induction s as [|c s _] using rev_ind; [done|].
  rewrite rev_app_distr. cbn. destruct (He 0%Z) as [H1 H2]. rewrite ending_app in H1, H2. cbn in H1, H2.
  unfold removable_char. by rewrite (proj2 (Z.eqb_neq _ _) H1), (proj2 (Z.eqb_neq _ _) H2).
Qed.

(** ** The two routines on a neat text *)
Lemma neat_settled s : neat s -> settled rc (s ++ [NL]).
Proof.
  intros [_ He] p t E Ht. destruct t as [|c t _] using rev_ind; [cbn; lia|].
  rewrite app_assoc in E. apply app_inj_tail in E as [E _]. apply Forall_app in Ht as [Ht _].
  destruct t as [|d t _] using rev_ind; [cbn; lia|]. exfalso.
  apply Forall_app in Ht as [_ Ht]. apply Forall_cons in Ht as [Hd _].
  destruct (He 0%Z) as [H1 H2]. rewrite E, !ending_app in H1, H2. cbn in H1, H2.
  unfold removable, removable_char in Hd. lia.
Qed.

Lemma neat_has_kept s : s <> [] -> neat s -> has_kept rc (s ++ [NL]).
Proof.
  intros Hne [_ He]. destruct s as [|c s _] using rev_ind; [done|].
  destruct (He 0%Z) as [H1 H2]. rewrite ending_app in H1, H2. cbn in H1, H2.
  unfold has_kept. rewrite !Exists_app. left. right. apply Exists_cons_hd.
  unfold removable, removable_char. lia.
Qed.

Lemma neat_document p s : neat s -> tidy p (s ++ [NL]).
Proof.
  intros [Hs He]. apply tidy_app. split; [apply Hs|].
  split; [right; unfold is_ascii, NL; lia|]. split; [intros _; apply He|done].
Qed.

Lemma compress_tidy `{Allocator} d s junk m p :
  buf d = Some (holding s junk) -> len d = length s -> nz s -> settled rc s ->
  rc <> 0%Z -> rc <> NL -> tidy p s ->
  exists d', pstring_compress rc d m = Ok (d', m) /\ contents d' = Ok s.
Proof.
  intros Hb Hl Hnz Hset Hr0 Hrn Ht. unfold pstring_compress. rewrite Hb.
  destruct (compress_loop_ok rc junk (S (length (holding s junk))) (holding s junk) 0 0 s []
              0 0 s 0 0) as (b1 & Hrun & Hlen & Htake & Hlt);
    [done|done|done|done|done|done|done|len_lia|by eapply squeeze_all_tidy|].
  step_with (pure_ok _ _ m Hrun). cbn [app Nat.add] in *.
  assert (store b1 (length s) 0%Z = Ok (holding s (drop (S (length s)) b1))) as E.
  { unfold store. rewrite bool_decide_true by lia. rewrite insert_take_drop by lia.
    unfold holding. by rewrite Htake. }
  step_with (pure_ok _ _ m E). eexists. split; [reflexivity|]. by apply string_at_start.
Qed.

Lemma trim_neat `{Allocator} d s m :
  text_of d (s ++ [NL]) -> nz s -> s <> [] -> rc <> 0%Z -> rc <> NL -> neat s ->
  exists d1 d2, pstring_chomp rc d = Ok d1 /\ pstring_compress rc d1 m = Ok (d2, m) /\
    contents d1 = Ok (s ++ [NL]) /\ contents d2 = Ok (s ++ [NL]).
Proof.
  intros Hd Hnz Hne Hr0 Hrn Hs. destruct Hd as [[E _]| ->]; [by destruct s as [|c [|? ?]]|].
  assert (nz (s ++ [NL])) as Hnz' by (apply nz_app; split; [done|nz_lit]).
  destruct (pstring_chomp_ok rc (mk_pstring (Some (holding (s ++ [NL]) [])) (length (s ++ [NL]))
              ((1 + length (s ++ [NL])) * sizeof_wchar_t)) (s ++ [NL]) [])
    as (d1 & junk & E1 & Hb & Hl); [done|done|by apply neat_has_kept|].
  rewrite chomp_neat in Hb, Hl by done.
  destruct (compress_tidy d1 (s ++ [NL]) junk m SPACE) as (d2 & E2 & Hc);
    [done|done|done|by apply neat_settled|done|done|by apply neat_document|].
  exists d1, d2. split_and!; [done|done| |done]. unfold contents. rewrite Hb. by apply string_at_start.
Qed.
End Texts.

(** ** Encoded names and values *)
Section Encoded.
Context `{LocaleLaws}.
Implicit Types (f : OutputFormat) (s : wstr).

Lemma digit_printing n : printing (digit_char (n mod 16)).
Proof.
  apply iswprint_ascii. assert (0 <= n mod 16 < 16)%Z by (apply Z.mod_pos_bound; lia).
  unfold digit_char. destruct (Z.ltb_spec (n mod 16) 10); lia.
Qed.

Lemma digits_printing n : Forall printing (digits 16 n).
Proof.
  unfold digits. apply Forall_rev. generalize (S (Z.to_nat (Z.log2 n))) as fuel.
  intros fuel. revert n. induction fuel as [|fuel IH]; intros n; [constructor|].
  cbn [digits_rev]. apply Forall_cons_2; [apply digit_printing|]. destruct (Z.eqb _ _); [constructor|apply IH].
Qed.

Lemma zeros_printing k s : Forall printing s -> Forall printing (zeros k s).
Proof.
  intros Hs. unfold zeros. apply Forall_app. split; [|done]. apply Forall_replicate.
  apply iswprint_ascii. lia.
Qed.

Lemma escape_printing f c : Forall printing (escape_char f c).
Proof.
  assert (forall k, Forall printing (zeros k (digits 16 c))) as Hz by (intros k; apply zeros_printing, digits_printing).
  assert (Forall printing [BACKSLASH]) as Hb by by apply printing_lit.
  assert (Forall printing (lit "&#x" ++ zeros 2 (digits 16 c) ++ lit ";")) as Hx
    by (apply Forall_app_2; [by apply printing_lit|]; apply Forall_app_2; [apply Hz|by apply printing_lit]).
  destruct f; [exact Hx|exact Hx| |exact Hx]. apply (Forall_app_2 _ [BACKSLASH]); [exact Hb|].
  apply Forall_app_2; [by apply printing_lit|apply Hz].
Qed.

Lemma encoded_printing f s : markup f -> Forall printing (encode_text f s).
Proof.
  intros Hf. rewrite (encode_markup f s Hf). unfold escape_text. generalize (translate_text f s) as t.
  intros t. apply Forall_concat, Forall_fmap, Forall_forall. intros c _. cbn.
  destruct (iswprint c) eqn:E; [by repeat constructor|apply escape_printing].
Qed.
End Encoded.

(** ** The items of a tree *)
Section Items.
Context `{AllocTotal} `{LocaleLaws} (cfg : settings).
Context (Hm : markup (s_format cfg)) (Hpad : json_ws_char (s_pad cfg)) (Hnl : s_pad cfg <> NL).
Implicit Types (x o t : wstr) (xs : list wstr).
Let rc := s_pad cfg.

Lemma loose_pad l : loose rc (pad_at cfg l).
Proof.
  unfold pad_at, padding. generalize (Z.to_nat l) as n. intros n p. revert p.
  induction n as [|n IH]; intros p; [done|]. cbn. split; [|by split].
  right. unfold is_ascii. destruct Hpad as [-> |[-> |[-> | ->]]]; unfold SPACE, NL; lia.
Qed.

Lemma loose_literal s : forallb (fun c => Z.leb 32 c && Z.leb c 126) s = true -> loose rc s.
Proof. intros Hs. by apply loose_printing, printing_lit. Qed.

Lemma loose_encoded s : loose rc (encode_text (s_format cfg) s).
Proof. by apply loose_printing, encoded_printing. Qed.

(** A text that ends in one of the characters after which lines end. *)
Lemma neat_end (s : wstr) (c : Z) :
  forallb (fun c => Z.leb 33 c && Z.leb c 126) [c] = true -> loose rc s -> neat rc (s ++ [c]).
Proof.
  intros Hc Hs. assert (c <> NL /\ c <> rc) as [Hc1 Hc2].
  { cbn in Hc. unfold rc, NL. split; [lia|]. intros ->. destruct Hpad as [E|[E|[E|E]]]; rewrite E in Hc; done. }
  apply neat_app; [done|]. rewrite <- (app_nil_l [c]). apply neat_printing; [|done].
  apply printing_lit. cbn in Hc |- *. lia.
Qed.

Lemma neat_sep x t : neat rc x -> neat rc t -> neat rc (x ++ sep cfg ++ t).
Proof.
  intros Hx Ht. unfold sep, separator. destruct Hm as [-> | ->]; [|by apply neat_line].
  change (COMMA_NL ++ t) with (lit "," ++ NL :: t). rewrite app_assoc. apply neat_line; [|done].
  apply neat_end; [done|]. apply Hx.
Qed.

Lemma neat_following l x xs : neat rc x -> Forall (neat rc) xs -> neat rc (x ++ following cfg l xs).
Proof.
  intros Hx Hxs. revert x Hx. induction Hxs as [|y xs Hy _ IH]; intros x Hx; [by rewrite app_nil_r|].
  rewrite following_cons. apply neat_sep; [done|]. apply neat_app; [apply loose_pad|]. by apply IH.
Qed.

Lemma neat_body l o xs (c : wstr) :
  neat rc o -> Forall (neat rc) xs -> neat rc c -> neat rc (o ++ body cfg l xs ++ c).
Proof.
  intros Ho Hxs Hc. destruct Hxs as [|x xs Hx Hxs]; cbn [body].
  - destruct (bool_decide _); [|apply neat_app; [apply Ho|done]].
    rewrite <- !app_assoc. apply neat_line; [done|]. apply neat_app; [apply loose_pad|done].
  - rewrite <- !app_assoc. apply neat_line; [done|]. apply neat_app; [apply loose_pad|].
    rewrite (app_assoc x). apply neat_line; [by apply neat_following|].
    apply neat_app; [apply loose_pad|done].
Qed.

Lemma loose_quoted s : loose rc s -> loose rc (quoted s).
Proof. intros Hs. unfold quoted. apply loose_app; [by apply loose_literal|]. apply loose_app; [done|by apply loose_literal]. Qed.

Lemma neat_open k s : loose rc s -> neat rc (open_text cfg k s).
Proof.
  intros Hs. unfold open_text. destruct Hm as [-> | ->].
  - apply neat_app; [by apply loose_quoted|]. destruct k.
    + apply (neat_end (lit " : ")); [done|by apply loose_literal].
    + apply (neat_end (lit " : ")); [done|by apply loose_literal].
  - rewrite !app_assoc. apply neat_end; [done|]. rewrite <- !app_assoc.
    repeat apply loose_app; first [done|by apply loose_literal|destruct k; by apply loose_literal].
Qed.

Lemma neat_close k : neat rc (close_text cfg k).
Proof.
  unfold close_text. destruct Hm as [-> | ->].
  - destruct k; apply (neat_end []); done.
  - rewrite !app_assoc. apply neat_end; [done|]. apply loose_app; [by apply loose_literal|].
    destruct k; by apply loose_literal.
Qed.

Lemma neat_entry s v : loose rc s -> loose rc v -> neat rc (entry_text cfg [] s v).
Proof.
  intros Hs Hv. unfold entry_text. destruct Hm as [-> | ->].
  - apply neat_app; [by apply loose_quoted|]. apply neat_app; [by apply loose_literal|].
    unfold quoted. rewrite app_assoc. apply neat_end; [done|]. apply loose_app; [by apply loose_literal|done].
  - change (lit "</entry>") with (lit "</entry" ++ lit ">"). rewrite !app_assoc. apply neat_end; [done|].
    rewrite <- !app_assoc. repeat apply loose_app; first [done|by apply loose_literal].
Qed.

(** Every item of a tree is neat. *)
Fixpoint neat_items (t : tree) : forall l, Forall (neat rc) (items cfg l t).
Proof.
  assert (forall ts l, Forall (neat rc) (flat_map (items cfg l) ts)) as Hall.
  { fix IH 1. intros [|t' ts] l; [constructor|]. cbn. apply Forall_app. split; [apply neat_items|apply IH]. }
  destruct t as [name v|k name ts|ts]; intros l.
  - apply Forall_cons_2; [|constructor]. apply neat_entry; apply loose_encoded.
  - rewrite items_block. apply Forall_cons_2; [|constructor].
    apply neat_body; [apply neat_open, loose_encoded|apply Hall|apply neat_close].
  - rewrite items_object. destruct (bool_decide _); [|apply Hall]. apply Forall_cons_2; [|constructor].
    apply neat_body; [by apply (neat_end [])|apply Hall|by apply (neat_end [])].
Qed.

Lemma neat_all_items ts l : Forall (neat rc) (flat_map (items cfg l) ts).
Proof. induction ts as [|t ts IH]; [constructor|]. cbn. apply Forall_app. split; [apply neat_items|done]. Qed.
End Items.

(** ** Complete documents *)
Section Documents.
Context `{AllocTotal} `{LocaleLaws} (cfg : settings).
Context (Hpad : json_ws_char (s_pad cfg)) (Hnl : s_pad cfg <> NL).
Let rc := s_pad cfg.

Lemma neat_json ts : s_format cfg = OUTPUT_FORMAT_JSON -> neat rc (json_text cfg ts).
Proof.
  intros Hf. assert (markup (s_format cfg)) as Hm by by left.
  by apply neat_body; [| | |apply (neat_end cfg Hpad [])|apply neat_all_items|apply (neat_end cfg Hpad [])].
Qed.

Lemma neat_root pn pv ps mode :
  Forall printing (pn ++ pv ++ ps ++ mode) -> neat rc (root_tag pn pv ps mode).
Proof.
  rewrite !Forall_app. intros (Hn & Hv & Hs & Hm). unfold root_tag, quoted. rewrite !app_assoc.
  apply neat_end; [done|done|]. rewrite <- !app_assoc.
  repeat apply loose_app; first [by apply loose_printing|by apply loose_literal].
Qed.

Lemma neat_xml ts pn pv ps mode :
  s_format cfg = OUTPUT_FORMAT_XML -> Forall printing (pn ++ pv ++ ps ++ mode) ->
  flat_map (items cfg (s_amount cfg)) ts <> [] -> neat rc (xml_text cfg ts pn pv ps mode).
Proof.
  intros Hf Hp Hne. assert (markup (s_format cfg)) as Hm by by right.
  pose proof (neat_all_items cfg Hm Hpad Hnl ts (s_amount cfg)) as Hxs.
  unfold xml_text, header_text, xml_inner. destruct Hxs as [|x xs Hx Hxs]; [done|].
  assert (neat rc (lit "</" ++ pn ++ lit ">")) as Hend.
  { rewrite app_assoc. apply neat_end; [done|done|]. apply loose_app; [by apply loose_literal|].
    apply loose_printing. by apply Forall_app in Hp as [Hp _]. }
  assert (exists d, xml_declaration = d ++ [NL] /\ neat rc d) as (d & -> & Hd).
  { eexists (removelast xml_declaration). split; [reflexivity|].
    change (removelast xml_declaration) with (removelast (removelast xml_declaration) ++ lit ">").
    apply neat_end; [done|done|by apply loose_literal]. }
  rewrite <- !app_assoc. apply neat_line; [done|]. rewrite (app_assoc (root_tag _ _ _ _)), <- (app_assoc (root_tag _ _ _ _)).
  apply neat_line; [by apply neat_root|]. apply neat_app; [by apply loose_pad|].
  rewrite (app_assoc x). apply neat_line; [by apply neat_following|done].
Qed.
End Documents.
