(* ===== verification/Util.v ===== *)
(** Util: the probes of the environment (src/src/util.c), and the C library
    routines on streams and strings they use.

    What the kernel answers is the class [System]; a file that is read is its
    whole contents, and [fgets] takes it apart.  The build modelled is the
    Linux one. *)
From S2P Require Import Prelude Memory PrList Locale.

(** ** [strstr (3)] and [fgets (3)] *)
Fixpoint prefix_of (p s : bytes) : bool :=
  match p, s with
  | [], _ => true
  | c :: p', d :: s' => Z.eqb c d && prefix_of p' s'
  | _ :: _, [] => false
  end.

(** The offset of the first occurrence of [p] in [s]. *)
Fixpoint strstr (s p : bytes) : option nat :=
  if prefix_of p s then Some 0
  else match s with
       | [] => None
       | _ :: s' => match strstr s' p with Some n => Some (S n) | None => None end
       end.

(** What [fgets] reads with room for [n] characters, and what it leaves. *)
Fixpoint fgets_take (n : nat) (f : bytes) : bytes * bytes :=
  match n, f with
  | 0, _ | _, [] => ([], f)
  | S n', c :: f' =>
    if Z.eqb c NL then ([c], f')
    else let '(l, r) := fgets_take n' f' in (c :: l, r)
  end.

(** The string a buffer holds: up to its first zero. *)
Fixpoint c_string (b : bytes) : bytes :=
  match b with
  | [] => []
  | c :: b' => if Z.eqb c 0 then [] else c :: c_string b'
  end.

(** [fgets (buffer, size, f)]: no buffer at the end of the file. *)
Definition fgets (size : nat) (f : bytes) : option (bytes * bytes) :=
  match f with
  | [] => None
  | _ => let '(l, r) := fgets_take (size - 1) f in Some (c_string l, r)
  end.

(** ** What the system answers *)
Record stat_buf : Type := mk_stat {
  st_dev : Z;
  st_ino : Z;
  st_mode : Z;
  st_rdev : Z
}.

Class System : Type := {
  fcntl_getfl : Z -> Z * Z;
  ioctl_vt_getmode : Z -> Z;
  open_tty : Z;
  getuid : Z;
  stat : bytes -> option stat_buf;
  read_file : bytes -> option bytes;
  makedev : Z -> Z -> Z;
  major : Z -> Z;
  minor : Z -> Z
}.

Definition EBADF : Z := 9.

Record user_ids : Type := mk_user_ids { u_pid : Z; u_pgroup : Z; u_sid : Z }.

Section Probes.
Context `{System}.

Definition fd_valid (fd : Z) : bool :=
  if Z.ltb fd 0 then false
  else
    let '(flags, errno) := fcntl_getfl fd in
    if Z.ltb flags 0 then false else if Z.eqb errno EBADF then false else true.

Definition is_console (fd : Z) : bool := Z.eqb (ioctl_vt_getmode fd) 0.

(** [representation] gives the bytes of an [int]; the code reads the first
    byte of 1. *)
Definition is_big_endian (representation : Z -> bytes) : bool :=
  if bool_decide (head (representation 1%Z) = Some 1%Z) then false else true.

Definition has_ctty : bool := if Z.ltb open_tty 0 then false else true.

Definition uid_match (uid : Z) : bool := Z.eqb uid getuid.

Definition NO_STR : bytes := lit "no".

(** The lines of /proc/self/status; each loses its last character before it
    is searched. *)
Fixpoint status_loop (fuel : nat) (f : bytes) : outcome bytes :=
  match fuel with
  | 0 => Diverge
  | S fuel' =>
    match fgets 1024 f with
    | None => Ok NO_STR
    | Some (buffer, f') =>
      match length buffer with
      | 0 => UB "write before the buffer"
      | S len' =>
        if bool_decide (strstr (take len' buffer) (lit "VxID") = Some 0) then Ok (lit "vserver")
        else status_loop fuel' f'
      end
    end
  end.

Definition container_type : outcome bytes :=
  let expected := makedev 5 1 in
  match stat (lit "/dev/console") with
  | None => Ok NO_STR
  | Some st =>
    if negb (Z.eqb (major (st_rdev st)) (major expected))
       || negb (Z.eqb (minor (st_rdev st)) (minor expected)) then Ok (lit "lxc")
    else if bool_decide (is_Some (stat (lit "/proc/vz")))
            && bool_decide (stat (lit "/proc/bc") = None) then Ok (lit "openvz")
    else
      match read_file (lit "/proc/self/status") with
      | None => Ok NO_STR
      | Some f => status_loop (S (length f)) f
      end
  end.

(** Inode numbers are kept in an [int]. *)
Definition in_chroot : outcome bool :=
  match stat (lit "/") with
  | None => Die "cannot stat '/'"
  | Some root =>
    let root_inode := to_signed 32 (st_ino root) in
    if negb (Z.eqb root_inode 2) && negb (Z.eqb root_inode 128) then Ok true
    else
      match stat (lit "/proc/curproc") with
      | Some _ => Ok false
      | None =>
        match stat (lit "/proc/self/root") with
        | None => Ok false
        | Some self =>
          if Z.eqb root_inode (to_signed 32 (st_ino self)) then Ok false else Ok true
        end
      end
  end.
End Probes.

Definition is_session_leader (u : user_ids) : bool := Z.eqb (u_sid u) (u_pid u).
Definition is_process_group_leader (u : user_ids) : bool := Z.eqb (u_pgroup u) (u_pid u).

(** The rates of the table; [B] gives the constant of <termios.h> for a rate. *)
Definition baud_rates : list Z :=
  [0; 50; 75; 110; 134; 150; 200; 300; 600; 1200; 1800; 2400; 4800; 9600; 19200; 38400;
   57600; 115200; 230400]%Z.

Definition baud_speeds (B : Z -> Z) : list (bytes * Z) :=
  map (fun r => (lit "B" ++ digits 10 r, B r)) baud_rates.

Fixpoint find_name (tbl : list (bytes * Z)) (v : Z) : option bytes :=
  match tbl with
  | [] => None
  | (name, num) :: tbl' => if Z.eqb v num then Some name else find_name tbl' v
  end.

Definition get_speed (B : Z -> Z) (speed : Z) : option bytes := find_name (baud_speeds B) speed.

(** ** Reading a text file line by line *)
Definition text_line (n : nat) (l : bytes) : Prop := nz l /\ (NL ∉ l) /\ length l < n.

Definition file_of (ls : list bytes) : bytes := concat (map (fun l => l ++ [NL]) ls).

Lemma prefix_of_strstr p s : bool_decide (strstr s p = Some 0) = prefix_of p s.
Proof.
  destruct s as [|c s]; cbn [strstr]; destruct (prefix_of p _); try done.
  destruct (strstr s p); by rewrite bool_decide_false.
Qed.

Lemma fgets_take_line n l f :
  NL ∉ l -> length l < n -> fgets_take n (l ++ NL :: f) = (l ++ [NL], f).
Proof.
  revert n. induction l as [|c l IH]; intros [|n] Hl Hn; cbn in *; try lia; [done|].
  apply not_elem_of_cons in Hl as [Hc Hl].
  rewrite (proj2 (Z.eqb_neq _ _)) by congruence. by rewrite IH by (done || lia).
Qed.

Lemma fgets_take_long n l f :
  NL ∉ l -> n <= length l -> fgets_take n (l ++ f) = (take n l, drop n l ++ f).
Proof.
  revert l. induction n as [|n IH]; intros [|c l] Hl Hn; cbn in *; try lia; [by destruct f|done|].
  apply not_elem_of_cons in Hl as [Hc Hl].
  rewrite (proj2 (Z.eqb_neq _ _)) by congruence. by rewrite IH by (done || lia).
Qed.

Lemma c_string_nz b : nz b -> c_string b = b.
Proof.
  induction 1 as [|c b Hc _ IH]; [done|]. cbn. by rewrite (proj2 (Z.eqb_neq _ _)), IH.
Qed.

Lemma fgets_line n l f :
  text_line n l -> fgets (S n) (l ++ NL :: f) = Some (l ++ [NL], f).
Proof.
  intros (Hnz & Hnl & Hlen). unfold fgets. destruct (l ++ NL :: f) eqn:E; [by destruct l|].
  rewrite <- E. cbn [Nat.sub]. rewrite Nat.sub_0_r, fgets_take_line by done.
  rewrite c_string_nz by (apply nz_app; split; [done|nz_lit]). done.
Qed.

Lemma fgets_long n l f :
  nz l -> NL ∉ l -> 0 < n <= length l ->
  fgets (S n) (l ++ f) = Some (take n l, drop n l ++ f).
Proof.
  intros Hnz Hnl Hlen. unfold fgets. destruct (l ++ f) eqn:E.
  { apply app_eq_nil in E as [-> _]. cbn in Hlen. lia. }
  rewrite <- E. cbn [Nat.sub]. rewrite Nat.sub_0_r, fgets_take_long by (done || lia).
  rewrite c_string_nz; [done|]. by apply Forall_take.
Qed.

Lemma file_of_cons l ls : file_of (l :: ls) = l ++ NL :: file_of ls.
Proof. unfold file_of. cbn [map concat]. by rewrite <- app_assoc. Qed.

Lemma file_of_length ls : length ls <= length (file_of ls).
Proof. induction ls as [|l ls IH]; [done|]. rewrite file_of_cons. len_lia. Qed.

(** ** The container *)
Lemma status_loop_lines ls fuel :
  Forall (text_line 1023) ls -> length ls < fuel ->
  status_loop fuel (file_of ls)
  = Ok (if existsb (prefix_of (lit "VxID")) ls then lit "vserver" else NO_STR).
Proof.
  intros Hls. revert fuel. induction Hls as [|l ls Hl Hls IH]; intros [|fuel] Hf; cbn in Hf; try lia; [done|].
  rewrite file_of_cons. cbn [status_loop]. rewrite (fgets_line 1023) by done.
  rewrite length_app, Nat.add_comm. cbn [length Nat.add]. rewrite take_app_exact by done.
  rewrite prefix_of_strstr. cbn [existsb].
  destruct (prefix_of (lit "VxID") l); [done|]. cbn [orb]. apply IH. lia.
Qed.

(** What [container_type] reports, from the devices and files it looks at and
    the lines of /proc/self/status. *)
Definition container_report `{System} (ls : list bytes) : bytes :=
  match stat (lit "/dev/console") with
  | None => NO_STR
  | Some st =>
    if decide (major (st_rdev st) = 5%Z /\ minor (st_rdev st) = 1%Z) then
      if decide (is_Some (stat (lit "/proc/vz")) /\ stat (lit "/proc/bc") = None) then lit "openvz"
      else if existsb (prefix_of (lit "VxID")) ls then lit "vserver" else NO_STR
    else lit "lxc"
  end.

(** When /proc/self/status is a file of text lines shorter than the buffer
    (or cannot be opened), [container_type] ends without undefined behaviour;
    it reports no container without /dev/console, an LXC container when the
    console is not device 5:1, OpenVZ when /proc/vz exists and /proc/bc does
    not, a vserver exactly when some line starts with VxID, and otherwise no
    container. *)
Theorem container_type_correct `{System} (ls : list bytes) :
  major (makedev 5 1) = 5%Z -> minor (makedev 5 1) = 1%Z ->
  (read_file (lit "/proc/self/status") = None /\ ls = [] \/
   read_file (lit "/proc/self/status") = Some (file_of ls)) ->
  Forall (text_line 1023) ls ->
  container_type = Ok (container_report ls).
Proof.
  intros Hmaj Hmin Hread Hls. unfold container_type, container_report. cbv zeta.
  destruct (stat (lit "/dev/console")) as [st|]; [|done].
  rewrite Hmaj, Hmin.
  destruct (Z.eqb_spec (major (st_rdev st)) 5); [|by rewrite decide_False by naive_solver].
  destruct (Z.eqb_spec (minor (st_rdev st)) 1); [|by rewrite decide_False by naive_solver].
  cbn [negb orb]. rewrite decide_True by done.
  destruct (decide (is_Some (stat (lit "/proc/vz")) /\ stat (lit "/proc/bc") = None)) as [[Hv Hb]|Hn].
  { by rewrite !bool_decide_true. }
  replace (_ && _) with false.
  2: { symmetry. apply andb_false_iff. rewrite !bool_decide_eq_false.
       destruct (decide (stat (lit "/proc/bc") = None)); naive_solver. }
  destruct Hread as [[-> ->]| ->]; [done|].
  apply status_loop_lines; [done|]. pose proof (file_of_length ls). lia.
Qed.

(** A Linux host with two lines in /proc/self/status. *)
#[local] Instance sample_system : System := {|
  fcntl_getfl := fun _ => (0, 0)%Z;
  ioctl_vt_getmode := fun _ => (-1)%Z;
  open_tty := (-1)%Z;
  getuid := 1000%Z;
  stat := fun p => if bool_decide (p = lit "/dev/console") then Some (mk_stat 0 9 8192 1281) else None;
  read_file := fun p => if bool_decide (p = lit "/proc/self/status")
                        then Some (file_of [lit "Name:"; lit "VxID: 7"]) else None;
  makedev := fun a b => (256 * a + b)%Z;
  major := fun d => (d / 256)%Z;
  minor := fun d => (d mod 256)%Z
|}.


Lemma container_type_witness :
  @container_type sample_system = Ok (lit "vserver").
Proof.
  apply (@container_type_correct sample_system [lit "Name:"; lit "VxID: 7"]);
    [done|done|by right|].
  repeat constructor; (nz_lit || (cbn; set_solver) || (cbn; lia)).
Defined.

(** ** Line speeds *)
Lemma find_name_in tbl v name : find_name tbl v = Some name -> (name, v) ∈ tbl.
Proof.
  induction tbl as [|[n u] tbl IH]; cbn; [done|].
  destruct (Z.eqb_spec v u) as [->|]; [intros [= ->]; by left|]. intros Hf. right. by apply IH.
Qed.

Lemma find_name_spec tbl name v :
  NoDup (map snd tbl) -> (name, v) ∈ tbl -> find_name tbl v = Some name.
Proof.
  induction tbl as [|[n u] tbl IH]; cbn; intros Hnd Hin; [by apply not_elem_of_nil in Hin|].
  apply NoDup_cons in Hnd as [Hu Hnd]. apply elem_of_cons in Hin as [[= -> ->]|Hin].
  - by rewrite Z.eqb_refl.
  - destruct (Z.eqb_spec v u) as [->|]; [|by apply IH]. destruct Hu.
    apply list_elem_of_fmap. by exists (name, u).
Qed.

Lemma find_name_none tbl v : find_name tbl v = None <-> v ∉ map snd tbl.
Proof.
  induction tbl as [|[n u] tbl IH]; cbn; [split; [intros _; apply not_elem_of_nil|done]|].
  rewrite not_elem_of_cons. destruct (Z.eqb_spec v u) as [->|]; [naive_solver|]. rewrite IH. naive_solver.
Qed.

(** When <termios.h> gives different rates different constants,
    [get_speed] names the constant of each rate of the table B and the rate in
    decimal, and has no name for any other speed. *)
Theorem get_speed_correct (B : Z -> Z) (speed : Z) :
  NoDup (map B baud_rates) ->
  (forall r, r ∈ baud_rates -> get_speed B (B r) = Some (lit "B" ++ digits 10 r)) /\
  (get_speed B speed = None <-> speed ∉ map B baud_rates) /\
  (forall name, get_speed B speed = Some name ->
     exists r, r ∈ baud_rates /\ speed = B r /\ drop 1 name = digits 10 r).
Proof.
  intros Hnd. assert (map snd (baud_speeds B) = map B baud_rates) as Hs
    by (unfold baud_speeds; by rewrite map_map).
  split_and!.
  - intros r Hr. apply find_name_spec; [by rewrite Hs|]. apply list_elem_of_fmap. by exists r.
  - unfold get_speed. by rewrite find_name_none, Hs.
  - intros name Hn. apply find_name_in, list_elem_of_fmap in Hn as (r & [= -> ->] & Hr).
    by exists r.
Qed.

Lemma get_speed_witness :
  (forall r, r ∈ baud_rates -> get_speed (fun r => r) r = Some (lit "B" ++ digits 10 r)) /\
  (get_speed (fun r => r) 7 = None <-> 7%Z ∉ map (fun r => r) baud_rates) /\
  (forall name, get_speed (fun r => r) 7 = Some name ->
     exists r, r ∈ baud_rates /\ 7%Z = r /\ drop 1 name = digits 10 r).
Proof.
  apply (get_speed_correct (fun r => r) 7).
  apply (bool_decide_unpack _). by vm_compute.
Defined.
