(* ===== verification/Affinity.v ===== *)
(** Affinity: the list of the processors a process may run on
    (show_cpu_affinities_generic of src/src/platform/platform-generic.c).

    The platform's operations on processor sets are parameters.  The
    specification is the grammar [cpu_list] of comma-separated numbers and
    ranges. *)
From S2P Require Import Prelude Memory PrList Locale PString StringUtil Encode Output.

(** The variables of the loop. *)
Record range_state : Type := mk_range_state {
  cpu_list_buf : option buffer;
  displayed : bool;
  count : nat;
  last_cpu : Z;
  first_cpu : Z
}.

Section Affinity.
Context `{Allocator} `{Locale} {CpuSet : Type}.

Definition append_range (s : range_state) : prog mem (option buffer) :=
  let comma := AStr (if displayed s then lit "," else []) in
  if Z.eqb (first_cpu s) (last_cpu s)
  then appendf (cpu_list_buf s) (lit "%s%d") [comma; ANum (first_cpu s)]
  else appendf (cpu_list_buf s) (lit "%s%d-%d") [comma; ANum (first_cpu s); ANum (last_cpu s)].

(** One processor. *)
Definition cpu_step (has : Z -> bool) (cpu : Z) (s : range_state) : prog mem range_state :=
  if has cpu then
    mret (mk_range_state (cpu_list_buf s) (displayed s) (S (count s)) cpu
                         (if Nat.eqb (count s) 0 then cpu else first_cpu s))
  else if Nat.eqb (count s) 0 then mret s
  else
    b ← append_range s;
    mret (mk_range_state b true 0 (last_cpu s) (first_cpu s)).

(** The processors from [cpu] on, [n] of them. *)
Fixpoint cpu_loop (has : Z -> bool) (n : nat) (cpu : Z) (s : range_state) : prog mem range_state :=
  match n with
  | 0 => mret s
  | S n' => s' ← cpu_step has cpu s; cpu_loop has n' (cpu + 1) s'
  end.

(** The text of the list; a null pointer when no processor is in the set. *)
Definition affinity_list (has : Z -> bool) (max : Z) : prog mem (option buffer) :=
  s ← cpu_loop has (Z.to_nat max) 0 (mk_range_state None false 0 0 0);
  if Nat.eqb (count s) 0 then mret (cpu_list_buf s) else append_range s.

Definition show_cpu_affinities_generic (get_cpuset : option (option CpuSet))
  (cpuset_has_cpu : option (CpuSet -> Z -> bool)) (nprocessors : Z) : prog ostate unit :=
  match get_cpuset, cpuset_has_cpu with
  | Some (Some cpu_set), Some has =>
    b ← in_mem (affinity_list (has cpu_set) nprocessors);
    text ← (match b with
            | Some b => pure (string_at b 0)
            | None => mret (lit "-1")
            end);
    entry (lit "affinity list") (lit "%s") [AStr text]
  | _, _ => mret tt
  end.
End Affinity.

(** ** The grammar of a list of processors *)
Inductive cpu_range : bytes -> list Z -> Prop :=
| cpu_single n : cpu_range (digits 10 n) [n]
| cpu_span a b : (a < b)%Z -> cpu_range (digits 10 a ++ lit "-" ++ digits 10 b) (seqZ a (b - a + 1)).

(** Two ranges of the list neither overlap nor touch, and they ascend. *)
Inductive cpu_list : bytes -> list Z -> Prop :=
| cpu_list_one t cs : cpu_range t cs -> cpu_list t cs
| cpu_list_snoc t cs t' cs' :
    cpu_list t cs -> cpu_range t' cs' -> (forall x y, x ∈ cs -> y ∈ cs' -> x + 1 < y)%Z ->
    cpu_list (t ++ lit "," ++ t') (cs ++ cs').

Definition in_int (z : Z) : Prop := (0 <= z <= INT_MAX)%Z.

Lemma nz_decimal n : (0 <= n)%Z -> nz (digits 10 n).
Proof.
  intros Hn. eapply Forall_impl; [exact (digits_chars 10 ltac:(lia) n Hn)|].
  intros c Hc. cbn. apply (is_digit_char_range 10) in Hc; lia.
Qed.

Lemma nz_cpu_range t cs : cpu_range t cs -> Forall in_int cs -> nz t.
Proof.
  destruct 1 as [n|a b Hab]; intros Hcs.
  - apply Forall_cons_1 in Hcs as [[? _] _]. by apply nz_decimal.
  - assert (0 <= a)%Z.
    { rewrite Forall_forall in Hcs. apply (Hcs a), elem_of_seqZ. lia. }
    apply nz_app. split; [by apply nz_decimal|]. apply nz_app. split; [nz_lit|apply nz_decimal; lia].
Qed.

Lemma nz_cpu_list t cs : cpu_list t cs -> Forall in_int cs -> nz t.
Proof.
  induction 1 as [t cs Hr|t cs t' cs' Hl IH Hr Hgap]; intros Hcs; [by eapply nz_cpu_range|].
  apply Forall_app in Hcs as [H1 H2]. apply nz_app. split; [by apply IH|].
  apply nz_app. split; [nz_lit|by eapply nz_cpu_range].
Qed.

(** A list of processors has one text. *)
Definition range_of (a b : Z) : bytes := if Z.eqb a b then digits 10 a else digits 10 a ++ lit "-" ++ digits 10 b.

Lemma cpu_range_inv t cs :
  cpu_range t cs -> exists a b, (a <= b)%Z /\ cs = seqZ a (b - a + 1) /\ t = range_of a b.
Proof.
  unfold range_of. destruct 1 as [n|a b Hab].
  - exists n, n. rewrite Z.eqb_refl, Z.sub_diag. done.
  - exists a, b. rewrite (proj2 (Z.eqb_neq _ _)) by lia. split_and!; [lia|done|done].
Qed.

Lemma cpu_list_inv t cs :
  cpu_list t cs ->
  exists pre a b, (a <= b)%Z /\ cs = pre ++ seqZ a (b - a + 1) /\ (forall x, x ∈ pre -> (x + 1 < a)%Z) /\
    (pre = [] /\ t = range_of a b \/ exists t0, cpu_list t0 pre /\ t = t0 ++ lit "," ++ range_of a b).
Proof.
  destruct 1 as [t cs Hr|t cs t' cs' Hl Hr Hgap]; apply cpu_range_inv in Hr as (a & b & Hab & -> & ->).
  - exists [], a, b. split_and!; [done|done|set_solver|by left].
  - exists cs, a, b. split_and!; [done|done| |by right; eexists].
    intros x Hx. apply (Hgap x a Hx). apply elem_of_seqZ. lia.
Qed.

(** The last maximal run of a list. *)
Lemma last_run_unique pre a n pre' a' n' :
  (forall x, x ∈ pre -> (x + 1 < a)%Z) -> (forall x, x ∈ pre' -> (x + 1 < a')%Z) -> (0 < n)%Z -> (0 < n')%Z ->
  pre ++ seqZ a n = pre' ++ seqZ a' n' -> pre = pre' /\ a = a' /\ n = n'.
Proof.
  assert (forall k pre a n a' n', (forall x, x ∈ pre ++ k -> (x + 1 < a)%Z) -> (0 < n)%Z ->
    k ++ seqZ a n = seqZ a' n' -> k = []) as Hk.
  { clear. intros k pre a n a' n' Hgap Hn E. destruct k as [|y k _] using rev_ind; [done|exfalso].
    specialize (Hgap y ltac:(set_solver)). rewrite <- app_assoc in E.
    assert (seqZ a' n' !! length k = Some y) as H1 by (rewrite <- E, lookup_app_r, Nat.sub_diag by done; done).
    assert (seqZ a' n' !! S (length k) = Some a) as H2.
    { rewrite <- E, lookup_app_r by lia. replace (S (length k) - length k) with 1 by lia.
      cbn [app]. rewrite seqZ_cons by lia. done. }
    apply lookup_seqZ in H1, H2. lia. }
  intros Hg Hg' Hn Hn' E.
  assert (pre = pre' /\ seqZ a n = seqZ a' n') as [-> Es].
  { apply app_eq_inv in E as [(k & Ep & Es)|(k & Ep & Es)]; subst; symmetry in Es.
    - apply (Hk k pre' a n a' n' Hg Hn) in Es as Ek. subst k. by rewrite app_nil_r.
    - apply (Hk k pre a' n' a n Hg' Hn') in Es as Ek. subst k. by rewrite app_nil_r. }
  pose proof (f_equal length Es) as El. rewrite !length_seqZ in El.
  rewrite (seqZ_cons a n), (seqZ_cons a' n') in Es by lia. injection Es as Ea _. split_and!; [done|done|lia].
Qed.

Lemma cpu_list_ne t cs : cpu_list t cs -> cs <> [].
Proof.
  intros Hl E. apply cpu_list_inv in Hl as (pre & a & b & Hab & -> & _).
  apply app_eq_nil in E as [_ E]. rewrite seqZ_cons in E by lia. done.
Qed.

Lemma cpu_list_unique t t' cs : cpu_list t cs -> cpu_list t' cs -> t = t'.
Proof.
  remember (length cs) as n eqn:En. revert t t' cs En.
  induction (lt_wf n) as [n _ IH]. intros t t' cs -> Hl Hl'.
  apply cpu_list_inv in Hl as (pre & a & b & Hab & -> & Hg & Ht).
  apply cpu_list_inv in Hl' as (pre' & a' & b' & Hab' & E & Hg' & Ht').
  apply last_run_unique in E as (-> & -> & Eb); [|done|done|lia|lia].
  assert (b = b') as -> by lia.
  destruct Ht as [[E ->]|(t0 & Hl & ->)], Ht' as [[E' ->]|(t0' & Hl' & ->)];
    [done|by apply cpu_list_ne in Hl'|by apply cpu_list_ne in Hl|].
  assert (length (seqZ a' (b' - a' + 1)) <> 0) by (rewrite length_seqZ; lia).
  f_equal. eapply IH; [|done|exact Hl|exact Hl']. rewrite length_app. lia.
Qed.

Section AffinitySpec.
Context `{AllocTotal} `{Locale} (has : Z -> bool).

Lemma to_signed_int z : in_int z -> to_signed 32 z = z.
Proof.
  unfold in_int, INT_MAX, to_signed. intros Hz. rewrite Z.mod_small by lia.
  by replace (Z.ltb z (2 ^ (32 - 1))) with true by lia.
Qed.

Lemma format_single p n :
  in_int n -> format_mbs (lit "%s%d") [AStr p; ANum n] = Ok (Some (p ++ digits 10 n)).
Proof.
  intros Hn. unfold format_mbs, format_with. cbv -[to_signed digits opt_app app Z.ltb Z.abs].
  rewrite to_signed_int by done. unfold in_int in Hn.
  replace (Z.ltb n 0) with false by lia. rewrite (Z.abs_eq n) by lia.
  change (Z.ltb 0 0) with false.
  cbn [opt_app app]. by rewrite ?app_nil_r.
Qed.

Lemma format_span p a b :
  in_int a -> in_int b ->
  format_mbs (lit "%s%d-%d") [AStr p; ANum a; ANum b]
  = Ok (Some (p ++ digits 10 a ++ lit "-" ++ digits 10 b)).
Proof.
  intros Ha Hb. unfold format_mbs, format_with. cbv -[to_signed digits opt_app app Z.ltb Z.abs].
  rewrite !to_signed_int by done. unfold in_int in *.
  replace (Z.ltb a 0) with false by lia. replace (Z.ltb b 0) with false by lia.
  rewrite (Z.abs_eq a), (Z.abs_eq b) by lia.
  change (Z.ltb 0 0) with false.
  cbn [opt_app app]. by rewrite ?app_nil_r.
Qed.

(** The text displayed so far stands for [cs]. *)
Definition shown (s : range_state) (t : bytes) (cs : list Z) : Prop :=
  cstr_of (cpu_list_buf s) t /\ Forall in_int cs /\
  (if displayed s then cpu_list t cs else t = [] /\ cs = [] /\ cpu_list_buf s = None).

(** The processors of the open range: those counted and not yet displayed. *)
Definition open_range (s : range_state) : list Z := seqZ (first_cpu s) (Z.of_nat (count s)).

Definition open_ok (s : range_state) (cs : list Z) (cpu : Z) : Prop :=
  if Nat.eqb (count s) 0 then forall x, x ∈ cs -> (x + 1 < cpu)%Z
  else (0 <= first_cpu s)%Z /\ last_cpu s = (cpu - 1)%Z /\
       (first_cpu s + Z.of_nat (count s) = cpu)%Z /\
       forall x, x ∈ cs -> (x + 1 < first_cpu s)%Z.

Definition loop_inv (s : range_state) (cpu : Z) : Prop :=
  exists t cs, shown s t cs /\ open_ok s cs cpu /\
    filter has (seqZ 0 cpu) = cs ++ open_range s.

Lemma range_text s cpu :
  count s <> 0 -> (first_cpu s + Z.of_nat (count s) = cpu)%Z -> last_cpu s = (cpu - 1)%Z ->
  cpu_range (if Z.eqb (first_cpu s) (last_cpu s) then digits 10 (first_cpu s)
             else digits 10 (first_cpu s) ++ lit "-" ++ digits 10 (last_cpu s)) (open_range s).
Proof.
  intros Hc Hf Hl. unfold open_range. destruct (Z.eqb_spec (first_cpu s) (last_cpu s)) as [E|E].
  - replace (Z.of_nat (count s)) with 1%Z by lia. apply cpu_single.
  - replace (Z.of_nat (count s)) with (last_cpu s - first_cpu s + 1)%Z by lia.
    apply cpu_span. lia.
Qed.

Lemma append_range_ok s t cs cpu m :
  shown s t cs -> count s <> 0 -> open_ok s cs cpu -> (cpu <= INT_MAX)%Z ->
  exists b t' m', append_range s m = Ok (Some b, m') /\ ticked m m' /\ cstr_of (Some b) t' /\
    Forall in_int (cs ++ open_range s) /\ cpu_list t' (cs ++ open_range s).
Proof.
  intros (Hb & Hin & Hd) Hc Ho Hmax. unfold open_ok in Ho.
  destruct (Nat.eqb_spec (count s) 0) as [|_]; [done|]. destruct Ho as (Hpos & Hlast & Hnext & Hgap).
  assert (in_int (first_cpu s)) as If by (unfold in_int; lia).
  assert (in_int (last_cpu s)) as Il by (unfold in_int; lia).
  assert (Forall in_int (open_range s)) as Io.
  { apply Forall_forall. intros x Hx. apply elem_of_seqZ in Hx. unfold in_int. lia. }
  pose proof (range_text s cpu Hc Hnext Hlast) as Hr. set (u := if Z.eqb _ _ then _ else _) in Hr.
  set (p := if displayed s then lit "," else []).
  assert (nz t) as Hnt.
  { destruct (displayed s); [by eapply nz_cpu_list|]. destruct Hd as (-> & _). constructor. }
  assert (nz (p ++ u)) as Hnz.
  { apply nz_app. split; [unfold p; destruct (displayed s); nz_lit|by eapply nz_cpu_range]. }
  assert (exists fmt args, append_range s = appendf (cpu_list_buf s) fmt args /\
            format_mbs fmt args = Ok (Some (p ++ u))) as (fmt & args & -> & Hfmt).
  { unfold append_range, u, p. destruct (Z.eqb _ _); do 2 eexists; (split; [reflexivity|]);
      [by apply format_single|by apply format_span]. }
  destruct (appendf_ok (cpu_list_buf s) t fmt args (p ++ u) m Hb Hnt Hfmt Hnz)
    as (b & m' & E & Hb' & Ht).
  exists b, (t ++ p ++ u), m'. split_and!; [done|done|done|by apply Forall_app|].
  unfold p. destruct (displayed s); [|destruct Hd as (-> & -> & _); by apply cpu_list_one].
  apply cpu_list_snoc; [done|done|]. intros x y Hx Hy. apply elem_of_seqZ in Hy.
  specialize (Hgap x Hx). lia.
Qed.

Lemma seqZ_one x : seqZ x 1 = [x].
Proof. unfold seqZ. cbn. f_equal. Qed.

Lemma filter_snoc cpu :
  (0 <= cpu)%Z ->
  filter has (seqZ 0 (cpu + 1)) = filter has (seqZ 0 cpu) ++ (if has cpu then [cpu] else []).
Proof.
  intros Hc. rewrite seqZ_app by lia. rewrite filter_app. f_equal.
  rewrite seqZ_one, filter_cons, filter_nil, Z.add_0_l.
  by destruct (has cpu).
Qed.

Lemma cpu_step_ok s cpu m :
  loop_inv s cpu -> (0 <= cpu < INT_MAX)%Z ->
  exists s' m', cpu_step has cpu s m = Ok (s', m') /\ ticked m m' /\ loop_inv s' (cpu + 1).
Proof.
  intros (t & cs & Hs & Ho & Hf) Hc. unfold cpu_step.
  pose proof (filter_snoc cpu ltac:(lia)) as Hsn. rewrite Hf in Hsn. unfold open_ok in Ho.
  destruct (has cpu).
  - do 2 eexists. split; [reflexivity|]. split; [done|]. exists t, cs. split; [exact Hs|].
    unfold open_ok, open_range in *. cbn [count first_cpu last_cpu Nat.eqb].
    destruct (Nat.eqb_spec (count s) 0) as [E|E].
    + rewrite E in *. split; [split_and!; (done || lia)|]. rewrite Hsn.
      cbn [Z.of_nat]. by rewrite seqZ_one, app_nil_r.
    + destruct Ho as (Hpos & Hlast & Hnext & Hgap). split; [split_and!; (done || lia)|].
      rewrite Hsn, <- app_assoc. f_equal. rewrite Nat2Z.inj_succ, <- Z.add_1_r, seqZ_app by lia.
      f_equal. rewrite seqZ_one. f_equal. lia.
  - rewrite app_nil_r in Hsn. destruct (Nat.eqb_spec (count s) 0) as [E|E].
    + do 2 eexists. split; [reflexivity|]. split; [done|]. exists t, cs. split; [exact Hs|].
      unfold open_ok. rewrite E in *. cbn [Nat.eqb]. split; [|exact Hsn].
      intros x Hx. specialize (Ho x Hx). lia.
    + destruct (append_range_ok s t cs cpu m Hs E) as (b & t' & m' & Er & Ht & Hb & Hi & Hl).
      { unfold open_ok. by rewrite (proj2 (Nat.eqb_neq _ _)). }
      { lia. }
      do 2 eexists. split; [by step_with Er|]. split; [done|].
      exists t', (cs ++ open_range s). split; [by split_and!|].
      unfold open_ok. cbn [count Nat.eqb]. split; [|by rewrite app_nil_r].
      intros x Hx. assert (x ∈ filter has (seqZ 0 cpu)) as Hx' by by rewrite Hf.
      apply list_elem_of_filter in Hx' as [_ Hx']. apply elem_of_seqZ in Hx'.
      apply elem_of_app in Hx as [Hx|Hx].
      * destruct Ho as (_ & _ & _ & Hgap). specialize (Hgap x Hx). lia.
      * apply elem_of_seqZ in Hx. lia.
Qed.

Lemma cpu_loop_ok n s cpu m :
  loop_inv s cpu -> (0 <= cpu)%Z -> (cpu + Z.of_nat n <= INT_MAX)%Z ->
  exists s' m', cpu_loop has n cpu s m = Ok (s', m') /\ ticked m m' /\
                loop_inv s' (cpu + Z.of_nat n).
Proof.
  revert s cpu m. induction n as [|n IH]; intros s cpu m Hs Hc Hn.
  - exists s, m. split; [done|]. split; [done|]. by rewrite Z.add_0_r.
  - destruct (cpu_step_ok s cpu m Hs ltac:(lia)) as (s1 & m1 & E1 & Ht1 & Hs1).
    destruct (IH s1 (cpu + 1)%Z m1 Hs1 ltac:(lia) ltac:(lia)) as (s2 & m2 & E2 & Ht2 & Hs2).
    exists s2, m2. split; [cbn [cpu_loop]; step_with E1; exact E2|].
    split; [by etrans|]. by replace (cpu + Z.of_nat (S n))%Z with (cpu + 1 + Z.of_nat n)%Z by lia.
Qed.

Definition listed (o : option buffer) (cs : list Z) : Prop :=
  match o with
  | None => cs = []
  | Some b => exists t, cstr_of (Some b) t /\ nz t /\ cpu_list t cs
  end.

Lemma affinity_list_ok max m :
  (max <= INT_MAX)%Z ->
  exists o m', affinity_list has max m = Ok (o, m') /\ ticked m m' /\
               listed o (filter has (seqZ 0 max)).
Proof.
  intros Hmax. set (max' := Z.of_nat (Z.to_nat max)).
  assert (seqZ 0 max = seqZ 0 max') as -> by (unfold seqZ, max'; by rewrite Nat2Z.id).
  destruct (cpu_loop_ok (Z.to_nat max) (mk_range_state None false 0 0 0) 0 m)
    as (s & m1 & E & Ht & t & cs & Hs & Ho & Hf).
  { exists [], []. split; [by split_and!|]. split; [|done].
    intros x Hx. by apply not_elem_of_nil in Hx. }
  { lia. }
  { unfold INT_MAX in *. lia. }
  rewrite Z.add_0_l in Ho, Hf. fold max' in Ho, Hf.
  unfold affinity_list. step_with E. rewrite Hf.
  destruct (Nat.eqb_spec (count s) 0) as [Ec|Ec].
  - unfold open_range. rewrite Ec, app_nil_r. do 2 eexists. split; [reflexivity|]. split; [done|].
    destruct Hs as (Hb & Hin & Hd). destruct (displayed s); [|destruct Hd as (_ & -> & ->); done].
    destruct (cpu_list_buf s) as [b|] eqn:Eb.
    + exists t. split_and!; [done|by eapply nz_cpu_list|done].
    + cbn in Hb. subst t. inversion Hd as [? ? Hr|? ? ? ? ? Hr]; subst.
      * inversion Hr as [n En|a b Hab En]; subst;
          [by destruct (digits_nonempty 10 n)|by destruct (digits 10 a)].
      * by destruct t.
  - destruct (append_range_ok s t cs max' m1 Hs Ec Ho ltac:(unfold max', INT_MAX in *; lia))
      as (b & t' & m2 & Er & Ht2 & Hb & Hi & Hl).
    do 2 eexists. split; [exact Er|]. split; [by etrans|].
    exists t'. split_and!; [done|by eapply nz_cpu_list|done].
Qed.
End AffinitySpec.

(** C33: with the platform's two operations present, the display of the
    processor affinity is one entry "affinity list" whose value is by the
    grammar the list of exactly the processors below the limit that are in the
    set, in ascending order, each maximal run of them as one number or one
    range; the value is "-1" when there are none.  Nothing else of the state
    changes but memory. *)
Theorem show_cpu_affinities_correct `{AllocTotal} `{Locale} {CpuSet} (cs : CpuSet)
  (has : CpuSet -> Z -> bool) (max : Z) (w : ostate) :
  (max <= INT_MAX)%Z ->
  exists text m', ticked (o_mem w) m' /\
    show_cpu_affinities_generic (Some (Some cs)) (Some has) max w
    = entry (lit "affinity list") (lit "%s") [AStr text] (set_mem m' w) /\
    (filter (has cs) (seqZ 0 max) = [] /\ text = lit "-1" \/
     nz text /\ cpu_list text (filter (has cs) (seqZ 0 max))).
Proof.
  intros Hmax.
  destruct (affinity_list_ok (has cs) max (o_mem w) Hmax) as (o & m' & E & Ht & Hl).
  unfold show_cpu_affinities_generic, in_mem.
  destruct o as [b|]; cbn [listed] in Hl.
  - destruct Hl as (t & [junk Hb] & Hnz & Hl). exists t, m'. split; [done|]. split; [|by right].
    step_with (zoom_ok o_mem set_mem _ w _ _ E).
    assert (string_at b 0 = Ok t) as Hst by (rewrite Hb; by apply string_at_start).
    by step_with (pure_ok _ _ (set_mem m' w) Hst).
  - exists (lit "-1"), m'. split; [done|]. split; [|by left].
    by step_with (zoom_ok o_mem set_mem _ w _ _ E).
Qed.

Lemma show_cpu_affinities_witness :
  exists text m', ticked mem0 m' /\
    @show_cpu_affinities_generic total_allocator c_locale (list Z)
      (Some (Some [0; 1; 2; 5; 8; 9]%Z)) (Some (fun cs c => bool_decide (c ∈ cs))) 9
      (initial_state mem0 None)
    = @entry total_allocator c_locale (lit "affinity list") (lit "%s") [AStr text]
             (set_mem m' (initial_state mem0 None)) /\
    (filter (fun c => bool_decide (c ∈ [0; 1; 2; 5; 8; 9]%Z)) (seqZ 0 9) = [] /\ text = lit "-1" \/
     nz text /\ cpu_list text (filter (fun c => bool_decide (c ∈ [0; 1; 2; 5; 8; 9]%Z)) (seqZ 0 9))).
Proof.
  apply (@show_cpu_affinities_correct total_allocator total_allocator_total c_locale (list Z)
           [0; 1; 2; 5; 8; 9]%Z (fun cs c => bool_decide (c ∈ cs)) 9 (initial_state mem0 None)).
  by vm_compute.
Defined.

Example affinity_text :
  match @affinity_list total_allocator c_locale (fun c => bool_decide (c ∈ [0; 1; 2; 5; 8; 9]%Z)) 9 mem0 with
  | Ok (Some b, _) => string_at b 0 = Ok (lit "0-2,5,8")
  | _ => False
  end.
Proof. vm_compute. reflexivity. Qed.
