(* ===== verification/Prints.v ===== *)
(** Prints: rules for what a display function prints.

    [prints cfg m ts] is the interface between a display function and the
    documents of [Document], [Json], [Xml] and [Crumb]: [m] behaves like the
    calls of a tree, and [ts] is the tree decoded.  The rules follow the
    statements of the program: a call of [entry], a block opened and closed, a
    loop, a test, a computation that writes nothing.  [renders] is a judgement
    on the formats: the format accepts the arguments and gives the text.
    [typed] abstracts from the tree: the calls are well placed, and nested no
    deeper than a bound. *)
From S2P Require Import Prelude Memory PrList Locale PString StringUtil Encode Output OutputSpec Document.

(** ** Sequences of calls *)
Section Calls.
Context `{Allocator} `{Locale}.

Lemma emit_all_app ns ns' : same_runs (emit_all (ns ++ ns')) (emit_all ns;; emit_all ns').
Proof.
  induction ns as [|n ns IH]; [by constructor|]. cbn [app emit_all].
  same_unit. exact IH.
Qed.
End Calls.

(** ** Texts that can be shown *)
Definition printable (s : list Z) : bool := forallb (fun c => Z.leb 32 c && Z.leb c 126) s.

Lemma printable_ascii s : printable s = true -> Forall is_ascii s.
Proof.
  intros Hs. apply Forall_forall. intros c Hc. unfold printable in Hs. rewrite forallb_forall in Hs.
  apply list_elem_of_In, Hs in Hc. unfold is_ascii. lia.
Qed.

Lemma printable_nz s : printable s = true -> nz s.
Proof. intros Hs. eapply Forall_impl; [by apply printable_ascii|]. unfold is_ascii. cbn. lia. Qed.

Lemma printable_app s t : printable (s ++ t) = printable s && printable t.
Proof. apply forallb_app. Qed.

Lemma printable_digits base n : (2 <= base <= 16)%Z -> (0 <= n)%Z -> printable (digits base n) = true.
Proof.
  intros Hb Hn. apply forallb_forall. intros c Hc. pose proof (digits_chars base ltac:(lia) n Hn) as Hd.
  rewrite Forall_forall in Hd. apply list_elem_of_In, Hd in Hc.
  destruct Hc as (d & Hd' & ->). unfold digit_char. destruct (Z.ltb_spec d 10); lia.
Qed.

Lemma printable_replicate n c : (32 <= c <= 126)%Z -> printable (replicate n c) = true.
Proof. intros Hc. induction n as [|n IH]; [done|]. cbn. fold (printable (replicate n c)). rewrite IH. lia. Qed.

Lemma printable_pad ljust n s : printable s = true -> printable (pad ljust n s) = true.
Proof.
  intros Hs. unfold pad. destruct ljust; rewrite printable_app, Hs, printable_replicate; done.
Qed.

Lemma printable_zeros n s : printable s = true -> printable (zeros n s) = true.
Proof. intros Hs. unfold zeros. by rewrite printable_app, Hs, printable_replicate. Qed.

Lemma printable_number sp base neg n :
  (2 <= base <= 16)%Z -> (0 <= n)%Z -> printable (format_number sp base neg n) = true.
Proof.
  intros Hb Hn. unfold format_number. apply printable_pad. rewrite printable_app.
  pose proof (printable_digits base n Hb Hn) as Hd.
  assert (printable (if neg then [45%Z] else []) = true) as -> by by destruct neg.
  destruct (sp_prec sp) as [p|]; [by apply printable_zeros|].
  destruct (sp_zero sp && negb (sp_left sp)); [by apply printable_zeros|done].
Qed.

Lemma printable_fraction p n : (0 <= n)%Z -> printable (fraction_text p n) = true.
Proof.
  intros Hn. unfold fraction_text. destruct p as [|p]; [done|].
  change (printable (46%Z :: ?s)) with (printable s). by apply printable_zeros, printable_digits.
Qed.

Lemma scaled_nonneg m e p : (0 <= m)%Z -> (0 <= scaled m e p)%Z.
Proof.
  intros Hm. unfold scaled, round_half_even.
  set (num := (m * _ * _)%Z). set (den := (2 ^ _ * _)%Z).
  assert (0 <= num)%Z by (unfold num; repeat apply Z.mul_nonneg_nonneg; [done|apply Z.pow_nonneg; lia..]).
  assert (0 < den)%Z by (unfold den; apply Z.mul_pos_pos; apply Z.pow_pos_nonneg; lia).
  pose proof (Z.div_pos num den ltac:(done) ltac:(done)) as Hq.
  pose proof (Z.mod_pos_bound (num / den) 2 ltac:(lia)).
  destruct (Z.ltb _ den); [done|]. destruct (Z.ltb den _); lia.
Qed.

Lemma printable_fixed m e p : (0 <= m)%Z -> printable (fixed_text m e p) = true.
Proof.
  intros Hm. unfold fixed_text. pose proof (scaled_nonneg m e (Z.of_nat p) Hm) as Hs.
  assert (0 < 10 ^ Z.of_nat p)%Z by (apply Z.pow_pos_nonneg; lia).
  rewrite printable_app, printable_digits, printable_fraction; [done|..].
  - by apply Z.mod_pos_bound.
  - lia.
  - by apply Z.div_pos.
Qed.

Lemma printable_scientific m e p : (0 <= m)%Z -> printable (scientific_text m e p) = true.
Proof.
  intros Hm. unfold scientific_text. set (x := if Z.eqb m 0 then _ else _).
  pose proof (scaled_nonneg m e (Z.of_nat p - x) Hm) as Hs.
  set (n := scaled _ _ _) in *. clearbody n x.
  assert (0 < 10 ^ Z.of_nat p)%Z by (apply Z.pow_pos_nonneg; lia).
  assert (forall n x, (0 <= n)%Z -> printable (digits 10 (n / 10 ^ Z.of_nat p)%Z
            ++ fraction_text p (n mod 10 ^ Z.of_nat p)%Z ++ exponent_text x) = true) as Hp.
  { intros n' x' Hn'. rewrite !printable_app, printable_digits, printable_fraction; cbn [andb].
    - unfold exponent_text. change (printable (101%Z :: ?s)) with (printable s).
      destruct (Z.ltb x' 0);
        [change (printable (45%Z :: ?s)) with (printable s)|change (printable (43%Z :: ?s)) with (printable s)];
        apply printable_zeros, printable_digits; lia.
    - by apply Z.mod_pos_bound.
    - lia.
    - by apply Z.div_pos. }
  destruct (Z.ltb n _); [by apply Hp|]. apply Hp. apply Z.div_pos; lia.
Qed.

Lemma printable_double sp text m e :
  (forall m p, (0 <= m)%Z -> printable (text m e p) = true) -> printable (format_double sp text m e) = true.
Proof.
  intros Ht. unfold format_double. apply printable_pad. rewrite printable_app.
  assert (printable (if Z.ltb m 0 then [45%Z] else []) = true) as -> by by destruct (Z.ltb m 0).
  specialize (Ht (Z.abs m) (default 6 (sp_prec sp)) ltac:(lia)).
  destruct (sp_zero sp && negb (sp_left sp)); [by apply printable_zeros|done].
Qed.

Section Texts.
Context `{LocaleLaws} (cfg : settings).

(** A string that can be shown: it is valid in the locale and its characters
    can be escaped where the format needs it. *)
Definition text_is (s : bytes) (w : wstr) : Prop :=
  nz s /\ mbs_decode s = Some w /\ (markup (s_format cfg) -> escapable (s_format cfg) w).

Definition showable (s : bytes) : Prop := exists w, text_is s w.

(** A wide text that can be shown. *)
Definition shown (w : wstr) : Prop :=
  positive w /\ (markup (s_format cfg) -> escapable (s_format cfg) w).

Lemma printable_text s : printable s = true -> text_is s s.
Proof.
  intros Hs. split_and!.
  - eapply Forall_impl; [by apply printable_ascii|]. unfold is_ascii. cbn. lia.
  - by apply decode_ascii, printable_ascii.
  - intros _. apply Forall_forall. intros c Hc Hp. unfold printable in Hs. rewrite forallb_forall in Hs.
    apply list_elem_of_In, Hs in Hc. by rewrite iswprint_ascii in Hp by lia.
Qed.

Lemma printable_showable s : printable s = true -> showable s.
Proof. intros Hs. exists s. by apply printable_text. Qed.

Lemma name_text s w : text_is s w -> s <> [] -> name_is cfg s w.
Proof. intros (Hnz & Hd & He) Hne. by split_and!. Qed.

Lemma text_positive s w : text_is s w -> positive w.
Proof. intros (Hnz & Hd & _). by eapply decode_positive. Qed.

Lemma text_shown s w : text_is s w -> shown w.
Proof. intros Ht. split; [by eapply text_positive|apply Ht]. Qed.

Lemma printable_shown s : printable s = true -> shown s.
Proof. intros Hs. eapply text_shown. by apply printable_text. Qed.

Lemma shown_app v w : shown v -> shown w -> shown (v ++ w).
Proof.
  intros [Hv Ev] [Hw Ew]. split; [by apply Forall_app|].
  intros Hm. apply Forall_app. split; [by apply Ev|by apply Ew].
Qed.

Lemma text_if (b : bool) s v t w :
  text_is s v -> text_is t w -> text_is (if b then s else t) (if b then v else w).
Proof. by destruct b. Qed.

Lemma value_text fmt ap v :
  printable fmt = true -> fmt <> [] -> format_wcs fmt ap = Ok (Some v) -> shown v ->
  value_is cfg fmt ap v.
Proof.
  intros Hp Hne Hf Hv. destruct (printable_text fmt Hp) as (Hnz & Hd & _).
  split_and!; [done|done|by exists fmt|apply Hv..].
Qed.
End Texts.

(** ** The directives of a format *)

(** The text of a number under a conversion. *)
Definition number_text (sp : spec) (conv z : Z) : wstr :=
  match conv with
  | 100%Z => let v := to_signed (width_of sp) z in format_number sp 10 (Z.ltb v 0) (Z.abs v)
  | 117%Z => format_number sp 10 false (to_unsigned (width_of sp) z)
  | 120%Z => format_number sp 16 false (to_unsigned (width_of sp) z)
  | 111%Z => format_number sp 8 false (to_unsigned (width_of sp) z)
  | _ => pad (sp_left sp) (sp_width sp) (pointer_text (to_unsigned 64 z))
  end.

Definition number_conv (conv : Z) : bool :=
  match conv with 100%Z | 117%Z | 120%Z | 111%Z | 112%Z => true | _ => false end.

Definition double_text (sp : spec) (conv m e : Z) : wstr :=
  format_double sp (match conv with 102%Z => fixed_text | _ => scientific_text end) m e.

Definition double_conv (conv : Z) : bool :=
  match conv with 102%Z | 101%Z => true | _ => false end.

(** The texts of the conversions without flags, as the reader expects them. *)
Definition signed_text (v : Z) : wstr := (if Z.ltb v 0 then [45%Z] else []) ++ digits 10 (Z.abs v).
Definition int_text (n : Z) : wstr := signed_text (to_signed 32 n).
Definition long_text (n : Z) : wstr := signed_text (to_signed 64 n).
Definition uint_text (n : Z) : wstr := digits 10 (to_unsigned 32 n).
Definition ulong_text (n : Z) : wstr := digits 10 (to_unsigned 64 n).
Definition hex_text (n : Z) : wstr := digits 16 (to_unsigned 32 n).

(** [renders P fmt ap w]: the format [fmt] with the arguments [ap] writes [w],
    the strings among them being rendered by [P]. *)
Inductive renders (P : bytes -> wstr -> Prop) : bytes -> list arg -> wstr -> Prop :=
| renders_nil ap : renders P [] ap []
| renders_char c r ap w :
    printable [c] = true -> c <> 37%Z -> renders P r ap w -> renders P (c :: r) ap (c :: w)
| renders_percent r ap w : renders P r ap w -> renders P (37%Z :: 37%Z :: r) ap (37%Z :: w)
| renders_number fmt ap sp conv r n ap' w :
    parse_spec fmt ap = Ok (sp, conv :: r, ANum n :: ap') -> head fmt <> Some 37%Z ->
    number_conv conv = true -> renders P r ap' w ->
    renders P (37%Z :: fmt) ap (number_text sp conv n ++ w)
| renders_double fmt ap sp conv r m e ap' w :
    parse_spec fmt ap = Ok (sp, conv :: r, ADouble m e :: ap') -> head fmt <> Some 37%Z ->
    double_conv conv = true -> renders P r ap' w ->
    renders P (37%Z :: fmt) ap (double_text sp conv m e ++ w)
| renders_string r s v ap w :
    P s v -> renders P r ap w -> renders P (37%Z :: 115%Z :: r) (AStr s :: ap) (v ++ w)
| renders_field fmt ap sp r s v ap' w :
    parse_spec fmt ap = Ok (sp, 115%Z :: r, AStr s :: ap') -> head fmt <> Some 37%Z ->
    sp_long sp = 0 -> sp_prec sp = None -> P s v -> renders P r ap' w ->
    renders P (37%Z :: fmt) ap (pad (sp_left sp) (sp_width sp) v ++ w).

(** *** The parser consumes its input *)
Lemma parse_flags_length z l fmt : length (parse_flags z l fmt).2 <= length fmt.
Proof.
  revert z l. induction fmt as [|c fmt IH]; intros z l; [done|]. cbn [parse_flags].
  repeat (case_match; cbn; try lia); etransitivity; [apply IH|lia|apply IH|lia].
Qed.

Lemma parse_number_length n fmt : length (parse_number n fmt).2 <= length fmt.
Proof.
  revert n. induction fmt as [|c fmt IH]; intros n; [done|]. cbn [parse_number].
  destruct (is_digit c); [|done]. etransitivity; [apply IH|]. cbn. lia.
Qed.

Lemma parse_long_length n fmt : length (parse_long n fmt).2 <= length fmt.
Proof.
  revert n. induction fmt as [|c fmt IH]; intros n; [done|]. cbn [parse_long].
  repeat (case_match; cbn; try lia); etransitivity; [apply IH|lia|apply IH|lia].
Qed.

Lemma parse_size_length fmt ap z fmt' ap' :
  parse_size fmt ap = Ok (z, fmt', ap') -> length fmt' <= length fmt.
Proof.
  unfold parse_size. intros E.
  assert ((exists t, fmt = 42%Z :: t /\ fmt' = t) \/ fmt' = (parse_number 0 fmt).2) as [(t & -> & ->)| ->].
  { repeat case_match; simplify_eq; try (by left; eauto); right;
      match goal with Ep : _ = (_, _) |- _ => by rewrite ?Ep | _ => done end. }
  - cbn. lia.
  - apply parse_number_length.
Qed.

Lemma parse_spec_length fmt ap sp fmt' ap' :
  parse_spec fmt ap = Ok (sp, fmt', ap') -> length fmt' <= length fmt.
Proof.
  unfold parse_spec. pose proof (parse_flags_length false false fmt) as H1.
  destruct (parse_flags false false fmt) as [[z l] fmt1]. cbn in H1.
  destruct (parse_size fmt1 ap) as [[[w fmt2] ap1]| | | | |] eqn:E1; try done. cbn.
  apply parse_size_length in E1.
  set (m := match fmt2 with 46%Z :: _ => _ | _ => _ end).
  assert (forall p fmt3 ap2, m = Ok (p, fmt3, ap2) -> length fmt3 <= length fmt2) as Hm.
  { unfold m. intros p fmt3 ap2. repeat case_match; intros E; try (by simplify_eq).
    match type of E with (parse_size ?f ?a ≫= _) = _ => destruct (parse_size f a) as [[[q fq] aq]| | | | |] eqn:Es end;
      try done. cbn in E. apply parse_size_length in Es. simplify_eq. cbn. lia. }
  destruct m as [[[p fmt3] ap2]| | | | |] eqn:Em; try done. cbn.
  specialize (Hm _ _ _ eq_refl). pose proof (parse_long_length 0 fmt3) as H2.
  destruct (parse_long 0 fmt3) as [lng fmt4]. cbn in H2. intros E. simplify_eq. lia.
Qed.

Lemma format_go_directive cs cls fuel fmt ap sp conv r a ap' :
  parse_spec fmt ap = Ok (sp, conv :: r, a :: ap') -> head fmt <> Some 37%Z ->
  format_go cs cls (S fuel) (37%Z :: fmt) ap
  = (o ← convert cs cls sp conv a; w ← format_go cs cls fuel r ap'; Ok (opt_app o w)).
Proof.
  intros E Hh.
  transitivity ('(sp, fmt1, args1) ← parse_spec fmt ap;
      match fmt1, args1 with
      | conv :: fmt2, a :: args2 =>
        o ← convert cs cls sp conv a; r ← format_go cs cls fuel fmt2 args2; Ok (opt_app o r)
      | _, _ => UB "missing printf argument"
      end); [|by rewrite E].
  cbn [format_go]. by repeat case_match.
Qed.

Lemma printable_pointer z : (0 <= z)%Z -> printable (pointer_text z) = true.
Proof.
  intros Hz. unfold pointer_text. destruct (Z.eqb z 0); [done|].
  rewrite printable_app. by rewrite printable_digits by lia.
Qed.

Lemma printable_number_text sp conv n : printable (number_text sp conv n) = true.
Proof.
  assert (forall w, 0 <= w -> 0 <= to_unsigned w n)%Z as Hu.
  { intros w Hw. unfold to_unsigned. apply Z.mod_pos_bound. apply Z.pow_pos_nonneg; lia. }
  assert (0 <= width_of sp)%Z by (unfold width_of; case_match; lia).
  unfold number_text. repeat case_match; try (apply printable_pad, printable_pointer, Hu; lia);
    apply printable_number; auto with lia.
Qed.

Lemma printable_double_text sp conv m e : printable (double_text sp conv m e) = true.
Proof.
  unfold double_text. apply printable_double. intros m' p Hm.
  repeat case_match; by (apply printable_fixed || apply printable_scientific).
Qed.

Lemma renders_ok cs cls P fuel fmt ap w :
  (forall s v, P s v -> cs s = Some v) -> renders P fmt ap w -> length fmt < fuel ->
  format_go cs cls fuel fmt ap = Ok (Some w).
Proof.
  intros HP Hs. revert fuel. induction Hs as [ap|c r ap w Hc1 Hc _ IH|r ap w _ IH|
      fmt ap sp conv r n ap' w E Hh Hconv _ IH|fmt ap sp conv r m e ap' w E Hh Hconv _ IH|r s v ap w Ht _ IH|fmt ap sp r s v ap' w E Hh Hl0 Hpr Ht _ IH];
    intros [|fuel] Hf; try (cbn in Hf; lia).
  - done.
  - cbn in Hf. cbn [format_go]. rewrite IH by lia.
    repeat case_match; by try congruence.
  - cbn in Hf. cbn [format_go]. by rewrite IH by lia.
  - rewrite (format_go_directive _ _ _ _ _ _ _ _ _ _ E Hh).
    pose proof (parse_spec_length _ _ _ _ _ E) as Hl. cbn in Hf, Hl. rewrite IH by lia.
    unfold number_conv in Hconv. by repeat case_match.
  - rewrite (format_go_directive _ _ _ _ _ _ _ _ _ _ E Hh).
    pose proof (parse_spec_length _ _ _ _ _ E) as Hl. cbn in Hf, Hl. rewrite IH by lia.
    unfold double_conv in Hconv. by repeat case_match.
  - rewrite (format_go_directive _ _ _ _ _ (mk_spec false false 0 None 0) 115 r (AStr s) ap) by done.
    cbn in Hf. rewrite IH by lia. cbn. by rewrite (HP s v Ht).
  - rewrite (format_go_directive _ _ _ _ _ _ _ _ _ _ E Hh).
    pose proof (parse_spec_length _ _ _ _ _ E) as Hl. cbn in Hf, Hl. rewrite IH by lia.
    cbn [convert]. unfold format_string. by rewrite Hl0, Hpr, (HP s v Ht).
Qed.

(** *** Formats of the document and of byte strings *)
Section Says.
Context `{LocaleLaws} (cfg : settings).

Lemma shown_nil : shown cfg [].
Proof. by apply printable_shown. Qed.

Lemma shown_pad ljust n w : shown cfg w -> shown cfg (pad ljust n w).
Proof.
  intros Hw. assert (shown cfg (replicate (n - length w) SPACE)) as Hs.
  { apply printable_shown, printable_replicate. unfold SPACE. lia. }
  unfold pad. destruct ljust; by apply shown_app.
Qed.

Lemma says_shown fmt ap w : renders (text_is cfg) fmt ap w -> shown cfg w.
Proof.
  induction 1 as [ap|c r ap w Hc1 Hc _ IH|r ap w _ IH|
      fmt ap sp conv r n ap' w E Hh Hconv Hs IH|fmt ap sp conv r m e ap' w E Hh Hconv Hs IH|r s v ap w Ht _ IH|fmt ap sp r s v ap' w E Hh Hl0 Hpr Ht _ IH].
  - apply shown_nil.
  - apply (shown_app cfg [c]); [by apply printable_shown|done].
  - apply (shown_app cfg [37%Z]); [by apply printable_shown|done].
  - apply shown_app; [apply printable_shown, printable_number_text|done].
  - apply shown_app; [apply printable_shown, printable_double_text|done].
  - apply shown_app; [by eapply text_shown|done].
  - apply shown_app; [apply shown_pad; by eapply text_shown|done].
Qed.

Lemma says_value fmt ap w : renders (text_is cfg) fmt ap w -> printable fmt = true -> fmt <> [] -> value_is cfg fmt ap w.
Proof.
  intros Hs Hp Hne. apply value_text; [done|done| |by eapply says_shown].
  unfold format_wcs, format_with. eapply renders_ok; [|done|lia]. intros s v Ht. apply Ht.
Qed.
End Says.

(** A byte string is rendered as it is. *)
Definition plain (s : bytes) (w : wstr) : Prop := w = s /\ nz s.

Lemma plain_intro s : nz s -> plain s s.
Proof. by split. Qed.

Lemma printable_plain s : printable s = true -> plain s s.
Proof. intros Hs. apply plain_intro. by apply printable_nz. Qed.

Lemma nz_pad ljust n s : nz s -> nz (pad ljust n s).
Proof.
  intros Hs. assert (nz (replicate (n - length s) SPACE)) as Hr by by apply nz_replicate.
  unfold pad. destruct ljust; by apply nz_app.
Qed.

Lemma plain_renders `{Locale} fmt ap w :
  renders plain fmt ap w -> format_mbs fmt ap = Ok (Some w) /\ nz w.
Proof.
  intros Hr. split.
  - unfold format_mbs, format_with. eapply renders_ok; [|done|lia]. by intros s v [-> _].
  - induction Hr as [ap|c r ap w Hc1 Hc _ IH|r ap w _ IH|
      fmt ap sp conv r n ap' w E Hh Hconv _ IH|fmt ap sp conv r m e ap' w E Hh Hconv _ IH|r s v ap w Ht _ IH|fmt ap sp r s v ap' w E Hh Hl0 Hpr Ht _ IH].
    + constructor.
    + apply (nz_app [c] w). split; [by apply printable_nz|done].
    + by constructor.
    + apply nz_app. split; [apply printable_nz, printable_number_text|done].
    + apply nz_app. split; [apply printable_nz, printable_double_text|done].
    + apply nz_app. destruct Ht as [-> ?]. by split.
    + apply nz_app. destruct Ht as [-> ?]. split; [by apply nz_pad|done].
Qed.

Lemma appendf_renders `{AllocTotal} `{Locale} dest s fmt ap t m :
  cstr_of dest s -> nz s -> renders plain fmt ap t ->
  exists b m', appendf dest fmt ap m = Ok (Some b, m') /\ cstr_of (Some b) (s ++ t) /\ ticked m m'.
Proof. intros Hd Hs Hr. destruct (plain_renders fmt ap t Hr). by apply appendf_ok. Qed.

(** ** What a computation prints *)
Section Rules.
Context `{AllocTotal} `{LocaleLaws} (cfg : settings).

(** [m] behaves like calls that denote the trees [ts]. *)
Definition prints (m : prog ostate unit) (ts : list tree) : Prop :=
  exists ns, same_runs m (emit_all ns) /\ denotes_all cfg ns ts.

Lemma denotes_all_app ns ts ns' ts' :
  denotes_all cfg ns ts -> denotes_all cfg ns' ts' -> denotes_all cfg (ns ++ ns') (ts ++ ts').
Proof.
  induction 1; intros Hd; [done|..]; cbn; try rewrite <- app_assoc; econstructor; eauto.
Qed.

#[export] Instance prints_same_runs : Proper (same_runs ==> eq ==> iff) prints.
Proof.
  intros m m' E ts ts' <-. split; intros (ns & En & D); exists ns; (split; [|done]).
  - by rewrite <- E.
  - by rewrite E.
Qed.

Lemma prints_seq m m' ts ts' : prints m ts -> prints m' ts' -> prints (m;; m') (ts ++ ts').
Proof.
  intros (ns & E & D) (ns' & E' & D'). exists (ns ++ ns').
  split; [|by apply denotes_all_app]. rewrite emit_all_app, E. apply bind_congr. by intros [].
Qed.

Lemma prints_unit m ts : prints (m;; mret tt) ts -> prints m ts.
Proof. by rewrite bind_ret_unit. Qed.

Lemma prints_ret : prints (mret tt) [].
Proof. exists []. split; [done|constructor]. Qed.

Lemma prints_call n t : denotes cfg n t -> prints (emit n) [t].
Proof.
  intros Hd. exists [n]. split; [|apply denotes_cons; [done|constructor]].
  cbn [emit_all]. by rewrite bind_ret_unit.
Qed.

Lemma prints_entry name fmt ap n v :
  name_is cfg name n -> value_is cfg fmt ap v -> prints (entry name fmt ap) [TEntry n v].
Proof. intros Hn Hv. by apply (prints_call (CEntry name fmt ap)), denotes_entry. Qed.

Lemma prints_entry_then name fmt ap n v k ts :
  name_is cfg name n -> value_is cfg fmt ap v -> prints k ts ->
  prints (entry name fmt ap;; k) (TEntry n v :: ts).
Proof. intros Hn Hv Hk. by apply (prints_seq _ k [_]); [apply prints_entry|]. Qed.

Lemma prints_ret_bind {A} (a : A) k ts : prints (k a) ts -> prints (mret a ≫= k) ts.
Proof. by rewrite ret_bind. Qed.

Lemma prints_do m k ts : silent cfg m -> prints k ts -> prints (m;; k) ts.
Proof.
  intros Hm (ns & E & D). exists (CDo m :: ns). split; [|by apply denotes_do].
  cbn [emit_all emit]. apply bind_congr. by intros [].
Qed.

Lemma prints_reads {A : Set} `{EqDecision A} (m : prog ostate A) b k ts :
  reads cfg m b -> prints (k b) ts -> prints (m ≫= k) ts.
Proof.
  intros Hm (ns & E & D).
  exists [CLet m (fun a => if decide (a = b) then ns else [CDo (k a)])]. split.
  - cbn [emit_all]. rewrite bind_ret_unit, emit_let. apply bind_congr. intros a.
    destruct (decide (a = b)) as [->|]; [done|]. cbn [emit_all emit]. by rewrite bind_ret_unit.
  - rewrite <- (app_nil_r ts). eapply denotes_let; [exact Hm| |constructor].
    by rewrite decide_True.
Qed.

Lemma prints_block knd name n m ts k ts' :
  name_is cfg name n -> prints m ts -> prints k ts' ->
  prints (block_open knd name;; m;; block_close knd;; k) (TBlock knd n ts :: ts').
Proof.
  intros Hn (ns & E & D) Hk.
  assert (same_runs (block_open knd name;; m;; block_close knd;; k)
            (emit (CBlock knd name ns);; k)) as ->.
  { rewrite emit_block. same_unit. rewrite E. symmetry. by rewrite bind_assoc. }
  apply (prints_seq _ k [_]); [|done]. apply prints_call. by apply denotes_block.
Qed.

Lemma prints_section name n m ts k ts' :
  name_is cfg name n -> prints m ts -> prints k ts' ->
  prints (section_open name;; m;; section_close;; k) (TBlock KSection n ts :: ts').
Proof. apply (prints_block KSection). Qed.

Lemma prints_container name n m ts k ts' :
  name_is cfg name n -> prints m ts -> prints k ts' ->
  prints (container_open name;; m;; container_close;; k) (TBlock KContainer n ts :: ts').
Proof. apply (prints_block KContainer). Qed.

Lemma prints_object m ts k ts' :
  prints m ts -> prints k ts' ->
  prints (object_open false;; m;; object_close false;; k) (TObject ts :: ts').
Proof.
  intros (ns & E & D) Hk.
  assert (same_runs (object_open false;; m;; object_close false;; k) (emit (CObject ns);; k)) as ->.
  { rewrite emit_object. same_unit. rewrite E. symmetry. by rewrite bind_assoc. }
  apply (prints_seq _ k [_]); [|done]. apply prints_call. by apply denotes_object.
Qed.

Lemma silent_common_assert : silent cfg common_assert.
Proof. intros a. apply yields_common_assert. Qed.

Lemma silent_assert (b : bool) cond : b = true -> silent cfg (assert_ b cond).
Proof. intros -> a w Hw. exists w. by split. Qed.

Lemma silent_ret : silent cfg (mret tt).
Proof. intros a. apply yields_ret. Qed.

Lemma prints_silent m : silent cfg m -> prints m [].
Proof. intros Hm. apply prints_unit, prints_do; [done|apply prints_ret]. Qed.

Lemma prints_header name n m ts k ts' :
  name_is cfg name n -> prints m ts -> prints k ts' ->
  prints (header name;; m;; footer;; k) (TBlock KSection n ts :: ts').
Proof.
  intros Hn Hm Hk.
  assert (same_runs (header name;; m;; footer;; k)
    (common_assert;; section_open name;; (m;; common_assert);; section_close;; k)) as ->.
  { unfold header, footer. same_unit. same_unit. same_unit. same_unit. by same_heads. }
  apply prints_do; [apply silent_common_assert|]. apply prints_section; [done| |done].
  rewrite <- (app_nil_r ts). apply prints_seq; [done|].
  by apply prints_silent, silent_common_assert.
Qed.

Lemma prints_for_each {A} (xs : list A) f (g : A -> list tree) :
  (forall x, x ∈ xs -> prints (f x) (g x)) -> prints (for_each xs f) (flat_map g xs).
Proof.
  induction xs as [|x xs IH]; intros Hf; [apply prints_ret|]. cbn [for_each flat_map].
  apply prints_seq; [apply Hf|apply IH; intros y Hy; apply Hf]; set_solver.
Qed.

Lemma prints_if (b : bool) m m' ts ts' :
  (b = true -> prints m ts) -> (b = false -> prints m' ts') ->
  prints (if b then m else m') (if b then ts else ts').
Proof. destruct b; auto. Qed.

(** *** Computations that write nothing *)
Lemma silent_calloc k :
  (forall p, silent cfg (k (Some p))) -> silent cfg (p ← in_mem alloc; k p).
Proof.
  intros Hk a. apply yields_mem with (fun p => is_Some p).
  - intros m0. exists (Some (S (allocs m0))), (tick m0).
    split_and!; [apply alloc_run|by eexists|apply ticked_tick].
  - intros p [x ->]. apply Hk.
Qed.

(** An allocation with [m] after it when it succeeds, as it does. *)
Lemma alloc_then (f m : prog ostate unit) :
  same_runs (p ← in_mem alloc; match p with None => f | Some _ => m end)
            ((p ← in_mem alloc; mret tt);; m).
Proof.
  constructor. intros w. pose proof (zoom_ok o_mem set_mem _ w _ _ (alloc_run (o_mem w))) as E.
  unfold in_mem, mbind, prog_bind. by rewrite E.
Qed.

Lemma silent_alloc : silent cfg (p ← in_mem alloc; mret tt).
Proof. apply silent_calloc. intros p a. apply yields_ret. Qed.

Lemma prints_alloc f m ts :
  prints m ts -> prints (p ← in_mem alloc; match p with None => f | Some _ => m end) ts.
Proof. intros Hm. rewrite alloc_then. apply prints_do; [apply silent_alloc|done]. Qed.

Lemma silent_for_each {A} (xs : list A) (g : A -> prog ostate unit) :
  (forall x, silent cfg (g x)) -> silent cfg (for_each xs g).
Proof.
  intros Hg. induction xs as [|x xs IH]; intros a; [apply yields_ret|].
  cbn [for_each]. eapply yields_bind; [apply Hg|apply IH].
Qed.

Lemma reads_pure {A : Set} (o : outcome A) v : o = Ok v -> reads cfg (pure o) v.
Proof. intros E w a Hw. exists w. split; [by apply pure_ok|done]. Qed.

Lemma reads_ret {A : Set} (v : A) : reads cfg (mret v) v.
Proof. intros w a Hw. by exists w. Qed.

Lemma reads_str_arg s : reads cfg (str_arg (Some s)) (AStr s).
Proof. apply reads_ret. Qed.

Lemma reads_bind {A B : Set} (m : prog ostate A) b (k : A -> prog ostate B) v :
  reads cfg m b -> reads cfg (k b) v -> reads cfg (m ≫= k) v.
Proof.
  intros Hm Hk w a Hw. destruct (Hm w a Hw) as (w1 & E1 & Hw1).
  destruct (Hk w1 a Hw1) as (w2 & E2 & Hw2). exists w2. split; [|done]. by step_with E1.
Qed.

Lemma reads_mem {A : Set} (m : prog mem A) v :
  (forall m0, exists m1, m m0 = Ok (v, m1) /\ ticked m0 m1) -> reads cfg (in_mem m) v.
Proof.
  intros Hm w a Hw. destruct (Hm (o_mem w)) as (m1 & E & Ht).
  exists (set_mem m1 w). split; [by apply (zoom_ok o_mem set_mem)|by apply rep_ticked].
Qed.

(** ** Well-placed calls *)
Definition typed (c : context) (d : nat) (m : prog ostate unit) : Prop :=
  exists ts, prints m ts /\ forallb (well_placed c) ts = true /\ Forall (fun t => depth t <= d) ts.

Definition nameable (name : bytes) : Prop := exists n, name_is cfg name n.
Definition sayable (fmt : bytes) (ap : list arg) : Prop := exists v, value_is cfg fmt ap v.

Lemma typed_prints c d m ts :
  prints m ts -> forallb (well_placed c) ts = true -> Forall (fun t => depth t <= d) ts -> typed c d m.
Proof. intros Hp Hw Hd. by exists ts. Qed.

Lemma typed_unit c d m : typed c d (m;; mret tt) -> typed c d m.
Proof. intros (ts & Hp & Hw). exists ts. split; [by apply prints_unit|done]. Qed.

Lemma typed_ret c d : typed c d (mret tt).
Proof. exists []. split_and!; [apply prints_ret|done|constructor]. Qed.

Lemma typed_le c d d' m : typed c d m -> d <= d' -> typed c d' m.
Proof.
  intros (ts & Hp & Hw & Hd) Hle. exists ts. split_and!; [done|done|].
  eapply Forall_impl; [exact Hd|]. cbn. lia.
Qed.

Lemma typed_seq c d m k : typed c d m -> typed c d k -> typed c d (m;; k).
Proof.
  intros (ts & Hp & Hw & Hd) (ts' & Hp' & Hw' & Hd'). exists (ts ++ ts'). split_and!.
  - by apply prints_seq.
  - by rewrite forallb_app, Hw, Hw'.
  - by apply Forall_app.
Qed.

Lemma typed_cons c d t m ts :
  prints m (t :: ts) -> well_placed c t = true -> depth t <= d ->
  forallb (well_placed c) ts = true -> Forall (fun t => depth t <= d) ts -> typed c d m.
Proof.
  intros Hp Hw Hd Hws Hds. exists (t :: ts). split_and!; [done| |by constructor].
  cbn. by rewrite Hw, Hws.
Qed.

Lemma typed_entry d name fmt ap k :
  nameable name -> sayable fmt ap -> typed CMembers d k -> typed CMembers d (entry name fmt ap;; k).
Proof.
  intros [n Hn] [v Hv] (ts & Hp & Hw & Hd).
  eapply typed_cons; [by apply prints_entry_then|done|cbn; lia|done|done].
Qed.

Lemma depth_list d ts : Forall (fun t => depth t <= d) ts -> list_max (map depth ts) <= d.
Proof.
  intros Hd. apply list_max_le, Forall_forall. intros n Hn.
  apply list_elem_of_In, in_map_iff in Hn as (t & <- & Ht). rewrite Forall_forall in Hd.
  by apply Hd, list_elem_of_In.
Qed.

Lemma typed_section d name m k :
  nameable name -> typed CMembers d m -> typed CMembers (S d) k ->
  typed CMembers (S d) (section_open name;; m;; section_close;; k).
Proof.
  intros [n Hn] (ts & Hp & Hw & Hd) (ts' & Hp' & Hw' & Hd').
  eapply typed_cons; [by apply prints_section|done|cbn; by apply le_n_S, depth_list|done|done].
Qed.

Lemma typed_header d name m k :
  nameable name -> typed CMembers d m -> typed CMembers (S d) k ->
  typed CMembers (S d) (header name;; m;; footer;; k).
Proof.
  intros [n Hn] (ts & Hp & Hw & Hd) (ts' & Hp' & Hw' & Hd').
  eapply typed_cons; [by apply prints_header|done|cbn; by apply le_n_S, depth_list|done|done].
Qed.

Lemma typed_container d name m k :
  nameable name -> typed CObjects d m -> typed CMembers (S d) k ->
  typed CMembers (S d) (container_open name;; m;; container_close;; k).
Proof.
  intros [n Hn] (ts & Hp & Hw & Hd) (ts' & Hp' & Hw' & Hd').
  eapply typed_cons; [by apply prints_container|done|cbn; by apply le_n_S, depth_list|done|done].
Qed.

Lemma typed_object d m k :
  typed CMembers d m -> typed CObjects (S d) k ->
  typed CObjects (S d) (object_open false;; m;; object_close false;; k).
Proof.
  intros (ts & Hp & Hw & Hd) (ts' & Hp' & Hw' & Hd').
  eapply typed_cons; [by apply prints_object|done|cbn; by apply le_n_S, depth_list|done|done].
Qed.

Lemma typed_do c d m k : silent cfg m -> typed c d k -> typed c d (m;; k).
Proof. intros Hm (ts & Hp & Hw). exists ts. split; [by apply prints_do|done]. Qed.

Lemma typed_ret_bind c d {A} (a : A) k : typed c d (k a) -> typed c d (mret a ≫= k).
Proof. intros (ts & Hp & Hw). exists ts. split; [by apply prints_ret_bind|done]. Qed.

Lemma typed_alloc c d f m :
  typed c d m -> typed c d (p ← in_mem alloc; match p with None => f | Some _ => m end).
Proof. intros (ts & Hp & Hw). exists ts. split; [by apply prints_alloc|done]. Qed.

Lemma typed_reads c d {A : Set} `{EqDecision A} (m : prog ostate A) b k :
  reads cfg m b -> typed c d (k b) -> typed c d (m ≫= k).
Proof. intros Hm (ts & Hp & Hw). exists ts. split; [by eapply prints_reads|done]. Qed.

Lemma typed_for_each c d {A} (xs : list A) f :
  (forall x, x ∈ xs -> typed c d (f x)) -> typed c d (for_each xs f).
Proof.
  induction xs as [|x xs IH]; intros Hf; [apply typed_ret|]. cbn [for_each].
  apply typed_seq; [apply Hf; set_solver|]. apply IH. intros y Hy. apply Hf. set_solver.
Qed.

Lemma typed_if c d (b : bool) m m' :
  (b = true -> typed c d m) -> (b = false -> typed c d m') -> typed c d (if b then m else m').
Proof. destruct b; auto. Qed.

#[export] Instance typed_same_runs c d : Proper (same_runs ==> iff) (typed c d).
Proof. intros m m' E. unfold typed. by setoid_rewrite E. Qed.

(** The rules at the end of a sequence. *)
Lemma bind_last {A} (m : prog ostate unit) (k : unit -> prog ostate unit) (j : prog ostate A) :
  same_runs ((m ≫= k);; j) (m ≫= fun x => k x;; j).
Proof. apply bind_assoc. Qed.

Lemma block_last (o c m : prog ostate unit) :
  same_runs (o;; m;; c) (o;; m;; c;; mret tt).
Proof. same_unit. same_unit. by rewrite bind_ret_unit. Qed.

Lemma prints_section_last name n m ts :
  name_is cfg name n -> prints m ts ->
  prints (section_open name;; m;; section_close) [TBlock KSection n ts].
Proof. rewrite block_last. intros. apply prints_section; [done|done|apply prints_ret]. Qed.

Lemma prints_header_last name n m ts :
  name_is cfg name n -> prints m ts -> prints (header name;; m;; footer) [TBlock KSection n ts].
Proof. rewrite block_last. intros. apply prints_header; [done|done|apply prints_ret]. Qed.

Lemma prints_container_last name n m ts :
  name_is cfg name n -> prints m ts ->
  prints (container_open name;; m;; container_close) [TBlock KContainer n ts].
Proof. rewrite block_last. intros. apply prints_container; [done|done|apply prints_ret]. Qed.

Lemma prints_object_last m ts :
  prints m ts -> prints (object_open false;; m;; object_close false) [TObject ts].
Proof. rewrite block_last. intros. apply prints_object; [done|apply prints_ret]. Qed.

Lemma typed_section_last d name m :
  nameable name -> typed CMembers d m -> typed CMembers (S d) (section_open name;; m;; section_close).
Proof. rewrite block_last. intros. apply typed_section; [done|done|apply typed_ret]. Qed.

Lemma typed_header_last d name m :
  nameable name -> typed CMembers d m -> typed CMembers (S d) (header name;; m;; footer).
Proof. rewrite block_last. intros. apply typed_header; [done|done|apply typed_ret]. Qed.

Lemma typed_container_last d name m :
  nameable name -> typed CObjects d m -> typed CMembers (S d) (container_open name;; m;; container_close).
Proof. rewrite block_last. intros. apply typed_container; [done|done|apply typed_ret]. Qed.

Lemma typed_object_last d m :
  typed CMembers d m -> typed CObjects (S d) (object_open false;; m;; object_close false).
Proof. rewrite block_last. intros. apply typed_object; [done|apply typed_ret]. Qed.

(** *** One block with a title *)
Definition titled (n : wstr) (d : nat) (m : prog ostate unit) : Prop :=
  exists k ts, prints m [TBlock k n ts] /\ well_placed CMembers (TBlock k n ts) = true /\
    depth (TBlock k n ts) <= d.

Lemma titled_typed n d m : titled n d m -> typed CMembers d m.
Proof. intros (k & ts & Hp & Hw & Hd). by eapply typed_cons; [..|constructor]. Qed.

Lemma titled_le n d d' m : titled n d m -> d <= d' -> titled n d' m.
Proof. intros (k & ts & Hp & Hw & Hd) Hle. exists k, ts. split_and!; [done|done|lia]. Qed.

Lemma titled_header name n d m :
  name_is cfg name n -> typed CMembers d m -> titled n (S d) (header name;; m;; footer).
Proof.
  intros Hn (ts & Hp & Hw & Hd). exists KSection, ts.
  split_and!; [by apply prints_header_last|done|cbn; by apply le_n_S, depth_list].
Qed.

Lemma titled_container name n d m :
  name_is cfg name n -> typed CObjects d m -> titled n (S d) (container_open name;; m;; container_close).
Proof.
  intros Hn (ts & Hp & Hw & Hd). exists KContainer, ts.
  split_and!; [by apply prints_container_last|done|cbn; by apply le_n_S, depth_list].
Qed.

Lemma titled_do n d m k : silent cfg m -> titled n d k -> titled n d (m;; k).
Proof. intros Hm (b & ts & Hp & Hw). exists b, ts. split; [by apply prints_do|done]. Qed.

Lemma titled_reads n d {A : Set} `{EqDecision A} (m : prog ostate A) b k :
  reads cfg m b -> titled n d (k b) -> titled n d (m ≫= k).
Proof. intros Hm (c & ts & Hp & Hw). exists c, ts. split; [by eapply prints_reads|done]. Qed.

Lemma prints_eq m ts ts' : prints m ts -> ts = ts' -> prints m ts'.
Proof. by intros ? <-. Qed.

(** Names and values whose text is given by a program's literals. *)
Lemma nameable_literal s : printable s = true -> s <> [] -> nameable s.
Proof. intros Hs Hne. exists s. by apply name_text; [apply printable_text|]. Qed.

Lemma nameable_showable s : showable cfg s -> s <> [] -> nameable s.
Proof. intros [w Hs] Hne. exists w. by apply name_text. Qed.

Definition says_some (fmt : bytes) (ap : list arg) : Prop := exists v, renders (text_is cfg) fmt ap v.

Lemma says_some_nil ap : says_some [] ap.
Proof. eexists. apply renders_nil. Qed.

Lemma says_some_char c r ap :
  printable [c] = true -> c <> 37%Z -> says_some r ap -> says_some (c :: r) ap.
Proof. intros Hp Hc [w Hw]. eexists. by apply renders_char. Qed.

Lemma says_some_percent r ap : says_some r ap -> says_some (37%Z :: 37%Z :: r) ap.
Proof. intros [w Hw]. eexists. by apply renders_percent. Qed.

Lemma says_some_number fmt ap sp conv r n ap' :
  parse_spec fmt ap = Ok (sp, conv :: r, ANum n :: ap') -> head fmt <> Some 37%Z ->
  number_conv conv = true -> says_some r ap' -> says_some (37%Z :: fmt) ap.
Proof. intros E Hh Hc [w Hw]. eexists. by eapply renders_number. Qed.

Lemma says_some_double fmt ap sp conv r m e ap' :
  parse_spec fmt ap = Ok (sp, conv :: r, ADouble m e :: ap') -> head fmt <> Some 37%Z ->
  double_conv conv = true -> says_some r ap' -> says_some (37%Z :: fmt) ap.
Proof. intros E Hh Hc [w Hw]. eexists. by eapply renders_double. Qed.

Lemma says_some_string s r ap :
  showable cfg s -> says_some r ap -> says_some (37%Z :: 115%Z :: r) (AStr s :: ap).
Proof. intros [v Hv] [w Hw]. exists (v ++ w). by apply renders_string. Qed.

Lemma sayable_says fmt ap :
  printable fmt = true -> fmt <> [] -> says_some fmt ap -> sayable fmt ap.
Proof. intros Hp Hne [v Hs]. exists v. by apply says_value. Qed.

Lemma showable_if (b : bool) s t : showable cfg s -> showable cfg t -> showable cfg (if b then s else t).
Proof. by destruct b. Qed.
End Rules.

(** ** Tactics *)
Create HintDb shown.
Create HintDb typed.

Ltac in_list := repeat (apply list_elem_of_here || apply list_elem_of_further).

(** Texts and names: literals, tests and what is known of the strings of the
    system. *)
Ltac solve_text :=
  first
  [ eassumption
  | apply printable_text; reflexivity
  | apply plain_intro; solve [assumption|eauto with shown]
  | apply text_if; solve_text
  | match goal with
    | Ht : forall s, s ∈ ?l -> text_is _ s (_ s) |- text_is _ _ _ => solve [apply Ht; in_list]
    end
  | solve [eauto with shown] ].

Ltac solve_showable :=
  first
  [ assumption
  | apply printable_showable; reflexivity
  | apply showable_if; solve_showable
  | match goal with
    | Ht : forall s, s ∈ ?l -> showable _ s |- showable _ _ => solve [apply Ht; in_list]
    end
  | solve [eauto with shown] ].

Ltac solve_name :=
  first
  [ apply name_text; [apply printable_text; reflexivity|discriminate]
  | eassumption
  | solve [eauto with shown] ].

Ltac solve_nameable :=
  first
  [ apply nameable_literal; [reflexivity|discriminate]
  | assumption
  | solve [eauto with shown] ].

Ltac says_steps :=
  repeat lazymatch goal with
  | |- renders _ [] _ _ => apply renders_nil
  | |- renders _ (37%Z :: 37%Z :: _) _ _ => apply renders_percent
  | |- renders _ (37%Z :: 115%Z :: _) (AStr _ :: _) _ => apply renders_string; [try solve_text|]
  | |- renders _ (37%Z :: _) _ _ =>
    first [ eapply renders_number; [reflexivity|discriminate|reflexivity|]
          | eapply renders_double; [reflexivity|discriminate|reflexivity|]
          | eapply renders_field; [reflexivity|discriminate|reflexivity|reflexivity|try solve_text|] ]
  | |- renders _ (_ :: _) _ _ => apply renders_char; [reflexivity|discriminate|]
  end.

Ltac solve_value :=
  lazymatch goal with
  | |- value_is ?c ?f ?a ?v =>
    let f' := eval vm_compute in f in
    first
    [ eassumption
    | change (value_is c f' a v); apply says_value; [says_steps|reflexivity|discriminate] ]
  end.

Ltac solve_sayable :=
  lazymatch goal with
  | |- sayable ?c ?f ?a =>
    let f' := eval vm_compute in f in
    change (sayable c f' a); apply sayable_says; [reflexivity|discriminate|];
    repeat lazymatch goal with
    | |- says_some _ [] _ => apply says_some_nil
    | |- says_some _ (37%Z :: 37%Z :: _) _ => apply says_some_percent
    | |- says_some _ (37%Z :: 115%Z :: _) (AStr _ :: _) => apply says_some_string; [try solve_showable|]
    | |- says_some _ (37%Z :: _) _ =>
      first [ eapply says_some_number; [reflexivity|discriminate|reflexivity|]
            | eapply says_some_double; [reflexivity|discriminate|reflexivity|] ]
    | |- says_some _ (_ :: _) _ => apply says_some_char; [reflexivity|discriminate|]
    end
  end.

(** One statement of a display function. *)
Ltac typed_step :=
  lazymatch goal with
  | |- typed _ _ _ (mret tt) => apply typed_ret
  | |- typed _ _ _ (mret _ ≫= _) => apply typed_ret_bind
  | |- typed _ _ _ (entry _ _ _ ;; _) => apply typed_entry; [try solve_nameable|try solve_sayable|]
  | |- typed _ _ _ (entry _ _ _) => apply typed_unit
  | |- typed _ _ _ (header _;; _;; footer;; _) => apply typed_header; [try solve_nameable| |]
  | |- typed _ _ _ (header _;; _;; footer) => apply typed_header_last; [try solve_nameable|]
  | |- typed _ _ _ (section_open _;; _;; section_close;; _) => apply typed_section; [try solve_nameable| |]
  | |- typed _ _ _ (section_open _;; _;; section_close) => apply typed_section_last; [try solve_nameable|]
  | |- typed _ _ _ (container_open _;; _;; container_close;; _) =>
    apply typed_container; [try solve_nameable| |]
  | |- typed _ _ _ (container_open _;; _;; container_close) =>
    apply typed_container_last; [try solve_nameable|]
  | |- typed _ _ _ (object_open false;; _;; object_close false;; _) => apply typed_object
  | |- typed _ _ _ (object_open false;; _;; object_close false) => apply typed_object_last
  | |- typed _ _ _ (common_assert;; _) => apply typed_do; [apply silent_common_assert|]
  | |- typed _ _ _ (for_each _ _) => apply typed_for_each; intros
  | |- typed _ _ _ (if _ then _ else _) => apply typed_if; intros
  | |- typed _ _ _ (_;; ?k) => apply typed_seq
  | |- titled _ _ _ (header _;; _;; footer) => apply titled_header; [try solve_name|]
  | |- titled _ _ _ (container_open _;; _;; container_close) => apply titled_container; [try solve_name|]
  | |- titled _ _ _ (common_assert;; _) => apply titled_do; [apply silent_common_assert|]
  | |- typed _ _ _ _ => solve [eauto with typed]
  end.

Ltac typed_steps := repeat typed_step.

Ltac prints_step :=
  lazymatch goal with
  | |- prints _ (mret tt) _ => apply prints_ret
  | |- prints _ (mret _ ≫= _) _ => apply prints_ret_bind
  | |- prints _ (entry _ _ _;; _) _ => eapply prints_entry_then; [try solve_name|try solve_value|]
  | |- prints _ (entry _ _ _) _ => eapply prints_entry; [try solve_name|try solve_value]
  | |- prints _ (header _;; _;; footer;; _) _ => eapply prints_header; [try solve_name| |]
  | |- prints _ (header _;; _;; footer) _ => eapply prints_header_last; [try solve_name|]
  | |- prints _ (section_open _;; _;; section_close;; _) _ => eapply prints_section; [try solve_name| |]
  | |- prints _ (section_open _;; _;; section_close) _ => eapply prints_section_last; [try solve_name|]
  | |- prints _ (container_open _;; _;; container_close;; _) _ =>
    eapply prints_container; [try solve_name| |]
  | |- prints _ (container_open _;; _;; container_close) _ =>
    eapply prints_container_last; [try solve_name|]
  | |- prints _ (object_open false;; _;; object_close false;; _) _ => eapply prints_object
  | |- prints _ (object_open false;; _;; object_close false) _ => eapply prints_object_last
  | |- prints _ (common_assert;; _) _ => apply prints_do; [apply silent_common_assert|]
  | |- prints _ (_;; ?k) _ => eapply prints_seq
  end.

Ltac prints_steps := repeat prints_step.

(** A computation that reads a value known by [tac]. *)
Tactic Notation "reading" tactic3(tac) :=
  lazymatch goal with
  | |- prints _ _ _ => eapply prints_reads; [apply _|tac|]
  | |- typed _ _ _ _ => eapply typed_reads; [apply _|tac|]
  | |- titled _ _ _ _ => eapply titled_reads; [apply _|tac|]
  end; cbv beta iota.

(** Two lists of trees with the same entries, up to the ends of their texts. *)
Ltac same_trees := rewrite ?app_nil_r; reflexivity.

Lemma renders_eq P fmt ap t t' : renders P fmt ap t -> t = t' -> renders P fmt ap t'.
Proof. by intros ? <-. Qed.

(** The text of a format, given. *)
Ltac render :=
  lazymatch goal with
  | |- renders ?P ?f ?a ?v =>
    let f' := eval vm_compute in f in
    change (renders P f' a v); eapply renders_eq; [says_steps|try same_trees]
  end.

(** A literal text. *)
Ltac text_lit := apply printable_text; reflexivity.
