(* ===== verification/Display.v ===== *)
(** Display: display functions of src/src/procenv.c, as trees of calls on the
    output: the meta data, the arguments and the environment.  The calls
    between an opening and a closing call are grouped by parentheses. *)
From Stdlib Require Import Sorted Permutation.
From stdpp Require Import sorting.
From S2P Require Import Prelude Memory PrList Locale PString StringUtil Encode Output OutputSpec Document Prints Affinity.

(** What the program finds at its start: its arguments and its environment,
    the driver of the platform, and whether the build is a reproducible one. *)
Class Start : Type := {
  argvp : list bytes;
  environ : list bytes;
  driver_name : bytes;
  driver_file : bytes;
  reproducible_build : bool
}.

(** [qsort (3)] with [strcoll (3)] as the order. *)
Class Collation : Type := {
  strcoll : bytes -> bytes -> Z;
  qsort : (bytes -> bytes -> Z) -> list bytes -> list bytes
}.

Class CollationLaws `{Collation} : Prop := {
  qsort_perm xs : qsort strcoll xs ≡ₚ xs;
  qsort_sorted xs : StronglySorted (fun a b => strcoll a b <= 0)%Z (qsort strcoll xs)
}.

Definition EQUALS : Z := 61.

(** [strchr (3)] and the two strings on the sides of the character found. *)
Fixpoint split_at (ch : Z) (s : bytes) : option (bytes * bytes) :=
  match s with
  | [] => None
  | c :: s' =>
    if Z.eqb c ch then Some ([], s')
    else match split_at ch s' with Some (l, r) => Some (c :: l, r) | None => None end
  end.

Section Display.
Context `{Allocator} `{Locale} `{Package} `{Start} `{Collation}.

Definition qsort_compar (a b : bytes) : Z := strcoll a b.

Definition show_meta : prog ostate unit :=
  header (lit "meta");;
  (entry (lit "version") (lit "%s") [AStr PACKAGE_VERSION];;
   entry (lit "package") (lit "%s") [AStr PACKAGE_STRING];;
   euid ← gets user_euid;
   entry (lit "mode") (lit "%s%s")
     [AStr (if Z.eqb euid 0 then [] else NON_STR ++ lit "-"); AStr PRIVILEGED_STR];;
   entry (lit "build-type") (lit "%s")
     [AStr (if reproducible_build then lit "reproducible" else lit "standard")];;
   section_open (lit "driver");;
   (entry (lit "name") driver_name [];;
    entry (lit "file") driver_file []);;
   section_close;;
   name ← get_output_format_name;
   entry (lit "format-type") (lit "%s") [AStr name];;
   entry (lit "format-version") (lit "%d") [ANum PROCENV_FORMAT_VERSION]);;
  footer.

(** The name of argument [i]. *)
Definition argument_name (i : Z) : prog ostate bytes :=
  b ← in_mem (appendf None (lit "argv[%d]") [ANum i]);
  match b with
  | Some b => pure (string_at b 0)
  | None => ub "null buffer"
  end.

Fixpoint arguments_loop (i : Z) (args : list bytes) : prog ostate unit :=
  match args with
  | [] => mret tt
  | arg :: args' =>
    buffer ← argument_name i;
    object_open false;;
    entry buffer (lit "%s") [AStr arg];;
    object_close false;;
    arguments_loop (i + 1) args'
  end.

Definition show_arguments : prog ostate unit :=
  header (lit "arguments");;
  (entry (lit "count") (lit "%u") [ANum (Z.of_nat (length argvp))];;
   container_open (lit "list");;
   arguments_loop 0 argvp;;
   container_close);;
  footer.

Definition calloc_or_die : prog ostate unit :=
  p ← in_mem alloc;
  match p with Some _ => mret tt | None => die "failed to allocate storage" end.

Definition show_variable (s : bytes) : prog ostate unit :=
  match split_at EQUALS s with
  | None => abort "value"
  | Some (name, value) => entry name (lit "%s") [AStr value]
  end.

Definition show_env : prog ostate unit :=
  header (lit "environment");;
  (calloc_or_die;;
   for_each environ (fun _ => calloc_or_die);;
   for_each (qsort qsort_compar environ) show_variable);;
  footer.
End Display.

(** ** What the display functions print *)
Section Prints.
Context `{AllocTotal} `{LocaleLaws} (cfg : settings).

Lemma silent_calloc_or_die : silent cfg calloc_or_die.
Proof. apply silent_calloc. intros p. apply silent_ret. Qed.

(** *** The arguments *)
Definition argument_title (i : Z) : wstr := lit "argv[" ++ digits 10 i ++ lit "]".

Lemma printable_title i : (0 <= i)%Z -> printable (argument_title i) = true.
Proof.
  intros Hi. unfold argument_title. rewrite !printable_app. by rewrite printable_digits by lia.
Qed.

Lemma reads_argument_name i : in_int i -> reads cfg (argument_name i) (argument_title i).
Proof.
  intros Hi w a Hw. unfold argument_name, in_mem.
  assert (format_mbs (lit "argv[%d]") [ANum i] = Ok (Some (argument_title i))) as Hf.
  { unfold format_mbs, format_with. cbv -[to_signed digits opt_app app Z.ltb Z.abs].
    rewrite to_signed_int by done. unfold in_int in Hi.
    replace (Z.ltb i 0) with false by lia. rewrite (Z.abs_eq i) by lia.
    change (Z.ltb 0 0) with false. cbn [opt_app app]. unfold argument_title.
    by rewrite ?app_nil_r. }
  assert (nz (argument_title i)) as Hnz.
  { apply (printable_text cfg (argument_title i)), printable_title. apply Hi. }
  destruct (appendf_ok None [] _ _ _ (o_mem w) eq_refl (Forall_nil_2 _) Hf Hnz)
    as (b & m1 & E & [junk Hb] & Ht).
  exists (set_mem m1 w). split; [|by apply rep_ticked].
  step_with (zoom_ok o_mem set_mem _ w _ _ E). apply pure_ok. rewrite Hb. by apply string_at_start.
Qed.

Definition argument_trees (i : Z) (ws : list wstr) : list tree :=
  imap (fun n w => TObject [TEntry (argument_title (i + Z.of_nat n)) w]) ws.

Lemma prints_arguments i args ws :
  Forall2 (text_is cfg) args ws -> (0 <= i)%Z -> (i + Z.of_nat (length args) <= INT_MAX)%Z ->
  prints cfg (arguments_loop i args) (argument_trees i ws).
Proof.
  intros Hs. revert i. induction Hs as [|arg w args ws Hw _ IH]; intros i Hi Hm; [apply prints_ret|].
  cbn [length] in Hm. cbn [arguments_loop]. unfold argument_trees. cbn [imap].
  reading (apply reads_argument_name; unfold in_int; lia).
  rewrite Z.add_0_r. apply prints_object.
  - eapply prints_eq; [prints_steps|by rewrite app_nil_r].
    apply name_text; [by apply printable_text, printable_title|done].
  - replace (imap _ ws) with (argument_trees (i + 1) ws); [apply IH; lia|].
    unfold argument_trees. apply imap_ext. intros n x _. unfold compose.
    by replace (i + Z.of_nat (S n))%Z with (i + 1 + Z.of_nat n)%Z by lia.
Qed.

Section Shown.
Context `{Package} `{Start} `{Collation}.

(** in every format, [show_arguments] prints a section "arguments" with
    the number of arguments and a container "list" of one object for each
    argument, in order, whose one entry is named argv[i] in decimal and has
    the argument for its value. *)
Theorem show_arguments_correct (ws : list wstr) :
  Forall2 (text_is cfg) argvp ws -> (Z.of_nat (length argvp) <= INT_MAX)%Z ->
  prints cfg show_arguments
    [TBlock KSection (lit "arguments")
       [TEntry (lit "count") (digits 10 (Z.of_nat (length ws)));
        TBlock KContainer (lit "list") (argument_trees 0 ws)]].
Proof.
  intros Hs Hm. rewrite <- (Forall2_length _ _ _ Hs). eapply prints_eq.
  - unfold show_arguments. prints_steps. by apply prints_arguments.
  - rewrite app_nil_r. unfold number_text, to_unsigned. rewrite Z.mod_small; [done|].
    unfold INT_MAX in Hm. cbn. lia.
Qed.

(** A variable of the environment: its name, which holds no equals sign,
    and its value. *)
Definition variable_is (s : bytes) (v : wstr * wstr) : Prop :=
  exists name value, s = name ++ EQUALS :: value /\ (EQUALS ∉ name) /\
    name_is cfg name v.1 /\ text_is cfg value v.2.

Lemma split_at_first ch l r : ch ∉ l -> split_at ch (l ++ ch :: r) = Some (l, r).
Proof.
  induction l as [|c l IH]; intros Hl; cbn; [by rewrite Z.eqb_refl|].
  apply not_elem_of_cons in Hl as [Hc Hl]. rewrite (proj2 (Z.eqb_neq _ _)) by congruence.
  by rewrite IH.
Qed.

Lemma prints_variables ss vs :
  Forall2 variable_is ss vs ->
  prints cfg (for_each ss show_variable) (map (fun v => TEntry v.1 v.2) vs).
Proof.
  induction 1 as [|s v ss vs (name & value & -> & Hne & Hn & Hv) _ IH]; cbn; [apply prints_ret|].
  unfold show_variable. rewrite split_at_first by done.
  eapply prints_eq; [prints_steps; exact IH|by rewrite app_nil_r].
Qed.

(** C23: when every string of the environment has an equals sign, a name and
    a value that can be shown, [show_env] prints a section "environment"
    with one entry for each variable, none lost and none twice, in the
    order of [strcoll (3)] on the whole strings; the name is what stands
    before the first equals sign and the value everything after it. *)
Theorem show_env_correct `{!CollationLaws} (vs : list (wstr * wstr)) :
  Forall2 variable_is environ vs ->
  exists ss vs', ss ≡ₚ environ /\ StronglySorted (fun a b => strcoll a b <= 0)%Z ss /\
    Forall2 variable_is ss vs' /\
    prints cfg show_env [TBlock KSection (lit "environment") (map (fun v => TEntry v.1 v.2) vs')].
Proof.
  intros Hvs. set (ss := qsort strcoll environ).
  assert (ss ≡ₚ environ) as Hperm by apply qsort_perm.
  destruct (Permutation_Forall2 (symmetry Hperm) Hvs) as (vs' & _ & Hvs').
  exists ss, vs'. split_and!; [done|apply qsort_sorted|done|].
  unfold show_env. prints_steps; [apply prints_do; [apply silent_calloc_or_die|]].
  apply prints_do; [apply silent_for_each; intros; apply silent_calloc_or_die|].
  by apply prints_variables.
Qed.

Definition format_name (f : OutputFormat) : bytes :=
  match f with
  | OUTPUT_FORMAT_TEXT => lit "text"
  | OUTPUT_FORMAT_CRUMB => lit "crumb"
  | OUTPUT_FORMAT_JSON => lit "json"
  | OUTPUT_FORMAT_XML => lit "xml"
  end.

Lemma reads_format_name : reads cfg get_output_format_name (format_name (s_format cfg)).
Proof.
  intros w a Hw. exists w. split; [|done]. unfold get_output_format_name.
  erewrite prog_bind_ok by reflexivity. rewrite (proj1 (rep_configured _ _ _ Hw)).
  by destruct (s_format cfg).
Qed.

Lemma reads_euid : reads cfg (gets user_euid) (s_euid cfg).
Proof.
  intros w a Hw. exists w. split; [|done]. destruct (rep_configured _ _ _ Hw) as (_ & _ & _ & _ & _ & _ & E & _).
  unfold gets. by rewrite E.
Qed.

Definition mode (euid : Z) : wstr := (if Z.eqb euid 0 then [] else lit "non-") ++ lit "privileged".

(** In every format, [show_meta] prints a section "meta" with the
    version and the package, whether the user is privileged, the kind of
    build, a section with the driver's name and file, the name of the
    format of the document itself, and its version. *)
Theorem show_meta_correct (pv ps dn df : wstr) :
  text_is cfg PACKAGE_VERSION pv -> text_is cfg PACKAGE_STRING ps ->
  value_is cfg driver_name [] dn -> value_is cfg driver_file [] df ->
  prints cfg show_meta
    [TBlock KSection (lit "meta")
       [TEntry (lit "version") pv; TEntry (lit "package") ps; TEntry (lit "mode") (mode (s_euid cfg));
        TEntry (lit "build-type") (if reproducible_build then lit "reproducible" else lit "standard");
        TBlock KSection (lit "driver") [TEntry (lit "name") dn; TEntry (lit "file") df];
        TEntry (lit "format-type") (format_name (s_format cfg));
        TEntry (lit "format-version") (digits 10 PROCENV_FORMAT_VERSION)]].
Proof.
  intros Hv Hp Hn Hf. eapply prints_eq.
  - unfold show_meta. prints_steps.
    reading (apply reads_euid). prints_steps. reading (apply reads_format_name). prints_steps.
    apply printable_text. by destruct (s_format cfg).
  - same_trees.
Qed.
(** *** Well placed *)
Lemma titled_show_meta :
  Forall (showable cfg) [PACKAGE_NAME; PACKAGE_VERSION; PACKAGE_STRING] ->
  sayable cfg driver_name [] -> sayable cfg driver_file [] -> titled cfg (lit "meta") 2 show_meta.
Proof.
  intros Hp Hn Hf. rewrite !Forall_cons in Hp. destruct Hp as (Hpn & Hv & Hs & _).
  unfold show_meta. typed_steps. reading (apply reads_euid). typed_steps; try assumption.
  reading (apply reads_format_name). typed_steps. apply printable_showable. by destruct (s_format cfg).
Qed.

Lemma titled_show_arguments :
  Forall (showable cfg) argvp -> (Z.of_nat (length argvp) <= INT_MAX)%Z -> titled cfg (lit "arguments") 3 show_arguments.
Proof.
  intros Ha Hl. assert (exists ws, Forall2 (text_is cfg) argvp ws) as [ws Hws].
  { clear Hl. induction Ha as [|s l [w Hw] _ [ws Hws]]; [by exists []|]. exists (w :: ws). by constructor. }
  unfold show_arguments. typed_steps.
  apply (typed_prints cfg _ _ _ _ (prints_arguments 0 argvp ws Hws ltac:(lia) ltac:(lia))).
  - apply forallb_forall. intros t Ht. apply list_elem_of_In in Ht.
    apply elem_of_lookup_imap in Ht as (i & w & -> & _). done.
  - apply Forall_forall. intros t Ht. apply elem_of_lookup_imap in Ht as (i & w & -> & _). cbn. lia.
Qed.

Lemma titled_show_env `{!CollationLaws} :
  Forall (fun s => exists name value, split_at EQUALS s = Some (name, value) /\
                     nameable cfg name /\ showable cfg value) environ ->
  titled cfg (lit "environment") 1 show_env.
Proof.
  rewrite Forall_forall. intros He. unfold show_env. typed_step.
  apply typed_do; [apply silent_calloc_or_die|].
  apply typed_do; [apply silent_for_each; intros; apply silent_calloc_or_die|].
  apply typed_for_each. intros s Hs.
  change qsort_compar with strcoll in Hs. rewrite qsort_perm in Hs.
  destruct (He s Hs) as (name & value & E & Hn & Hv). unfold show_variable. rewrite E. typed_steps.
Qed.
End Shown.
End Prints.

(** ** A start of the program, for the witnesses *)
#[local] Instance sample_start : Start := {|
  argvp := [lit "procenv"; lit "--meta"];
  environ := [lit "PATH=/bin:/sbin"; lit "A=b=c"; lit "EMPTY="];
  driver_name := lit "linux";
  driver_file := lit "platform.c";
  reproducible_build := false
|}.

Definition below (cmp : bytes -> bytes -> Z) (a b : bytes) : Prop := (cmp a b <= 0)%Z.
#[local] Instance below_decision cmp a b : Decision (below cmp a b).
Proof. unfold below. apply _. Defined.

(** [strcoll] of the POSIX locale, and a merge sort. *)
#[local] Instance sample_collation : Collation := {|
  strcoll := strcmp;
  qsort := fun cmp => merge_sort (below cmp)
|}.

#[local] Instance sample_collation_laws : CollationLaws.
Proof.
  assert (Transitive (below strcmp)).
  { intros a b c. unfold below. pose proof (strcmp_trans a b c).
    pose proof (strcmp_opp a b). pose proof (strcmp_opp b c). pose proof (strcmp_opp a c). lia. }
  assert (Total (below strcmp)) by (intros a b; unfold below; pose proof (strcmp_opp a b); lia).
  split; cbn; intros xs; [apply merge_sort_Permutation|].
  by apply (StronglySorted_merge_sort (below strcmp)).
Qed.

Lemma show_arguments_witness :
  @prints total_allocator c_locale (start_settings OUTPUT_FORMAT_JSON)
    (@show_arguments total_allocator c_locale sample_start)
    [TBlock KSection (lit "arguments")
       [TEntry (lit "count") (lit "2");
        TBlock KContainer (lit "list")
          [TObject [TEntry (lit "argv[0]") (lit "procenv")];
           TObject [TEntry (lit "argv[1]") (lit "--meta")]]]].
Proof.
  apply (@show_arguments_correct total_allocator total_allocator_total c_locale c_locale_laws
           (start_settings OUTPUT_FORMAT_JSON) sample_start [lit "procenv"; lit "--meta"]);
    [|by vm_compute].
  apply Forall2_cons_2; [text_lit|]. apply Forall2_cons_2; [text_lit|constructor].
Defined.

Definition sample_variables : list (wstr * wstr) :=
  [(lit "PATH", lit "/bin:/sbin"); (lit "A", lit "b=c"); (lit "EMPTY", [])].

Lemma show_env_witness :
  exists ss vs', ss ≡ₚ environ /\ StronglySorted (fun a b => strcoll a b <= 0)%Z ss /\
    Forall2 (variable_is (start_settings OUTPUT_FORMAT_XML)) ss vs' /\
    @prints total_allocator c_locale (start_settings OUTPUT_FORMAT_XML) (@show_env total_allocator c_locale sample_start sample_collation)
      [TBlock KSection (lit "environment") (map (fun v => TEntry v.1 v.2) vs')].
Proof.
  apply (@show_env_correct total_allocator total_allocator_total c_locale c_locale_laws
           (start_settings OUTPUT_FORMAT_XML) sample_start sample_collation sample_collation_laws
           sample_variables).
  apply Forall2_cons_2; [|apply Forall2_cons_2; [|apply Forall2_cons_2; [|constructor]]].
  - exists (lit "PATH"), (lit "/bin:/sbin"). split_and!; [done|by vm_compute; set_solver|..];
      [apply name_text; [text_lit|done]|text_lit].
  - exists (lit "A"), (lit "b=c"). split_and!; [done|by vm_compute; set_solver|..];
      [apply name_text; [text_lit|done]|text_lit].
  - exists (lit "EMPTY"), []. split_and!; [done|by vm_compute; set_solver|..];
      [apply name_text; [text_lit|done]|text_lit].
Defined.

Lemma show_meta_witness :
  @prints total_allocator c_locale (start_settings OUTPUT_FORMAT_XML)
    (@show_meta total_allocator c_locale sample_package sample_start)
    [TBlock KSection (lit "meta")
       [TEntry (lit "version") (lit "0.60"); TEntry (lit "package") (lit "procenv 0.60");
        TEntry (lit "mode") (lit "privileged"); TEntry (lit "build-type") (lit "standard");
        TBlock KSection (lit "driver") [TEntry (lit "name") (lit "linux"); TEntry (lit "file") (lit "platform.c")];
        TEntry (lit "format-type") (lit "xml"); TEntry (lit "format-version") (lit "24")]].
Proof.
  apply (@show_meta_correct total_allocator c_locale c_locale_laws
           (start_settings OUTPUT_FORMAT_XML) sample_package sample_start);
    [text_lit|text_lit|value_lit|value_lit].
Defined.
