(* ===== verification/Format.v ===== *)
(** Format: values turned into text or read from it (procenv.c: format_perms,
    get_personality_name, get_personality_flags, get_signal_name,
    get_thread_scheduler_name, get_path; platform/linux/platform.c:
    linux_kernel_version, in_vm_linux). *)
From S2P Require Import Prelude Memory PrList Locale PString StringUtil Util.

(** ** Tables of names *)

(** The cells of an array of [struct procenv_map]; the terminator has a null
    name.  Running off the end of the array is a read outside it. *)
Fixpoint map_scan (cells : list (option bytes * Z)) (test : Z -> bool) : outcome (option bytes) :=
  match cells with
  | [] => UB "read past the end of the table"
  | (None, _) :: _ => Ok None
  | (Some name, num) :: cells' => if test num then Ok (Some name) else map_scan cells' test
  end.

(** A table with its terminator. *)
Definition terminated (tbl : list (bytes * Z)) : list (option bytes * Z) :=
  map (fun e => (Some e.1, e.2)) tbl ++ [(None, 0%Z)].

Definition get_signal_name (signal_map : list (option bytes * Z)) (signum : Z) : outcome (option bytes) :=
  if Z.eqb signum 0 then Abort "signum" else map_scan signal_map (fun num => Z.eqb signum num).

Definition PER_MASK : Z := 255.

Definition get_personality_name (personality_map : list (option bytes * Z)) (domain : Z)
  : outcome (option bytes) :=
  map_scan personality_map (fun num => Z.eqb num (Z.land domain PER_MASK)).

(** The table has no terminator; [SCHED_OTHER], [SCHED_FIFO] and [SCHED_RR] are
    the constants of <sched.h>. *)
Definition thread_sched_policy_map (SCHED_OTHER SCHED_FIFO SCHED_RR : Z) : list (option bytes * Z) :=
  [ (Some (lit "SCHED_OTHER"), SCHED_OTHER);
    (Some (lit "SCHED_FIFO"), SCHED_FIFO);
    (Some (lit "SCHED_RR"), SCHED_RR) ].

Definition get_thread_scheduler_name (SCHED_OTHER SCHED_FIFO SCHED_RR sched : Z) : outcome (option bytes) :=
  map_scan (thread_sched_policy_map SCHED_OTHER SCHED_FIFO SCHED_RR) (fun num => Z.eqb num sched).

Section Flags.
Context `{Allocator} `{Locale}.

Fixpoint flags_loop (tbl : list (bytes * Z)) (flags : Z) (list : option buffer) (first : bool)
  : prog mem (option buffer) :=
  match tbl with
  | [] => mret list
  | (name, num) :: tbl' =>
    if Z.eqb (Z.land flags num) 0 then flags_loop tbl' flags list first
    else
      list' ← appendf list (lit "%s%s") [AStr (if first then [] else lit ", "); AStr name];
      flags_loop tbl' flags list' false
  end.

Definition get_personality_flags (tbl : list (bytes * Z)) (flags : Z) : prog mem (option buffer) :=
  flags_loop tbl flags None true.
End Flags.

(** ** File permissions *)
Definition S_IFMT : Z := 61440.
Definition S_IFLNK : Z := 40960.
Definition S_ISUID : Z := 2048.
Definition S_ISGID : Z := 1024.
Definition S_ISVTX : Z := 512.
Definition S_IRWXU : Z := 448.
Definition S_IRUSR : Z := 256.
Definition S_IWUSR : Z := 128.
Definition S_IXUSR : Z := 64.
Definition S_IRWXG : Z := 56.
Definition S_IRGRP : Z := 32.
Definition S_IWGRP : Z := 16.
Definition S_IXGRP : Z := 8.
Definition S_IRWXO : Z := 7.
Definition S_IROTH : Z := 4.
Definition S_IWOTH : Z := 2.
Definition S_IXOTH : Z := 1.

Definition S_ISLNK (m : Z) : bool := Z.eqb (Z.land m S_IFMT) S_IFLNK.

(** [c] when the bit of [perms] is set, a dash otherwise. *)
Definition perm (perms bit : Z) (c : Z) : Z := if Z.eqb (Z.land perms bit) 0 then 45%Z else c.

Definition R_CHAR : Z := 114.
Definition W_CHAR : Z := 119.
Definition X_CHAR : Z := 120.
Definition S_CHAR : Z := 115.
Definition T_CHAR : Z := 116.
Definition L_CHAR : Z := 108.

Definition format_perms `{Allocator} (mode : Z) : prog mem (option buffer) :=
  modestr ← calloc_buf (1 + 3 + 3 + 3 + 1);
  match modestr with
  | None => mret None
  | Some b =>
    let u := Z.land mode S_IRWXU in
    let g := Z.land mode S_IRWXG in
    let o := Z.land mode S_IRWXO in
    b ← pure (store_all b 0
          [ if S_ISLNK (Z.land mode S_IFMT) then L_CHAR else 45%Z;
            perm u S_IRUSR R_CHAR; perm u S_IWUSR W_CHAR; perm u S_IXUSR X_CHAR;
            perm g S_IRGRP R_CHAR; perm g S_IWGRP W_CHAR; perm g S_IXGRP X_CHAR;
            perm o S_IROTH R_CHAR; perm o S_IWOTH W_CHAR; perm o S_IXOTH X_CHAR ]);
    let perms := Z.land mode (Z.lnot S_IFMT) in
    b ← pure (if Z.eqb (Z.land perms S_ISUID) 0 then Ok b else store b 3 S_CHAR);
    b ← pure (if Z.eqb (Z.land perms S_ISGID) 0 then Ok b else store b 6 S_CHAR);
    b ← pure (if Z.eqb (Z.land perms S_ISVTX) 0 then Ok b else store b 9 T_CHAR);
    mret (Some b)
  end.

(** ** The path of the program *)
Definition PATH_MAX : nat := 4096.
Definition SLASH : Z := 47.
Definition COLON : Z := 58.

(** [strchr (3)]: the offset of the first occurrence. *)
Fixpoint strchr (s : bytes) (ch : Z) : option nat :=
  match s with
  | [] => None
  | c :: s' => if Z.eqb c ch then Some 0 else S <$> strchr s' ch
  end.

(** [strsep (3)] in a loop, with one separator. *)
Fixpoint strsep_fields (ch : Z) (s : bytes) : list bytes :=
  match s with
  | [] => [[]]
  | c :: s' =>
    let fs := strsep_fields ch s' in
    if Z.eqb c ch then [] :: fs
    else match fs with f :: fs' => (c :: f) :: fs' | [] => [[c]] end
  end.

Section Path.
Context `{Allocator} `{System} (getcwd : option bytes) (getenv_path : option bytes)
        (PATH_STDPATH : bytes).

Definition strdup_mem (s : bytes) : prog mem (option bytes) :=
  p ← alloc; mret ((fun _ => s) <$> p).

(** The character before the terminator of an element of the search path; an
    empty element that is not the first has the terminator of the one before
    it there. *)
Definition last_char (first : bool) (element : bytes) : outcome Z :=
  match last element with
  | Some c => Ok c
  | None => if first then UB "read before the buffer" else Ok 0%Z
  end.

Fixpoint search_path (first : bool) (elements : list bytes) (argv0 : bytes) : prog mem (option bytes) :=
  match elements with
  | [] => mret None
  | element :: elements' =>
    c ← pure (last_char first element);
    possible ← pure (store_all (replicate PATH_MAX None) 0
      (element ++ (if Z.eqb c SLASH then [] else [SLASH]) ++ argv0 ++ [0%Z]));
    p ← pure (string_at possible 0);
    match stat p with
    | Some _ => strdup_mem p
    | None => search_path false elements' argv0
    end
  end.

Definition get_path (argv0 : bytes) : prog mem (option bytes) :=
  match strchr argv0 SLASH with
  | Some 0 => strdup_mem argv0
  | Some (S _) =>
    match getcwd with
    | None => abort "getcwd (cwd, bytes)"
    | Some dir =>
      b ← pure (store_all (replicate PATH_MAX (Some 0%Z)) 0 (dir ++ [0%Z]));
      len ← pure (strlen_at b 0);
      let bytes := PATH_MAX - len in
      b ← pure (strncat_at b 0 [SLASH] bytes);
      let bytes := bytes - 1 in
      b ← pure (strncat_at b 0 argv0 bytes);
      b ← pure (store b (PATH_MAX - 1) 0%Z);
      p ← pure (string_at b 0);
      match stat p with
      | Some _ => strdup_mem p
      | None => mret None
      end
    end
  | None =>
    path ← strdup_mem (match getenv_path with Some p => p | None => PATH_STDPATH end);
    match path with
    | None => abort "path"
    | Some path => search_path true (strsep_fields COLON path) argv0
    end
  end.
End Path.

(** ** The version of the kernel *)
Definition is_blank (c : Z) : bool := Z.eqb c SPACE || (Z.leb 9 c && Z.leb c 13).

Fixpoint skip_blanks (s : bytes) : bytes :=
  match s with
  | c :: s' => if is_blank c then skip_blanks s' else s
  | [] => []
  end.

Fixpoint digit_prefix (s : bytes) : bytes * bytes :=
  match s with
  | c :: s' => if is_digit c then let '(ds, r) := digit_prefix s' in (c :: ds, r) else ([], s)
  | [] => ([], [])
  end.

(** The conversion [%d] of [sscanf (3)]. *)
Definition scan_int (s : bytes) : option (Z * bytes) :=
  let s1 := skip_blanks s in
  let '(neg, s2) := match s1 with
                    | c :: s' => if Z.eqb c 45 then (true, s')
                                 else if Z.eqb c 43 then (false, s') else (false, s1)
                    | [] => (false, [])
                    end in
  match digit_prefix s2 with
  | ([], _) => None
  | (ds, r) => Some ((if neg then - value 10 ds else value 10 ds)%Z, r)
  end.

Definition scan_dot_int (s : bytes) : option (Z * bytes) :=
  match s with
  | 46%Z :: s' => scan_int s'
  | _ => None
  end.

(** [sscanf (release, "%d.%d.%d", ...)]: the numbers read; the others keep -1. *)
Definition scan_version (release : bytes) : Z * Z * Z :=
  match scan_int release with
  | None => (-1, -1, -1)%Z
  | Some (a, r) =>
    match scan_dot_int r with
    | None => (a, -1, -1)%Z
    | Some (b, r) =>
      match scan_dot_int r with
      | None => (a, b, -1)%Z
      | Some (c, _) => (a, b, c)
      end
    end
  end.

Definition linux_kernel_version (release : bytes) (major minor revision : Z) : outcome bool :=
  if Z.leb major 0 then Abort "major > 0"
  else
    let '(a, b, c) := scan_version release in
    if Z.eqb a (-1) then Abort "ret && actual_major != -1"
    else
      let requested := Z.land 16711680 (Z.shiftl major 16) in
      let requested :=
        if Z.eqb minor (-1) then requested
        else
          let requested := Z.lor requested (Z.land 65280 (Z.shiftl minor 8)) in
          if Z.eqb revision (-1) then requested else Z.lor requested (Z.land 255 revision) in
      let actual := if Z.eqb c (-1) then 0%Z else Z.land 255 c in
      let actual := if Z.eqb b (-1) then actual else Z.lor actual (Z.land 65280 (Z.shiftl b 8)) in
      let actual := Z.lor actual (Z.land 16711680 (Z.shiftl a 16)) in
      Ok (Z.leb requested actual).

(** ** Virtual machines *)
Definition PROCENV_BUFFER : nat := 1024.

Fixpoint cpuinfo_loop (fuel : nat) (f : bytes) : outcome bool :=
  match fuel with
  | 0 => Diverge
  | S fuel' =>
    match fgets PROCENV_BUFFER f with
    | None => Ok false
    | Some (buffer, f') =>
      if negb (bool_decide (strstr buffer (lit "flags") = Some 0)) then cpuinfo_loop fuel' f'
      else Ok (bool_decide (is_Some (strstr buffer (lit "hypervisor"))))
    end
  end.

Definition in_vm_linux `{System} : outcome bool :=
  match read_file (lit "/proc/cpuinfo") with
  | None => Ok false
  | Some f => cpuinfo_loop (S (length f)) f
  end.

Example scan_release : scan_version (lit "5.15.0-91-generic") = (5, 15, 0)%Z.
Proof. reflexivity. Qed.

(** The revision is cut to eight bits: 4.14.336 is taken for older than 4.14.100. *)
Example kernel_version_wraps : linux_kernel_version (lit "4.14.336") 4 14 100 = Ok false.
Proof. reflexivity. Qed.

(** ** Tables *)
Lemma map_scan_terminated tbl v :
  map_scan (terminated tbl) (fun num => Z.eqb v num) = Ok (find_name tbl v).
Proof.
  unfold terminated. induction tbl as [|[name num] tbl IH]; [done|]. cbn in *.
  by destruct (Z.eqb v num).
Qed.

Lemma map_scan_some tbl test :
  exists o, map_scan (terminated tbl) test = Ok o /\ (forall name, o = Some name -> exists z, (name, z) ∈ tbl).
Proof.
  unfold terminated. induction tbl as [|[name num] tbl (o & E & Ho)]; [by exists None|]. cbn in *.
  destruct (test num); [|exists o; split; [done|]; intros n En; destruct (Ho n En) as [z Hz]; exists z; by right].
  exists (Some name). split; [done|]. intros n [= <-]. exists num. by left.
Qed.

(** [get_thread_scheduler_name] names the three policies of its table;
    for any other policy it reads past the end of the table, which has no
    terminator. *)
Theorem get_thread_scheduler_name_correct (other fifo rr sched : Z) :
  NoDup [other; fifo; rr] ->
  (sched = other -> get_thread_scheduler_name other fifo rr sched = Ok (Some (lit "SCHED_OTHER"))) /\
  (sched = fifo -> get_thread_scheduler_name other fifo rr sched = Ok (Some (lit "SCHED_FIFO"))) /\
  (sched = rr -> get_thread_scheduler_name other fifo rr sched = Ok (Some (lit "SCHED_RR"))) /\
  (sched ∉ [other; fifo; rr] -> ~ defined (get_thread_scheduler_name other fifo rr sched)).
Proof.
  rewrite !NoDup_cons, !not_elem_of_cons. intros (Hn1 & Hn2 & _).
  unfold get_thread_scheduler_name, thread_sched_policy_map. cbn [map_scan].
  destruct (Z.eqb_spec other sched), (Z.eqb_spec fifo sched), (Z.eqb_spec rr sched); naive_solver.
Qed.

Lemma get_thread_scheduler_name_witness :
  (3%Z = 0%Z -> get_thread_scheduler_name 0 1 2 3 = Ok (Some (lit "SCHED_OTHER"))) /\
  (3%Z = 1%Z -> get_thread_scheduler_name 0 1 2 3 = Ok (Some (lit "SCHED_FIFO"))) /\
  (3%Z = 2%Z -> get_thread_scheduler_name 0 1 2 3 = Ok (Some (lit "SCHED_RR"))) /\
  (3%Z ∉ [0; 1; 2]%Z -> ~ defined (get_thread_scheduler_name 0 1 2 3)).
Proof. apply (get_thread_scheduler_name_correct 0 1 2 3). apply (bool_decide_unpack _). by vm_compute. Defined.

(** ** Flags *)
Section FlagsSpec.
Context `{AllocTotal} `{Locale}.

Definition flag_names (tbl : list (bytes * Z)) (flags : Z) : list bytes :=
  map fst (filter (fun e : bytes * Z => Z.land flags e.2 <> 0%Z) tbl).

(** The names with a comma and a space between them. *)
Definition listing (names : list bytes) : bytes :=
  match names with [] => [] | n :: ns => n ++ concat (map (fun n => lit ", " ++ n) ns) end.

Lemma nz_listing names : Forall nz names -> nz (listing names).
Proof.
  destruct 1 as [|n ns Hn Hns]; [constructor|]. apply nz_app. split; [done|].
  induction Hns as [|n' ns Hn' _ IH]; [constructor|]. cbn [map concat]. rewrite <- app_assoc.
  apply nz_app. split; [nz_lit|]. apply nz_app. by split.
Qed.

Lemma flags_loop_ok tbl flags b t first m :
  Forall (fun e => nz e.1) tbl -> cstr_of b t -> nz t ->
  exists b' m', flags_loop tbl flags b first m = Ok (b', m') /\ ticked m m' /\
    cstr_of b' (t ++ (if first then listing (flag_names tbl flags)
                      else concat (map (fun n => lit ", " ++ n) (flag_names tbl flags)))) /\
    (b' = None <-> b = None /\ flag_names tbl flags = []).
Proof.
  intros Htbl. revert b t first m. unfold flag_names.
  induction Htbl as [|[name num] tbl Hn _ IH]; intros b t first m Hb Ht.
  - exists b, m. split_and!; try done; [by destruct first; rewrite app_nil_r|naive_solver].
  - cbn [flags_loop]. rewrite filter_cons. cbn [snd].
    destruct (Z.eqb_spec (Z.land flags num) 0) as [E|E].
    + rewrite decide_False by naive_solver. by apply IH.
    + rewrite decide_True by done. cbn [map fst]. cbn in Hn.
      set (p := if first then [] else lit ", ").
      assert (nz (p ++ name)) as Hp by (apply nz_app; split; [unfold p; destruct first; nz_lit|done]).
      assert (format_mbs (lit "%s%s") [AStr p; AStr name] = Ok (Some (p ++ name))) as Hf.
      { unfold format_mbs, format_with. cbv -[opt_app app p]. cbn [opt_app].
        by rewrite ?app_nil_l, ?app_nil_r. }
      destruct (appendf_ok b t _ _ _ m Hb Ht Hf Hp) as (b1 & m1 & E1 & Hb1 & Ht1).
      destruct (IH (Some b1) (t ++ p ++ name) false m1 Hb1) as (b2 & m2 & E2 & Ht2 & Hb2 & Hn2);
        [by apply nz_app|].
      exists b2, m2. split_and!; [step_with E1; exact E2|by etrans| |naive_solver].
      revert Hb2. unfold p. destruct first; cbn [listing map concat]; by rewrite <- !app_assoc.
Qed.

(** [get_personality_flags] returns the names of exactly the flags of the
    table that share a bit with the argument, in the order of the table and
    separated by a comma and a space; a null pointer when there are none. *)
Theorem get_personality_flags_correct (tbl : list (bytes * Z)) (flags : Z) (m : mem) :
  Forall (fun e => nz e.1) tbl ->
  exists b m', get_personality_flags tbl flags m = Ok (b, m') /\ heap m' = heap m /\
    match b with
    | None => flag_names tbl flags = []
    | Some b => flag_names tbl flags <> [] /\ string_at b 0 = Ok (listing (flag_names tbl flags))
    end.
Proof.
  intros Htbl.
  destruct (flags_loop_ok tbl flags None [] true m Htbl eq_refl (Forall_nil_2 _))
    as (b & m' & E & [k ->] & Hb & Hn).
  exists b, (ticks k m). split; [exact E|]. split; [done|]. cbn [app] in Hb.
  destruct b as [b|]; [|by apply Hn]. split; [intros En; discriminate (proj2 Hn (conj eq_refl En))|].
  destruct Hb as [junk ->]. apply string_at_start.
  assert (Forall nz (flag_names tbl flags)) as Hnz.
  { apply Forall_forall. intros n Hn'. apply list_elem_of_fmap in Hn' as (e & -> & He).
    apply list_elem_of_filter in He as [_ He]. rewrite Forall_forall in Htbl. by apply Htbl. }
  by apply nz_listing.
Qed.
End FlagsSpec.

Lemma get_personality_flags_witness :
  exists b m', @get_personality_flags total_allocator c_locale
      [(lit "ADDR_NO_RANDOMIZE", 262144%Z); (lit "MMAP_PAGE_ZERO", 1048576%Z); (lit "SHORT_INODE", 16777216%Z)]
      17039360 mem0 = Ok (b, m') /\ heap m' = heap mem0 /\
    match b with
    | None => flag_names [(lit "ADDR_NO_RANDOMIZE", 262144%Z); (lit "MMAP_PAGE_ZERO", 1048576%Z);
                          (lit "SHORT_INODE", 16777216%Z)] 17039360 = []
    | Some b => flag_names [(lit "ADDR_NO_RANDOMIZE", 262144%Z); (lit "MMAP_PAGE_ZERO", 1048576%Z);
                            (lit "SHORT_INODE", 16777216%Z)] 17039360 <> [] /\
                string_at b 0 = Ok (lit "ADDR_NO_RANDOMIZE, SHORT_INODE")
    end.
Proof.
  apply (@get_personality_flags_correct total_allocator total_allocator_total c_locale
           [(lit "ADDR_NO_RANDOMIZE", 262144%Z); (lit "MMAP_PAGE_ZERO", 1048576%Z);
            (lit "SHORT_INODE", 16777216%Z)] 17039360 mem0).
  repeat constructor; done.
Defined.

(** ** Permissions *)

(** The three letters for the bits from [hi] down, the third one being [c] when
    the bit [special] is set. *)
Definition triple (mode hi special c : Z) : bytes :=
  [ if Z.testbit mode hi then R_CHAR else 45%Z;
    if Z.testbit mode (hi - 1) then W_CHAR else 45%Z;
    if Z.testbit mode special then c else if Z.testbit mode (hi - 2) then X_CHAR else 45%Z ].

Definition perms_text (mode : Z) : bytes :=
  (if Z.eqb (Z.land mode S_IFMT) S_IFLNK then L_CHAR else 45%Z)
  :: triple mode 8 11 S_CHAR ++ triple mode 5 10 S_CHAR ++ triple mode 2 9 T_CHAR.

Lemma land_bit m k : (0 <= k)%Z -> Z.eqb (Z.land m (2 ^ k)) 0 = negb (Z.testbit m k).
Proof.
  intros Hk. destruct (Z.testbit m k) eqn:E; cbn.
  - apply Z.eqb_neq. intros H0. assert (Z.testbit (Z.land m (2 ^ k)) k = false) as Hf
      by (rewrite H0; apply Z.bits_0).
    rewrite Z.land_spec, E, Z.pow2_bits_true in Hf; done.
  - apply Z.eqb_eq, Z.bits_inj'. intros i Hi. rewrite Z.land_spec, Z.bits_0.
    destruct (Z.eq_dec i k) as [->|]; [by rewrite E|].
    rewrite Z.pow2_bits_false by done. by rewrite andb_false_r.
Qed.

Lemma land_mask_bit m mask k :
  (0 <= k)%Z -> Z.land mask (2 ^ k) = (2 ^ k)%Z ->
  Z.eqb (Z.land (Z.land m mask) (2 ^ k)) 0 = negb (Z.testbit m k).
Proof. intros Hk Hm. by rewrite <- Z.land_assoc, Hm, land_bit. Qed.

Lemma perm_bit m mask k c :
  (0 <= k)%Z -> Z.land mask (2 ^ k) = (2 ^ k)%Z ->
  perm (Z.land m mask) (2 ^ k) c = if Z.testbit m k then c else 45%Z.
Proof. intros Hk Hm. unfold perm. rewrite land_mask_bit by done. by destruct (Z.testbit m k). Qed.

Lemma format_perms_run `{AllocTotal} (mode : Z) (m : mem) :
  format_perms mode m = Ok (Some (holding (perms_text mode) []), tick m).
Proof.
  unfold format_perms. step_with (calloc_buf_run (1 + 3 + 3 + 3 + 1) m).
  change S_IRUSR with (2 ^ 8)%Z. change S_IWUSR with (2 ^ 7)%Z. change S_IXUSR with (2 ^ 6)%Z.
  change S_IRGRP with (2 ^ 5)%Z. change S_IWGRP with (2 ^ 4)%Z. change S_IXGRP with (2 ^ 3)%Z.
  change S_IROTH with (2 ^ 2)%Z. change S_IWOTH with (2 ^ 1)%Z. change S_IXOTH with (2 ^ 0)%Z.
  change S_ISUID with (2 ^ 11)%Z. change S_ISGID with (2 ^ 10)%Z. change S_ISVTX with (2 ^ 9)%Z.
  rewrite !perm_bit by done. rewrite !land_mask_bit by done.
  unfold S_ISLNK. rewrite <- Z.land_assoc. change (Z.land S_IFMT S_IFMT) with S_IFMT.
  unfold perms_text, triple. cbn [Z.sub Z.opp Z.add Z.pos_sub Z.succ_double Z.pred_double Z.double].
  set (l := if Z.eqb _ _ then _ else _).
  set (u1 := if Z.testbit mode 8 then _ else _). set (u2 := if Z.testbit mode 7 then _ else _).
  set (u3 := if Z.testbit mode 6 then _ else _). set (g1 := if Z.testbit mode 5 then _ else _).
  set (g2 := if Z.testbit mode 4 then _ else _). set (g3 := if Z.testbit mode 3 then _ else _).
  set (o1 := if Z.testbit mode 2 then _ else _). set (o2 := if Z.testbit mode 1 then _ else _).
  set (o3 := if Z.testbit mode 0 then _ else _).
  by destruct (Z.testbit mode 11), (Z.testbit mode 10), (Z.testbit mode 9).
Qed.

(** [format_perms] writes the letters of [ls -l] into a buffer of exactly
    the needed size: whether the file is a symbolic link, then the permissions
    of the owner, the group and the others, where the set-user-id, set-group-id
    and sticky bits take the place of the execute permission. *)
Theorem format_perms_correct `{AllocTotal} (mode : Z) (m : mem) :
  format_perms mode m = Ok (Some (holding (perms_text mode) []), tick m).
Proof. apply format_perms_run. Qed.

Lemma format_perms_witness :
  @format_perms total_allocator 35309 mem0 = Ok (Some (holding (lit "-rwsr-xr-x") []), tick mem0).
Proof. exact (@format_perms_correct total_allocator total_allocator_total 35309 mem0). Defined.

Example perms_setuid : perms_text 35309 = lit "-rwsr-xr-x".
Proof. reflexivity. Qed.

(** ** The version of the kernel *)
Lemma lor_shift x y k : (0 <= k)%Z -> (0 <= y < 2 ^ k)%Z -> Z.lor (Z.shiftl x k) y = (x * 2 ^ k + y)%Z.
Proof.
  intros Hk Hy. rewrite <- Z.shiftl_mul_pow2 by done.
  assert (Z.land (Z.shiftl x k) y = 0)%Z as Hl.
  { apply Z.bits_inj'. intros i Hi. rewrite Z.land_spec, Z.bits_0.
    destruct (Z_lt_le_dec i k) as [Hlt|Hge]; [by rewrite Z.shiftl_spec_low|].
    rewrite <- (Z.mod_small y (2 ^ k)) by done. rewrite Z.mod_pow2_bits_high by lia.
    apply andb_false_r. }
  rewrite <- Z.lxor_lor by done. symmetry. by apply Z.add_nocarry_lxor.
Qed.

Lemma mask_shift v k : (0 <= k)%Z -> (0 <= v < 256)%Z ->
  Z.land (Z.shiftl 255 k) (Z.shiftl v k) = Z.shiftl v k.
Proof.
  intros Hk Hv. rewrite <- Z.shiftl_land. f_equal. rewrite Z.land_comm.
  change 255%Z with (Z.ones 8). by rewrite Z.land_ones, Z.mod_small.
Qed.

Definition in_byte (v : Z) : Prop := (0 <= v < 256)%Z.

Lemma pack_version a b c :
  in_byte a -> in_byte b -> in_byte c ->
  Z.lor (Z.lor (Z.land 255 c) (Z.land 65280 (Z.shiftl b 8))) (Z.land 16711680 (Z.shiftl a 16))
  = (a * 65536 + b * 256 + c)%Z.
Proof.
  unfold in_byte. intros Ha Hb Hc.
  pose proof (mask_shift c 0 ltac:(lia) Hc) as E0. rewrite !Z.shiftl_0_r in E0.
  pose proof (mask_shift b 8 ltac:(lia) Hb) as E1. change (Z.shiftl 255 8) with 65280%Z in E1.
  pose proof (mask_shift a 16 ltac:(lia) Ha) as E2. change (Z.shiftl 255 16) with 16711680%Z in E2.
  rewrite E0, E1, E2. rewrite (Z.lor_comm c). rewrite lor_shift by (cbn; lia).
  rewrite Z.lor_comm, lor_shift; [|lia|cbn; lia]. cbn. lia.
Qed.

Definition starts_digit (s : bytes) : bool := match s with c :: _ => is_digit c | [] => false end.

Lemma digit_prefix_app ds rest :
  forallb is_digit ds = true -> starts_digit rest = false -> digit_prefix (ds ++ rest) = (ds, rest).
Proof.
  intros Hds Hr. induction ds as [|d ds IH]; cbn.
  - destruct rest as [|c rest]; [done|]. cbn in *. by rewrite Hr.
  - cbn in Hds. apply andb_prop in Hds as [-> Hds]. by rewrite IH.
Qed.

Lemma digits_are_digits n : (0 <= n)%Z -> forallb is_digit (digits 10 n) = true.
Proof.
  intros Hn. apply forallb_forall. intros c Hc. pose proof (digits_chars 10 ltac:(lia) n Hn) as Hd.
  rewrite Forall_forall in Hd. apply list_elem_of_In, Hd in Hc as (d & Hd' & ->).
  unfold is_digit, digit_char. destruct (Z.ltb_spec d 10); lia.
Qed.

Lemma scan_int_digits n rest :
  (0 <= n)%Z -> starts_digit rest = false -> scan_int (digits 10 n ++ rest) = Some (n, rest).
Proof.
  intros Hn Hr. pose proof (digits_are_digits n Hn) as Hd.
  pose proof (digits_value 10 ltac:(lia) n Hn) as Hv. pose proof (digits_nonempty 10 n) as Hne.
  pose proof (digit_prefix_app _ _ Hd Hr) as Hp.
  destruct (digits 10 n) as [|d ds]; [done|]. cbn in Hd. apply andb_prop in Hd as [Hd _].
  unfold is_digit in Hd. unfold scan_int. cbn [app skip_blanks] in *.
  replace (is_blank d) with false by (unfold is_blank, SPACE; lia).
  replace (Z.eqb d 45) with false by lia. replace (Z.eqb d 43) with false by lia.
  rewrite Hp. by rewrite Hv.
Qed.

(** The release of a kernel: three numbers, and anything after them that does
    not go on with a digit. *)
Definition release_text (a b c : Z) (rest : bytes) : bytes :=
  digits 10 a ++ lit "." ++ digits 10 b ++ lit "." ++ digits 10 c ++ rest.

Lemma scan_release_text a b c rest :
  (0 <= a)%Z -> (0 <= b)%Z -> (0 <= c)%Z -> starts_digit rest = false ->
  scan_version (release_text a b c rest) = (a, b, c).
Proof.
  intros Ha Hb Hc Hr. unfold scan_version, release_text.
  rewrite (scan_int_digits a) by done. change (lit ".") with [46%Z].
  cbn [scan_dot_int app]. rewrite (scan_int_digits b) by done. cbn [scan_dot_int app]. by rewrite (scan_int_digits c).
Qed.

(** At least the version asked for, where -1 leaves the rest open. *)
Definition at_least (a b c major minor revision : Z) : Prop :=
  (major < a \/ major = a /\
   (minor = -1 \/ minor < b \/ minor = b /\ (revision = -1 \/ revision <= c)))%Z.

(** C39: for a release whose three numbers are below 256 and a version asked for
    whose parts are below 256, [linux_kernel_version] says exactly whether the
    release is at least that version, number by number; a minor or a revision
    of -1 leaves the parts from there on open. *)
Theorem linux_kernel_version_correct (a b c major minor revision : Z) (rest : bytes) :
  in_byte a -> in_byte b -> in_byte c -> starts_digit rest = false ->
  (0 < major < 256)%Z -> (-1 <= minor < 256)%Z -> (-1 <= revision < 256)%Z ->
  exists r, linux_kernel_version (release_text a b c rest) major minor revision = Ok r /\
            (r = true <-> at_least a b c major minor revision).
Proof.
  intros Ha Hb Hc Hr Hmaj Hmin Hrev. unfold linux_kernel_version.
  replace (Z.leb major 0) with false by lia.
  rewrite scan_release_text by (unfold in_byte in *; lia || done).
  unfold in_byte in *. replace (Z.eqb a (-1)) with false by lia.
  replace (Z.eqb c (-1)) with false by lia. replace (Z.eqb b (-1)) with false by lia.
  eexists. split; [reflexivity|]. rewrite Z.leb_le.
  rewrite pack_version by done. unfold at_least.
  pose proof (pack_version major 0 0 ltac:(unfold in_byte; lia) ltac:(unfold in_byte; lia) ltac:(unfold in_byte; lia)) as E0.
  change (Z.lor (Z.land 255 0) (Z.land 65280 (Z.shiftl 0 8))) with 0%Z in E0. rewrite Z.lor_0_l in E0.
  destruct (Z.eqb_spec minor (-1)) as [->|Hm]; [rewrite E0; lia|].
  pose proof (pack_version major minor 0 ltac:(unfold in_byte; lia) ltac:(unfold in_byte; lia) ltac:(unfold in_byte; lia)) as E1.
  change (Z.land 255 0) with 0%Z in E1. rewrite Z.lor_0_l, Z.lor_comm in E1.
  destruct (Z.eqb_spec revision (-1)) as [->|Hv]; [rewrite E1; lia|].
  pose proof (pack_version major minor revision ltac:(unfold in_byte; lia) ltac:(unfold in_byte; lia)
                ltac:(unfold in_byte; lia)) as E2.
  rewrite (Z.lor_comm _ (Z.land 16711680 _)), (Z.lor_comm (Z.land 255 revision)), Z.lor_assoc in E2.
  rewrite E2. lia.
Qed.

Lemma linux_kernel_version_witness :
  exists r, linux_kernel_version (release_text 5 15 0 (lit "-91-generic")) 5 8 (-1) = Ok r /\
            (r = true <-> at_least 5 15 0 5 8 (-1)).
Proof. apply (linux_kernel_version_correct 5 15 0 5 8 (-1) (lit "-91-generic")); done. Defined.

(** ** Virtual machines *)
Lemma prefix_of_app p s : prefix_of p s = true <-> exists t, s = p ++ t.
Proof.
  revert s. induction p as [|c p IH]; intros s; cbn; [split; [by exists s|done]|].
  destruct s as [|d s]; [split; [done|by intros (t & ?)]|].
  rewrite andb_true_iff, Z.eqb_eq, IH. split.
  - intros (-> & t & ->). by exists t.
  - intros (t & [= -> ->]). split; [done|by exists t].
Qed.

Lemma prefix_of_take p s n : length p <= n -> prefix_of p s = true -> prefix_of p (take n s) = true.
Proof.
  rewrite !prefix_of_app. intros Hn (t & ->). exists (take (n - length p) t). by rewrite take_app_ge.
Qed.

Definition occurs (p s : bytes) : bool := bool_decide (is_Some (strstr s p)).

(** What the lines of /proc/cpuinfo tell: the first one that starts with
    "flags" decides, as far as it fits in the buffer. *)
Fixpoint vm_report (ls : list bytes) : bool :=
  match ls with
  | [] => false
  | l :: ls' =>
    if prefix_of (lit "flags") l then occurs (lit "hypervisor") (take 1023 (l ++ [NL]))
    else vm_report ls'
  end.

Definition cpuinfo_line (l : bytes) : Prop :=
  nz l /\ (NL ∉ l) /\ (prefix_of (lit "flags") l = true \/ length l < 1023).

Lemma fgets_any_line l f :
  nz l -> NL ∉ l -> exists f', fgets 1024 (l ++ NL :: f) = Some (take 1023 (l ++ [NL]), f').
Proof.
  intros Hnz Hnl. destruct (decide (length l < 1023)) as [Hlt|Hge].
  - exists f. rewrite (fgets_line 1023) by done. rewrite take_ge; [done|]. len_lia.
  - exists (drop 1023 l ++ NL :: f). rewrite (fgets_long 1023) by (done || lia).
    by rewrite take_app_le by lia.
Qed.

Lemma cpuinfo_loop_lines ls fuel :
  Forall cpuinfo_line ls -> length ls < fuel -> cpuinfo_loop fuel (file_of ls) = Ok (vm_report ls).
Proof.
  intros Hls. revert fuel. induction Hls as [|l ls (Hnz & Hnl & Hl) Hls IH];
    intros [|fuel] Hf; cbn [length] in Hf; try lia; [done|].
  rewrite file_of_cons. cbn [cpuinfo_loop vm_report]. unfold PROCENV_BUFFER.
  destruct (prefix_of (lit "flags") l) eqn:Ep.
  - destruct (fgets_any_line l (file_of ls) Hnz Hnl) as (f' & ->).
    rewrite prefix_of_strstr, prefix_of_take; [done|cbn; lia|].
    apply prefix_of_app. apply prefix_of_app in Ep as (t & ->). exists (t ++ [NL]).
    by rewrite app_assoc.
  - destruct Hl as [|Hl]; [done|]. rewrite (fgets_line 1023) by done.
    rewrite prefix_of_strstr. replace (prefix_of (lit "flags") (l ++ [NL])) with false.
    + cbn [negb]. apply IH. lia.
    + symmetry. apply not_true_iff_false. rewrite prefix_of_app. intros (t & Et).
      apply not_true_iff_false in Ep. apply Ep, prefix_of_app.
      destruct t as [|c t _] using rev_ind.
      * rewrite app_nil_r in Et.
        assert (last (l ++ [NL]) = last (lit "flags")) as E by by rewrite Et.
        rewrite last_snoc in E. discriminate E.
      * rewrite app_assoc in Et. apply app_inj_tail in Et as [-> _]. by exists t.
Qed.

(** On a /proc/cpuinfo of text lines in which every line up to the first
    one that starts with "flags" is shorter than the buffer, [in_vm_linux] ends
    and is true exactly when that line names the hypervisor flag within the
    part of it that fits in the buffer; it is false without such a line, or
    when the file cannot be opened. *)
Theorem in_vm_linux_correct `{System} (ls : list bytes) :
  Forall cpuinfo_line ls ->
  (read_file (lit "/proc/cpuinfo") = None -> in_vm_linux = Ok false) /\
  (read_file (lit "/proc/cpuinfo") = Some (file_of ls) -> in_vm_linux = Ok (vm_report ls)).
Proof.
  intros Hls. unfold in_vm_linux. split; intros ->; [done|].
  apply cpuinfo_loop_lines; [done|]. pose proof (file_of_length ls). lia.
Qed.

#[local] Instance vm_system : System := {|
  fcntl_getfl := fun _ => (0, 0)%Z;
  ioctl_vt_getmode := fun _ => (-1)%Z;
  open_tty := (-1)%Z;
  getuid := 1000%Z;
  stat := fun p => if bool_decide (p = lit "/bin/procenv") then Some (mk_stat 0 9 33261 0) else None;
  read_file := fun p => if bool_decide (p = lit "/proc/cpuinfo")
                        then Some (file_of [lit "processor: 0"; lit "flags: fpu hypervisor lm"]) else None;
  makedev := fun a b => (256 * a + b)%Z;
  major := fun d => (d / 256)%Z;
  minor := fun d => (d mod 256)%Z
|}.

Lemma in_vm_linux_witness :
  (@read_file vm_system (lit "/proc/cpuinfo") = None -> @in_vm_linux vm_system = Ok false) /\
  (@read_file vm_system (lit "/proc/cpuinfo") = Some (file_of [lit "processor: 0"; lit "flags: fpu hypervisor lm"]) ->
   @in_vm_linux vm_system = Ok true).
Proof.
  apply (@in_vm_linux_correct vm_system [lit "processor: 0"; lit "flags: fpu hypervisor lm"]).
  apply Forall_cons_2; [|apply Forall_cons_2; [|constructor]].
  - split_and!; [nz_lit|by vm_compute; set_solver|right; cbn; lia].
  - split_and!; [nz_lit|by vm_compute; set_solver|by left].
Defined.

(** ** The path of the program *)
Lemma write_string n (c : cell) s :
  length s < n ->
  store_all (replicate n c) 0 (s ++ [0%Z]) = Ok (holding s (replicate (n - length s - 1) c)).
Proof.
  intros Hn. unfold store_all, holding. rewrite bool_decide_true by len_lia. f_equal.
  rewrite take_0, map_app, <- app_assoc, drop_replicate. cbn [map app].
  do 3 f_equal. len_lia.
Qed.

(** A terminator in the last element leaves the string alone. *)
Lemma store_last text junk n :
  n = length (holding text junk) ->
  exists junk', store (holding text junk) (n - 1) 0 = Ok (holding text junk').
Proof.
  intros ->. rewrite length_holding. destruct junk as [|x junk _] using rev_ind.
  - exists []. unfold holding. rewrite store_middle; [done|len_lia].
  - exists (junk ++ [Some 0%Z]). unfold holding.
    change (map Some text ++ Some 0%Z :: junk ++ ?k) with (map Some text ++ (Some 0%Z :: junk) ++ k).
    rewrite app_assoc, store_middle; [|len_lia]. by rewrite <- app_assoc.
Qed.

(** [strncat (3)] into what is left of a cleared buffer. *)
Lemma strncat_room s src k n (c : cell) :
  nz s -> nz src -> length (take n src) <= k ->
  strncat_at (holding s (replicate k c)) 0 src n
  = Ok (holding (s ++ take n src) (replicate (k - length (take n src)) c)).
Proof.
  intros Hs Hsrc Hk. set (j := length (take n src)) in *.
  replace (replicate k c) with (replicate j c ++ replicate (k - j) c)
    by (rewrite <- replicate_add; by replace (j + (k - j)) with k by lia).
  apply (strncat_holding [] s src (replicate j c) (replicate (k - j) c)); try done.
  by rewrite length_replicate.
Qed.

Lemma strncat_full s src k n :
  nz s -> k < length (take n src) ->
  strncat_at (holding s (replicate k (Some 0%Z))) 0 src n = UB "write outside the buffer".
Proof.
  intros Hs Hk. unfold strncat_at. rewrite strlen_at_start by done. cbn [mbind outcome_bind].
  unfold store_all. rewrite bool_decide_false; [done|].
  rewrite length_holding, length_replicate, length_app. cbn [length]. lia.
Qed.

Lemma prog_bind_pure_ub {S A B} (o : outcome A) why (f : A -> prog S B) s :
  o = UB why -> (pure o ≫= f) s = UB why.
Proof. by intros ->. Qed.

Section PathSpec.
Context `{AllocTotal} `{System} (getcwd getenv_path : option bytes) (PATH_STDPATH : bytes).

(** The file tried for an element of the search path. *)
Definition candidate (argv0 element : bytes) : bytes :=
  element ++ (if bool_decide (last element = Some SLASH) then [] else [SLASH]) ++ argv0.

Definition exists_file (p : bytes) : bool := bool_decide (is_Some (stat p)).

Lemma strdup_run s m : strdup_mem s m = Ok (Some s, tick m).
Proof. unfold strdup_mem. by step_with (alloc_run m). Qed.

Lemma search_path_ok first elements argv0 m :
  nz argv0 -> Forall (fun e => nz e /\ length (candidate argv0 e) < PATH_MAX) elements ->
  (first = true -> head elements <> Some []) ->
  exists m', search_path first elements argv0 m
             = Ok (find exists_file (map (candidate argv0) elements), m') /\ ticked m m'.
Proof.
  intros Ha Hes. revert first. induction Hes as [|e es [He Hlen] Hes IH]; intros first Hf.
  - by exists m.
  - cbn [search_path map find].
    assert (exists c, last_char first e = Ok c /\ Z.eqb c SLASH = bool_decide (last e = Some SLASH))
      as (c & Ec & Es).
    { unfold last_char. destruct (last e) as [c|] eqn:El.
      - exists c. split; [done|]. destruct (Z.eqb_spec c SLASH); symmetry;
          [apply bool_decide_eq_true|apply bool_decide_eq_false]; congruence.
      - apply last_None in El as ->. destruct first; [by destruct (Hf eq_refl)|]. by exists 0%Z. }
    step_with (pure_ok _ _ m Ec). rewrite Es.
    assert (e ++ (if bool_decide (last e = Some SLASH) then [] else [SLASH]) ++ argv0 ++ [0%Z]
            = candidate argv0 e ++ [0%Z]) as -> by (unfold candidate; by rewrite <- !app_assoc).
    step_with (pure_ok _ _ m (write_string PATH_MAX None _ Hlen)).
    assert (nz (candidate argv0 e)) as Hnz.
    { unfold candidate. apply nz_app. split; [done|]. apply nz_app. split; [|done].
      destruct (bool_decide _); [constructor|]. by repeat constructor. }
    step_with (pure_ok _ _ m (string_at_start _ (replicate (PATH_MAX - length (candidate argv0 e) - 1) None) Hnz)).
    unfold exists_file at 1. destruct (stat (candidate argv0 e)) as [st|].
    + rewrite bool_decide_true by by eexists. exists (tick m).
      split; [apply strdup_run|apply ticked_tick].
    + rewrite bool_decide_false by by intros [? ?]. by apply IH.
Qed.

Lemma strchr_none s ch : strchr s ch = None <-> ch ∉ s.
Proof.
  induction s as [|c s IH]; cbn; [split; [intros _; apply not_elem_of_nil|done]|].
  rewrite not_elem_of_cons. destruct (Z.eqb_spec c ch) as [->|]; [naive_solver|].
  rewrite fmap_None, IH. naive_solver.
Qed.

(** For a name without a slash, [get_path] returns the first existing file
    among the candidates of the elements of the search path (PATH, or the
    standard one), in their order, or a null pointer; the candidate of an
    element is the element, a slash unless it ends in one, and the name.  An
    empty element stands for the root directory; it must not be the first,
    and the candidates must fit in PATH_MAX. *)
Theorem get_path_search_correct (argv0 : bytes) (m : mem) :
  let elements := strsep_fields COLON (default PATH_STDPATH getenv_path) in
  nz argv0 -> (SLASH ∉ argv0) ->
  Forall (fun e => nz e /\ length (candidate argv0 e) < PATH_MAX) elements ->
  head elements <> Some [] ->
  exists m', get_path getcwd getenv_path PATH_STDPATH argv0 m
             = Ok (find exists_file (map (candidate argv0) elements), m') /\ ticked m m'.
Proof.
  intros elements Ha Hs Hes Hh. unfold get_path. apply strchr_none in Hs as ->.
  set (path := match getenv_path with Some p => p | None => PATH_STDPATH end).
  assert (elements = strsep_fields COLON path) as Ep by by destruct getenv_path.
  destruct (search_path_ok true elements argv0 (tick m) Ha Hes) as (m' & E & Ht); [done|].
  exists m'. split; [step_with (strdup_run path m); by rewrite <- Ep|].
  etrans; [apply ticked_tick|exact Ht].
Qed.

(** For a relative name with a slash in it, [get_path] returns the name
    after the working directory and a slash when such a file exists and a
    null pointer otherwise, provided the three and a terminator fit in
    PATH_MAX; when they do not, it writes outside the buffer, because
    strncat (3) adds a terminator to the characters it is allowed to copy. *)
Theorem get_path_relative_correct (dir argv0 : bytes) (i : nat) (m : mem) :
  getcwd = Some dir -> nz dir -> length dir < PATH_MAX -> nz argv0 ->
  strchr argv0 SLASH = Some (S i) ->
  (length dir + length argv0 + 2 <= PATH_MAX ->
   exists m', get_path getcwd getenv_path PATH_STDPATH argv0 m
              = Ok (if exists_file (dir ++ [SLASH] ++ argv0) then Some (dir ++ [SLASH] ++ argv0) else None, m')
              /\ ticked m m') /\
  (PATH_MAX < length dir + length argv0 + 2 ->
   ~ defined (get_path getcwd getenv_path PATH_STDPATH argv0 m)).
Proof.
  intros Hc Hd Hdl Ha Hs. unfold get_path. rewrite Hs, Hc.
  set (k := PATH_MAX - length dir - 1).
  step_with (pure_ok _ _ m (write_string PATH_MAX (Some 0%Z) dir Hdl)). fold k.
  step_with (pure_ok _ _ m (strlen_at_start dir (replicate k (Some 0%Z)) Hd)). cbv zeta.
  assert (take (PATH_MAX - length dir) [SLASH] = [SLASH]) as Et
    by (apply take_ge; change (length [SLASH]) with 1; lia).
  assert (nz [SLASH]) as Hsl by by repeat constructor.
  destruct (decide (1 <= k)) as [Hk|Hk].
  2: { split; [intros; destruct argv0; [done|cbn [length] in *; lia]|]. intros _.
       rewrite (prog_bind_pure_ub _ _ _ m (strncat_full dir [SLASH] k (PATH_MAX - length dir) Hd ltac:(rewrite Et; change (length [SLASH]) with 1; lia))).
       by intros []. }
  pose proof (strncat_room dir [SLASH] k (PATH_MAX - length dir) (Some 0%Z) Hd Hsl ltac:(rewrite Et; exact Hk)) as E1.
  rewrite Et in E1. step_with (pure_ok _ _ m E1). cbn [length].
  assert (nz (dir ++ [SLASH])) as Hds by by apply nz_app.
  split; intros Hlen.
  - assert (take (PATH_MAX - length dir - 1) argv0 = argv0) as Ea by (apply take_ge; lia).
    pose proof (strncat_room (dir ++ [SLASH]) argv0 (k - 1) (PATH_MAX - length dir - 1) (Some 0%Z) Hds Ha
                  ltac:(rewrite Ea; lia)) as E2. rewrite Ea in E2.
    step_with (pure_ok _ _ m E2). rewrite <- app_assoc.
    destruct (store_last (dir ++ [SLASH] ++ argv0) (replicate (k - 1 - length argv0) (Some 0%Z)) PATH_MAX)
      as (junk & E3); [rewrite length_holding; len_lia|].
    step_with (pure_ok _ _ m E3).
    assert (nz (dir ++ [SLASH] ++ argv0)) as Hnz by (rewrite app_assoc; by apply nz_app).
    step_with (pure_ok _ _ m (string_at_start _ junk Hnz)). unfold exists_file.
    destruct (stat (dir ++ [SLASH] ++ argv0)) as [st|].
    + rewrite bool_decide_true by by eexists. exists (tick m). split; [apply strdup_run|apply ticked_tick].
    + rewrite bool_decide_false by by intros [? ?]. by exists m.
  - rewrite (prog_bind_pure_ub _ _ _ m (strncat_full (dir ++ [SLASH]) argv0 (k - 1)
               (PATH_MAX - length dir - 1) Hds ltac:(rewrite length_take; lia))).
    by intros [].
Qed.
End PathSpec.

Lemma get_path_search_witness :
  exists m', @get_path total_allocator vm_system None (Some (lit "/sbin::/bin/")) [] (lit "procenv") mem0
             = Ok (Some (lit "/bin/procenv"), m') /\ ticked mem0 m'.
Proof.
  apply (@get_path_search_correct total_allocator total_allocator_total vm_system None
           (Some (lit "/sbin::/bin/")) [] (lit "procenv") mem0).
  - nz_lit.
  - by vm_compute; set_solver.
  - apply Forall_cons_2; [|apply Forall_cons_2; [|apply Forall_cons_2; [|constructor]]];
      (split; [nz_lit|apply Nat.ltb_lt; by vm_compute]).
  - done.
Defined.

Lemma get_path_relative_witness :
  (length (lit "/") + length (lit "bin/procenv") + 2 <= PATH_MAX ->
   exists m', @get_path total_allocator vm_system (Some (lit "/")) None [] (lit "bin/procenv") mem0
     = Ok (None, m') /\ ticked mem0 m') /\
  (PATH_MAX < length (lit "/") + length (lit "bin/procenv") + 2 ->
   ~ defined (@get_path total_allocator vm_system (Some (lit "/")) None [] (lit "bin/procenv") mem0)).
Proof.
  apply (@get_path_relative_correct total_allocator total_allocator_total vm_system (Some (lit "/")) None []
           (lit "/") (lit "bin/procenv") 2 mem0);
    [done|nz_lit|apply Nat.ltb_lt; by vm_compute|nz_lit|done].
Defined.
