(* ===== verification/Tables.v ===== *)
(** Tables: the names of the tables of src/src/procenv.c, of
    src/src/platform/platform-generic.c and of the Linux driver, in their order
    and without their terminators.  The entries under [#if defined] and the
    unconditional ones are together: [defined_entries] keeps those that the
    headers define. *)
From S2P Require Import Prelude.

(** The table [sysconf_map] of procenv.c. Part 1. *)
Definition sysconf_names_1 : list bytes :=
  [ lit "_SC_2_C_BIND"; lit "_SC_2_C_DEV"; lit "_SC_2_CHAR_TERM"; lit "_SC_2_C_VERSION";
   lit "_SC_2_FORT_DEV"; lit "_SC_2_FORT_RUN"; lit "_SC_2_LOCALEDEF"; lit "_SC_2_PBS";
   lit "_SC_2_PBS_ACCOUNTING"; lit "_SC_2_PBS_CHECKPOINT"; lit "_SC_2_PBS_LOCATE"; lit "_SC_2_PBS_MESSAGE";
   lit "_SC_2_PBS_TRACK"; lit "_SC_2_SW_DEV"; lit "_SC_2_UPE"; lit "_SC_2_VERSION"; lit "_SC_ADVISORY_INFO";
   lit "_SC_AIO_LISTIO_MAX"; lit "_SC_AIO_MAX"; lit "_SC_AIO_PRIO_DELTA_MAX"; lit "_SC_ARG_MAX";
   lit "_SC_ASYNCHRONOUS_IO"; lit "_SC_ATEXIT_MAX"; lit "_SC_AVPHYS_PAGES"; lit "_SC_BARRIERS";
   lit "_SC_BASE"; lit "_SC_BC_BASE_MAX"; lit "_SC_BC_DIM_MAX"; lit "_SC_BC_SCALE_MAX";
   lit "_SC_BC_STRING_MAX"; lit "_SC_CHAR_BIT"; lit "_SC_CHARCLASS_NAME_MAX"; lit "_SC_CHAR_MAX";
   lit "_SC_CHAR_MIN"; lit "_SC_CHILD_MAX"; lit "_SC_C_LANG_SUPPORT"].

(** The table [sysconf_map] of procenv.c. Part 2. *)
Definition sysconf_names_2 : list bytes :=
  [ lit "_SC_C_LANG_SUPPORT_R"; lit "_SC_CLK_TCK"; lit "_SC_CLOCK_SELECTION"; lit "_SC_COLL_WEIGHTS_MAX";
   lit "_SC_CPUTIME"; lit "_SC_DELAYTIMER_MAX"; lit "_SC_DEVICE_IO"; lit "_SC_DEVICE_SPECIFIC";
   lit "_SC_DEVICE_SPECIFIC_R"; lit "_SC_EQUIV_CLASS_MAX"; lit "_SC_EXPR_NEST_MAX"; lit "_SC_FD_MGMT";
   lit "_SC_FIFO"; lit "_SC_FILE_ATTRIBUTES"; lit "_SC_FILE_LOCKING"; lit "_SC_FILE_SYSTEM";
   lit "_SC_FSYNC"; lit "_SC_GETGR_R_SIZE_MAX"; lit "_SC_GETPW_R_SIZE_MAX"; lit "_SC_HOST_NAME_MAX";
   lit "_SC_INT_MAX"; lit "_SC_INT_MIN"; lit "_SC_IOV_MAX"; lit "_SC_IPV6"; lit "_SC_JOB_CONTROL";
   lit "_SC_LEVEL1_DCACHE_ASSOC"; lit "_SC_LEVEL1_DCACHE_LINESIZE"; lit "_SC_LEVEL1_DCACHE_SIZE";
   lit "_SC_LEVEL1_ICACHE_ASSOC"; lit "_SC_LEVEL1_ICACHE_LINESIZE"; lit "_SC_LEVEL1_ICACHE_SIZE";
   lit "_SC_LEVEL2_CACHE_ASSOC"; lit "_SC_LEVEL2_CACHE_LINESIZE"; lit "_SC_LEVEL2_CACHE_SIZE";
   lit "_SC_LEVEL3_CACHE_ASSOC"; lit "_SC_LEVEL3_CACHE_LINESIZE"; lit "_SC_LEVEL3_CACHE_SIZE"].

(** The table [sysconf_map] of procenv.c. Part 3. *)
Definition sysconf_names_3 : list bytes :=
  [ lit "_SC_LEVEL4_CACHE_ASSOC"; lit "_SC_LEVEL4_CACHE_LINESIZE"; lit "_SC_LEVEL4_CACHE_SIZE";
   lit "_SC_LINE_MAX"; lit "_SC_LOGIN_NAME_MAX"; lit "_SC_LONG_BIT"; lit "_SC_MAPPED_FILES";
   lit "_SC_MB_LEN_MAX"; lit "_SC_MEMLOCK"; lit "_SC_MEMLOCK_RANGE"; lit "_SC_MEMORY_PROTECTION";
   lit "_SC_MESSAGE_PASSING"; lit "_SC_MONOTONIC_CLOCK"; lit "_SC_MQ_OPEN_MAX"; lit "_SC_MQ_PRIO_MAX";
   lit "_SC_MULTI_PROCESS"; lit "_SC_NETWORKING"; lit "_SC_NGROUPS_MAX"; lit "_SC_NL_ARGMAX";
   lit "_SC_NL_LANGMAX"; lit "_SC_NL_MSGMAX"; lit "_SC_NL_NMAX"; lit "_SC_NL_SETMAX"; lit "_SC_NL_TEXTMAX";
   lit "_SC_NPROCESSORS_CONF"; lit "_SC_NPROCESSORS_ONLN"; lit "_SC_NZERO"; lit "_SC_OPEN_MAX";
   lit "_SC_PAGE_SIZE"; lit "_SC_PAGESIZE"; lit "_SC_PASS_MAX"; lit "_SC_PHYS_PAGES"; lit "_SC_PII";
   lit "_SC_PII_INTERNET"; lit "_SC_PII_INTERNET_DGRAM"; lit "_SC_PII_INTERNET_STREAM"; lit "_SC_PII_OSI"].

(** The table [sysconf_map] of procenv.c. Part 4. *)
Definition sysconf_names_4 : list bytes :=
  [ lit "_SC_PII_OSI_CLTS"; lit "_SC_PII_OSI_COTS"; lit "_SC_PII_OSI_M"; lit "_SC_PII_SOCKET";
   lit "_SC_PII_XTI"; lit "_SC_PIPE"; lit "_SC_POLL"; lit "_SC_POSIX2_C_DEV"; lit "_SC_PRIORITIZED_IO";
   lit "_SC_PRIORITY_SCHEDULING"; lit "_SC_RAW_SOCKETS"; lit "_SC_READER_WRITER_LOCKS";
   lit "_SC_REALTIME_SIGNALS"; lit "_SC_RE_DUP_MAX"; lit "_SC_REGEXP"; lit "_SC_REGEX_VERSION";
   lit "_SC_RTSIG_MAX"; lit "_SC_SAVED_IDS"; lit "_SC_SCHAR_MAX"; lit "_SC_SCHAR_MIN"; lit "_SC_SELECT";
   lit "_SC_SEMAPHORES"; lit "_SC_SEM_NSEMS_MAX"; lit "_SC_SEM_VALUE_MAX"; lit "_SC_SHARED_MEMORY_OBJECTS";
   lit "_SC_SHELL"; lit "_SC_SHRT_MAX"; lit "_SC_SHRT_MIN"; lit "_SC_SIGNALS"; lit "_SC_SIGQUEUE_MAX";
   lit "_SC_SINGLE_PROCESS"; lit "_SC_SPAWN"; lit "_SC_SPIN_LOCKS"; lit "_SC_SPORADIC_SERVER";
   lit "_SC_SSIZE_MAX"; lit "_SC_SS_REPL_MAX"; lit "_SC_STREAM_MAX"].

(** The table [sysconf_map] of procenv.c. Part 5. *)
Definition sysconf_names_5 : list bytes :=
  [ lit "_SC_STREAMS"; lit "_SC_SYMLOOP_MAX"; lit "_SC_SYNCHRONIZED_IO"; lit "_SC_SYSTEM_DATABASE";
   lit "_SC_SYSTEM_DATABASE_R"; lit "_SC_THREAD_ATTR_STACKADDR"; lit "_SC_THREAD_ATTR_STACKSIZE";
   lit "_SC_THREAD_CPUTIME"; lit "_SC_THREAD_DESTRUCTOR_ITERATIONS"; lit "_SC_THREAD_KEYS_MAX";
   lit "_SC_THREAD_PRIO_INHERIT"; lit "_SC_THREAD_PRIO_PROTECT"; lit "_SC_THREAD_PRIORITY_SCHEDULING";
   lit "_SC_THREAD_PROCESS_SHARED"; lit "_SC_THREAD_ROBUST_PRIO_INHERIT";
   lit "_SC_THREAD_ROBUST_PRIO_PROTECT"; lit "_SC_THREADS"; lit "_SC_THREAD_SAFE_FUNCTIONS";
   lit "_SC_THREAD_SPORADIC_SERVER"; lit "_SC_THREAD_STACK_MIN"; lit "_SC_THREAD_THREADS_MAX";
   lit "_SC_TIMEOUTS"; lit "_SC_TIMER_MAX"; lit "_SC_TIMERS"; lit "_SC_T_IOV_MAX"; lit "_SC_TRACE";
   lit "_SC_TRACE_EVENT_FILTER"; lit "_SC_TRACE_EVENT_NAME_MAX"; lit "_SC_TRACE_INHERIT";
   lit "_SC_TRACE_LOG"; lit "_SC_TRACE_NAME_MAX"; lit "_SC_TRACE_SYS_MAX"; lit "_SC_TRACE_USER_EVENT_MAX";
   lit "_SC_TTY_NAME_MAX"; lit "_SC_TYPED_MEMORY_OBJECTS"; lit "_SC_TZNAME_MAX"; lit "_SC_UCHAR_MAX"].

(** The table [sysconf_map] of procenv.c. Part 6. *)
Definition sysconf_names_6 : list bytes :=
  [ lit "_SC_UINT_MAX"; lit "_SC_UIO_MAXIOV"; lit "_SC_ULONG_MAX"; lit "_SC_USER_GROUPS";
   lit "_SC_USER_GROUPS_R"; lit "_SC_USHRT_MAX"; lit "_SC_V6_ILP32_OFF32"; lit "_SC_V6_ILP32_OFFBIG";
   lit "_SC_V6_LP64_OFF64"; lit "_SC_V6_LPBIG_OFFBIG"; lit "_SC_V7_ILP32_OFF32"; lit "_SC_V7_ILP32_OFFBIG";
   lit "_SC_V7_LP64_OFF64"; lit "_SC_V7_LPBIG_OFFBIG"; lit "_SC_VERSION"; lit "_SC_WORD_BIT";
   lit "_SC_XBS5_ILP32_OFF32"; lit "_SC_XBS5_ILP32_OFFBIG"; lit "_SC_XBS5_LP64_OFF64";
   lit "_SC_XBS5_LPBIG_OFFBIG"; lit "_SC_XOPEN_CRYPT"; lit "_SC_XOPEN_ENH_I18N"; lit "_SC_XOPEN_LEGACY";
   lit "_SC_XOPEN_REALTIME"; lit "_SC_XOPEN_REALTIME_THREADS"; lit "_SC_XOPEN_SHM"; lit "_SC_XOPEN_STREAMS";
   lit "_SC_XOPEN_UNIX"; lit "_SC_XOPEN_VERSION"; lit "_SC_XOPEN_XCU_VERSION"; lit "_SC_XOPEN_XPG2";
   lit "_SC_XOPEN_XPG3"; lit "_SC_XOPEN_XPG4"].

Definition sysconf_names : list bytes := sysconf_names_1 ++ sysconf_names_2 ++ sysconf_names_3 ++ sysconf_names_4 ++ sysconf_names_5 ++ sysconf_names_6.

(** The table [locale_map] of procenv.c. *)
Definition locale_names : list bytes :=
  [ lit "LC_ADDRESS"; lit "LC_COLLATE"; lit "LC_CTYPE"; lit "LC_IDENTIFICATION"; lit "LC_MEASUREMENT";
   lit "LC_MESSAGES"; lit "LC_MONETARY"; lit "LC_NAME"; lit "LC_NUMERIC"; lit "LC_PAPER";
   lit "LC_TELEPHONE"; lit "LC_TIME"].

(** The types whose sizes [show_sizeof] shows, in order. *)
Definition type_names : list bytes :=
  [ lit "blkcnt_t"; lit "blksize_t"; lit "char"; lit "clockid_t"; lit "clock_t"; lit "dev_t"; lit "div_t";
   lit "double"; lit "fenv_t"; lit "fexcept_t"; lit "float"; lit "fpos_t"; lit "fsblkcnt_t";
   lit "fsfilcnt_t"; lit "gid_t"; lit "id_t"; lit "imaxdiv_t"; lit "ino_t"; lit "int"; lit "int16_t";
   lit "int32_t"; lit "int64_t"; lit "int8_t"; lit "int_fast16_t"; lit "int_fast32_t"; lit "int_fast64_t";
   lit "int_fast8_t"; lit "int_least16_t"; lit "int_least32_t"; lit "int_least64_t"; lit "int_least8_t";
   lit "intmax_t"; lit "intptr_t"; lit "key_t"; lit "ldiv_t"; lit "lldiv_t"; lit "long double";
   lit "long int"; lit "long long int"; lit "mbstate_t"; lit "mode_t"; lit "mode_t"; lit "nlink_t";
   lit "off_t"; lit "pid_t"; lit "pthread_attr_t"; lit "pthread_barrierattr_t"; lit "pthread_barrier_t";
   lit "pthread_condattr_t"; lit "pthread_cond_t"; lit "pthread_key_t"; lit "pthread_mutexattr_t";
   lit "pthread_mutex_t"; lit "pthread_once_t"; lit "pthread_rwlockattr_t"; lit "pthread_rwlock_t";
   lit "pthread_spinlock_t"; lit "pthread_t"; lit "ptrdiff_t"; lit "rlim_t"; lit "short int";
   lit "sig_atomic_t"; lit "size_t"; lit "ssize_t"; lit "suseconds_t"; lit "timer_t"; lit "time_t";
   lit "uid_t"; lit "uint16_t"; lit "uint32_t"; lit "uint64_t"; lit "uint8_t"; lit "uint_fast16_t";
   lit "uint_fast32_t"; lit "uint_fast64_t"; lit "uint_fast8_t"; lit "uint_least16_t"; lit "uint_least32_t";
   lit "uint_least64_t"; lit "uint_least8_t"; lit "uintmax_t"; lit "uintptr_t"; lit "useconds_t";
   lit "void *"; lit "wchar_t"; lit "wint_t"].

(** The names of [show_confstrs_generic] with their titles. Part 1. *)
Definition confstr_names_1 : list (bytes * bytes) :=
  [ (lit "_CS_GNU_LIBC_VERSION", lit "_CS_GNU_LIBC_VERSION");
   (lit "_CS_GNU_LIBPTHREAD_VERSION", lit "_CS_GNU_LIBPTHREAD_VERSION");
   (lit "_CS_LFS64_CFLAGS", lit "_CS_LFS64_CFLAGS"); (lit "_CS_LFS64_LDFLAGS", lit "_CS_LFS64_LDFLAGS");
   (lit "_CS_LFS64_LIBS", lit "_CS_LFS64_LIBS"); (lit "_CS_LFS64_LINTFLAGS", lit "_CS_LFS64_LINTFLAGS");
   (lit "_CS_LFS_CFLAGS", lit "_CS_LFS_CFLAGS"); (lit "_CS_LFS_LDFLAGS", lit "_CS_LFS_LDFLAGS");
   (lit "_CS_LFS_LIBS", lit "_CS_LFS_LIBS"); (lit "_CS_LFS_LINTFLAGS", lit "_CS_LFS_LINTFLAGS");
   (lit "_CS_PATH", lit "_CS_PATH");
   (lit "_CS_POSIX_V5_WIDTH_RESTRICTED_ENVS", lit "_CS_POSIX_V5_WIDTH_RESTRICTED_ENVS");
   (lit "_CS_POSIX_V6_ILP32_OFF32", lit "_CS_POSIX_V6_ILP32_OFF32");
   (lit "_CS_POSIX_V6_ILP32_OFF32_CFLAGS", lit "_CS_POSIX_V6_ILP32_OFF32_CFLAGS");
   (lit "_CS_POSIX_V6_ILP32_OFF32_LDFLAGS", lit "_CS_POSIX_V6_ILP32_OFF32_LDFLAGS");
   (lit "_CS_POSIX_V6_ILP32_OFF32_LIBS", lit "_CS_POSIX_V6_ILP32_OFF32_LIBS");
   (lit "_CS_POSIX_V6_ILP32_OFF32_LINTFLAGS", lit "_CS_POSIX_V6_ILP32_OFF32_LINTFLAGS");
   (lit "_CS_POSIX_V6_ILP32_OFFBIG_CFLAGS", lit "_CS_POSIX_V6_ILP32_OFFBIG_CFLAGS");
   (lit "_CS_POSIX_V6_ILP32_OFFBIG_LDFLAGS", lit "_CS_POSIX_V6_ILP32_OFFBIG_LDFLAGS");
   (lit "_CS_POSIX_V6_ILP32_OFFBIG_LIBS", lit "_CS_POSIX_V6_ILP32_OFFBIG_LIBS");
   (lit "_CS_POSIX_V6_ILP32_OFFBIG_LINTFLAGS", lit "_CS_POSIX_V6_ILP32_OFFBIG_LINTFLAGS");
   (lit "_CS_POSIX_V6_LP64_OFF64_CFLAGS", lit "_CS_POSIX_V6_LP64_OFF64_CFLAGS");
   (lit "_CS_POSIX_V6_LP64_OFF64_LDFLAGS", lit "_CS_POSIX_V6_LP64_OFF64_LDFLAGS");
   (lit "_CS_POSIX_V6_LP64_OFF64_LIBS", lit "_CS_POSIX_V6_LP64_OFF64_LIBS");
   (lit "_CS_POSIX_V6_LP64_OFF64_LINTFLAGS", lit "_CS_POSIX_V6_LP64_OFF64_LINTFLAGS");
   (lit "_CS_POSIX_V6_LPBIG_OFFBIG_CFLAGS", lit "_CS_POSIX_V6_LPBIG_OFFBIG_CFLAGS");
   (lit "_CS_POSIX_V6_LPBIG_OFFBIG_LDFLAGS", lit "_CS_POSIX_V6_LPBIG_OFFBIG_LDFLAGS");
   (lit "_CS_POSIX_V6_LPBIG_OFFBIG_LIBS", lit "_CS_POSIX_V6_LPBIG_OFFBIG_LIBS");
   (lit "_CS_POSIX_V6_LPBIG_OFFBIG_LINTFLAGS", lit "_CS_POSIX_V6_LPBIG_OFFBIG_LINTFLAGS");
   (lit "_CS_POSIX_V6_WIDTH_RESTRICTED_ENVS", lit "_CS_POSIX_V6_WIDTH_RESTRICTED_ENVS");
   (lit "_CS_POSIX_V7_ILP32_OFF32_CFLAGS", lit "_CS_POSIX_V7_ILP32_OFF32_CFLAGS");
   (lit "_CS_POSIX_V7_ILP32_OFF32_LDFLAGS", lit "_CS_POSIX_V7_ILP32_OFF32_LDFLAGS");
   (lit "_CS_POSIX_V7_ILP32_OFF32_LIBS", lit "_CS_POSIX_V7_ILP32_OFF32_LIBS");
   (lit "_CS_POSIX_V7_ILP32_OFF32_LINTFLAGS", lit "_CS_POSIX_V7_ILP32_OFF32_LINTFLAGS");
   (lit "_CS_POSIX_V7_ILP32_OFFBIG_CFLAGS", lit "_CS_POSIX_V7_ILP32_OFFBIG_CFLAGS");
   (lit "_CS_POSIX_V7_ILP32_OFFBIG_LDFLAGS", lit "_CS_POSIX_V7_ILP32_OFFBIG_LDFLAGS")].

(** The names of [show_confstrs_generic] with their titles. Part 2. *)
Definition confstr_names_2 : list (bytes * bytes) :=
  [ (lit "_CS_POSIX_V7_ILP32_OFFBIG_LIBS", lit "_CS_POSIX_V7_ILP32_OFFBIG_LIBS");
   (lit "_CS_POSIX_V7_ILP32_OFFBIG_LINTFLAGS", lit "_CS_POSIX_V7_ILP32_OFFBIG_LINTFLAGS");
   (lit "_CS_POSIX_V7_LP64_OFF64_CFLAGS", lit "_CS_POSIX_V7_LP64_OFF64_CFLAGS");
   (lit "_CS_POSIX_V7_LP64_OFF64_LDFLAGS", lit "_CS_POSIX_V7_LP64_OFF64_LDFLAGS");
   (lit "_CS_POSIX_V7_LP64_OFF64_LIBS", lit "_CS_POSIX_V7_LP64_OFF64_LIBS");
   (lit "_CS_POSIX_V7_LP64_OFF64_LINTFLAGS", lit "_CS_POSIX_V7_LP64_OFF64_LINTFLAGS");
   (lit "_CS_POSIX_V7_LPBIG_OFFBIG_CFLAGS", lit "_CS_POSIX_V7_LPBIG_OFFBIG_CFLAGS");
   (lit "_CS_POSIX_V7_LPBIG_OFFBIG_LDFLAGS", lit "_CS_POSIX_V7_LPBIG_OFFBIG_LDFLAGS");
   (lit "_CS_POSIX_V7_LPBIG_OFFBIG_LIBS", lit "_CS_POSIX_V7_LPBIG_OFFBIG_LIBS");
   (lit "_CS_POSIX_V7_LPBIG_OFFBIG_LINTFLAGS", lit "_CS_POSIX_V7_LPBIG_OFFBIG_LINTFLAGS");
   (lit "_CS_POSIX_V7_WIDTH_RESTRICTED_ENVS", lit "_CS_POSIX_V7_WIDTH_RESTRICTED_ENVS");
   (lit "_CS_V5_WIDTH_RESTRICTED_ENVS", lit "_CS_V5_WIDTH_RESTRICTED_ENVS");
   (lit "_CS_V5_WIDTH_RESTRICTED_ENVS", lit "_XBS5_WIDTH_RESTRICTED_ENVS");
   (lit "_CS_V5_WIDTH_RESTRICTED_ENVS", lit "XBS5_WIDTH_RESTRICTED_ENVS");
   (lit "_CS_V6_ENV", lit "_CS_V6_ENV");
   (lit "_CS_V6_WIDTH_RESTRICTED_ENVS", lit "_CS_V6_WIDTH_RESTRICTED_ENVS");
   (lit "_CS_V6_WIDTH_RESTRICTED_ENVS", lit "POSIX_V6_WIDTH_RESTRICTED_ENVS,_POSIX_V6_WIDTH_RESTRICTED_ENVS");
   (lit "_CS_V7_ENV", lit "_CS_V7_ENV");
   (lit "_CS_V7_WIDTH_RESTRICTED_ENVS", lit "_CS_V7_WIDTH_RESTRICTED_ENVS");
   (lit "_CS_XBS5_ILP32_OFF32_CFLAGS", lit "_CS_XBS5_ILP32_OFF32_CFLAGS");
   (lit "_CS_XBS5_ILP32_OFF32_LDFLAGS", lit "_CS_XBS5_ILP32_OFF32_LDFLAGS");
   (lit "_CS_XBS5_ILP32_OFF32_LIBS", lit "_CS_XBS5_ILP32_OFF32_LIBS");
   (lit "_CS_XBS5_ILP32_OFF32_LINTFLAGS", lit "_CS_XBS5_ILP32_OFF32_LINTFLAGS");
   (lit "_CS_XBS5_ILP32_OFFBIG_CFLAGS", lit "_CS_XBS5_ILP32_OFFBIG_CFLAGS");
   (lit "_CS_XBS5_ILP32_OFFBIG_LDFLAGS", lit "_CS_XBS5_ILP32_OFFBIG_LDFLAGS");
   (lit "_CS_XBS5_ILP32_OFFBIG_LIBS", lit "_CS_XBS5_ILP32_OFFBIG_LIBS");
   (lit "_CS_XBS5_ILP32_OFFBIG_LINTFLAGS", lit "_CS_XBS5_ILP32_OFFBIG_LINTFLAGS");
   (lit "_CS_XBS5_LP64_OFF64_CFLAGS", lit "_CS_XBS5_LP64_OFF64_CFLAGS");
   (lit "_CS_XBS5_LP64_OFF64_LDFLAGS", lit "_CS_XBS5_LP64_OFF64_LDFLAGS");
   (lit "_CS_XBS5_LP64_OFF64_LIBS", lit "_CS_XBS5_LP64_OFF64_LIBS");
   (lit "_CS_XBS5_LP64_OFF64_LINTFLAGS", lit "_CS_XBS5_LP64_OFF64_LINTFLAGS");
   (lit "_CS_XBS5_LPBIG_OFFBIG_CFLAGS", lit "_CS_XBS5_LPBIG_OFFBIG_CFLAGS");
   (lit "_CS_XBS5_LPBIG_OFFBIG_LDFLAGS", lit "_CS_XBS5_LPBIG_OFFBIG_LDFLAGS");
   (lit "_CS_XBS5_LPBIG_OFFBIG_LIBS", lit "_CS_XBS5_LPBIG_OFFBIG_LIBS");
   (lit "_CS_XBS5_LPBIG_OFFBIG_LINTFLAGS", lit "_CS_XBS5_LPBIG_OFFBIG_LINTFLAGS")].

Definition confstr_names : list (bytes * bytes) := confstr_names_1 ++ confstr_names_2.

(** The limits of [show_rlimits_generic]. *)
Definition rlimit_names : list bytes :=
  [ lit "RLIMIT_AS"; lit "RLIMIT_CORE"; lit "RLIMIT_CPU"; lit "RLIMIT_DATA"; lit "RLIMIT_FSIZE";
   lit "RLIMIT_MEMLOCK"; lit "RLIMIT_NOFILE"; lit "RLIMIT_NPROC"; lit "RLIMIT_RSS"; lit "RLIMIT_STACK"].

(** The clocks of [show_clocks_generic]; one is named twice. *)
Definition clock_names : list bytes :=
  [ lit "CLOCK_BOOTTIME"; lit "CLOCK_BOOTTIME_ALARM"; lit "CLOCK_MONOTONIC"; lit "CLOCK_MONOTONIC_COARSE";
   lit "CLOCK_MONOTONIC_RAW"; lit "CLOCK_MONOTONIC_RAW_APPROX"; lit "CLOCK_PROCESS_CPUTIME_ID";
   lit "CLOCK_REALTIME"; lit "CLOCK_REALTIME_ALARM"; lit "CLOCK_REALTIME_COARSE"; lit "CLOCK_REALTIME_HR";
   lit "CLOCK_TAI"; lit "CLOCK_PROCESS_CPUTIME_ID"; lit "CLOCK_THREAD_CPUTIME_ID"; lit "CLOCK_UPTIME_RAW";
   lit "CLOCK_UPTIME_RAW_APPROX"].

(** The variables of [show_pathconfs]. *)
Definition pathconf_names : list bytes :=
  [ lit "_PC_2_SYMLINKS"; lit "_PC_ALLOC_SIZE_MIN"; lit "_PC_ASYNC_IO"; lit "_PC_CHOWN_RESTRICTED";
   lit "_PC_FILESIZEBITS"; lit "_PC_LINK_MAX"; lit "_PC_MAX_CANON"; lit "_PC_MAX_INPUT"; lit "_PC_NAME_MAX";
   lit "_PC_NO_TRUNC"; lit "_PC_PATH_MAX"; lit "_PC_PIPE_BUF"; lit "_PC_PRIO_IO";
   lit "_PC_REC_INCR_XFER_SIZE"; lit "_PC_REC_MAX_XFER_SIZE"; lit "_PC_REC_MIN_XFER_SIZE";
   lit "_PC_REC_XFER_ALIGN"; lit "_PC_SOCK_MAXBUF"; lit "_PC_SYMLINK_MAX"; lit "_PC_SYNC_IO";
   lit "_PC_VDISABLE"].

(** The flags of [c_iflag] that [show_tty_attrs] shows. *)
Definition iflag_names : list bytes :=
  [ lit "IGNBRK"; lit "BRKINT"; lit "IGNPAR"; lit "PARMRK"; lit "INPCK"; lit "ISTRIP"; lit "INLCR";
   lit "IGNCR"; lit "ICRNL"; lit "IUCLC"; lit "IXON"; lit "IXANY"; lit "IXOFF"; lit "IMAXBEL"; lit "IUTF8"].

(** The flags of [c_oflag] that [show_tty_attrs] shows. *)
Definition oflag_names : list bytes :=
  [ lit "OPOST"; lit "OLCUC"; lit "ONLCR"; lit "OCRNL"; lit "ONOCR"; lit "ONLRET"; lit "OFILL"; lit "OFDEL";
   lit "NLDLY"; lit "CRDLY"; lit "TABDLY"; lit "BSDLY"; lit "VTDLY"; lit "FFDLY"].

(** The flags of [c_cflag] that [show_tty_attrs] shows. *)
Definition cflag_names : list bytes :=
  [ lit "CBAUDEX"; lit "CSIZE"; lit "CSTOPB"; lit "CREAD"; lit "PARENB"; lit "PARODD"; lit "HUPCL";
   lit "CLOCAL"; lit "CIBAUD"; lit "CMSPAR"; lit "CRTSCTS"].

(** The flags of [c_lflag] that [show_tty_attrs] shows. *)
Definition lflag_names : list bytes :=
  [ lit "ISIG"; lit "XCASE"; lit "ICANON"; lit "ECHO"; lit "ECHOE"; lit "ECHOK"; lit "ECHONL";
   lit "ECHOCTL"; lit "ECHOPRT"; lit "ECHOKE"; lit "FLUSHO"; lit "NOFLSH"; lit "TOSTOP"; lit "PENDIN";
   lit "IEXTEN"].

(** The special characters that [show_tty_attrs] shows. *)
Definition cc_names : list bytes :=
  [ lit "VINTR"; lit "VQUIT"; lit "VERASE"; lit "VKILL"; lit "VEOF"; lit "VTIME"; lit "VMIN"; lit "VSWTC";
   lit "VSTART"; lit "VSTOP"; lit "VSUSP"; lit "VEOL"; lit "VREPRINT"; lit "VDISCARD"; lit "VWERASE";
   lit "VLNEXT"; lit "VEOL2"].

(** The feature test macros of [show_compiler], with the format of their value. Part 1. *)
Definition feature_macros_1 : list (bytes * bytes) :=
  [ (lit "_ATFILE_SOURCE", lit "%s"); (lit "_BSD_SOURCE", lit "%s"); (lit "_DEFAULT_SOURCE", lit "%s");
   (lit "_FILE_OFFSET_BITS", lit "%lu"); (lit "_FORTIFY_SOURCE", lit "%s"); (lit "_GNU_SOURCE", lit "%s");
   (lit "_ISOC11_SOURCE", lit "%s"); (lit "_ISOC2Y_SOURCE", lit "%s"); (lit "_ISOC95_SOURCE", lit "%s");
   (lit "_ISOC99_SOURCE", lit "%s"); (lit "_LARGEFILE64_SOURCE", lit "%s");
   (lit "_LARGEFILE_SOURCE", lit "%s"); (lit "_POSIX_C_SOURCE", lit "%lu");
   (lit "_POSIX_RAW_SOCKETS", lit "%s"); (lit "_POSIX_SOURCE", lit "%s"); (lit "_REENTRANT", lit "%s");
   (lit "__STDC_VERSION__", lit "%lu"); (lit "__STRICT_ANSI__", lit "%s");
   (lit "__STDC_WANT_IEC_60559_BFP_EXT__", lit "%lu"); (lit "__STDC_WANT_IEC_60559_FUNCS_EXT__", lit "%lu");
   (lit "__STDC_WANT_LIB_EXT2__", lit "%lu"); (lit "_SVID_SOURCE", lit "%s");
   (lit "_THREAD_SAFE", lit "%s"); (lit "_XOPEN_SOURCE", lit "%lu")].

(** The feature test macros of [show_compiler], with the format of their value. Part 2. *)
Definition feature_macros_2 : list (bytes * bytes) :=
  [ (lit "_XOPEN_SOURCE_EXTENDED", lit "%s"); (lit "__STDC_ANALYZABLE__", lit "%s");
   (lit "__STDC_LIB_EXT1__", lit "%s"); (lit "__STDC_NO_THREADS__", lit "%s");
   (lit "__STDC_NO_ATOMICS__", lit "%s"); (lit "__STDC_IEC_559__", lit "%s");
   (lit "__STDC_IEC_559_COMPLEX__", lit "%s"); (lit "__STDC_NO_COMPLEX__", lit "%s");
   (lit "__STDC_NO_VLA__", lit "%s")].

Definition feature_macros : list (bytes * bytes) := feature_macros_1 ++ feature_macros_2.

(** The table [scheduler_map] of the Linux driver: the macros and their titles. *)
Definition scheduler_names : list (bytes * bytes) :=
  [ (lit "SCHED_OTHER", lit "SCHED_OTHER"); (lit "SCHED_FIFO", lit "SCHED_FIFO");
   (lit "SCHED_RR", lit "SCHED_RR"); (lit "SCHED_BATCH", lit "SCHED_BATCH");
   (lit "SCHED_IDLE", lit "SCHED_IDLE")].

(** The table [signal_map_linux] of the Linux driver: the macros and their titles. *)
Definition signal_names_linux : list (bytes * bytes) :=
  [ (lit "SIGABRT", lit "SIGABRT"); (lit "SIGALRM", lit "SIGALRM"); (lit "SIGBUS", lit "SIGBUS");
   (lit "SIGCHLD", lit "SIGCHLD|SIGCLD"); (lit "SIGCONT", lit "SIGCONT"); (lit "SIGFPE", lit "SIGFPE");
   (lit "SIGHUP", lit "SIGHUP"); (lit "SIGILL", lit "SIGILL"); (lit "SIGINT", lit "SIGINT");
   (lit "SIGKILL", lit "SIGKILL"); (lit "SIGPIPE", lit "SIGPIPE"); (lit "SIGQUIT", lit "SIGQUIT");
   (lit "SIGSEGV", lit "SIGSEGV"); (lit "SIGSTOP", lit "SIGSTOP"); (lit "SIGTERM", lit "SIGTERM");
   (lit "SIGTRAP", lit "SIGTRAP"); (lit "SIGTSTP", lit "SIGTSTP"); (lit "SIGTTIN", lit "SIGTTIN");
   (lit "SIGTTOU", lit "SIGTTOU"); (lit "SIGUSR1", lit "SIGUSR1"); (lit "SIGUSR2", lit "SIGUSR2");
   (lit "SIGIO", lit "SIGIO"); (lit "SIGIOT", lit "SIGIOT"); (lit "SIGPOLL", lit "SIGPOLL|SIGIO");
   (lit "SIGPROF", lit "SIGPROF"); (lit "SIGPWR", lit "SIGPWR"); (lit "SIGSTKFLT", lit "SIGSTKFLT");
   (lit "SIGSYS", lit "SIGSYS"); (lit "SIGUNUSED", lit "SIGUNUSED"); (lit "SIGURG", lit "SIGURG");
   (lit "SIGVTALRM", lit "SIGVTALRM"); (lit "SIGWINCH", lit "SIGWINCH"); (lit "SIGXCPU", lit "SIGXCPU");
   (lit "SIGXFSZ", lit "SIGXFSZ")].

(** The table [if_flag_map_linux] of the Linux driver: the macros and their titles. *)
Definition if_flag_names_linux : list (bytes * bytes) :=
  [ (lit "IFF_UP", lit "IFF_UP"); (lit "IFF_BROADCAST", lit "IFF_BROADCAST");
   (lit "IFF_DEBUG", lit "IFF_DEBUG"); (lit "IFF_LOOPBACK", lit "IFF_LOOPBACK");
   (lit "IFF_POINTOPOINT", lit "IFF_POINTOPOINT"); (lit "IFF_RUNNING", lit "IFF_RUNNING");
   (lit "IFF_NOARP", lit "IFF_NOARP"); (lit "IFF_PROMISC", lit "IFF_PROMISC");
   (lit "IFF_NOTRAILERS", lit "IFF_NOTRAILERS"); (lit "IFF_ALLMULTI", lit "IFF_ALLMULTI");
   (lit "IFF_MASTER", lit "IFF_MASTER"); (lit "IFF_SLAVE", lit "IFF_SLAVE");
   (lit "IFF_MULTICAST", lit "IFF_MULTICAST"); (lit "IFF_PORTSEL", lit "IFF_PORTSEL");
   (lit "IFF_AUTOMEDIA", lit "IFF_AUTOMEDIA"); (lit "IFF_DYNAMIC", lit "IFF_DYNAMIC");
   (lit "IFF_LOWER_UP", lit "IFF_LOWER_UP"); (lit "IFF_DORMANT", lit "IFF_DORMANT");
   (lit "IFF_ECHO", lit "IFF_ECHO")].

(** The table [if_extended_flag_map_linux] of the Linux driver: the macros and their titles. *)
Definition if_extended_flag_names_linux : list (bytes * bytes) :=
  [ (lit "IFF_802_1Q_VLAN", lit "IFF_802_1Q_VLAN"); (lit "IFF_EBRIDGE", lit "IFF_EBRIDGE");
   (lit "IFF_SLAVE_INACTIVE", lit "IFF_SLAVE_INACTIVE"); (lit "IFF_MASTER_8023AD", lit "IFF_MASTER_8023AD");
   (lit "IFF_MASTER_ALB", lit "IFF_MASTER_ALB"); (lit "IFF_BONDING", lit "IFF_BONDING");
   (lit "IFF_SLAVE_NEEDARP", lit "IFF_SLAVE_NEEDARP"); (lit "IFF_ISATAP", lit "IFF_ISATAP")].

(** The table [personality_map_linux] of the Linux driver: the macros and their titles. *)
Definition personality_names_linux : list (bytes * bytes) :=
  [ (lit "PER_LINUX", lit "PER_LINUX"); (lit "PER_LINUX_32BIT", lit "PER_LINUX_32BIT");
   (lit "PER_SVR4", lit "PER_SVR4"); (lit "PER_SVR3", lit "PER_SVR3");
   (lit "PER_SCOSVR3", lit "PER_SCOSVR3"); (lit "PER_OSR5", lit "PER_OSR5");
   (lit "PER_WYSEV386", lit "PER_WYSEV386"); (lit "PER_ISCR4", lit "PER_ISCR4");
   (lit "PER_BSD", lit "PER_BSD"); (lit "PER_SUNOS", lit "PER_SUNOS"); (lit "PER_XENIX", lit "PER_XENIX");
   (lit "PER_LINUX32", lit "PER_LINUX32"); (lit "PER_LINUX32_3GB", lit "PER_LINUX32_3GB");
   (lit "PER_IRIX32", lit "PER_IRIX32"); (lit "PER_IRIXN32", lit "PER_IRIXN32");
   (lit "PER_IRIX64", lit "PER_IRIX64"); (lit "PER_RISCOS", lit "PER_RISCOS");
   (lit "PER_SOLARIS", lit "PER_SOLARIS"); (lit "PER_UW7", lit "PER_UW7"); (lit "PER_OSF4", lit "PER_OSF4");
   (lit "PER_HPUX", lit "PER_HPUX")].

(** The table [personality_flag_map_linux] of the Linux driver: the macros and their titles. *)
Definition personality_flag_names_linux : list (bytes * bytes) :=
  [ (lit "ADDR_COMPAT_LAYOUT", lit "ADDR_COMPAT_LAYOUT"); (lit "ADDR_LIMIT_32BIT", lit "ADDR_LIMIT_32BIT");
   (lit "ADDR_LIMIT_3GB", lit "ADDR_LIMIT_3GB"); (lit "ADDR_NO_RANDOMIZE", lit "ADDR_NO_RANDOMIZE");
   (lit "MMAP_PAGE_ZERO", lit "MMAP_PAGE_ZERO"); (lit "READ_IMPLIES_EXEC", lit "READ_IMPLIES_EXEC");
   (lit "SHORT_INODE", lit "SHORT_INODE"); (lit "STICKY_TIMEOUTS", lit "STICKY_TIMEOUTS");
   (lit "WHOLE_SECONDS", lit "WHOLE_SECONDS")].
