(* ===== verification/Platform.v ===== *)
(** Platform: the interface between procenv.c and the drivers of the systems
    (struct procenv_ops of src/src/platform.h), the messages the components
    share (src/src/messages.h) and the values of macros of system headers.

    [DriverTyped] is what a driver promises to the document: each of its display
    functions makes well-placed calls in the context procenv.c calls it from. *)
From S2P Require Import Prelude Memory PrList Locale PString StringUtil Encode Output OutputSpec Document Prints Util Format.

(** ** Messages *)
Definition YES_STR : bytes := lit "yes".
Definition NA_STR : bytes := lit "n/a".
Definition UNKNOWN_STR : bytes := lit "unknown".
Definition MAX_STR : bytes := lit " (max)".
Definition DEFINED_STR : bytes := lit "defined".
Definition NOT_DEFINED_STR : bytes := lit "not defined".
Definition BIG_STR : bytes := lit "big".
Definition LITTLE_STR : bytes := lit "little".
Definition SUPPRESSED_STR : bytes := lit "[suppressed]".

Definition yes_no (b : bool) : bytes := if b then YES_STR else NO_STR.

(** ** Macros of the headers *)

(** The value of a macro, when the headers of the system define it. *)
Class Headers : Type := { macro : bytes -> option Z }.

(** The entries of a table under [#if defined]: the names the headers define. *)
Definition defined_entries `{Headers} (names : list bytes) : list (bytes * Z) :=
  omap (fun n => (fun z => (n, z)) <$> macro n) names.

(** A table of macros and their titles. *)
Definition titled_entries `{Headers} (names : list (bytes * bytes)) : list (bytes * Z) :=
  omap (fun e => (fun z => (e.2, z)) <$> macro e.1) names.

(** ** The driver *)
Inductive ShowMountType : Type := SHOW_ALL | SHOW_MOUNTS | SHOW_PATHCONF.

#[export] Instance ShowMountType_eq_dec : EqDecision ShowMountType.
Proof. solve_decision. Defined.

Record timespec : Type := mk_timespec { tv_sec : Z; tv_nsec : Z }.

(** [None] is a null pointer. *)
Class Driver : Type := {
  signal_map : list (option bytes * Z);
  if_flag_map : list (option bytes * Z);
  op_get_kernel_bits : option Z;
  op_get_time : option (option timespec);
  op_get_mtu : option (bytes -> Z);
  op_show_capabilities : option (prog ostate unit);
  op_show_cgroups : option (prog ostate unit);
  op_show_clocks : option (prog ostate unit);
  op_show_confstrs : option (prog ostate unit);
  op_show_cpu_affinities : option (prog ostate unit);
  op_show_cpu : option (prog ostate unit);
  op_show_extended_if_flags : option (bytes -> prog ostate unit);
  op_show_fds : option (prog ostate unit);
  op_show_io_priorities : option (prog ostate unit);
  op_show_mounts : option (ShowMountType -> prog ostate unit);
  op_show_msg_queues : option (prog ostate unit);
  op_show_namespaces : option (prog ostate unit);
  op_show_oom : option (prog ostate unit);
  op_show_prctl : option (prog ostate unit);
  op_show_rlimits : option (prog ostate unit);
  op_show_security_module : option (prog ostate unit);
  op_show_semaphores : option (prog ostate unit);
  op_show_shared_mem : option (prog ostate unit);
  op_show_timezone : option (prog ostate unit);
  op_show_libs : option (prog ostate unit);
  op_handle_memory : option (prog ostate unit);
  op_handle_numa_memory : option (prog ostate unit);
  op_handle_proc_branch : option (prog ostate unit);
  op_handle_scheduler_type : option (prog ostate unit);
  op_in_vm : option (outcome bool)
}.

(** [if (ops->f) ops->f ();] *)
Definition run_op (op : option (prog ostate unit)) : prog ostate unit :=
  match op with Some m => m | None => mret tt end.

Definition op_typed `{Allocator} `{Locale} (cfg : settings) (c : context) (d : nat)
  (op : option (prog ostate unit)) : Prop :=
  match op with Some m => typed cfg c d m | None => True end.

(** The blocks a driver opens are nested at most so deep. *)
Definition DRIVER_DEPTH : nat := 5.

Class DriverTyped `{Allocator} `{Locale} `{Driver} (cfg : settings) : Prop := {
  typed_members :
    Forall (op_typed cfg CMembers DRIVER_DEPTH)
      [ op_show_capabilities; op_show_cgroups; op_show_clocks; op_show_confstrs;
        op_show_cpu_affinities; op_show_cpu; op_show_io_priorities; op_show_msg_queues; op_show_oom;
        op_show_prctl; op_show_rlimits; op_show_security_module; op_show_semaphores;
        op_show_shared_mem; op_show_timezone; op_handle_memory; op_handle_numa_memory;
        op_handle_proc_branch; op_handle_scheduler_type ];
  typed_objects :
    Forall (op_typed cfg CObjects DRIVER_DEPTH) [op_show_fds; op_show_namespaces; op_show_libs];
  typed_mounts : forall what, op_typed cfg CMembers DRIVER_DEPTH ((fun f => f what) <$> op_show_mounts);
  typed_extended_if_flags : forall i,
    op_typed cfg CObjects DRIVER_DEPTH ((fun f => f i) <$> op_show_extended_if_flags);
  terminated_signal_map : exists tbl, signal_map = terminated tbl;
  terminated_if_flag_map : exists tbl, if_flag_map = terminated tbl;
  showable_signals : Forall (fun e => match e.1 with Some n => nameable cfg n | None => True end) signal_map;
  showable_if_flags : Forall (fun e => match e.1 with Some n => nameable cfg n | None => True end) if_flag_map;
  in_vm_answers : match op_in_vm with Some o => exists b, o = Ok b | None => True end
}.

Section Ops.
Context `{AllocTotal} `{LocaleLaws} (cfg : settings).

Lemma typed_run_op c d op : op_typed cfg c DRIVER_DEPTH op -> DRIVER_DEPTH <= d -> typed cfg c d (run_op op).
Proof.
  destruct op as [m|]; cbn; intros Hm Hd; [by eapply typed_le|apply typed_ret].
Qed.

Lemma typed_member_op `{!Driver} `{!DriverTyped cfg} d op :
  op ∈ [ op_show_capabilities; op_show_cgroups; op_show_clocks; op_show_confstrs;
         op_show_cpu_affinities; op_show_cpu; op_show_io_priorities; op_show_msg_queues; op_show_oom;
         op_show_prctl; op_show_rlimits; op_show_security_module; op_show_semaphores;
         op_show_shared_mem; op_show_timezone; op_handle_memory; op_handle_numa_memory;
         op_handle_proc_branch; op_handle_scheduler_type ] ->
  DRIVER_DEPTH <= d -> typed cfg CMembers d (run_op op).
Proof.
  intros Hin Hd. apply typed_run_op; [|done]. pose proof typed_members as Ht.
  rewrite Forall_forall in Ht. by apply Ht.
Qed.

Lemma typed_object_op `{!Driver} `{!DriverTyped cfg} d op :
  op ∈ [op_show_fds; op_show_namespaces; op_show_libs] ->
  DRIVER_DEPTH <= d -> typed cfg CObjects d (run_op op).
Proof.
  intros Hin Hd. apply typed_run_op; [|done]. pose proof typed_objects as Ht.
  rewrite Forall_forall in Ht. by apply Ht.
Qed.
End Ops.

(** A display function of the driver. *)
Ltac typed_op :=
  lazymatch goal with
  | |- typed ?cfg CMembers _ _ => apply (typed_member_op cfg); [in_list|unfold DRIVER_DEPTH; lia]
  | |- typed ?cfg CObjects _ _ => apply (typed_object_op cfg); [in_list|unfold DRIVER_DEPTH; lia]
  end.
#[export] Hint Extern 1 (typed _ _ _ (run_op _)) => typed_op : typed.

Lemma showable_yes_no `{LocaleLaws} cfg b : showable cfg (yes_no b).
Proof. apply printable_showable. by destruct b. Qed.
#[export] Hint Resolve showable_yes_no : shown.

(** Names of the tables of the program. *)
Section Names.
Context `{LocaleLaws} (cfg : settings).

Lemma showable_default o s : showable cfg s -> (forall t, o = Some t -> showable cfg t) -> showable cfg (default s o).
Proof. destruct o as [t|]; cbn; intros Hs Ho; [by apply Ho|done]. Qed.

Lemma literal_name names n :
  forallb (fun s => printable s && negb (bool_decide (s = []))) names = true -> n ∈ names -> name_is cfg n n.
Proof.
  rewrite forallb_forall. intros Hn Hin. apply list_elem_of_In, Hn in Hin.
  apply andb_prop in Hin as [Hp Hne]. apply name_text; [by apply printable_text|].
  by apply negb_true_iff, bool_decide_eq_false in Hne.
Qed.

Lemma nameable_of names n :
  forallb (fun s => printable s && negb (bool_decide (s = []))) names = true -> n ∈ names -> nameable cfg n.
Proof. intros Hn Hin. exists n. by apply (literal_name names). Qed.

Lemma defined_name `{!Headers} names e : e ∈ defined_entries names -> e.1 ∈ names.
Proof. intros Hin. apply list_elem_of_omap in Hin as (n & Hn & E). destruct (macro n); cbn in E; by simplify_eq. Qed.

Lemma nameable_defined `{!Headers} names e :
  forallb (fun s => printable s && negb (bool_decide (s = []))) names = true ->
  e ∈ defined_entries names -> nameable cfg e.1.
Proof. intros Hn Hin. apply (nameable_of names); [done|]. by eapply defined_name. Qed.

Lemma printable_titled `{!Headers} names :
  forallb (fun e => printable e.2) names = true ->
  forallb (fun e : bytes * Z => printable e.1) (titled_entries names) = true.
Proof.
  unfold titled_entries. rewrite !forallb_forall. intros Hn e He. apply list_elem_of_In in He.
  apply list_elem_of_omap in He as (n & Hin & E). apply list_elem_of_In in Hin. apply Hn in Hin.
  destruct (macro n.1); cbn in E; simplify_eq. done.
Qed.

Lemma nameable_titled `{!Headers} names e :
  forallb (fun s => printable s && negb (bool_decide (s = []))) (map snd names) = true ->
  e ∈ titled_entries names -> nameable cfg e.1.
Proof.
  intros Hn He. apply list_elem_of_omap in He as (n & Hin & E). destruct (macro n.1); cbn in E; simplify_eq.
  apply (nameable_of (map snd names)); [done|]. apply list_elem_of_fmap. by exists n.
Qed.

Lemma showable_titled `{!Headers} names :
  forallb (fun s => printable s && negb (bool_decide (s = []))) (map snd names) = true ->
  Forall (fun e => match e.1 with Some n => nameable cfg n | None => True end) (terminated (titled_entries names)).
Proof.
  intros Hn. unfold terminated. apply Forall_app. split; [|by constructor].
  apply Forall_map, Forall_forall. intros e He. by eapply nameable_titled.
Qed.
End Names.

(** One goal for each operation of a list. *)
Ltac each_op :=
  repeat lazymatch goal with
  | |- Forall _ (_ :: _) => apply Forall_cons_2
  | |- Forall _ [] => apply Forall_nil_2
  end.

Ltac of_table := eapply nameable_of; [|eassumption]; vm_compute; reflexivity.
Ltac of_defined := eapply nameable_defined; [|eassumption]; vm_compute; reflexivity.

(** A driver without operations, for the witnesses. *)
Definition sample_driver : Driver := {|
  signal_map := terminated [(lit "SIGHUP", 1%Z); (lit "SIGINT", 2%Z); (lit "SIGKILL", 9%Z)];
  if_flag_map := terminated [(lit "IFF_UP", 1%Z); (lit "IFF_BROADCAST", 2%Z); (lit "IFF_LOOPBACK", 8%Z)];
  op_get_kernel_bits := Some 64%Z;
  op_get_time := Some (Some (mk_timespec 86400 5));
  op_get_mtu := Some (fun _ => 1500%Z);
  op_show_capabilities := None;
  op_show_cgroups := None;
  op_show_clocks := None;
  op_show_confstrs := None;
  op_show_cpu_affinities := None;
  op_show_cpu := None;
  op_show_extended_if_flags := None;
  op_show_fds := None;
  op_show_io_priorities := None;
  op_show_mounts := None;
  op_show_msg_queues := None;
  op_show_namespaces := None;
  op_show_oom := None;
  op_show_prctl := None;
  op_show_rlimits := None;
  op_show_security_module := None;
  op_show_semaphores := None;
  op_show_shared_mem := None;
  op_show_timezone := None;
  op_show_libs := None;
  op_handle_memory := None;
  op_handle_numa_memory := None;
  op_handle_proc_branch := None;
  op_handle_scheduler_type := None;
  op_in_vm := None
|}.
