(* ===== verification/Process.v ===== *)
(** Process: who the process is (src/src/procenv.c): get_user_info, get_misc,
    get_priorities, get_uname, show_proc, show_all_groups, show_priorities,
    show_uname, show_version, show_stat.

    The globals [user], [misc], [priority] and [uts] are the record [globals],
    which the functions that fill them return and the display functions take;
    the descriptor of the terminal is in the state of the output. *)
From Stdlib Require Import Sorted Permutation.
From S2P Require Import Prelude Memory PrList Locale PString StringUtil Encode Output OutputSpec Document Prints Util Affinity Display Format Platform.

(** ** Data *)
Record passwd : Type := mk_passwd {
  pw_name : bytes;
  pw_gid : Z;
  pw_gecos : bytes;
  pw_dir : bytes;
  pw_shell : bytes
}.

Record procenv_user : Type := mk_user {
  user_passwd : passwd;
  proc_name : bytes;
  ctrl_terminal : bytes;
  ids : user_ids;
  ppid : Z;
  login : option bytes;
  fg_pgroup : Z;
  uid : Z;
  euid : Z;
  suid : Z;
  gid : Z;
  egid : Z;
  sgid : Z
}.

Record procenv_misc : Type := mk_misc { cwd : bytes; root : bytes; umask_value : Z }.

Record procenv_priority : Type := mk_priority { pri_process : Z; pri_pgrp : Z; pri_user : Z }.

Record utsname : Type := mk_utsname {
  sysname : bytes;
  nodename : bytes;
  release : bytes;
  version : bytes;
  machine : bytes;
  domainname : bytes
}.

Record globals : Type := mk_globals {
  user : procenv_user;
  misc : procenv_misc;
  priority : procenv_priority;
  uts : utsname
}.

(** What the kernel and the C library answer about the process. *)
Class Identity : Type := {
  getpid : Z;
  getppid : Z;
  getresuid : option (Z * Z * Z);
  getresgid : option (Z * Z * Z);
  getsid : Z;
  getlogin : option bytes;
  getpgrp : Z;
  ctermid : bytes;
  open_rdwr : bytes -> Z;
  tcgetpgrp : Z -> Z;
  getpwuid : Z -> option passwd;
  getgrgid : Z -> option bytes;
  getgroups : Z -> option (list Z);
  umask_now : Z;
  getcwd : option bytes;
  getpriority : Z -> Z;
  uname : option utsname;
  driver_proc_name : bytes;
  driver_root : bytes
}.

Definition STDIN_FILENO : Z := 0.
Definition PRIO_PROCESS : Z := 0.
Definition PRIO_PGRP : Z := 1.
Definition PRIO_USER : Z := 2.

(** The number of groups a process can have on Linux bounds the retries of
    [getgroups]. *)
Definition NGROUPS_MAX : nat := Z.to_nat 65536.

Definition set_user_tty_fd (fd : Z) (s : ostate) : ostate :=
  mk_ostate (o_mem s) (doc s) (indent s) (indent_amount s) (indent_char s) (wide_indent_char s)
    (crumb_list s) (crumb_separator s) (text_separator s) (last_element s) (current_element s)
    (output_format s) (output s) (output_file s) (output_file_append s) (output_fd s) fd
    (user_euid s) (events s).

Definition set_user_euid (e : Z) (s : ostate) : ostate :=
  mk_ostate (o_mem s) (doc s) (indent s) (indent_amount s) (indent_char s) (wide_indent_char s)
    (crumb_list s) (crumb_separator s) (text_separator s) (last_element s) (current_element s)
    (output_format s) (output s) (output_file s) (output_file_append s) (output_fd s) (user_tty_fd s)
    e (events s).

Section Process.
Context `{Allocator} `{Locale} `{Package} `{Util.System} `{Driver} `{Collation} `{Identity}.

Definition get_user_name (u : Z) : option bytes := pw_name <$> getpwuid u.
Definition get_group_name (g : Z) : option bytes := getgrgid g.

(** ** Filling the globals *)
Definition get_uname : prog ostate utsname :=
  match uname with Some u => mret u | None => die "failed to query uname" end.

Definition get_user_info : prog ostate procenv_user :=
  '(ruid, e, s) ← (match getresuid with Some r => mret r | None => abort "! ret" end);
  modify (set_user_euid e);;
  '(rgid, eg, sg) ← (match getresgid with Some r => mret r | None => abort "! ret" end);
  let fd := open_rdwr ctermid in
  let tty_fd := if Z.ltb fd 0 then STDIN_FILENO else fd in
  modify (set_user_tty_fd tty_fd);;
  match getpwuid ruid with
  | None => die "uid no longer exists"
  | Some pw =>
    mret (mk_user pw driver_proc_name ctermid (mk_user_ids getpid getpgrp getsid) getppid getlogin
            (tcgetpgrp tty_fd) ruid e s rgid eg sg)
  end.

Definition get_misc : prog ostate procenv_misc :=
  match getcwd with
  | None => abort "getcwd (misc.cwd, sizeof (misc.cwd))"
  | Some d => mret (mk_misc d driver_root umask_now)
  end.

Definition get_priorities : procenv_priority :=
  mk_priority (getpriority PRIO_PROCESS) (getpriority PRIO_PGRP) (getpriority PRIO_USER).

(** ** Groups *)

(** The list that [getgroups] fills, growing it until it is large enough. *)
Fixpoint groups_loop (fuel : nat) (size : Z) : prog mem (option (list Z)) :=
  match getgroups size with
  | Some gs => mret (Some gs)
  | None =>
    match fuel with
    | 0 => diverge
    | S fuel' =>
      p ← alloc;
      match p with
      | None => mret None
      | Some _ => groups_loop fuel' (size + 1)
      end
    end
  end.

Definition group_title (g : Z) : prog mem bytes :=
  match get_group_name g with
  | None => ub "null argument for %s"
  | Some name =>
    b ← appendf None (lit "'%s' (%d)") [AStr name; ANum g];
    match b with Some b => pure (string_at b 0) | None => ub "null group name" end
  end.

Fixpoint group_titles (gs : list Z) : prog mem (list bytes) :=
  match gs with
  | [] => mret []
  | g :: gs' => t ← group_title g; ts ← group_titles gs'; mret (t :: ts)
  end.

Fixpoint join_groups (str : option buffer) (names : list bytes) : prog mem (option buffer) :=
  match names with
  | [] => mret str
  | [name] => appendf str (lit "%s") [AStr name]
  | name :: names' => str' ← appendf str (lit "%s, ") [AStr name]; join_groups str' names'
  end.

Definition string_of (str : option buffer) : prog mem bytes :=
  match str with Some b => pure (string_at b 0) | None => ub "null argument for %s" end.

Definition groups_error {A} : prog ostate A := die "failed to allocate space for groups".

Definition show_all_groups (u : procenv_user) : prog ostate unit :=
  p ← in_mem alloc;
  match p with
  | None => groups_error
  | Some _ =>
    gs ← in_mem (groups_loop NGROUPS_MAX 32);
    match gs with
    | None => groups_error
    | Some [] =>
      match get_group_name (pw_gid (user_passwd u)) with
      | None => entry (lit "groups") (lit "%s") [AStr UNKNOWN_STR]
      | Some group =>
        str ← in_mem (b ← appendf None (lit " '%s' (%d)") [AStr group; ANum (pw_gid (user_passwd u))];
                      string_of b);
        entry (lit "groups") (lit "%s") [AStr str]
      end
    | Some groups =>
      calloc_or_die;;
      str ← in_mem (
        b ← appendf None (lit " ") [];
        names ← group_titles groups;
        b ← join_groups b (qsort qsort_compar names);
        string_of b);
      entry (lit "groups") (lit "%s") [AStr str]
    end
  end.

(** ** The process *)
Definition handle_proc_branch : prog ostate unit := common_assert;; run_op op_handle_proc_branch.

Definition quote_of (name : option bytes) : bytes :=
  match name with Some _ => lit "'" | None => [] end.

(** The saved set-user-id and set-group-id, whose name may be unknown. *)
Definition saved_id (title : bytes) (id : Z) (name : option bytes) : prog ostate unit :=
  entry title (lit "%d (%s%s%s)")
    [ANum id; AStr (quote_of name); AStr (default UNKNOWN_STR name);
     AStr (quote_of name)].

Definition show_proc (u : procenv_user) : prog ostate unit :=
  header (lit "process");;
  (entry (lit "process id (pid)") (lit "%d") [ANum (u_pid (ids u))];;
   entry (lit "parent process id (ppid)") (lit "%d") [ANum (ppid u)];;
   entry (lit "session id (sid)") (lit "%d (leader=%s)")
     [ANum (u_sid (ids u)); AStr (yes_no (is_session_leader (ids u)))];;
   entry (lit "name") (lit "'%s'") [AStr (proc_name u)];;
   handle_proc_branch;;
   entry (lit "process group id") (lit "%d (leader=%s)")
     [ANum (u_pgroup (ids u)); AStr (yes_no (is_process_group_leader (ids u)))];;
   entry (lit "foreground process group") (lit "%d") [ANum (fg_pgroup u)];;
   entry (lit "terminal") (lit "'%s'") [AStr (ctrl_terminal u)];;
   entry (lit "has controlling terminal") (lit "%s") [AStr (yes_no has_ctty)];;
   tty_fd ← gets user_tty_fd;
   entry (lit "on console") (lit "%s") [AStr (yes_no (is_console tty_fd))];;
   section_open (lit "user");;
   (name ← str_arg (get_user_name (uid u));
    entry (lit "real user id (uid)") (lit "%d ('%s')") [ANum (uid u); name];;
    name ← str_arg (get_user_name (euid u));
    entry (lit "effective user id (euid)") (lit "%d ('%s')") [ANum (euid u); name];;
    saved_id (lit "saved set-user-id (suid)") (suid u) (get_user_name (suid u)));;
   section_close;;
   section_open (lit "group");;
   (name ← str_arg (get_group_name (gid u));
    entry (lit "real group id (gid)") (lit "%d ('%s')") [ANum (gid u); name];;
    name ← str_arg (get_group_name (egid u));
    entry (lit "effective group id (egid)") (lit "%d ('%s')") [ANum (egid u); name];;
    saved_id (lit "saved set-group-id (sgid)") (sgid u) (get_group_name (sgid u)));;
   section_close;;
   entry (lit "login name") (lit "'%s'") [AStr (default [] (login u))];;
   section_open (lit "passwd");;
   (entry (lit "name") (lit "'%s'") [AStr (pw_name (user_passwd u))];;
    entry (lit "gecos") (lit "'%s'") [AStr (pw_gecos (user_passwd u))];;
    entry (lit "dir") (lit "'%s'") [AStr (pw_dir (user_passwd u))];;
    entry (lit "shell") (lit "'%s'") [AStr (pw_shell (user_passwd u))]);;
   section_close;;
   show_all_groups u);;
  footer.

Definition show_priorities (p : procenv_priority) : prog ostate unit :=
  section_open (lit "scheduler");;
  (run_op op_handle_scheduler_type;;
   section_open (lit "priority");;
   (entry (lit "process") (lit "%d") [ANum (pri_process p)];;
    entry (lit "process group") (lit "%d") [ANum (pri_pgrp p)];;
    entry (lit "user") (lit "%d") [ANum (pri_user p)]);;
   section_close;;
   match op_show_io_priorities with
   | None => mret tt
   | Some m => section_open (lit "I/O priority");; m;; section_close
   end);;
  section_close.

Definition show_uname (u : utsname) : prog ostate unit :=
  header (lit "uname");;
  (entry (lit "sysname") (lit "%s") [AStr (sysname u)];;
   entry (lit "nodename") (lit "%s") [AStr (nodename u)];;
   entry (lit "release") (lit "%s") [AStr (release u)];;
   entry (lit "version") (lit "%s") [AStr (version u)];;
   entry (lit "machine") (lit "%s") [AStr (machine u)];;
   entry (lit "domainname") (lit "%s")
     [AStr (if bool_decide (domainname u = []) then UNKNOWN_STR else domainname u)]);;
  footer.

Definition PROGRAM_AUTHORS : bytes := lit "James O. D. Hunt <jamesodhunt@gmail.com>".

Definition show_version : prog ostate unit :=
  common_assert;;
  header (lit "version");;
  (entry (lit "name") (lit "%s") [AStr PACKAGE_NAME];;
   entry (lit "version") (lit "%s") [AStr PACKAGE_VERSION];;
   entry (lit "author") (lit "%s") [AStr PROGRAM_AUTHORS]);;
  footer.
End Process.

(** ** The text of the groups *)
Definition group_text (name : bytes) (g : Z) : bytes := lit "'" ++ name ++ lit "' (" ++ int_text g ++ lit ")".

(** What the entry "groups" holds: the name and the number of each group, in
    the order of [strcoll], separated by commas. *)
Definition groups_text `{Collation} (names : list (bytes * Z)) : bytes :=
  SPACE :: listing (qsort strcoll (map (fun e => group_text e.1 e.2) names)).

Section Spec.
Context `{AllocTotal} `{LocaleLaws} (cfg : settings).
Context `{!Package} `{!Util.System} `{!Driver} `{!Collation} `{!Identity}.

Lemma nz_group_text name g : nz name -> nz (group_text name g).
Proof.
  intros Hn. unfold group_text. apply nz_app. split; [nz_lit|]. apply nz_app. split; [done|].
  apply nz_app. split; [nz_lit|]. apply nz_app. split; [|nz_lit].
  apply printable_nz. exact (printable_number_text (mk_spec false false 0 None 0) 100 g).
Qed.

Lemma string_of_ok b s m : cstr_of (Some b) s -> nz s -> string_of (Some b) m = Ok (s, m).
Proof. intros [junk Hb] Hs. unfold string_of. apply pure_ok. rewrite Hb. by apply string_at_start. Qed.

Lemma group_title_ok g name m :
  getgrgid g = Some name -> nz name ->
  exists m', group_title g m = Ok (group_text name g, m') /\ ticked m m'.
Proof.
  intros Hg Hn. unfold group_title, get_group_name. rewrite Hg.
  destruct (appendf_renders None [] (lit "'%s' (%d)") [AStr name; ANum g] (group_text name g) m
              eq_refl (Forall_nil_2 _)) as (b & m' & E & Hb & Ht); [render|].
  exists m'. split; [|done]. step_with E. by apply (string_of_ok b), nz_group_text.
Qed.

Lemma group_titles_ok (names : list (bytes * Z)) m :
  Forall (fun e => getgrgid e.2 = Some e.1 /\ nz e.1) names ->
  exists m', group_titles (map snd names) m = Ok (map (fun e => group_text e.1 e.2) names, m') /\
    ticked m m'.
Proof.
  intros Hns. revert m. induction Hns as [|[name g] names [Hg Hn] _ IH]; intros m.
  - exists m. split; [done|apply ticked_refl].
  - destruct (group_title_ok g name m Hg Hn) as (m1 & E1 & T1). destruct (IH m1) as (m2 & E2 & T2).
    exists m2. split; [|by etrans]. cbn [map snd group_titles]. step_with E1. by step_with E2.
Qed.

Lemma join_groups_ok b s names m :
  cstr_of (Some b) s -> nz s -> Forall nz names ->
  exists b' m', join_groups (Some b) names m = Ok (Some b', m') /\
    cstr_of (Some b') (s ++ listing names) /\ ticked m m'.
Proof.
  intros Hb Hs Hns. revert b s m Hb Hs.
  induction Hns as [|name names Hn Hns IH]; intros b s m Hb Hs.
  - exists b, m. split_and!; [done|by rewrite app_nil_r|apply ticked_refl].
  - destruct names as [|name' names].
    + destruct (appendf_renders (Some b) s (lit "%s") [AStr name] name m Hb Hs)
        as (b' & m' & E & Hb' & Ht); [render|]. exists b', m'.
      split_and!; [exact E|cbn [listing map concat]; by rewrite app_nil_r|done].
    + destruct (appendf_renders (Some b) s (lit "%s, ") [AStr name] (name ++ lit ", ") m Hb Hs)
        as (b1 & m1 & E1 & Hb1 & T1); [render|].
      destruct (IH b1 (s ++ name ++ lit ", ") m1 Hb1) as (b2 & m2 & E2 & Hb2 & T2).
      { apply nz_app. split; [done|]. apply nz_app. split; [done|nz_lit]. }
      assert ((s ++ name ++ lit ", ") ++ listing (name' :: names) = s ++ listing (name :: name' :: names)) as Es
        by (cbn [listing map concat]; by rewrite <- !app_assoc).
      rewrite Es in Hb2. exists b2, m2. split_and!; [|done|by etrans].
      change (join_groups (Some b) (name :: name' :: names))
        with (str' ← appendf (Some b) (lit "%s, ") [AStr name]; join_groups str' (name' :: names)).
      step_with E1. exact E2.
Qed.

(** [getgroups (2)]: it fails while the list is too short for the groups of
    the process, and succeeds as soon as it is not. *)
Definition supplementary (gs : list Z) : Prop :=
  forall size, getgroups size = if (Z.of_nat (length gs) <=? size)%Z then Some gs else None.

Lemma groups_loop_ok gs fuel size m :
  supplementary gs -> (Z.of_nat (length gs) <= size + Z.of_nat fuel)%Z ->
  exists m', groups_loop fuel size m = Ok (Some gs, m') /\ ticked m m'.
Proof.
  intros Hgs. revert size m. induction fuel as [|fuel IH]; intros size m Hf; cbn [groups_loop]; rewrite Hgs.
  - rewrite (proj2 (Z.leb_le _ _)) by lia. exists m. split; [done|apply ticked_refl].
  - destruct (Z.leb_spec (Z.of_nat (length gs)) size) as [Hle|Hlt].
    + exists m. split; [done|apply ticked_refl].
    + step_with (alloc_run m). destruct (IH (size + 1)%Z (tick m)) as (m' & E & T); [lia|].
      exists m'. split; [exact E|]. etrans; [apply ticked_tick|exact T].
Qed.

Lemma ticked_groups (names : list (bytes * Z)) :
  Forall (fun e => getgrgid e.2 = Some e.1 /\ nz e.1) names -> CollationLaws ->
  reads cfg (in_mem (b ← appendf None (lit " ") [];
                     ns ← group_titles (map snd names);
                     b ← join_groups b (qsort qsort_compar ns);
                     string_of b)) (groups_text names).
Proof.
  intros Hns HC. apply reads_mem. intros m0.
  destruct (appendf_renders None [] (lit " ") [] (lit " ") m0 eq_refl (Forall_nil_2 _))
    as (b1 & m1 & E1 & Hb1 & T1); [render|].
  destruct (group_titles_ok names m1 Hns) as (m2 & E2 & T2).
  set (ts := qsort qsort_compar (map (fun e => group_text e.1 e.2) names)).
  assert (Forall nz ts) as Hts.
  { unfold ts. change qsort_compar with strcoll. rewrite qsort_perm.
    apply Forall_map. eapply Forall_impl; [exact Hns|]. intros e [_ He]. by apply nz_group_text. }
  destruct (join_groups_ok b1 (lit " ") ts m2 Hb1 ltac:(nz_lit) Hts) as (b3 & m3 & E3 & Hb3 & T3).
  exists m3. split; [|by etrans; [exact T1|etrans]].
  step_with E1. step_with E2. step_with E3. apply (string_of_ok b3); [exact Hb3|].
  apply (nz_app (lit " ")). split; [nz_lit|by apply nz_listing].
Qed.

Lemma prints_groups u (names : list (bytes * Z)) w :
  supplementary (map snd names) -> names <> [] -> length names <= 32 + NGROUPS_MAX ->
  Forall (fun e => getgrgid e.2 = Some e.1 /\ nz e.1) names -> CollationLaws ->
  text_is cfg (groups_text names) w -> prints cfg (show_all_groups u) [TEntry (lit "groups") w].
Proof.
  intros Hsup Hne Hlen Hns HC Hw. unfold show_all_groups. apply prints_alloc.
  reading (apply reads_mem; intros m0; apply (groups_loop_ok (map snd names));
           [exact Hsup|rewrite length_map; lia]).
  destruct names as [|e names]; [done|]. cbn [map].
  apply prints_do; [apply silent_calloc_or_die|].
  reading (apply (ticked_groups (e :: names)); done).
  eapply prints_eq; [prints_steps|]. same_trees.
Qed.

Lemma reads_tty : reads cfg (gets user_tty_fd) (s_tty cfg).
Proof.
  intros w a Hw. exists w. split; [|done]. destruct (rep_configured _ _ _ Hw) as (_ & _ & _ & _ & _ & _ & _ & E & _).
  unfold gets. by rewrite E.
Qed.

(** ** The section of the process *)
Section Tree.
Context (T : bytes -> wstr) (u : procenv_user).

Definition id_text (id : Z) (name : option bytes) : wstr :=
  int_text id ++ lit " ('" ++ T (default [] name) ++ lit "')".

Definition saved_text (id : Z) (name : option bytes) : wstr :=
  int_text id ++ lit " (" ++ quote_of name ++ T (default UNKNOWN_STR name) ++ quote_of name ++ lit ")".

Definition leader_text (id : Z) (b : bool) : wstr :=
  int_text id ++ lit " (leader=" ++ yes_no b ++ lit ")".

Definition quoted_text (s : bytes) : wstr := lit "'" ++ T s ++ lit "'".

Definition user_tree : tree := TBlock KSection (lit "user")
  [ TEntry (lit "real user id (uid)") (id_text (uid u) (get_user_name (uid u)));
    TEntry (lit "effective user id (euid)") (id_text (euid u) (get_user_name (euid u)));
    TEntry (lit "saved set-user-id (suid)") (saved_text (suid u) (get_user_name (suid u))) ].

Definition group_tree : tree := TBlock KSection (lit "group")
  [ TEntry (lit "real group id (gid)") (id_text (gid u) (get_group_name (gid u)));
    TEntry (lit "effective group id (egid)") (id_text (egid u) (get_group_name (egid u)));
    TEntry (lit "saved set-group-id (sgid)") (saved_text (sgid u) (get_group_name (sgid u))) ].

Definition passwd_tree : tree := TBlock KSection (lit "passwd")
  [ TEntry (lit "name") (quoted_text (pw_name (user_passwd u)));
    TEntry (lit "gecos") (quoted_text (pw_gecos (user_passwd u)));
    TEntry (lit "dir") (quoted_text (pw_dir (user_passwd u)));
    TEntry (lit "shell") (quoted_text (pw_shell (user_passwd u))) ].

Definition process_tree (branch : list tree) (groups : wstr) : tree := TBlock KSection (lit "process")
  ([ TEntry (lit "process id (pid)") (int_text (u_pid (ids u)));
     TEntry (lit "parent process id (ppid)") (int_text (ppid u));
     TEntry (lit "session id (sid)") (leader_text (u_sid (ids u)) (is_session_leader (ids u)));
     TEntry (lit "name") (quoted_text (proc_name u)) ] ++ branch ++
   [ TEntry (lit "process group id") (leader_text (u_pgroup (ids u)) (is_process_group_leader (ids u)));
     TEntry (lit "foreground process group") (int_text (fg_pgroup u));
     TEntry (lit "terminal") (quoted_text (ctrl_terminal u));
     TEntry (lit "has controlling terminal") (yes_no has_ctty);
     TEntry (lit "on console") (yes_no (is_console (s_tty cfg)));
     user_tree; group_tree;
     TEntry (lit "login name") (quoted_text (default [] (login u)));
     passwd_tree;
     TEntry (lit "groups") groups ]).

(** The strings of the process. *)
Definition process_strings : list bytes :=
  [ proc_name u; ctrl_terminal u; default [] (get_user_name (uid u));
    default [] (get_user_name (euid u)); default UNKNOWN_STR (get_user_name (suid u));
    default [] (get_group_name (gid u)); default [] (get_group_name (egid u));
    default UNKNOWN_STR (get_group_name (sgid u)); default [] (login u);
    pw_name (user_passwd u); pw_gecos (user_passwd u); pw_dir (user_passwd u);
    pw_shell (user_passwd u) ].
End Tree.

Lemma text_yes_no b : text_is cfg (yes_no b) (yes_no b).
Proof. apply printable_text. by destruct b. Qed.

Lemma text_quote_of name : text_is cfg (quote_of name) (quote_of name).
Proof. apply printable_text. by destruct name. Qed.
Hint Resolve text_yes_no text_quote_of : shown.

(** C22: when the owners and groups of the process have names, [show_proc] prints
    a section "process" with the identifiers of the process, what the driver
    says of its branch, a section for the user and one for the group with the
    real, effective and saved identifiers and their names ("unknown" without
    quotes when a saved one has none), the fields of the password entry, and
    the supplementary groups, each with its name and number, sorted by
    [strcoll] and separated by commas. *)
Theorem show_proc_correct (T : bytes -> wstr) u (branch : list tree) (names : list (bytes * Z)) w :
  Forall (fun s => text_is cfg s (T s)) (process_strings u) ->
  is_Some (get_user_name (uid u)) -> is_Some (get_user_name (euid u)) ->
  is_Some (get_group_name (gid u)) -> is_Some (get_group_name (egid u)) ->
  prints cfg (run_op op_handle_proc_branch) branch ->
  supplementary (map snd names) -> names <> [] -> length names <= 32 + NGROUPS_MAX ->
  Forall (fun e => getgrgid e.2 = Some e.1 /\ nz e.1) names -> CollationLaws ->
  text_is cfg (groups_text names) w ->
  prints cfg (show_proc u) [process_tree T u branch w].
Proof.
  intros HT [un Eu] [eun Eeu] [gn Eg] [egn Eeg] Hb Hsup Hne Hlen Hns HC Hw.
  assert (forall s, s ∈ process_strings u -> text_is cfg s (T s)) as Ht by by apply Forall_forall.
  unfold process_strings in Ht. unfold process_tree, user_tree, group_tree, id_text.
  pose proof (prints_groups u names w Hsup Hne Hlen Hns HC Hw) as Hg.
  unfold show_proc, saved_id. rewrite Eu, Eeu, Eg, Eeg in *. cbn [from_option id str_arg] in Ht |- *.
  eapply prints_eq.
  - prints_steps.
    + unfold handle_proc_branch. prints_steps. exact Hb.
    + reading (apply reads_tty). prints_steps. exact Hg.
  - same_trees.
Qed.

(** ** The calls are well placed *)

(** What the system says of the process is complete: the owners have names,
    and every string can be shown. *)
Class ProcessAnswers (u : procenv_user) : Prop := {
  process_strings_showable : Forall (showable cfg) (process_strings u);
  process_names :
    is_Some (get_user_name (uid u)) /\ is_Some (get_user_name (euid u)) /\
    is_Some (get_group_name (gid u)) /\ is_Some (get_group_name (egid u));
  process_groups : exists (names : list (bytes * Z)) w,
    supplementary (map snd names) /\ names <> [] /\ length names <= 32 + NGROUPS_MAX /\
    Forall (fun e => getgrgid e.2 = Some e.1 /\ nz e.1) names /\ text_is cfg (groups_text names) w
}.

Lemma showable_quote_of name : showable cfg (quote_of name).
Proof. apply printable_showable. by destruct name. Qed.
Hint Resolve showable_quote_of : shown.

Lemma titled_show_proc `{!DriverTyped cfg} `{!CollationLaws} u `{!ProcessAnswers u} :
  titled cfg (lit "process") 8 (show_proc u).
Proof.
  destruct process_names as ([un Eu] & [eun Eeu] & [gn Eg] & [egn Eeg]).
  destruct process_groups as (names & w & Hsup & Hne & Hlen & Hns & Hw).
  pose proof (prints_groups u names w Hsup Hne Hlen Hns _ Hw) as Hg.
  assert (forall s, s ∈ process_strings u -> showable cfg s) as Ht
    by (apply Forall_forall, process_strings_showable).
  unfold process_strings in Ht. unfold show_proc, saved_id. rewrite Eu, Eeu, Eg, Eeg in *.
  cbn [from_option id str_arg] in Ht |- *. typed_steps.
  - unfold handle_proc_branch. typed_steps.
  - reading (apply reads_tty). typed_steps.
    apply (typed_prints cfg _ _ _ _ Hg); [done|]. repeat constructor; cbn; lia.
Qed.

Lemma titled_show_uname u :
  Forall (showable cfg) [sysname u; nodename u; release u; version u; machine u; domainname u] ->
  titled cfg (lit "uname") 8 (show_uname u).
Proof.
  intros Hs. assert (forall s, s ∈ [sysname u; nodename u; release u; version u; machine u; domainname u] ->
    showable cfg s) as Ht by by apply Forall_forall.
  unfold show_uname. typed_steps.
Qed.

Lemma titled_show_version :
  showable cfg PACKAGE_NAME -> showable cfg PACKAGE_VERSION -> titled cfg (lit "version") 8 show_version.
Proof. intros Hn Hv. unfold show_version. typed_steps. Qed.
End Spec.
