(* ===== verification/ProcessTree.v ===== *)
(** ProcessTree: the ancestors of the process on systems that give a table of
    processes: handle_proc_branch_freebsd, handle_proc_branch_netbsd,
    handle_proc_branch_openbsd (src/src/platform/freebsd/platform.c, netbsd,
    openbsd) and handle_proc_branch_darwin (darwin/platform.c).

    Each walks up the tree by scanning the table again and again.  FreeBSD stops
    at a process that is not in the table; the others stop at a process that
    they expect to be there, and never otherwise. *)
From S2P Require Import Prelude Memory PrList Locale PString StringUtil Encode Output OutputSpec Document Prints Util Affinity Display Format Platform Process.

(** An entry of a table: [struct kinfo_proc] or [struct kinfo_proc2]. *)
Record kinfo_proc : Set := mk_kinfo { ki_pid : Z; ki_ppid : Z; ki_comm : bytes }.

#[export] Instance kinfo_proc_eq_dec : EqDecision kinfo_proc.
Proof. solve_decision. Defined.

(** What the library of the kernel's memory answers; [kvm_getprocs] is the
    whole table ([kvm_getproc2] on NetBSD). *)
Class ProcessTable : Type := {
  kvm_openfiles : bool;
  kvm_getprocs : option (list kinfo_proc);
  kvm_close : bool
}.

Definition KI_MAXCOMLEN : Z := 24.

Section Walks.
Context `{Allocator} `{Locale} `{Identity}.

(** ** FreeBSD *)

(** The loop over the table. *)
Fixpoint scan_freebsd (procs : list kinfo_proc) (pid_to_find : Z) (found_pid : bool) (str : option buffer)
  : prog mem (Z * bool * option buffer) :=
  match procs with
  | [] => mret (pid_to_find, found_pid, str)
  | p :: procs' =>
    if Z.eqb (ki_pid p) pid_to_find then
      str ← appendf str (lit "%s%d ('%s')")
        [AStr (if Z.eqb pid_to_find getpid then [] else lit ", "); ANum (ki_pid p); AStr (ki_comm p)];
      scan_freebsd procs' (ki_ppid p) true str
    else scan_freebsd procs' pid_to_find found_pid str
  end.

(** The loop [while (true)]. *)
Fixpoint walk_freebsd (fuel : nat) (procs : list kinfo_proc) (pid_to_find : Z) (str : option buffer)
  : prog mem (option buffer) :=
  match fuel with
  | 0 => diverge
  | S fuel' =>
    '(pid, found_pid, str) ← scan_freebsd procs pid_to_find false str;
    if negb found_pid || Z.eqb pid 0 then mret str else walk_freebsd fuel' procs pid str
  end.

(** ** NetBSD, OpenBSD and Darwin *)

(** The loop over the table, with the format of an entry; the walk is to end
    at [last]. *)
Fixpoint scan_table (last ultimate_parent : Z) (fmt : bytes) (args : Z -> kinfo_proc -> list arg)
  (procs : list kinfo_proc) (current : Z) (str : option buffer) : prog mem (bool * Z * option buffer) :=
  match procs with
  | [] => mret (false, current, str)
  | p :: procs' =>
    if Z.eqb (ki_pid p) current then
      if Z.eqb ultimate_parent last && Z.eqb current ultimate_parent then
        str ← appendf str fmt (args current p); mret (true, current, str)
      else
        str ← appendf str (fmt ++ lit ", ") (args current p);
        scan_table last ultimate_parent fmt args procs' (ki_ppid p) str
    else scan_table last ultimate_parent fmt args procs' current str
  end.

(** The loop [while (! done)]. *)
Fixpoint walk_table (fuel : nat) (last ultimate_parent : Z) (fmt : bytes) (args : Z -> kinfo_proc -> list arg)
  (procs : list kinfo_proc) (current : Z) (str : option buffer) : prog mem (option buffer) :=
  match fuel with
  | 0 => diverge
  | S fuel' =>
    '(done, current, str) ← scan_table last ultimate_parent fmt args procs current str;
    if done : bool then mret str else walk_table fuel' last ultimate_parent fmt args procs current str
  end.

(** The lowest number of a process. *)
Definition lowest_pid (procs : list kinfo_proc) : outcome Z :=
  match procs with
  | [] => UB "read past the end of the table"
  | p :: procs' =>
    Ok (foldl (fun u p => if Z.ltb (ki_pid p) u then ki_pid p else u) (ki_pid p) procs')
  end.

Definition name_args (current : Z) (p : kinfo_proc) : list arg := [ANum current; AStr (ki_comm p)].
Definition padded_args (current : Z) (p : kinfo_proc) : list arg :=
  [ANum current; ANum KI_MAXCOMLEN; AStr (ki_comm p)].

(** One round over the table finds a process, so that this many rounds are
    enough. *)
Definition rounds (procs : list kinfo_proc) : nat := S (length procs).

Definition table_text (last : Z) (fmt : bytes) (args : Z -> kinfo_proc -> list arg) (procs : list kinfo_proc)
  : prog mem (option buffer) :=
  ultimate_parent ← pure (lowest_pid procs);
  walk_table (rounds procs) last ultimate_parent fmt args procs getpid None.

(** The functions for FreeBSD, NetBSD and OpenBSD: the walk between the calls
    of the library. *)
Definition with_kvm `{!ProcessTable} (walk : list kinfo_proc -> prog mem (option buffer)) : prog ostate unit :=
  common_assert;;
  if negb kvm_openfiles then die "unable to open kvm"
  else
    match kvm_getprocs with
    | None => die "failed to get process info"
    | Some procs =>
      text ← in_mem (
        str ← walk procs;
        (if kvm_close then mret tt else die "failed to close kvm");;
        string_of str);
      entry (lit "ancestry") (lit "%s") [AStr text]
    end.

Definition handle_proc_branch_freebsd `{!ProcessTable} : prog ostate unit :=
  with_kvm (fun procs => walk_freebsd (rounds procs) procs getpid None).

Definition handle_proc_branch_netbsd `{!ProcessTable} : prog ostate unit :=
  with_kvm (table_text 0 (lit "%d ('%*s')") padded_args).

Definition handle_proc_branch_openbsd `{!ProcessTable} : prog ostate unit :=
  with_kvm (table_text 1 (lit "%d ('%s')") name_args).
End Walks.

(** ** The ancestors in a table *)
Section Ancestors.
Variable procs : list kinfo_proc.

(** The processes from [pid] upwards, as long as the table has them. *)
Inductive ancestry : Z -> list kinfo_proc -> Prop :=
| ancestry_end pid : (forall p, p ∈ procs -> ki_pid p <> pid) -> ancestry pid []
| ancestry_step p ps : p ∈ procs -> ancestry (ki_ppid p) ps -> ancestry (ki_pid p) (p :: ps).

(** The processes from [pid] up to the process [last]. *)
Inductive descends (last : Z) : Z -> list kinfo_proc -> Prop :=
| descends_last p : p ∈ procs -> ki_pid p = last -> descends last (ki_pid p) [p]
| descends_step p ps :
    p ∈ procs -> ki_pid p <> last -> descends last (ki_ppid p) ps -> descends last (ki_pid p) (p :: ps).

Hypothesis procs_unique : NoDup (map ki_pid procs).

Lemma same_process p q : p ∈ procs -> q ∈ procs -> ki_pid p = ki_pid q -> p = q.
Proof.
  intros Hp Hq E. apply list_elem_of_lookup in Hp as [i Hi]. apply list_elem_of_lookup in Hq as [j Hj].
  assert (i = j) as ->; [|congruence].
  eapply NoDup_lookup; [exact procs_unique|by rewrite list_lookup_fmap, Hi|].
  by rewrite list_lookup_fmap, Hj; cbn; rewrite E.
Qed.

Lemma ancestry_unique pid ps qs : ancestry pid ps -> ancestry pid qs -> ps = qs.
Proof.
  intros Hp. revert qs. induction Hp as [pid Hn|p ps Hin Hp IH]; intros qs Hq.
  - inversion Hq; subst; [done|]. by edestruct Hn.
  - inversion Hq as [? Hn|q qs' Hin' Hq' E]; subst; [by edestruct Hn|].
    apply same_process in E; [|done..]. subst q. f_equal. by apply IH.
Qed.

Lemma descends_unique last pid ps qs : descends last pid ps -> descends last pid qs -> ps = qs.
Proof.
  intros Hp. revert qs. induction Hp as [p Hin E|p ps Hin Hne Hp IH]; intros qs Hq;
    inversion Hq as [q Hin' E' Eq|q qs' Hin' Hne' Hq' Eq]; subst;
    apply same_process in Eq; try done; subst; try done. f_equal. by apply IH.
Qed.

Lemma ancestry_head pid ps p : ancestry pid ps -> head ps = Some p -> ki_pid p = pid.
Proof. destruct 1; cbn; congruence. Qed.

(** A process occurs once among its ancestors, for any chain determined by
    its first process. *)
Lemma chain_nodup (chain : Z -> list kinfo_proc -> Prop) :
  (forall pid ps qs, chain pid ps -> chain pid qs -> ps = qs) ->
  (forall pid p ps, chain pid (p :: ps) -> pid = ki_pid p /\ p ∈ procs /\ (ps = [] \/ chain (ki_ppid p) ps)) ->
  forall pid ps, chain pid ps -> NoDup (map ki_pid ps) /\ ps ⊆ procs.
Proof.
  intros Hu Hc pid ps. revert pid. induction ps as [|p ps IH]; intros pid Hp.
  { split; [constructor|apply list_subseteq_nil]. }
  destruct (Hc _ _ _ Hp) as (-> & Hin & Hps).
  assert (NoDup (map ki_pid ps) /\ ps ⊆ procs) as [Hnd Hsub].
  { destruct Hps as [->|Hps]; [split; [constructor|apply list_subseteq_nil]|by eapply IH]. }
  split; [|intros q Hq; apply elem_of_cons in Hq as [->|Hq]; [done|by apply Hsub]]. cbn [map]. constructor; [|done].
  intros Hq. assert (forall qs pid', chain pid' qs -> ki_pid p ∈ map ki_pid qs ->
    exists rs, chain (ki_pid p) rs /\ length rs <= length qs) as Hsuf.
  { induction qs as [|q qs IHq]; intros pid' Hch Hin'; [by apply elem_of_nil in Hin'|].
    destruct (Hc _ _ _ Hch) as (-> & _ & Hqs). cbn [map] in Hin'. apply elem_of_cons in Hin' as [E|Hin'].
    - exists (q :: qs). by rewrite E.
    - destruct Hqs as [->|Hqs]; [by apply elem_of_nil in Hin'|].
      destruct (IHq _ Hqs Hin') as (rs & ? & ?). exists rs. cbn. split; [done|lia]. }
  destruct Hps as [->|Hps]; [by apply elem_of_nil in Hq|].
  destruct (Hsuf _ _ Hps Hq) as (rs & Hrs & Hl). pose proof (Hu _ _ _ Hp Hrs) as <-. cbn in Hl. lia.
Qed.

Lemma chain_length ps : NoDup (map ki_pid ps) -> ps ⊆ procs -> length ps <= length procs.
Proof.
  intros Hnd Hsub. apply submseteq_length, NoDup_submseteq; [by eapply NoDup_fmap_1|].
  intros p Hp. by apply Hsub.
Qed.

Lemma ancestry_nodup pid ps : ancestry pid ps -> NoDup (map ki_pid ps) /\ ps ⊆ procs.
Proof.
  apply chain_nodup; [exact ancestry_unique|]. intros ? p ? Hp. inversion Hp; subst. by auto.
Qed.

Lemma descends_nodup last pid ps : descends last pid ps -> NoDup (map ki_pid ps) /\ ps ⊆ procs.
Proof.
  apply chain_nodup; [exact (descends_unique last)|]. intros ? p ? Hp. inversion Hp; subst; auto.
Qed.
End Ancestors.

(** A process of a listing. *)
Definition ancestor_text (pid name : bytes) : bytes := pid ++ lit " ('" ++ name ++ lit "')".

Lemma nz_ancestor pid name : nz pid -> nz name -> nz (ancestor_text pid name).
Proof.
  intros Hp Hn. unfold ancestor_text. repeat (apply nz_app; split); try done; nz_lit.
Qed.

Lemma listing_cons t ts : ts <> [] -> listing (t :: ts) = t ++ lit ", " ++ listing ts.
Proof. destruct ts as [|u ts]; [done|]. intros _. unfold listing. by cbn [map concat]. Qed.

(** ** The walks *)
Section Run.
Context `{AllocTotal} `{Locale} `{Identity} (procs : list kinfo_proc).
Hypothesis procs_unique : NoDup (map ki_pid procs).
Hypothesis comms : Forall (fun p => nz (ki_comm p)) procs.

(** The text of a process, with what separates it from the one before. *)
Definition piece (p : kinfo_proc) : bytes :=
  (if Z.eqb (ki_pid p) getpid then [] else lit ", ") ++ ancestor_text (int_text (ki_pid p)) (ki_comm p).

Definition ancestors (ps : list kinfo_proc) : list bytes :=
  map (fun p => ancestor_text (int_text (ki_pid p)) (ki_comm p)) ps.

Lemma comm_nz p : p ∈ procs -> nz (ki_comm p).
Proof. intros Hp. rewrite Forall_forall in comms. by apply comms. Qed.

Lemma nz_int_text z : nz (int_text z).
Proof. apply printable_nz. exact (printable_number_text (mk_spec false false 0 None 0) 100 z). Qed.

Lemma nz_piece p : p ∈ procs -> nz (piece p).
Proof.
  intros Hp. unfold piece. apply nz_app. split; [case_match; nz_lit|].
  apply nz_ancestor; [apply nz_int_text|by apply comm_nz].
Qed.

Lemma piece_renders p :
  p ∈ procs ->
  renders plain (lit "%s%d ('%s')")
    [AStr (if Z.eqb (ki_pid p) getpid then [] else lit ", "); ANum (ki_pid p); AStr (ki_comm p)] (piece p).
Proof.
  intros Hp. unfold piece, ancestor_text. render. apply plain_intro.
  - case_match; nz_lit.
  - apply plain_intro. by apply comm_nz.
Qed.

Lemma scan_freebsd_ok rest pid ps found str s m :
  ancestry procs pid ps -> rest ⊆ procs -> cstr_of str s -> nz s ->
  exists qs qs' pid' b m', ps = qs ++ qs' /\
    scan_freebsd rest pid found str m = Ok ((pid', found || negb (bool_decide (qs = [])), b), m') /\
    ancestry procs pid' qs' /\ cstr_of b (s ++ concat (map piece qs)) /\
    nz (s ++ concat (map piece qs)) /\ ticked m m' /\
    (forall p, head ps = Some p -> p ∈ rest -> qs <> []).
Proof.
  revert pid ps found str s m. induction rest as [|p rest IH]; intros pid ps found str s m Ha Hr Hb Hnz;
    cbn [scan_freebsd].
  - exists [], ps, pid, str, m. rewrite bool_decide_true, orb_false_r by done. cbn. rewrite app_nil_r.
    split_and!; try done. intros p _ Hp. by apply elem_of_nil in Hp.
  - assert (p ∈ procs) as Hp by (apply Hr, list_elem_of_here).
    assert (rest ⊆ procs) as Hr' by (intros q Hq; by apply Hr, list_elem_of_further).
    destruct (Z.eqb_spec (ki_pid p) pid) as [<-|Hne].
    + destruct (appendf_renders str s _ _ _ m Hb Hnz (piece_renders p Hp)) as (b & m1 & E & Hb1 & Ht1).
      assert (nz (s ++ piece p)) as Hnz1 by (apply nz_app; split; [done|by apply nz_piece]).
      inversion Ha as [? Hn|q ps' Hin Ha' Eq]; subst; [by edestruct Hn|].
      apply (same_process procs procs_unique) in Eq; [subst q|done..].
      destruct (IH _ ps' true (Some b) _ m1 Ha' Hr' Hb1 Hnz1)
        as (qs & qs' & pid' & b' & m' & -> & E' & Ha'' & Hb' & Hn' & Ht' & _).
      exists (p :: qs), qs', pid', b', m'. cbn [map concat]. rewrite <- app_assoc in Hb', Hn'. split_and!; try done.
      * step_with E. rewrite E'. cbn. by rewrite orb_true_r.
      * by etrans.
    + destruct (IH pid ps found str s m Ha Hr' Hb Hnz) as (qs & qs' & pid' & b & m' & Hps & E & Ha' & Hb' & Hn' & Ht & Hf).
      exists qs, qs', pid', b, m'. split_and!; try done. intros q Hq Hin.
      apply elem_of_cons in Hin as [->|Hin]; [|by eapply Hf].
      pose proof (ancestry_head _ _ _ _ Ha Hq). congruence.
Qed.

Lemma walk_freebsd_ok fuel pid ps str s m :
  (forall p, p ∈ procs -> ki_pid p <> 0%Z) ->
  ancestry procs pid ps -> length ps < fuel -> cstr_of str s -> nz s ->
  exists b m', walk_freebsd fuel procs pid str m = Ok (b, m') /\
    cstr_of b (s ++ concat (map piece ps)) /\ nz (s ++ concat (map piece ps)) /\ ticked m m'.
Proof.
  intros Hno. revert pid ps str s m. induction fuel as [|fuel IH]; intros pid ps str s m Ha Hf Hb Hnz; [lia|].
  cbn [walk_freebsd].
  destruct (scan_freebsd_ok procs pid ps false str s m Ha (reflexivity _) Hb Hnz)
    as (qs & qs' & pid' & b & m1 & -> & E & Ha' & Hb' & Hn' & Ht & Hq).
  step_with E. rewrite length_app in Hf. destruct qs as [|q qs].
  - rewrite bool_decide_true by done. cbn [orb negb]. exists b, m1.
    destruct qs' as [|p qs'].
    + rewrite !app_nil_r in *. by split_and!.
    + exfalso. apply (Hq p eq_refl); [|done]. by inversion Ha.
  - rewrite bool_decide_false by done. cbn [orb negb]. destruct (Z.eqb_spec pid' 0) as [->|Hne].
    + inversion Ha' as [|p ps Hin _ E0]; subst; [|by edestruct (Hno p)].
      exists b, m1. rewrite app_nil_r. by split_and!.
    + cbn [length] in Hf.
      destruct (IH pid' qs' b (s ++ concat (map piece (q :: qs))) m1 Ha') as (b2 & m2 & E2 & Hb2 & Hn2 & Ht2); [lia|done|done|].
      exists b2, m2. rewrite map_app, concat_app, app_assoc. split_and!; try done. by etrans.
Qed.

(** *** The walk to a given process *)
Section Table.
Variables (last : Z) (fmt : bytes) (args : Z -> kinfo_proc -> list arg) (name_text : kinfo_proc -> bytes).
Hypothesis name_nz : forall p, p ∈ procs -> nz (name_text p).
Hypothesis name_renders : forall p, p ∈ procs ->
  renders plain fmt (args (ki_pid p) p) (name_text p).
Hypothesis next_renders : forall p, p ∈ procs ->
  renders plain (fmt ++ lit ", ") (args (ki_pid p) p) (name_text p ++ lit ", ").

(** Every process but the last is followed by a separator. *)
Definition followed (p : kinfo_proc) : bytes := name_text p ++ (if Z.eqb (ki_pid p) last then [] else lit ", ").

Lemma followed_step (b : bool) p str s m :
  p ∈ procs -> cstr_of str s -> nz s -> b = Z.eqb (ki_pid p) last ->
  exists b' m', appendf str (if b then fmt else fmt ++ lit ", ") (args (ki_pid p) p) m = Ok (Some b', m') /\
    cstr_of (Some b') (s ++ followed p) /\ nz (s ++ followed p) /\ ticked m m'.
Proof.
  intros Hp Hb Hnz ->. unfold followed. pose proof (name_nz p Hp) as Hn. destruct (Z.eqb (ki_pid p) last).
  - rewrite app_nil_r. destruct (appendf_renders str s _ _ _ m Hb Hnz (name_renders p Hp)) as (b & m' & ? & ? & ?).
    exists b, m'. split_and!; try done. by apply nz_app.
  - destruct (appendf_renders str s _ _ _ m Hb Hnz (next_renders p Hp)) as (b & m' & ? & ? & ?).
    exists b, m'. split_and!; try done. apply nz_app. split; [done|]. apply nz_app. split; [done|nz_lit].
Qed.

Lemma scan_table_ok rest pid ps str s m :
  descends procs last pid ps -> rest ⊆ procs -> cstr_of str s -> nz s ->
  exists done qs qs' pid' b m', ps = qs ++ qs' /\
    scan_table last last fmt args rest pid str m = Ok ((done, pid', b), m') /\
    (if done : bool then qs' = [] else descends procs last pid' qs') /\
    cstr_of b (s ++ concat (map followed qs)) /\ nz (s ++ concat (map followed qs)) /\ ticked m m' /\
    (forall p, head ps = Some p -> p ∈ rest -> qs <> []).
Proof.
  revert pid ps str s m. induction rest as [|p rest IH]; intros pid ps str s m Ha Hr Hb Hnz; cbn [scan_table].
  - exists false, [], ps, pid, str, m. cbn. rewrite app_nil_r.
    split_and!; try done. intros p _ Hp. by apply elem_of_nil in Hp.
  - assert (p ∈ procs) as Hp by (apply Hr, list_elem_of_here).
    assert (rest ⊆ procs) as Hr' by (intros q Hq; by apply Hr, list_elem_of_further).
    destruct (Z.eqb_spec (ki_pid p) pid) as [<-|Hne].
    + rewrite Z.eqb_refl, andb_true_l.
      destruct (followed_step _ p str s m Hp Hb Hnz eq_refl) as (b & m1 & E & Hb1 & Hn1 & Ht1).
      inversion Ha as [q Hin El Eq|q ps' Hin El Ha' Eq]; subst ps;
        apply (same_process procs procs_unique) in Eq; try done; subst q.
      * rewrite El, Z.eqb_refl in *. exists true, [p], [], last, (Some b), m1. cbn [map concat].
        rewrite !app_nil_r. split_and!; try done. by step_with E.
      * rewrite (proj2 (Z.eqb_neq _ _) El) in *.
        destruct (IH _ ps' (Some b) _ m1 Ha' Hr' Hb1 Hn1)
          as (fin & qs & qs' & pid' & b' & m' & -> & E' & Ha'' & Hb' & Hn' & Ht' & _).
        exists fin, (p :: qs), qs', pid', b', m'. cbn [map concat]. rewrite <- app_assoc in Hb', Hn'.
        split_and!; try done; [by step_with E|by etrans].
    + destruct (IH pid ps str s m Ha Hr' Hb Hnz) as (fin & qs & qs' & pid' & b & m' & Hps & E & Ha' & Hb' & Hn' & Ht & Hf).
      exists fin, qs, qs', pid', b, m'. split_and!; try done. intros q Hq Hin.
      apply elem_of_cons in Hin as [->|Hin]; [|by eapply Hf].
      exfalso. destruct Ha; cbn in Hq; congruence.
Qed.

Lemma walk_table_ok fuel pid ps str s m :
  descends procs last pid ps -> length ps <= fuel -> cstr_of str s -> nz s ->
  exists b m', walk_table fuel last last fmt args procs pid str m = Ok (b, m') /\
    cstr_of b (s ++ concat (map followed ps)) /\ nz (s ++ concat (map followed ps)) /\ ticked m m'.
Proof.
  revert pid ps str s m. induction fuel as [|fuel IH]; intros pid ps str s m Ha Hf Hb Hnz.
  { destruct Ha; cbn in Hf; lia. }
  cbn [walk_table].
  destruct (scan_table_ok procs pid ps str s m Ha (reflexivity _) Hb Hnz)
    as (fin & qs & qs' & pid' & b & m1 & -> & E & Ha' & Hb' & Hn' & Ht & Hq).
  step_with E. destruct fin.
  - subst qs'. rewrite app_nil_r. exists b, m1. by split_and!.
  - assert (qs <> []) as Hne.
    { assert (exists p, head (qs ++ qs') = Some p /\ p ∈ procs) as (p & Hh & Hp) by (destruct Ha; eauto).
      by apply (Hq p). }
    rewrite length_app in Hf. destruct qs as [|q qs]; [done|]. cbn [length] in Hf.
    destruct (IH pid' qs' b (s ++ concat (map followed (q :: qs))) m1 Ha') as (b2 & m2 & E2 & Hb2 & Hn2 & Ht2);
      [lia|done|done|].
    exists b2, m2. rewrite map_app, concat_app, app_assoc. split_and!; try done. by etrans.
Qed.

(** The walk does not come to [last], or does not stop there. *)
Definition unreached (ultimate_parent pid : Z) : Prop :=
  ultimate_parent <> last \/ forall ps, ~ descends procs last pid ps.

Lemma scan_table_endless u rest pid str s m :
  unreached u pid -> rest ⊆ procs -> cstr_of str s -> nz s ->
  exists pid' b t m', scan_table last u fmt args rest pid str m = Ok ((false, pid', b), m') /\
    unreached u pid' /\ cstr_of b t /\ nz t.
Proof.
  revert pid str s m. induction rest as [|p rest IH]; intros pid str s m Hu Hr Hb Hnz; cbn [scan_table].
  { by exists pid, str, s, m. }
  assert (p ∈ procs) as Hp by (apply Hr, list_elem_of_here).
  assert (rest ⊆ procs) as Hr' by (intros q Hq; by apply Hr, list_elem_of_further).
  destruct (Z.eqb_spec (ki_pid p) pid) as [<-|Hne]; [|by apply (IH pid str s)].
  rewrite (proj2 (andb_false_iff _ _)).
  - destruct (appendf_renders str s _ _ _ m Hb Hnz (next_renders p Hp)) as (b & m1 & E & Hb1 & _).
    rewrite (prog_bind_ok _ _ _ _ _ E). eapply IH; [|done|exact Hb1|].
    + destruct Hu as [Hu|Hu]; [by left|right]. intros ps Hd.
      destruct (decide (ki_pid p = last)) as [El|El]; [by apply (Hu [p]), descends_last|].
      by apply (Hu (p :: ps)), descends_step.
    + apply nz_app. split; [done|]. apply nz_app. split; [by apply name_nz|nz_lit].
  - destruct Hu as [Hu|Hu]; [left; by apply Z.eqb_neq|]. destruct (Z.eqb_spec u last) as [->|]; [right|by left].
    apply Z.eqb_neq. intros El. by apply (Hu [p]), descends_last.
Qed.

Lemma walk_table_endless u fuel pid str s m :
  unreached u pid -> cstr_of str s -> nz s ->
  walk_table fuel last u fmt args procs pid str m = Diverge.
Proof.
  revert pid str s m. induction fuel as [|fuel IH]; intros pid str s m Hu Hb Hnz; [done|]. cbn [walk_table].
  destruct (scan_table_endless u procs pid str s m Hu (reflexivity _) Hb Hnz) as (pid' & b & t & m' & E & Hu' & Hb' & Ht).
  rewrite (prog_bind_ok _ _ _ _ _ E). by apply (IH pid' b t).
Qed.
End Table.
End Run.

(** *** The texts *)
Definition padded_text (p : kinfo_proc) : bytes :=
  ancestor_text (int_text (ki_pid p)) (pad false (Z.to_nat KI_MAXCOMLEN) (ki_comm p)).

Definition named_text (p : kinfo_proc) : bytes := ancestor_text (int_text (ki_pid p)) (ki_comm p).

Section Texts.
Context `{AllocTotal} `{LocaleLaws} `{Identity} (cfg : settings) (procs : list kinfo_proc).
Hypothesis procs_unique : NoDup (map ki_pid procs).
Hypothesis comms : Forall (fun p => nz (ki_comm p)) procs.

Lemma padded_renders p :
  nz (ki_comm p) ->
  renders plain (lit "%d ('%*s')") (padded_args (ki_pid p) p) (padded_text p) /\
  renders plain (lit "%d ('%*s')" ++ lit ", ") (padded_args (ki_pid p) p) (padded_text p ++ lit ", ").
Proof.
  intros Hc. assert (plain (ki_comm p) (ki_comm p)) by by apply plain_intro.
  unfold padded_args, padded_text, ancestor_text. split; render. by rewrite <- !app_assoc.
Qed.

Lemma named_renders p :
  nz (ki_comm p) ->
  renders plain (lit "%d ('%s')") (name_args (ki_pid p) p) (named_text p) /\
  renders plain (lit "%d ('%s')" ++ lit ", ") (name_args (ki_pid p) p) (named_text p ++ lit ", ").
Proof.
  intros Hc. assert (plain (ki_comm p) (ki_comm p)) by by apply plain_intro.
  unfold name_args, named_text, ancestor_text. split; render. by rewrite <- !app_assoc.
Qed.

(** The separators make the pieces a listing. *)
Lemma pieces_listing ps :
  ancestry procs getpid ps -> concat (map piece ps) = listing (map named_text ps).
Proof.
  intros Ha. pose proof (ancestry_nodup procs procs_unique _ _ Ha) as [Hnd _].
  destruct ps as [|p ps]; [done|]. pose proof (ancestry_head procs _ _ p Ha eq_refl) as E.
  cbn [map concat] in *. unfold piece at 1. rewrite E, Z.eqb_refl. unfold listing. cbn [map app].
  f_equal; [by unfold named_text; rewrite E|]. f_equal. rewrite map_map. apply map_ext_in. intros q Hq.
  unfold piece. apply NoDup_cons in Hnd as [Hp _].
  rewrite (proj2 (Z.eqb_neq _ _)); [done|]. intros Eq. apply Hp. rewrite E, <- Eq.
  apply list_elem_of_fmap. exists q. split; [done|]. by apply list_elem_of_In.
Qed.

Lemma followed_listing last name_text pid ps :
  descends procs last pid ps -> concat (map (followed last name_text) ps) = listing (map name_text ps).
Proof.
  induction 1 as [p _ E|p ps _ Hne Hd IH]; cbn [map concat]; unfold followed at 1.
  - rewrite E, Z.eqb_refl. unfold listing. cbn. by rewrite !app_nil_r.
  - rewrite (proj2 (Z.eqb_neq _ _)), IH, listing_cons by (done || by destruct Hd). by rewrite <- app_assoc.
Qed.
End Texts.

Lemma lowest_ok (procs : list kinfo_proc) last :
  (exists p, p ∈ procs /\ ki_pid p = last) -> (forall p, p ∈ procs -> last <= ki_pid p)%Z ->
  lowest_pid procs = Ok last.
Proof.
  intros (p & Hp & E) Hmin. destruct procs as [|q qs]; [by apply elem_of_nil in Hp|]. cbn [lowest_pid]. f_equal.
  assert (forall u, (last <= u)%Z -> (u = last \/ exists p, p ∈ qs /\ ki_pid p = last) ->
    foldl (fun u p => if Z.ltb (ki_pid p) u then ki_pid p else u) u qs = last) as Hf.
  { assert (forall p, p ∈ qs -> last <= ki_pid p)%Z as Hq by (intros r Hr; by apply Hmin, list_elem_of_further).
    clear -Hq. induction qs as [|r qs IH]; intros u Hu Ho; cbn [foldl].
    - destruct Ho as [->|(p & Hp & _)]; [done|by apply elem_of_nil in Hp].
    - pose proof (Hq r (list_elem_of_here _ _)).
      apply IH; [intros s Hs; by apply Hq, list_elem_of_further|destruct (Z.ltb_spec (ki_pid r) u); lia|].
      destruct Ho as [->|(p & Hp & E)].
      + left. destruct (Z.ltb_spec (ki_pid r) last); lia.
      + apply elem_of_cons in Hp as [->|Hp]; [|right; by exists p].
        left. destruct (Z.ltb_spec (ki_pid r) u); lia. }
  apply Hf; [apply Hmin, list_elem_of_here|]. apply elem_of_cons in Hp as [->|Hp]; [by left|right; by exists p].
Qed.

(** ** The entry of the ancestors *)
Section Show.
Context `{AllocTotal} `{LocaleLaws} `{Identity} `{ProcessTable} (cfg : settings) (procs : list kinfo_proc).

(** A table that the kernel gives: every process once, with a name. *)
Definition processes_ok : Prop :=
  kvm_openfiles = true /\ kvm_getprocs = Some procs /\ kvm_close = true /\
  NoDup (map ki_pid procs) /\ Forall (fun p => nz (ki_comm p)) procs.

Lemma prints_with_kvm walk text w :
  processes_ok -> text <> [] -> text_is cfg text w ->
  (forall m, exists b m', walk procs m = Ok (b, m') /\ cstr_of b text /\ nz text /\ ticked m m') ->
  prints cfg (with_kvm walk) [TEntry (lit "ancestry") w].
Proof.
  intros (Ho & Hg & Hc & _ & _) Hne Hw Hwalk. unfold with_kvm. apply prints_do; [apply silent_common_assert|].
  rewrite Ho, Hg, Hc. cbn [negb].
  assert (reads cfg (in_mem (str ← walk procs; mret tt;; string_of str)) text) as Hr.
  { apply reads_mem. intros m. destruct (Hwalk m) as (b & m' & E & Hb & Hz & Ht). exists m'. split; [|done].
    destruct b as [b|]; [|done]. step_with E. by apply (string_of_ok b). }
  reading (exact Hr). eapply prints_eq; [prints_steps|same_trees].
Qed.

Lemma listing_not_nil p ps : listing (map named_text (p :: ps)) <> [].
Proof.
  unfold listing, named_text, ancestor_text. cbn [map]. intros E. apply app_eq_nil in E as [E _].
  by apply app_eq_nil in E as [_ E].
Qed.

Lemma prints_branch_freebsd p ps w :
  processes_ok -> (forall q, q ∈ procs -> ki_pid q <> 0%Z) -> ancestry procs getpid (p :: ps) ->
  text_is cfg (listing (map named_text (p :: ps))) w ->
  prints cfg handle_proc_branch_freebsd [TEntry (lit "ancestry") w].
Proof.
  intros Hok Hno Ha Hw. pose proof Hok as (_ & _ & _ & Hu & Hn).
  pose proof (ancestry_nodup procs Hu _ _ Ha) as [Hnd Hsub].
  pose proof (chain_length procs _ Hnd Hsub) as Hl.
  eapply (prints_with_kvm _ _ _ Hok (listing_not_nil p ps) Hw). intros m.
  rewrite <- (pieces_listing procs Hu _ Ha).
  destruct (walk_freebsd_ok procs Hu Hn (rounds procs) getpid (p :: ps) None [] m Hno Ha) as (b & m' & E & Hb & Hz & Ht);
    [unfold rounds; lia|done|constructor|]. by exists b, m'.
Qed.

(** The text of the walks that end at [last]. *)
Lemma table_text_ok last fmt args name_text ps m :
  NoDup (map ki_pid procs) ->
  (forall p, p ∈ procs -> nz (name_text p) /\
     renders plain fmt (args (ki_pid p) p) (name_text p) /\
     renders plain (fmt ++ lit ", ") (args (ki_pid p) p) (name_text p ++ lit ", ")) ->
  (forall p, p ∈ procs -> last <= ki_pid p)%Z -> descends procs last getpid ps ->
  exists b m', table_text last fmt args procs m = Ok (b, m') /\ cstr_of b (listing (map name_text ps)) /\
    nz (listing (map name_text ps)) /\ ticked m m'.
Proof.
  intros Hu Hr Hmin Hd.
  pose proof (descends_nodup procs Hu _ _ _ Hd) as [Hnd Hsub].
  pose proof (chain_length procs _ Hnd Hsub) as Hl.
  assert (lowest_pid procs = Ok last) as Hlow.
  { apply (lowest_ok procs); [|exact Hmin]. clear -Hd. induction Hd as [p Hp E|]; [by exists p|done]. }
  unfold table_text. step_with (pure_ok (S := mem) _ _ m Hlow).
  rewrite <- (followed_listing procs last name_text _ _ Hd).
  destruct (walk_table_ok procs Hu last fmt args name_text (fun p Hp => proj1 (Hr p Hp))
    (fun p Hp => proj1 (proj2 (Hr p Hp))) (fun p Hp => proj2 (proj2 (Hr p Hp))) (rounds procs) getpid ps None [] m Hd)
    as (b & m' & E & Hb & Hz & Ht); [unfold rounds; lia|done|constructor|]. by exists b, m'.
Qed.

Lemma named_ok : processes_ok -> forall p, p ∈ procs -> nz (named_text p) /\
  renders plain (lit "%d ('%s')") (name_args (ki_pid p) p) (named_text p) /\
  renders plain (lit "%d ('%s')" ++ lit ", ") (name_args (ki_pid p) p) (named_text p ++ lit ", ").
Proof.
  intros (_ & _ & _ & _ & Hn) p Hp. rewrite Forall_forall in Hn. split; [|by apply named_renders, Hn].
  apply nz_ancestor; [apply nz_int_text|by apply Hn].
Qed.

Lemma padded_ok : processes_ok -> forall p, p ∈ procs -> nz (padded_text p) /\
  renders plain (lit "%d ('%*s')") (padded_args (ki_pid p) p) (padded_text p) /\
  renders plain (lit "%d ('%*s')" ++ lit ", ") (padded_args (ki_pid p) p) (padded_text p ++ lit ", ").
Proof.
  intros (_ & _ & _ & _ & Hn) p Hp. rewrite Forall_forall in Hn. split; [|by apply padded_renders, Hn].
  apply nz_ancestor; [apply nz_int_text|by apply nz_pad, Hn].
Qed.

(** C19: on FreeBSD, when the table has the process, each process once and no
    process 0, [handle_proc_branch_freebsd] ends, in whatever order the table
    lists the processes, and prints the process and its ancestors upwards, as
    far as the table has them, separated by commas. *)
Theorem handle_proc_branch_freebsd_correct p ps w :
  processes_ok -> (forall q, q ∈ procs -> ki_pid q <> 0%Z) -> ancestry procs getpid (p :: ps) ->
  text_is cfg (listing (map named_text (p :: ps))) w ->
  prints cfg handle_proc_branch_freebsd [TEntry (lit "ancestry") w].
Proof. apply prints_branch_freebsd. Qed.

Lemma padded_not_nil last ps :
  descends procs last getpid ps -> listing (map padded_text ps) <> [].
Proof.
  unfold listing, padded_text, ancestor_text. intros Hd E. destruct Hd as [p|p ps]; cbn [map] in E;
    apply app_eq_nil in E as [E _]; by apply app_eq_nil in E as [_ E].
Qed.

Lemma prints_branch_netbsd ps w :
  processes_ok -> (forall p, p ∈ procs -> 0 <= ki_pid p)%Z -> descends procs 0 getpid ps ->
  text_is cfg (listing (map padded_text ps)) w ->
  prints cfg handle_proc_branch_netbsd [TEntry (lit "ancestry") w].
Proof.
  intros Hok Hmin Hd Hw. pose proof Hok as (_ & _ & _ & Hu & _).
  eapply (prints_with_kvm _ _ _ Hok (padded_not_nil _ _ Hd) Hw). intros m.
  by apply (table_text_ok 0 _ _ padded_text); [|apply padded_ok| |].
Qed.

(** On NetBSD, when the ancestors of the process in the table lead to
    process 0 and no process has a lower number, [handle_proc_branch_netbsd]
    ends and prints them, process 0 included; each name is padded on the left
    to 24 columns. *)
Theorem handle_proc_branch_netbsd_correct ps w :
  processes_ok -> (forall p, p ∈ procs -> 0 <= ki_pid p)%Z -> descends procs 0 getpid ps ->
  text_is cfg (listing (map padded_text ps)) w ->
  prints cfg handle_proc_branch_netbsd [TEntry (lit "ancestry") w].
Proof. apply prints_branch_netbsd. Qed.

(** On OpenBSD the ancestors are to lead to process 1. *)
Lemma prints_branch_openbsd p ps w :
  processes_ok -> (forall p, p ∈ procs -> 1 <= ki_pid p)%Z -> descends procs 1 getpid (p :: ps) ->
  text_is cfg (listing (map named_text (p :: ps))) w ->
  prints cfg handle_proc_branch_openbsd [TEntry (lit "ancestry") w].
Proof.
  intros Hok Hmin Hd Hw. pose proof Hok as (_ & _ & _ & Hu & _).
  eapply (prints_with_kvm _ _ _ Hok (listing_not_nil p ps) Hw). intros m.
  by apply (table_text_ok 1 _ _ named_text); [|apply named_ok| |].
Qed.

(** C20: on OpenBSD the walk never ends when process 1 is not the lowest process
    of the table, or when the ancestors in the table do not lead to it: however
    many rounds over the table are allowed, there is another. *)
Theorem handle_proc_branch_openbsd_endless u s a :
  processes_ok -> lowest_pid procs = Ok u -> unreached procs 1 u getpid -> rep cfg s a ->
  handle_proc_branch_openbsd s = Diverge /\
  forall n, walk_table n 1 u (lit "%d ('%s')") name_args procs getpid None (o_mem s) = Diverge.
Proof.
  intros Hok Hlow Hun Hrep.
  assert (forall n m, walk_table n 1 u (lit "%d ('%s')") name_args procs getpid None m = Diverge) as Hw.
  { intros n m. eapply (walk_table_endless procs 1 _ _ named_text) with (s := []); [| |done|done|constructor];
      intros p Hp; by apply named_ok. }
  split; [|intros n; apply Hw]. pose proof Hok as (Ho & Hg & _).
  unfold handle_proc_branch_openbsd, with_kvm.
  destruct (silent_common_assert cfg a s Hrep) as (s' & E & _). rewrite (prog_bind_ok _ _ _ _ _ E), Ho, Hg.
  cbn [negb]. unfold table_text. rewrite Hlow. unfold in_mem, zoom, mbind, prog_bind, pure.
  rewrite outcome_bind_ok. cbv beta iota. by rewrite Hw.
Qed.
End Show.

(** *** The calls are well placed *)
Section Typed.
Context `{AllocTotal} `{LocaleLaws} `{Identity} `{ProcessTable} (cfg : settings).

Lemma typed_ancestry_entry m w : prints cfg m [TEntry (lit "ancestry") w] -> typed cfg CMembers DRIVER_DEPTH m.
Proof.
  intros Hp. eapply typed_prints; [exact Hp|done|]. apply Forall_cons_2; [cbn; lia|apply Forall_nil_2].
Qed.

Lemma typed_branch_freebsd :
  (exists procs p ps, processes_ok procs /\ (forall q, q ∈ procs -> ki_pid q <> 0%Z) /\
     ancestry procs getpid (p :: ps) /\ showable cfg (listing (map named_text (p :: ps)))) ->
  typed cfg CMembers DRIVER_DEPTH handle_proc_branch_freebsd.
Proof.
  intros (procs & p & ps & Hok & Hno & Ha & w & Hw). eapply typed_ancestry_entry. by eapply prints_branch_freebsd.
Qed.

Lemma typed_branch_netbsd :
  (exists procs ps, processes_ok procs /\ (forall p, p ∈ procs -> 0 <= ki_pid p)%Z /\
     descends procs 0 getpid ps /\ showable cfg (listing (map padded_text ps))) ->
  typed cfg CMembers DRIVER_DEPTH handle_proc_branch_netbsd.
Proof.
  intros (procs & ps & Hok & Hmin & Hd & w & Hw). eapply typed_ancestry_entry. by eapply prints_branch_netbsd.
Qed.
End Typed.
