(* ===== verification/PaddedTable.v ===== *)
(** PaddedTable: the walk of handle_proc_branch_darwin (src/src/platform/darwin/
    platform.c) over a table in which the process it is to end at may occur
    several times: the space behind the processes is cleared, and a cleared entry
    has the number 0.

    A scan goes on behind the entry it has found, so that the entry at which the
    walk ends is the first with the number 0 behind the last ancestor, or the
    first of the table when there is none: [root_met]. *)
From S2P Require Import Prelude Memory PrList Locale PString StringUtil Encode Output OutputSpec Document Prints Util Affinity Display Format Platform Process ProcessTree.

(** The entries behind the first one with a number. *)
Fixpoint behind (pid : Z) (table : list kinfo_proc) : list kinfo_proc :=
  match table with
  | [] => []
  | p :: table' => if Z.eqb (ki_pid p) pid then table' else behind pid table'
  end.

Section Climb.
Context (table : list kinfo_proc) (top : Z).

(** The processes from [pid] up to the first whose parent is [top]. *)
Inductive climbs : Z -> list kinfo_proc -> Prop :=
| climbs_top : climbs top []
| climbs_step p ps :
    p ∈ table -> ki_pid p <> top -> climbs (ki_ppid p) ps -> climbs (ki_pid p) (p :: ps).

Definition is_top (p : kinfo_proc) : bool := Z.eqb (ki_pid p) top.

(** The entry of [top] met behind the last of [ps]; [rest] is what is left of the
    table in front of the walk when there is none. *)
Definition root_from (rest ps : list kinfo_proc) : option kinfo_proc :=
  List.find is_top (match last ps with Some c => behind (ki_pid c) table | None => rest end ++ table).

Definition root_met (ps : list kinfo_proc) : option kinfo_proc := root_from [] ps.

Lemma root_round ps : root_from table ps = root_met ps.
Proof.
  unfold root_met, root_from. destruct (last ps); [done|]. cbn [app].
  induction table as [|p t IH]; [done|]. cbn. destruct (is_top p) eqn:E; [done|].
  enough (List.find is_top (t ++ p :: t) = List.find is_top (t ++ t)) as -> by done.
  clear IH. generalize t at 1 3. intros l. induction l as [|q l IH]; cbn; [by rewrite E|]. by rewrite IH.
Qed.

Lemma root_met_in ps z : root_met ps = Some z -> z ∈ table /\ ki_pid z = top.
Proof.
  intros [Hz Ht]%find_some. split; [|by apply Z.eqb_eq in Ht]. apply list_elem_of_In in Hz.
  cbn in Hz. apply elem_of_app in Hz as [Hz|Hz]; [|done]. destruct (last ps) as [c|]; [|by apply elem_of_nil in Hz].
  clear -Hz. induction table as [|p t IH]; [done|]. cbn in Hz. destruct (Z.eqb _ _); [by right|right; by apply IH].
Qed.

Hypothesis above_unique : NoDup (map ki_pid (filter (fun p => ki_pid p <> top) table)).

Lemma same_above p q : p ∈ table -> q ∈ table -> ki_pid p <> top -> ki_pid p = ki_pid q -> p = q.
Proof.
  intros Hp Hq Hne E. eapply (same_process _ above_unique); [..|exact E]; apply list_elem_of_filter; split; congruence.
Qed.

Lemma behind_split front p rest : table = front ++ p :: rest -> ki_pid p <> top -> behind (ki_pid p) table = rest.
Proof.
  intros Et Hne. revert above_unique. rewrite Et. clear Et. intros Hu.
  induction front as [|q front IH]; cbn [behind app]; [by rewrite Z.eqb_refl|].
  cbn [app] in Hu. rewrite filter_cons in Hu. destruct (Z.eqb_spec (ki_pid q) (ki_pid p)) as [E|E].
  - exfalso. rewrite decide_True in Hu by congruence. cbn [map] in Hu. apply NoDup_cons in Hu as [Hn _].
    apply Hn, list_elem_of_fmap. exists p. split; [done|]. apply list_elem_of_filter. split; [done|].
    apply elem_of_app. right. left.
  - destruct (decide _); [|by apply IH]. cbn [map] in Hu. apply NoDup_cons in Hu as [_ Hu]. by apply IH.
Qed.

Lemma climbs_unique pid ps qs : climbs pid ps -> climbs pid qs -> ps = qs.
Proof.
  intros Hp. revert qs. induction Hp as [|p ps Hin Hne Hp IH]; intros qs Hq;
    inversion Hq as [E|q qs' Hin' Hne' Hq' Eq]; subst; try done.
  apply same_above in Eq; [|done..]. subst q. f_equal. by apply IH.
Qed.

Lemma climbs_length pid ps : climbs pid ps -> length ps <= length table.
Proof.
  intros Hp. destruct (chain_nodup table climbs climbs_unique) with (2 := Hp) as [Hnd Hsub].
  - intros q p qs Hq. inversion Hq; subst. auto.
  - by apply chain_length.
Qed.

Lemma climbs_listing name_text pid ps z :
  climbs pid ps -> ki_pid z = top ->
  concat (map (followed top name_text) (ps ++ [z])) = listing (map name_text (ps ++ [z])).
Proof.
  intros Hp Hz. induction Hp as [|p ps Hin Hne Hp IH]; cbn [app map concat]; unfold followed at 1.
  - rewrite Hz, Z.eqb_refl. unfold listing. cbn. by rewrite !app_nil_r.
  - rewrite (proj2 (Z.eqb_neq _ _)), IH, listing_cons by (done || by destruct ps). by rewrite <- app_assoc.
Qed.
End Climb.

(** ** The walk *)
Section Walk.
Context `{AllocTotal} `{Locale} `{Identity} (table : list kinfo_proc) (top : Z).
Context (fmt : bytes) (args : Z -> kinfo_proc -> list arg) (name_text : kinfo_proc -> bytes).
Hypothesis above_unique : NoDup (map ki_pid (filter (fun p => ki_pid p <> top) table)).
Hypothesis name_ok : forall p, p ∈ table ->
  nz (name_text p) /\ renders plain fmt (args (ki_pid p) p) (name_text p) /\
  renders plain (fmt ++ lit ", ") (args (ki_pid p) p) (name_text p ++ lit ", ").

Lemma padded_step (b : bool) p str s m :
  p ∈ table -> cstr_of str s -> nz s -> b = Z.eqb (ki_pid p) top ->
  exists b' m', appendf str (if b then fmt else fmt ++ lit ", ") (args (ki_pid p) p) m = Ok (Some b', m') /\
    cstr_of (Some b') (s ++ followed top name_text p) /\ nz (s ++ followed top name_text p) /\ ticked m m'.
Proof.
  apply (followed_step table top fmt args name_text (fun p Hp => proj1 (name_ok p Hp))
           (fun p Hp => proj1 (proj2 (name_ok p Hp))) (fun p Hp => proj2 (proj2 (name_ok p Hp)))).
Qed.

(** What a scan has added to [s] and where it has left the walk. *)
Definition scanned (z : kinfo_proc) (s : bytes) (qs qs' : list kinfo_proc) (fin : bool) (pid : Z) (b : option buffer)
  : Prop :=
  if fin then
    qs' = [] /\ cstr_of b (s ++ concat (map (followed top name_text) (qs ++ [z]))) /\
    nz (s ++ concat (map (followed top name_text) (qs ++ [z])))
  else
    climbs table top pid qs' /\ root_met table top qs' = Some z /\
    cstr_of b (s ++ concat (map (followed top name_text) qs)) /\ nz (s ++ concat (map (followed top name_text) qs)).

Lemma scan_padded rest front pid ps str s m z :
  table = front ++ rest -> climbs table top pid ps -> root_from table top rest ps = Some z -> cstr_of str s -> nz s ->
  exists fin qs qs' pid' b m', ps = qs ++ qs' /\
    scan_table top top fmt args rest pid str m = Ok ((fin, pid', b), m') /\ ticked m m' /\
    scanned z s qs qs' fin pid' b /\
    (forall p, head ps = Some p -> p ∈ rest -> qs <> []) /\
    (ps = [] -> (exists p, p ∈ rest /\ ki_pid p = top) -> fin = true).
Proof.
  revert front pid ps str s m. induction rest as [|p rest IH]; intros front pid ps str s m Et Hc Hz Hb Hnz;
    cbn [scan_table].
  { exists false, [], ps, pid, str, m. cbn. rewrite app_nil_r. split_and!; try done.
    - intros p _ Hp. by apply elem_of_nil in Hp.
    - intros _ (p & Hp & _). by apply elem_of_nil in Hp. }
  assert (p ∈ table) as Hp by (rewrite Et; apply elem_of_app; right; left).
  assert (table = (front ++ [p]) ++ rest) as Et' by (by rewrite <- app_assoc).
  destruct (Z.eqb_spec (ki_pid p) pid) as [<-|Hne].
  - rewrite Z.eqb_refl, andb_true_l.
    destruct (padded_step _ p str s m Hp Hb Hnz eq_refl) as (b & m1 & E & Hb1 & Hn1 & Ht1).
    destruct (Z.eqb_spec (ki_pid p) top) as [El|El].
    + assert (ps = []) as -> by (inversion Hc; subst; congruence).
      unfold root_from in Hz. cbn in Hz. unfold is_top in Hz. rewrite El, Z.eqb_refl in Hz. injection Hz as <-.
      exists true, [], [], (ki_pid p), (Some b), m1. cbn [app map concat scanned]. rewrite !app_nil_r.
      split_and!; try done. rewrite <- El in *. by step_with E.
    + inversion Hc as [E0|q ps' Hin Hnt Hc' Eq]; subst ps; [by destruct El|].
      apply (same_above table top above_unique) in Eq; [subst q|done..].
      assert (root_from table top rest ps' = Some z) as Hz'.
      { rewrite <- Hz. unfold root_from. rewrite last_cons. destruct (last ps'); [done|].
        by rewrite (behind_split table top above_unique front p rest Et El). }
      destruct (IH (front ++ [p]) _ ps' (Some b) _ m1 Et' Hc' Hz' Hb1 Hn1)
        as (fin & qs & qs' & pid' & b' & m' & -> & E' & Ht' & Hs & _ & Hf).
      exists fin, (p :: qs), qs', pid', b', m'. split_and!; try done; [by step_with E|by etrans|].
      unfold scanned in *. cbn [app map concat]. rewrite <- !app_assoc in Hs. by destruct fin.
  - assert (root_from table top rest ps = Some z) as Hz'.
    { rewrite <- Hz. unfold root_from. destruct Hc as [|q ps' Hin Hnt Hc']; cbn [last].
      - cbn. unfold is_top at 2. by rewrite (proj2 (Z.eqb_neq _ _) Hne).
      - by rewrite last_cons; destruct (last ps'). }
    destruct (IH (front ++ [p]) pid ps str s m Et' Hc Hz' Hb Hnz)
      as (fin & qs & qs' & pid' & b & m' & Hps & E & Ht & Hs & Hh & Hf).
    exists fin, qs, qs', pid', b, m'. split_and!; try done.
    + intros q Hq Hin. apply elem_of_cons in Hin as [->|Hin]; [|by eapply Hh].
      exfalso. destruct Hc; cbn in Hq; congruence.
    + intros -> (q & Hin & Eq). apply Hf; [done|]. apply elem_of_cons in Hin as [->|Hin]; [|by exists q].
      exfalso. inversion Hc. congruence.
Qed.

Lemma walk_padded fuel pid ps str s m z :
  climbs table top pid ps -> root_met table top ps = Some z -> length ps < fuel -> cstr_of str s -> nz s ->
  exists b m', walk_table fuel top top fmt args table pid str m = Ok (b, m') /\
    cstr_of b (s ++ concat (map (followed top name_text) (ps ++ [z]))) /\
    nz (s ++ concat (map (followed top name_text) (ps ++ [z]))) /\ ticked m m'.
Proof.
  revert pid ps str s m. induction fuel as [|fuel IH]; intros pid ps str s m Hc Hz Hf Hb Hnz; [lia|].
  cbn [walk_table]. pose proof (root_met_in _ _ _ _ Hz) as [Hin Htop].
  rewrite <- root_round in Hz.
  destruct (scan_padded table [] pid ps str s m z eq_refl Hc Hz Hb Hnz)
    as (fin & qs & qs' & pid' & b & m1 & -> & E & Ht & Hs & Hh & Hfin).
  step_with E. destruct fin; cbn [scanned] in Hs.
  - destruct Hs as (-> & Hb' & Hn'). rewrite app_nil_r. by exists b, m1.
  - destruct Hs as (Hc' & Hz' & Hb' & Hn').
    assert (qs <> []) as Hne.
    { intros ->. cbn [app] in *. destruct qs' as [|p qs'].
      - assert (false = true); [|done]. apply Hfin; [done|]. by exists z.
      - apply (Hh p); [done| |done]. by inversion Hc. }
    destruct qs as [|q qs]; [done|]. rewrite length_app in Hf. cbn [length] in Hf.
    destruct (IH pid' qs' b (s ++ concat (map (followed top name_text) (q :: qs))) m1 Hc' Hz' ltac:(lia) Hb' Hn')
      as (b2 & m2 & E2 & Hb2 & Hn2 & Ht2).
    exists b2, m2. rewrite <- (app_assoc (q :: qs)), (map_app _ (q :: qs)), concat_app, app_assoc.
    split_and!; try done. by etrans.
Qed.

Lemma table_text_padded ps m z :
  (forall p, p ∈ table -> top <= ki_pid p)%Z -> climbs table top getpid ps -> root_met table top ps = Some z ->
  exists b m', table_text top fmt args table m = Ok (b, m') /\ cstr_of b (listing (map name_text (ps ++ [z]))) /\
    nz (listing (map name_text (ps ++ [z]))) /\ ticked m m'.
Proof.
  intros Hmin Hc Hz. pose proof (root_met_in _ _ _ _ Hz) as [Hin Htop].
  assert (lowest_pid table = Ok top) as Hlow by (apply lowest_ok; [by exists z|done]).
  unfold table_text. step_with (pure_ok (S := mem) _ _ m Hlow).
  rewrite <- (climbs_listing table top name_text _ _ z Hc Htop).
  pose proof (climbs_length table top above_unique _ _ Hc).
  destruct (walk_padded (rounds table) getpid ps None [] m z Hc Hz) as (b & m' & E & Hb & Hn & Ht);
    [unfold rounds; lia|done|constructor|]. by exists b, m'.
Qed.
End Walk.
