(* ===== verification/Report.v ===== *)
(** Report: the display functions of src/src/procenv.c that show what the
    system and the C library answer, one call of [entry] for each answer, and
    the functions that leave their section to the driver. *)
From S2P Require Import Prelude Memory PrList Locale PString StringUtil Encode Output OutputSpec Document Prints Util Affinity Display Format Tables Platform Process.

Definition CHAR_BIT : Z := 8.

(** What the system and the C library answer. *)
Class Machine : Type := {
  sysconf : Z -> Z;
  sizeof : bytes -> Z;
  getrusage : option (bytes -> Z);
  getpagesize : Z;
  byte_order : Z -> bytes;
  getenv : bytes -> option bytes;
  setlocale : Z -> option bytes -> option bytes;
  compiler_name : option bytes;
  compiler_version : option bytes;
  compile_date : bytes;
  compile_time : bytes;
  compile_timestamp : option bytes;
  compile_file : bytes;
  compile_base_file : bytes;
  libc_name : option bytes;
  libc_version : Z;
  libc_minor : Z
}.

(** The fields of struct rusage that [show_rusage] shows, in order. *)
Definition rusage_fields : list bytes :=
  [ lit "ru_maxrss"; lit "ru_ixrss"; lit "ru_idrss"; lit "ru_isrss"; lit "ru_minflt";
    lit "ru_majflt"; lit "ru_nswap"; lit "ru_inblock"; lit "ru_oublock"; lit "ru_msgsnd";
    lit "ru_msgrcv"; lit "ru_nsignals"; lit "ru_nvcsw"; lit "ru_nivcsw" ].

Section Report.
Context `{Allocator} `{Locale} `{Headers} `{Machine} `{Driver} `{Start}.

Definition show_rusage : prog ostate unit :=
  match getrusage with
  | None => die "unable to query rusage"
  | Some usage =>
    header (lit "rusage");;
    for_each rusage_fields (fun name => entry name (lit "%lu") [ANum (usage name)]);;
    footer
  end.

Definition sysconf_map : list (bytes * Z) := defined_entries sysconf_names.

Definition show_sysconf : prog ostate unit :=
  header (lit "sysconf");;
  for_each sysconf_map (fun p =>
    let value := sysconf p.2 in
    if Z.eqb value (-1) then entry p.1 (lit "%s") [AStr NA_STR]
    else entry p.1 (lit "%ld") [ANum value]);;
  footer.

Definition show_sizeof_type (type : bytes) : prog ostate unit :=
  entry type (lit "%lu byte%s")
    [ANum (sizeof type); AStr (if Z.eqb (sizeof type) 1 then [] else lit "s")].

Definition show_sizeof : prog ostate unit :=
  header (lit "sizeof");;
  (entry (lit "bits/byte (CHAR_BIT)") (lit "%d") [ANum CHAR_BIT];;
   for_each type_names show_sizeof_type);;
  footer.

(** *** The platform *)

(** [#ifdef]: whether the compiler or the headers define a macro. *)
Definition ifdef (name : bytes) : bool := bool_decide (is_Some (macro name)).

Definition get_os : bytes :=
  if ifdef (lit "_AIX") then lit "AIX"
  else if ifdef (lit "__ANDROID__") then lit "Android"
  else if (ifdef (lit "__MACH__") && ifdef (lit "__GNU__")) || ifdef (lit "__gnu_hurd__")
  then lit "GNU (Hurd)"
  else if ifdef (lit "__hpux") || ifdef (lit "hpux") || ifdef (lit "_hpux") then lit "HP-UX"
  else if ifdef (lit "OS400") || ifdef (lit "__OS400__") then lit "iSeries (OS/400)"
  else if ifdef (lit "PROCENV_PLATFORM_LINUX") then
    if ifdef (lit "__s390x__") then lit "Linux (zSeries)"
    else if ifdef (lit "__s390__") then lit "Linux (S/390)"
    else if ifdef (lit "__sh__") then lit "Linux (SuperH)"
    else lit "Linux"
  else if ifdef (lit "__FreeBSD__") then lit "FreeBSD"
  else if ifdef (lit "__NetBSD__") then lit "NetBSD"
  else if ifdef (lit "__OpenBSD__") then lit "OpenBSD"
  else if ifdef (lit "VMS") then lit "OpenVMS"
  else if ifdef (lit "sun") || ifdef (lit "__sun") then lit "Solaris"
  else if ifdef (lit "__osf__") then lit "Tru64"
  else if ifdef (lit "WINDOWS") then lit "Windows"
  else if ifdef (lit "__MVS__") then lit "z/OS (MVS)"
  else if ifdef (lit "__APPLE__") then lit "Apple/Darwin"
  else UNKNOWN_STR.

Definition get_arch : bytes :=
  if ifdef (lit "__arm__") then
    if ifdef (lit "__ARM_PCS_VFP") then lit "ARMhf"
    else if ifdef (lit "__ARMEL__") then lit "ARMEL" else lit "ARM"
  else if ifdef (lit "__aarch64__") then lit "ARM64/AARCH64"
  else if ifdef (lit "__OR1K__") || ifdef (lit "__or1k__") then lit "OpenRISC"
  else if ifdef (lit "__hppa__") then lit "HP/PA RISC"
  else if ifdef (lit "__i386__") then lit "i386"
  else if ifdef (lit "__ia64__") then lit "IA64"
  else if ifdef (lit "__MIPSEL__") then lit "MIPSEL"
  else if ifdef (lit "__mips__") then lit "MIPS"
  else if ifdef (lit "__powerpc64__") || ifdef (lit "__ppc64__") then
    if ifdef (lit "_LITTLE_ENDIAN") then lit "PPC64LE" else lit "PPC64/PowerPC64"
  else if ifdef (lit "__powerpc__") then
    if ifdef (lit "__SPE__") && bool_decide (macro (lit "__SIZEOF_POINTER__") = Some 4%Z)
    then lit "PPCspe" else lit "PowerPC"
  else if ifdef (lit "__sparc64__") || ifdef (lit "__sparc_v9__") then lit "Sparc64"
  else if ifdef (lit "__sparc__") then lit "Sparc"
  else if ifdef (lit "__alpha__") then lit "Alpha"
  else if ifdef (lit "__m68k__") then lit "m68k"
  else if ifdef (lit "__ILP32__") && Z.eqb (sizeof (lit "void *")) 4 then lit "x32"
  else if ifdef (lit "__sh__") then lit "SuperH"
  else if ifdef (lit "__s390__") || ifdef (lit "__zarch__") || ifdef (lit "__SYSC_ZARCH__")
          || ifdef (lit "__THW_370__") then lit "SystemZ"
  else if ifdef (lit "__x86_64__") || ifdef (lit "__x86_64") || ifdef (lit "__amd64")
  then lit "x64/AMD64"
  else UNKNOWN_STR.

(** The name of the data model with these sizes of int, long, pointer and
    long long. *)
Definition data_model (i l p ll : Z) : bytes :=
  let DATA_MODEL a b c := Z.eqb i a && Z.eqb l b && Z.eqb p c in
  if DATA_MODEL 2%Z 4%Z 4%Z then lit "LP32"
  else if DATA_MODEL 4%Z 4%Z 4%Z then lit "ILP32"
  else if DATA_MODEL 4%Z 4%Z 8%Z && Z.eqb ll p then lit "LLP64"
  else if DATA_MODEL 4%Z 8%Z 8%Z then lit "LP64"
  else if DATA_MODEL 8%Z 8%Z 8%Z then lit "ILP64"
  else UNKNOWN_STR.

Definition show_data_model : prog ostate unit :=
  let i := sizeof (lit "int") in
  let l := sizeof (lit "long") in
  let p := sizeof (lit "void *") in
  if Z.ltb 8 p then die "%d-byte pointers not supported"
  else entry (lit "data model") (lit "%s (%d/%d/%d)")
         [AStr (data_model i l p (sizeof (lit "long long"))); ANum i; ANum l; ANum p].

Definition show_platform : prog ostate unit :=
  header (lit "platform");;
  (entry (lit "operating system") (lit "%s") [AStr get_os];;
   entry (lit "architecture") (lit "%s") [AStr get_arch];;
   (let kernel_bits := default (-1)%Z op_get_kernel_bits in
    if Z.eqb kernel_bits (-1) then entry (lit "kernel bits") (lit "%s") [AStr UNKNOWN_STR]
    else entry (lit "kernel bits") (lit "%lu") [ANum kernel_bits]);;
   entry (lit "executable bits") (lit "%lu") [ANum (sizeof (lit "void *") * CHAR_BIT * 1)];;
   entry (lit "code endian") (lit "%s") [AStr (if is_big_endian byte_order then BIG_STR else LITTLE_STR)];;
   show_data_model);;
  footer.

(** *** Sections of the driver *)
Definition show_cpu (p : procenv_priority) : prog ostate unit :=
  header (lit "cpu");;
  (run_op op_show_cpu;; run_op op_show_cpu_affinities;; show_priorities p);;
  footer.

Definition show_memory : prog ostate unit :=
  header (lit "memory");;
  (entry (lit "page size") (lit "%d bytes") [ANum getpagesize];;
   run_op op_handle_memory;;
   run_op op_handle_numa_memory);;
  footer.

Definition show_fds : prog ostate unit :=
  container_open (lit "file descriptors");; run_op op_show_fds;; container_close.
Definition show_namespaces : prog ostate unit :=
  container_open (lit "namespaces");; run_op op_show_namespaces;; container_close.
Definition show_libs : prog ostate unit :=
  common_assert;; container_open (lit "libraries");; run_op op_show_libs;; container_close.
Definition show_clocks : prog ostate unit := header (lit "clocks");; run_op op_show_clocks;; footer.
Definition show_rlimits : prog ostate unit := header (lit "limits");; run_op op_show_rlimits;; footer.
Definition show_confstrs : prog ostate unit := header (lit "confstr");; run_op op_show_confstrs;; footer.
Definition show_timezone : prog ostate unit := header (lit "timezone");; run_op op_show_timezone;; footer.
Definition show_cgroups : prog ostate unit := header (lit "cgroups");; run_op op_show_cgroups;; footer.
Definition show_oom : prog ostate unit := header (lit "oom");; run_op op_show_oom;; footer.
Definition show_capabilities : prog ostate unit :=
  header (lit "capabilities");; run_op op_show_capabilities;; footer.
Definition show_shared_mem : prog ostate unit :=
  header (lit "shared memory");; run_op op_show_shared_mem;; footer.
Definition show_semaphores : prog ostate unit :=
  header (lit "semaphores");; run_op op_show_semaphores;; footer.
Definition show_msg_queues : prog ostate unit :=
  header (lit "message queues");; run_op op_show_msg_queues;; footer.

Definition show_mounts (what : ShowMountType) : prog ostate unit :=
  common_assert;;
  header (if bool_decide (what = SHOW_PATHCONF) then lit "pathconf" else lit "mounts");;
  run_op ((fun f => f what) <$> op_show_mounts);;
  footer.

(** *** The locale *)
Definition locale_map : list (bytes * Z) := defined_entries locale_names.

Definition LC_ALL : Z := default 6%Z (macro (lit "LC_ALL")).

Definition show_locale : prog ostate unit :=
  common_assert;;
  header (lit "locale");;
  (entry (lit "LANG") (lit "%s") [AStr (default [] (getenv (lit "LANG")))];;
   entry (lit "LANGUAGE") (lit "%s") [AStr (default [] (getenv (lit "LANGUAGE")))];;
   (match setlocale LC_ALL (Some []) with
    | Some _ =>
      saved ← in_mem alloc;
      match saved with Some _ => mret tt | None => die "failed to allocate space for locale" end
    | None => mret tt
    end);;
   for_each locale_map (fun p =>
     entry p.1 (lit "%s") [AStr (default UNKNOWN_STR (setlocale p.2 None))]);;
   entry (lit "LC_ALL") (lit "%s") [AStr (default [] (getenv (lit "LC_ALL")))]);;
  footer.

(** *** The compiler and the C library *)

(** A feature test macro: its value, "defined", or "not defined". *)
Definition show_feature (m : bytes * bytes) : prog ostate unit :=
  match macro m.1 with
  | None => entry m.1 (lit "%s") [AStr NOT_DEFINED_STR]
  | Some v =>
    if bool_decide (m.2 = lit "%lu") then entry m.1 (lit "%lu") [ANum v]
    else entry m.1 (lit "%s") [AStr DEFINED_STR]
  end.

Definition show_timestamp (value : bytes) : prog ostate unit :=
  match compile_timestamp with
  | Some _ => entry (lit "timestamp (__TIMESTAMP__)") (lit "%s") [AStr value]
  | None => mret tt
  end.

Definition show_compiler : prog ostate unit :=
  header (lit "compiler");;
  (entry (lit "name") (lit "%s") [AStr (default UNKNOWN_STR compiler_name)];;
   entry (lit "version") (lit "%s") [AStr (default UNKNOWN_STR compiler_version)];;
   (if reproducible_build then
      entry (lit "compile date (__DATE__)") (lit "%s") [AStr SUPPRESSED_STR];;
      entry (lit "compile time (__TIME__)") (lit "%s") [AStr SUPPRESSED_STR];;
      show_timestamp SUPPRESSED_STR
    else
      entry (lit "compile date (__DATE__)") (lit "%s") [AStr compile_date];;
      entry (lit "compile time (__TIME__)") (lit "%s") [AStr compile_time];;
      show_timestamp (default [] compile_timestamp));;
   entry (lit "translation unit (__FILE__)") (lit "%s") [AStr compile_file];;
   entry (lit "base file (__BASE_FILE__)") (lit "%s") [AStr compile_base_file];;
   section_open (lit "feature test macros");;
   for_each feature_macros show_feature;;
   section_close);;
  footer.

Definition number_or_unknown (name : bytes) (n : Z) : prog ostate unit :=
  if Z.leb 0 n then entry name (lit "%lu") [ANum n] else entry name (lit "%s") [AStr UNKNOWN_STR].

Definition show_libc : prog ostate unit :=
  header (lit "libc");;
  (entry (lit "name") (lit "%s") [AStr (default UNKNOWN_STR libc_name)];;
   number_or_unknown (lit "version") libc_version;;
   number_or_unknown (lit "minor") libc_minor);;
  footer.
End Report.

(** ** The calls are well placed *)
Section Typed.
Context `{AllocTotal} `{LocaleLaws} (cfg : settings).
Context `{!Headers} `{!Machine} `{!Driver} `{!DriverTyped cfg} `{!Start}.

(** The depth of the blocks of a display function. *)
Definition DISPLAY_DEPTH : nat := 9.

(** Every string the system gives is a text that can be shown. *)
Class MachineText : Prop := {
  text_env : forall name s, getenv name = Some s -> showable cfg s;
  text_locale : forall n s, setlocale n None = Some s -> showable cfg s;
  text_compiler : Forall (fun o => forall s, o = Some s -> showable cfg s)
                    [compiler_name; compiler_version; compile_timestamp; libc_name];
  text_build : Forall (showable cfg) [compile_date; compile_time; compile_file; compile_base_file];
  pointer_size : (sizeof (lit "void *") <= 8)%Z;
  answers_rusage : is_Some getrusage
}.

Context `{!MachineText}.

Lemma titled_show_rusage : titled cfg (lit "rusage") DISPLAY_DEPTH show_rusage.
Proof.
  destruct answers_rusage as [u Hu]. unfold show_rusage. rewrite Hu. typed_steps. of_table.
Qed.

Lemma titled_show_sysconf : titled cfg (lit "sysconf") DISPLAY_DEPTH show_sysconf.
Proof. unfold show_sysconf, sysconf_map. typed_steps; of_defined. Qed.

Lemma titled_show_sizeof : titled cfg (lit "sizeof") DISPLAY_DEPTH show_sizeof.
Proof. unfold show_sizeof, show_sizeof_type. typed_steps. of_table. Qed.

Lemma showable_get_os : showable cfg get_os.
Proof. unfold get_os. solve_showable. Qed.

Lemma showable_get_arch : showable cfg get_arch.
Proof. unfold get_arch. solve_showable. Qed.

Lemma showable_data_model i l p ll : showable cfg (data_model i l p ll).
Proof. unfold data_model. solve_showable. Qed.
Hint Resolve showable_get_os showable_get_arch showable_data_model : shown.

Lemma titled_show_platform : titled cfg (lit "platform") DISPLAY_DEPTH show_platform.
Proof.
  unfold show_platform, show_data_model.
  pose proof pointer_size as Hp. rewrite (proj2 (Z.ltb_ge 8 _)) by done. typed_steps.
Qed.

Lemma typed_io_priorities d :
  DRIVER_DEPTH <= d ->
  typed cfg CMembers (S d)
    (match op_show_io_priorities with
     | None => mret tt
     | Some m => section_open (lit "I/O priority");; m;; section_close
     end).
Proof.
  intros Hd. pose proof (typed_member_op cfg d op_show_io_priorities ltac:(in_list) Hd) as Ht.
  destruct op_show_io_priorities as [m|]; [|apply typed_ret]. typed_steps.
Qed.
Hint Resolve typed_io_priorities : typed.

Lemma titled_show_cpu p : titled cfg (lit "cpu") DISPLAY_DEPTH (show_cpu p).
Proof. unfold show_cpu, show_priorities. typed_steps. Qed.

Lemma titled_show_memory : titled cfg (lit "memory") DISPLAY_DEPTH show_memory.
Proof. unfold show_memory. typed_steps. Qed.

Lemma titled_show_fds : titled cfg (lit "file descriptors") DISPLAY_DEPTH show_fds.
Proof. unfold show_fds. typed_steps. Qed.

Lemma titled_show_namespaces : titled cfg (lit "namespaces") DISPLAY_DEPTH show_namespaces.
Proof. unfold show_namespaces. typed_steps. Qed.

Lemma titled_show_libs : titled cfg (lit "libraries") DISPLAY_DEPTH show_libs.
Proof. unfold show_libs. typed_steps. Qed.

(** The sections that the driver fills. *)
Lemma titled_driver_section name n op :
  name_is cfg name n -> typed cfg CMembers (DISPLAY_DEPTH - 1) (run_op op) ->
  titled cfg n DISPLAY_DEPTH (header name;; run_op op;; footer).
Proof. apply titled_header. Qed.

Lemma titled_show_mounts what :
  titled cfg (if bool_decide (what = SHOW_PATHCONF) then lit "pathconf" else lit "mounts") DISPLAY_DEPTH (show_mounts what).
Proof.
  unfold show_mounts. typed_steps; [by case_bool_decide; solve_name|].
  apply typed_run_op; [apply typed_mounts|unfold DRIVER_DEPTH; lia].
Qed.

Lemma titled_show_locale : titled cfg (lit "locale") DISPLAY_DEPTH show_locale.
Proof.
  assert (forall name, showable cfg (default [] (getenv name))) as He.
  { intros name. apply showable_default; [by apply printable_showable|]. apply text_env. }
  assert (forall n, showable cfg (default UNKNOWN_STR (setlocale n None))) as Hl.
  { intros n. apply showable_default; [by apply printable_showable|]. apply text_locale. }
  unfold show_locale, locale_map. typed_steps; try of_defined; try apply He; try apply Hl.
  destruct (setlocale LC_ALL (Some [])); [|apply typed_ret]. apply typed_alloc, typed_ret.
Qed.

Lemma typed_show_feature m : m ∈ feature_macros -> typed cfg CMembers 0 (show_feature m).
Proof.
  intros Hm. assert (nameable cfg m.1) as Hn.
  { apply (nameable_of cfg (map fst feature_macros)); [by vm_compute|]. apply list_elem_of_fmap. by exists m. }
  unfold show_feature. destruct (macro m.1); typed_steps.
Qed.

Lemma titled_show_compiler : titled cfg (lit "compiler") DISPLAY_DEPTH show_compiler.
Proof.
  pose proof text_compiler as Hc. pose proof text_build as Hb.
  repeat setoid_rewrite Forall_cons in Hc. destruct Hc as (Hn & Hv & Ht & _).
  repeat setoid_rewrite Forall_cons in Hb. destruct Hb as (Hd & Hti & Hf & Hbf & _).
  assert (forall o, (forall t, o = Some t -> showable cfg t) -> showable cfg (default UNKNOWN_STR o)) as Hu.
  { intros o Ho. apply showable_default; [by apply printable_showable|done]. }
  assert (showable cfg (default [] compile_timestamp)) as Hts.
  { apply showable_default; [by apply printable_showable|done]. }
  unfold show_compiler, show_timestamp. typed_steps; auto.
  - destruct compile_timestamp; typed_steps.
  - destruct compile_timestamp; typed_steps.
  - eapply typed_le; [by apply typed_show_feature|lia].
Qed.

Lemma titled_show_libc : titled cfg (lit "libc") DISPLAY_DEPTH show_libc.
Proof.
  assert (showable cfg (default UNKNOWN_STR libc_name)) as Hl.
  { apply showable_default; [by apply printable_showable|].
    pose proof text_compiler as Hc. repeat setoid_rewrite Forall_cons in Hc. apply Hc. }
  unfold show_libc, number_or_unknown. typed_steps.
Qed.
End Typed.
