(* ===== verification/Signals.v ===== *)
(** Signals: show_signals of src/src/procenv.c, on the table of signals of the
    driver. *)
From S2P Require Import Prelude Memory PrList Locale PString StringUtil Encode Output OutputSpec Document Prints Util Format Platform.

(** What the kernel and the C library say of the signals: the signal mask, as
    [sigismember (3)] reads it, the disposition, whether it ignores the signal,
    and the description. *)
Class Signals : Type := {
  sigprocmask : option (Z -> Z);
  sigaction_ignores : Z -> option bool;
  strsignal : Z -> option bytes
}.

(** [for (p = map; p && p->name; p++, n++)]. *)
Fixpoint count_entries (cells : list (option bytes * Z)) (n : Z) : outcome Z :=
  match cells with
  | [] => UB "read past the end of the table"
  | (None, _) :: _ => Ok n
  | (Some _, _) :: cells' => count_entries cells' (n + 1)
  end.

Section Show.
Context `{Allocator} `{Locale} `{Driver} `{Signals}.

(** One turn of the loop. *)
Definition show_signal (old_sigset : Z -> Z) (i : Z) : prog ostate unit :=
  let rc := old_sigset i in
  match sigaction_ignores i with
  | None => mret tt
  | Some ignored =>
    if Z.ltb rc 0 then mret tt
    else
      let blocked := negb (Z.eqb rc 0) in
      signal_name ← pure (get_signal_name signal_map i);
      match signal_name with
      | None => mret tt
      | Some signal_name =>
        object_open false;;
        (section_open signal_name;;
         (entry (lit "number") (lit "%d") [ANum i];;
          entry (lit "description") (lit "'%s'") [AStr (default UNKNOWN_STR (strsignal i))];;
          entry (lit "blocked") (lit "%s") [AStr (yes_no blocked)];;
          entry (lit "ignored") (lit "%s") [AStr (yes_no ignored)]);;
         section_close);;
        object_close false
      end
  end.

Definition show_signals : prog ostate unit :=
  container_open (lit "signals");;
  (match sigprocmask with
   | None => die "failed to query signal mask"
   | Some old_sigset =>
     max ← pure (count_entries signal_map 1);
     for_each (seqZ 1 (max - 1)) (show_signal old_sigset)
   end);;
  container_close.
End Show.

(** ** What it prints *)
Lemma count_terminated tbl n : count_entries (terminated tbl) n = Ok (n + Z.of_nat (length tbl))%Z.
Proof.
  unfold terminated. revert n. induction tbl as [|[s z] tbl IH]; intros n; cbn; [f_equal; lia|].
  rewrite IH. f_equal. lia.
Qed.

Lemma signal_name_terminated tbl i :
  i <> 0%Z -> get_signal_name (terminated tbl) i = Ok (find_name tbl i).
Proof.
  intros Hi. unfold get_signal_name. rewrite (proj2 (Z.eqb_neq _ _)) by done.
  apply map_scan_terminated.
Qed.

Lemma find_name_elem tbl i name : find_name tbl i = Some name -> (name, i) ∈ tbl.
Proof.
  induction tbl as [|[s z] tbl IH]; cbn; [done|].
  destruct (Z.eqb_spec i z) as [->|]; [intros [= ->]; by left|intros E; right; by apply IH].
Qed.

Section Spec.
Context `{AllocTotal} `{LocaleLaws} (cfg : settings).
Context `{!Driver} `{!Signals} (T : bytes -> wstr).

(** The signals that are shown: they exist, their membership of the mask is
    known, and the table names them. *)
Definition signal_trees (old_sigset : Z -> Z) (tbl : list (bytes * Z)) (i : Z) : list tree :=
  match sigaction_ignores i, find_name tbl i with
  | Some ignored, Some name =>
    if Z.ltb (old_sigset i) 0 then [] else
    [ TObject
        [ TBlock KSection (T name)
            [ TEntry (lit "number") (int_text i);
              TEntry (lit "description") (lit "'" ++ T (default UNKNOWN_STR (strsignal i)) ++ lit "'");
              TEntry (lit "blocked") (yes_no (negb (Z.eqb (old_sigset i) 0)));
              TEntry (lit "ignored") (yes_no ignored) ] ] ]
  | _, _ => []
  end.

Lemma prints_signal old tbl i :
  i <> 0%Z -> signal_map = terminated tbl ->
  (forall name, find_name tbl i = Some name -> text_is cfg name (T name) /\ name <> []) ->
  text_is cfg (default UNKNOWN_STR (strsignal i)) (T (default UNKNOWN_STR (strsignal i))) ->
  prints cfg (show_signal old i) (signal_trees old tbl i).
Proof.
  intros Hi Htbl Hname Hdesc. unfold show_signal, signal_trees.
  destruct (sigaction_ignores i) as [ignored|]; [|apply prints_ret].
  destruct (Z.ltb (old i) 0); [by destruct (find_name tbl i); apply prints_ret|].
  reading (apply reads_pure; rewrite Htbl; by apply signal_name_terminated).
  destruct (find_name tbl i) as [name|] eqn:En; [|apply prints_ret].
  destruct (Hname name eq_refl) as [Ht Hne].
  assert (forall b, text_is cfg (yes_no b) (yes_no b)) as Hyn by by intros [|]; apply printable_text.
  eapply prints_eq; [prints_steps; by (apply Hyn || apply name_text)|same_trees].
Qed.

(** [show_signals] prints a container of one object for each signal of
    the system that has a name, in numerical order from 1 up to the number of
    entries in the table of the driver, whatever the order of the table; the
    object holds a section with the first name the table gives the signal,
    its number, its description, and whether it is blocked and ignored. *)
Theorem show_signals_correct (tbl : list (bytes * Z)) old :
  signal_map = terminated tbl -> sigprocmask = Some old ->
  Forall (fun e => text_is cfg e.1 (T e.1) /\ e.1 <> []) tbl ->
  (forall i, text_is cfg (default UNKNOWN_STR (strsignal i)) (T (default UNKNOWN_STR (strsignal i)))) ->
  prints cfg show_signals
    [TBlock KContainer (lit "signals")
       (flat_map (signal_trees old tbl) (seqZ 1 (Z.of_nat (length tbl))))].
Proof.
  intros Htbl Hold Hnames Hdesc. unfold show_signals. rewrite Hold.
  prints_steps. reading (apply reads_pure; rewrite Htbl; apply count_terminated).
  replace (1 + Z.of_nat (length tbl) - 1)%Z with (Z.of_nat (length tbl)) by lia.
  apply prints_for_each. intros i Hi. apply elem_of_seqZ in Hi.
  apply prints_signal; [lia|done| |done]. intros name E. rewrite Forall_forall in Hnames.
  apply (Hnames (name, i)). by apply find_name_elem.
Qed.

Lemma titled_show_signals `{!DriverTyped cfg} :
  is_Some sigprocmask -> (forall i s, strsignal i = Some s -> showable cfg s) ->
  titled cfg (lit "signals") 3 show_signals.
Proof.
  intros [old Hold] Hdesc. destruct terminated_signal_map as [tbl Htbl].
  unfold show_signals. rewrite Hold. typed_steps.
  reading (apply reads_pure; rewrite Htbl; apply count_terminated).
  apply typed_for_each. intros i Hi. apply elem_of_seqZ in Hi. unfold show_signal.
  destruct (sigaction_ignores i) as [ignored|]; [|apply typed_ret].
  destruct (Z.ltb (old i) 0); [apply typed_ret|].
  reading (apply reads_pure; rewrite Htbl; apply signal_name_terminated; lia).
  destruct (find_name tbl i) as [name|] eqn:En; [|apply typed_ret].
  assert (showable cfg (default UNKNOWN_STR (strsignal i))) as Hs.
  { destruct (strsignal i) eqn:E; cbn; [by apply (Hdesc i)|by apply printable_showable]. }
  typed_steps. pose proof showable_signals as Hn. rewrite Forall_forall in Hn.
  apply (Hn (Some name, i)). rewrite Htbl. unfold terminated. apply elem_of_app. left.
  apply list_elem_of_fmap. exists (name, i). split; [done|by apply find_name_elem].
Qed.
End Spec.
