(* ===== verification/Terminal.v ===== *)
(** Terminal: show_tty_attrs of src/src/procenv.c. *)
From S2P Require Import Prelude Memory PrList Locale PString StringUtil Encode Output OutputSpec Document Prints Util Format Tables Platform Process Report.

(** The fields of struct termios; the flags by the name of their field. *)
Record termios : Type := mk_termios {
  c_iflag : Z;
  c_oflag : Z;
  c_cflag : Z;
  c_lflag : Z;
  c_cc : Z -> Z;
  ispeed : Z;
  ospeed : Z
}.

Record winsize : Type := mk_winsize { ws_row : Z; ws_col : Z; ws_xpixel : Z; ws_ypixel : Z }.

(** What the kernel says of a descriptor; [tty_locked] is the operation
    [get_tty_locked_status] of the driver, when it has one. *)
Class Terminal : Type := {
  isatty : Z -> bool;
  tcgetattr : Z -> option termios;
  tty_locked : option (Z -> termios);
  get_winsize : Z -> option winsize;
  speed_code : Z -> Z
}.

Definition unlocked : termios := mk_termios 0 0 0 0 (fun _ => 0%Z) 0 0.

Definition STDOUT_FILENO : Z := 1.
Definition STDERR_FILENO : Z := 2.

Section Show.
Context `{Allocator} `{Locale} `{Headers} `{Terminal}.

(** The first descriptor that is a terminal with attributes. *)
Fixpoint find_tty (fds : list Z) : option (Z * termios) :=
  match fds with
  | [] => None
  | fd :: fds' =>
    if negb (isatty fd) then find_tty fds'
    else match tcgetattr fd with Some tty => Some (fd, tty) | None => find_tty fds' end
  end.

Definition locked_text (lock : Z) : bytes := if Z.eqb lock 0 then [] else lit " (locked)".

(** [show_const_tty]: the mark of the lock depends on the whole flag word. *)
Definition show_const_tty (flag lock : Z) (constant : bytes * Z) : prog ostate unit :=
  entry constant.1 (lit "%d%s")
    [ANum (if Z.eqb (Z.land flag constant.2) 0 then 0 else 1); AStr (locked_text lock)].

Definition show_cc_tty (cc lock : Z -> Z) (elem : bytes * Z) : prog ostate unit :=
  entry elem.1 (lit "0x%x%s") [ANum (cc elem.2); AStr (locked_text (lock elem.2))].

(** A section of a flag word. *)
Definition show_flags (title value_name : bytes) (flag lock : Z) (names : list bytes) : prog ostate unit :=
  section_open title;;
  (entry value_name (lit "0x%x") [ANum flag];;
   for_each (defined_entries names) (show_const_tty flag lock));;
  section_close.

Definition show_special (cc lock : Z -> Z) : prog ostate unit :=
  section_open (lit "c_cc (special)");;
  for_each (defined_entries cc_names) (show_cc_tty cc lock);;
  section_close.

Definition show_speeds (tty : termios) : prog ostate unit :=
  section_open (lit "speed");;
  (speed ← str_arg (get_speed speed_code (ispeed tty));
   entry (lit "input (baud)") (lit "%s") [speed];;
   speed ← str_arg (get_speed speed_code (ospeed tty));
   entry (lit "output (baud)") (lit "%s") [speed]);;
  section_close.

Definition show_winsize (size : winsize) : prog ostate unit :=
  section_open (lit "winsize");;
  (entry (lit "ws_row") (lit "%u") [ANum (ws_row size)];;
   entry (lit "ws_col") (lit "%u") [ANum (ws_col size)];;
   entry (lit "ws_xpixel") (lit "%u") [ANum (ws_xpixel size)];;
   entry (lit "ws_ypixel") (lit "%u") [ANum (ws_ypixel size)]);;
  section_close.

Definition show_tty_attrs : prog ostate unit :=
  common_assert;;
  tty_fd ← gets user_tty_fd;
  header (lit "tty");;
  (match find_tty [tty_fd; STDIN_FILENO; STDOUT_FILENO; STDERR_FILENO] with
   | None => mret tt
   | Some (fd, tty) =>
     modify (set_user_tty_fd fd);;
     let lock_status := match tty_locked with Some f => f fd | None => unlocked end in
     show_flags (lit "c_iflag (input)") (lit "value") (c_iflag tty) (c_iflag lock_status) iflag_names;;
     show_flags (lit "c_oflag (output)") (lit "c_oflag") (c_oflag tty) (c_oflag lock_status) oflag_names;;
     show_flags (lit "c_cflag (control)") (lit "value") (c_cflag tty) (c_cflag lock_status) cflag_names;;
     show_flags (lit "c_lflag (local)") (lit "value") (c_lflag tty) (c_lflag lock_status) lflag_names;;
     show_special (c_cc tty) (c_cc lock_status);;
     match get_winsize fd with
     | None => die "failed to determine terminal dimensions"
     | Some size =>
       show_speeds tty;;
       show_winsize size
     end
   end);;
  footer.
End Show.

Section Typed.
Context `{AllocTotal} `{LocaleLaws} (cfg : settings).
Context `{!Headers} `{!Terminal}.

Lemma silent_same_tty : silent cfg (modify (set_user_tty_fd (s_tty cfg))).
Proof.
  intros a w []. eexists. split; [reflexivity|]. constructor; try done.
  destruct rep_configured as (? & ? & ? & ? & Hi & Hs & ? & ? & ?). by split_and!.
Qed.

Lemma showable_speed s name : get_speed speed_code s = Some name -> showable cfg name.
Proof.
  unfold get_speed. intros E. apply printable_showable. revert E.
  assert (forallb (fun e => printable e.1) (baud_speeds speed_code) = true) as Hall by by vm_compute.
  induction (baud_speeds speed_code) as [|[n z] l IH]; cbn; [done|].
  cbn in Hall. apply andb_prop in Hall as [Hn Hl]. destruct (Z.eqb s z); [intros [= <-]; done|by apply IH].
Qed.

(** When a terminal is found it is the one the program had already chosen, and
    what the kernel says of it is complete. *)
Class TerminalAnswers : Prop := {
  same_tty : forall fd tty,
    find_tty [s_tty cfg; STDIN_FILENO; STDOUT_FILENO; STDERR_FILENO] = Some (fd, tty) ->
    fd = s_tty cfg /\ is_Some (get_winsize fd) /\
    is_Some (get_speed speed_code (ispeed tty)) /\ is_Some (get_speed speed_code (ospeed tty))
}.

Lemma showable_locked z : showable cfg (locked_text z).
Proof. unfold locked_text. solve_showable. Qed.
Hint Resolve showable_locked : shown.

Lemma typed_show_flags d title value_name flag lock names :
  nameable cfg title -> nameable cfg value_name ->
  forallb (fun s => printable s && negb (bool_decide (s = []))) names = true ->
  typed cfg CMembers (S d) (show_flags title value_name flag lock names).
Proof.
  intros Ht Hv Hn. unfold show_flags, show_const_tty. typed_steps. by eapply nameable_defined.
Qed.

Lemma titled_show_tty_attrs `{!TerminalAnswers} : titled cfg (lit "tty") DISPLAY_DEPTH show_tty_attrs.
Proof.
  unfold show_tty_attrs. typed_step. reading (apply reads_tty). typed_step.
  destruct (find_tty _) as [[fd tty]|] eqn:E; [|apply typed_ret].
  destruct (same_tty fd tty E) as (-> & [size Es] & [si Ei] & [so Eo]).
  apply typed_do; [apply silent_same_tty|]. unfold show_speeds. rewrite Es, Ei, Eo. cbn [str_arg].
  pose proof (showable_speed _ _ Ei). pose proof (showable_speed _ _ Eo).
  unfold show_special, show_cc_tty, show_winsize. typed_steps.
  1-4: apply typed_show_flags; solve [solve_nameable|by vm_compute].
  eapply nameable_defined; [|eassumption]. by vm_compute.
Qed.
End Typed.
