(* ===== verification/Ranges.v ===== *)
(** Ranges: show_ranges of src/src/procenv.c, on a machine with the types of
    the x86-64 ABI: 64-bit [long], and the 80-bit extended [long double]. *)
From S2P Require Import Prelude Memory PrList Locale PString StringUtil Encode Output OutputSpec Document Prints Platform.

(** ** <limits.h> and <float.h> *)
Definition UCHAR_MAX : Z := 255.
Definition SCHAR_MIN : Z := -128.
Definition SCHAR_MAX : Z := 127.
Definition USHRT_MAX : Z := 65535.
Definition SHRT_MIN : Z := -32768.
Definition SHRT_MAX : Z := 32767.
Definition UINT_MAX : Z := 4294967295.
Definition INT_MIN : Z := -2147483648.
Definition ULONG_MAX : Z := 18446744073709551615.
Definition LONG_MIN : Z := -9223372036854775808.
Definition LONG_MAX : Z := 9223372036854775807.

(** The conversion of an integer to [double]: 53 bits, ties to even. *)
Definition to_double (n : Z) : Z :=
  if Z.ltb n (2 ^ 53) then n
  else let u := (2 ^ (Z.log2 n - 52))%Z in (round_half_even n u * u)%Z.

Definition FLT_MIN : arg := ADouble 1 (-126).
Definition FLT_MAX : arg := ADouble (2 ^ 24 - 1) 104.
Definition DBL_MIN : arg := ADouble 1 (-1022).
Definition DBL_MAX : arg := ADouble (2 ^ 53 - 1) 971.
Definition LDBL_MIN : arg := ADouble 1 (-16382).
Definition LDBL_MAX : arg := ADouble (2 ^ 64 - 1) 16320.

Section Show.
Context `{Allocator} `{Locale}.

Definition show_size (size : Z) : prog ostate unit :=
  entry (lit "size") (lit "%lu byte%s") [ANum size; AStr (if Z.eqb size 1 then [] else lit "s")].

Definition type_hex_width (size : Z) : arg := ANum (size * 2).

(** The section of an integer type: [decimal], [hex] and [signed] are the
    formats of its values. *)
Definition show_integer (name : bytes) (size : Z) (decimal hex signed : bytes)
  (umax smin smax : Z) (umax_name smin_name smax_name : bytes) : prog ostate unit :=
  section_open name;;
  (show_size size;;
   section_open (lit "unsigned");;
   (entry (lit "decimal") decimal [ANum 0; ANum umax];;
    entry (lit "symbolic") (lit "%u to %s") [ANum 0; AStr umax_name];;
    entry (lit "scientific") (lit "%e to %e") [ADouble 0 0; ADouble (to_double umax) 0];;
    entry (lit "hex") hex [type_hex_width size; ANum 0; type_hex_width size; ANum umax]);;
   section_close;;
   section_open (lit "signed");;
   (entry (lit "decimal") signed [ANum smin; ANum smax];;
    entry (lit "symbolic") (lit "%s to %s") [AStr smin_name; AStr smax_name]);;
   section_close);;
  section_close.

Definition show_float (name : bytes) (size : Z) (fmt : bytes) (min max : arg) (min_name max_name : bytes)
  : prog ostate unit :=
  section_open name;;
  (show_size size;;
   entry (lit "signed") fmt [min; max];;
   entry (lit "symbolic") (lit "%s to %s") [AStr min_name; AStr max_name]);;
  section_close.

Definition show_ranges : prog ostate unit :=
  header (lit "ranges");;
  (show_integer (lit "char") 1 (lit "%u to %u") (lit "0x%.*x to 0x%.*x") (lit "%d to %d")
     UCHAR_MAX SCHAR_MIN SCHAR_MAX (lit "UCHAR_MAX") (lit "SCHAR_MIN") (lit "SCHAR_MAX");;
   show_integer (lit "short int") 2 (lit "%u to %u") (lit "0x%.*x to 0x%.*x") (lit "%d to %d")
     USHRT_MAX SHRT_MIN SHRT_MAX (lit "USHRT_MAX") (lit "SHRT_MIN") (lit "SHRT_MAX");;
   show_integer (lit "int") 4 (lit "%u to %u") (lit "0x%.*x to 0x%.*x") (lit "%d to %d")
     UINT_MAX INT_MIN INT_MAX (lit "UINT_MAX") (lit "INT_MIN") (lit "INT_MAX");;
   show_integer (lit "long int") 8 (lit "%u to %u") (lit "0x%.*x to 0x%.*x") (lit "%ld to %ld")
     ULONG_MAX LONG_MIN LONG_MAX (lit "ULONG_MAX") (lit "LONG_MIN") (lit "LONG_MAX");;
   show_integer (lit "long long int") 8 (lit "%llu to %llu") (lit "0x%.*llx to 0x%.*llx")
     (lit "%lld to %lld") ULONG_MAX LONG_MIN LONG_MAX
     (lit "ULLONG_MAX") (lit "LLONG_MIN") (lit "LLONG_MAX");;
   show_float (lit "float") 4 (lit "%e to %e") FLT_MIN FLT_MAX (lit "FLT_MIN") (lit "FLT_MAX");;
   show_float (lit "double") 8 (lit "%le to %le") DBL_MIN DBL_MAX (lit "DBL_MIN") (lit "DBL_MAX");;
   show_float (lit "long double") 16 (lit "%Le to %Le") LDBL_MIN LDBL_MAX
     (lit "LDBL_MIN") (lit "LDBL_MAX"));;
  footer.
End Show.

(** ** The values shown *)
Definition size_text (size : Z) : wstr :=
  digits 10 size ++ lit " byte" ++ (if Z.eqb size 1 then [] else lit "s").

(** The section of an integer type of [size] bytes whose largest unsigned
    value is printed as [shown_max]. *)
Definition integer_tree (name : wstr) (size shown_max : Z) (scientific : wstr)
  (umax_name smin_name smax_name : wstr) : tree :=
  let bits := (8 * size)%Z in
  TBlock KSection name
    [ TEntry (lit "size") (size_text size);
      TBlock KSection (lit "unsigned")
        [ TEntry (lit "decimal") (lit "0 to " ++ digits 10 shown_max);
          TEntry (lit "symbolic") (lit "0 to " ++ umax_name);
          TEntry (lit "scientific") (lit "0.000000e+00 to " ++ scientific);
          TEntry (lit "hex")
            (lit "0x" ++ zeros (Z.to_nat (2 * size)) (lit "0") ++ lit " to 0x" ++
             zeros (Z.to_nat (2 * size)) (digits 16 shown_max)) ];
      TBlock KSection (lit "signed")
        [ TEntry (lit "decimal")
            (lit "-" ++ digits 10 (2 ^ (bits - 1)) ++ lit " to " ++ digits 10 (2 ^ (bits - 1) - 1));
          TEntry (lit "symbolic") (smin_name ++ lit " to " ++ smax_name) ] ].

Definition float_tree (name : wstr) (size : Z) (values min_name max_name : wstr) : tree :=
  TBlock KSection name
    [ TEntry (lit "size") (size_text size);
      TEntry (lit "signed") values;
      TEntry (lit "symbolic") (min_name ++ lit " to " ++ max_name) ].

(** The values of [long double]; they have thousands of digits. *)
Definition ldbl_text (x : arg) : wstr :=
  match x with ADouble m e => scientific_text m e 6 | _ => [] end.

Section Spec.
Context `{AllocTotal} `{LocaleLaws} (cfg : settings).

Ltac same_values := vm_compute; reflexivity.

Ltac prints_type :=
  unfold show_integer, show_float, show_size; eapply prints_eq; [prints_steps|same_values].

Lemma prints_long_double : prints cfg
  (show_float (lit "long double") 16 (lit "%Le to %Le") LDBL_MIN LDBL_MAX (lit "LDBL_MIN") (lit "LDBL_MAX"))
  [float_tree (lit "long double") 16 (ldbl_text LDBL_MIN ++ lit " to " ++ ldbl_text LDBL_MAX) (lit "LDBL_MIN") (lit "LDBL_MAX")].
Proof.
  unfold show_float, show_size, LDBL_MIN, LDBL_MAX. eapply prints_eq; [prints_steps|].
  unfold float_tree, ldbl_text.
  change (double_text ?sp 101 1 (-16382)) with (scientific_text 1 (-16382) 6).
  change (double_text ?sp 101 (2 ^ 64 - 1) 16320) with (scientific_text (2 ^ 64 - 1) 16320 6).
  generalize (scientific_text 1 (-16382) 6). generalize (scientific_text (2 ^ 64 - 1) 16320 6).
  intros max min. rewrite (app_nil_r max). reflexivity.
Qed.

Lemma prints_ranges :
  prints cfg show_ranges
    [TBlock KSection (lit "ranges")
      [ integer_tree (lit "char") 1 (2 ^ 8 - 1) (lit "2.550000e+02") (lit "UCHAR_MAX") (lit "SCHAR_MIN") (lit "SCHAR_MAX");
        integer_tree (lit "short int") 2 (2 ^ 16 - 1) (lit "6.553500e+04") (lit "USHRT_MAX") (lit "SHRT_MIN") (lit "SHRT_MAX");
        integer_tree (lit "int") 4 (2 ^ 32 - 1) (lit "4.294967e+09") (lit "UINT_MAX") (lit "INT_MIN") (lit "INT_MAX");
        integer_tree (lit "long int") 8 (2 ^ 32 - 1) (lit "1.844674e+19") (lit "ULONG_MAX") (lit "LONG_MIN") (lit "LONG_MAX");
        integer_tree (lit "long long int") 8 (2 ^ 64 - 1) (lit "1.844674e+19") (lit "ULLONG_MAX") (lit "LLONG_MIN") (lit "LLONG_MAX");
        float_tree (lit "float") 4 (lit "1.175494e-38 to 3.402823e+38") (lit "FLT_MIN") (lit "FLT_MAX");
        float_tree (lit "double") 8 (lit "2.225074e-308 to 1.797693e+308") (lit "DBL_MIN") (lit "DBL_MAX");
        float_tree (lit "long double") 16 (ldbl_text LDBL_MIN ++ lit " to " ++ ldbl_text LDBL_MAX) (lit "LDBL_MIN") (lit "LDBL_MAX") ]].
Proof.
  unfold show_ranges. apply prints_header_last; [solve_name|].
  do 7 (apply (prints_seq cfg _ _ [_]); [prints_type|]).
  apply prints_long_double.
Qed.

(** C32: [show_ranges] prints for each integer type its size, the extreme
    signed values of a type of that size, and the extreme unsigned values
    except for [unsigned long int], whose conversions lack the length
    modifier: its largest value is shown as that of [unsigned int], beside a
    correct symbolic and scientific value.  For the floating types it prints
    the extreme values of the IEEE formats. *)
Theorem show_ranges_correct :
  prints cfg show_ranges
    [TBlock KSection (lit "ranges")
      [ integer_tree (lit "char") 1 (2 ^ 8 - 1) (lit "2.550000e+02") (lit "UCHAR_MAX") (lit "SCHAR_MIN") (lit "SCHAR_MAX");
        integer_tree (lit "short int") 2 (2 ^ 16 - 1) (lit "6.553500e+04") (lit "USHRT_MAX") (lit "SHRT_MIN") (lit "SHRT_MAX");
        integer_tree (lit "int") 4 (2 ^ 32 - 1) (lit "4.294967e+09") (lit "UINT_MAX") (lit "INT_MIN") (lit "INT_MAX");
        integer_tree (lit "long int") 8 (2 ^ 32 - 1) (lit "1.844674e+19") (lit "ULONG_MAX") (lit "LONG_MIN") (lit "LONG_MAX");
        integer_tree (lit "long long int") 8 (2 ^ 64 - 1) (lit "1.844674e+19") (lit "ULLONG_MAX") (lit "LLONG_MIN") (lit "LLONG_MAX");
        float_tree (lit "float") 4 (lit "1.175494e-38 to 3.402823e+38") (lit "FLT_MIN") (lit "FLT_MAX");
        float_tree (lit "double") 8 (lit "2.225074e-308 to 1.797693e+308") (lit "DBL_MIN") (lit "DBL_MAX");
        float_tree (lit "long double") 16 (ldbl_text LDBL_MIN ++ lit " to " ++ ldbl_text LDBL_MAX) (lit "LDBL_MIN") (lit "LDBL_MAX") ]].
Proof. apply prints_ranges. Qed.

Lemma titled_show_ranges : titled cfg (lit "ranges") 3 show_ranges.
Proof. eexists KSection, _. split_and!; [apply prints_ranges|reflexivity|]. repeat constructor. Qed.
End Spec.
