(* ===== verification/Runtime.v ===== *)
(** Runtime: the display functions of src/src/procenv.c on the time, the
    threads, the file of the program and the miscellany: show_time,
    show_threads, show_stat, show_misc. *)
From S2P Require Import Prelude Memory PrList Locale PString StringUtil Encode Output OutputSpec Document Prints Util Affinity Display Format Platform Process Report.

Record tm : Type := mk_tm {
  tm_year : Z;
  tm_mon : Z;
  tm_mday : Z;
  tm_hour : Z;
  tm_min : Z
}.

(** What [stat (2)] says of the file of the program. *)
Record file_status : Type := mk_file_status {
  f_dev : Z;
  f_ino : Z;
  f_mode : Z;
  f_nlink : Z;
  f_uid : Z;
  f_gid : Z;
  f_size : Z;
  f_blocks : Z;
  f_atime : Z;
  f_mtime : Z;
  f_ctime : Z
}.

(** What the C library and the kernel answer; the text that [ctime_r] and
    [asctime_r] write ends in a newline. *)
Class Clock : Type := {
  localtime : Z -> option tm;
  asctime_r : tm -> option bytes;
  ctime_r : Z -> option bytes
}.

Class Threads : Type := {
  stack_size : Z;
  scope : option Z;
  guard_size : option Z;
  schedparam : option (Z * Z);
  inheritsched : option Z;
  concurrency : Z;
  PTHREAD_SCOPE_SYSTEM : Z;
  PTHREAD_INHERIT_SCHED : Z;
  SCHED_OTHER : Z;
  SCHED_FIFO : Z;
  SCHED_RR : Z
}.

Class Files : Type := {
  env_path : option bytes;
  path_stdpath : bytes;
  realpath : bytes -> option bytes;
  stat_file : bytes -> option file_status
}.

Class Personality : Type := {
  LINUX_VERSION_CODE : Z;
  personality : Z;
  personality_map : list (option bytes * Z);
  personality_flag_map : list (bytes * Z)
}.

(** [s[strlen (s)-1] = '\0']. *)
Definition drop_last (s : bytes) : outcome bytes :=
  match s with
  | [] => UB "write before the buffer"
  | _ => Ok (take (length s - 1) s)
  end.

Section Show.
Context `{Allocator} `{Locale} `{Util.System} `{Driver} `{Identity}.

(** ** The time *)
Definition show_time `{!Clock} : prog ostate unit :=
  match op_get_time with
  | None => mret tt
  | Some None => die "failed to determine time"
  | Some (Some ts) =>
    match localtime (tv_sec ts) with
    | None => die "failed to determine localtime"
    | Some tm =>
      match asctime_r tm with
      | None => die "failed to determine formatted time"
      | Some formatted_time =>
        formatted_time ← pure (drop_last formatted_time);
        header (lit "time");;
        (entry (lit "raw") (lit "%u.%lu") [ANum (tv_sec ts); ANum (tv_nsec ts)];;
         entry (lit "local") (lit "%s") [AStr formatted_time];;
         entry (lit "ISO") (lit "%4.4d-%2.2d-%2.2dT%2.2d:%2.2d")
           [ANum (1900 + tm_year tm); ANum (tm_mon tm); ANum (tm_mday tm); ANum (tm_hour tm);
            ANum (tm_min tm)]);;
        footer
      end
    end
  end.

(** ** The threads *)
Definition show_threads `{!Threads} : prog ostate unit :=
  header (lit "threads");;
  (entry (lit "stack size") (lit "%lu bytes") [ANum stack_size];;
   entry (lit "scope") (lit "%s")
     [AStr (match scope with
            | None => UNKNOWN_STR
            | Some s => if Z.eqb s PTHREAD_SCOPE_SYSTEM then lit "PTHREAD_SCOPE_SYSTEM"
                        else lit "PTHREAD_SCOPE_PROCESS"
            end)];;
   (match guard_size with
    | Some n => entry (lit "guard size") (lit "%lu bytes") [ANum n]
    | None => entry (lit "guard size") (lit "%s") [AStr UNKNOWN_STR]
    end);;
   section_open (lit "scheduler");;
   (name ← (match schedparam with
            | None => mret (Some UNKNOWN_STR)
            | Some (sched, _) => pure (get_thread_scheduler_name SCHED_OTHER SCHED_FIFO SCHED_RR sched)
            end);
    name ← str_arg name;
    entry (lit "type") (lit "%s") [name];;
    (match schedparam with
     | None => entry (lit "priority") (lit "%s") [AStr UNKNOWN_STR]
     | Some (_, sched_priority) => entry (lit "priority") (lit "%d") [ANum sched_priority]
     end);;
    entry (lit "inherit-scheduler attribute") (lit "%s")
      [AStr (match inheritsched with
             | None => UNKNOWN_STR
             | Some s => if Z.eqb s PTHREAD_INHERIT_SCHED then lit "PTHREAD_INHERIT_SCHED"
                         else lit "PTHREAD_EXPLICIT_SCHED"
             end)]);;
   section_close;;
   entry (lit "concurrency") (lit "%d") [ANum concurrency]);;
  footer.

(** ** The file of the program *)

(** An entry of the section "times". *)
Definition show_file_time `{!Clock} (name : bytes) (t : Z) : prog ostate unit :=
  match ctime_r t with
  | None => die "failed to format time"
  | Some formatted =>
    formatted ← pure (drop_last formatted);
    entry name (lit "%lu (%s)") [ANum t; AStr formatted]
  end.

Definition show_stat `{!Clock} `{!Files} (program_name : bytes) : prog ostate unit :=
  tmp ← in_mem (get_path getcwd env_path path_stdpath program_name);
  match tmp with
  | None => abort "tmp"
  | Some tmp =>
    match realpath tmp with
    | None => die "unable to resolve path"
    | Some real_path =>
      match stat_file real_path with
      | None => die "unable to stat path"
      | Some st =>
        header (lit "stat");;
        (entry (lit "argv[0]") (lit "'%s'") [AStr program_name];;
         entry (lit "real path") (lit "'%s'") [AStr real_path];;
         section_open (lit "device");;
         (entry (lit "major") (lit "%u") [ANum (major (f_dev st))];;
          entry (lit "minor") (lit "%u") [ANum (minor (f_dev st))]);;
         section_close;;
         entry (lit "inode") (lit "%lu") [ANum (f_ino st)];;
         modestr ← in_mem (b ← format_perms (f_mode st);
                           match b with Some b => s ← pure (string_at b 0); mret (Some s) | None => mret None end);
         match modestr with
         | None => die "failed to allocate space for permissions string"
         | Some modestr =>
           section_open (lit "permissions");;
           (entry (lit "octal") (lit "%4.4o") [ANum (Z.land (f_mode st) (Z.lnot S_IFMT))];;
            entry (lit "symbolic") (lit "%s") [AStr modestr]);;
           section_close;;
           entry (lit "hard links") (lit "%u") [ANum (f_nlink st)];;
           user_name ← str_arg (get_user_name (f_uid st));
           entry (lit "user id (uid)") (lit "%d ('%s')") [ANum (f_uid st); user_name];;
           group_name ← str_arg (get_group_name (f_uid st));
           entry (lit "group id (gid)") (lit "%d ('%s')") [ANum (f_gid st); group_name];;
           entry (lit "size") (lit "%lu bytes (%lu 512-byte blocks)")
             [ANum (f_size st); ANum (f_blocks st)];;
           section_open (lit "times");;
           (show_file_time (lit "atime (access)") (f_atime st);;
            show_file_time (lit "mtime (modification)") (f_mtime st);;
            show_file_time (lit "ctime (status change)") (f_ctime st));;
           section_close
         end);;
        footer
      end
    end
  end.

(** ** The miscellany *)
Definition quotes (s : bytes) : bytes := if bool_decide (s = UNKNOWN_STR) then [] else lit "'".

Definition section_of_op (name : bytes) (op : option (prog ostate unit)) : prog ostate unit :=
  match op with
  | None => mret tt
  | Some m => section_open name;; m;; section_close
  end.

Definition show_misc `{!Personality} (m : procenv_misc) : prog ostate unit :=
  header (lit "misc");;
  (entry (lit "umask") (lit "%4.4o") [ANum (umask_value m)];;
   entry (lit "current directory (cwd)") (lit "'%s'") [AStr (cwd m)];;
   entry (lit "root") (lit "%s%s%s") [AStr (quotes (root m)); AStr (root m); AStr (quotes (root m))];;
   chroot ← pure in_chroot;
   entry (lit "chroot") (lit "%s") [AStr (yes_no chroot)];;
   container ← pure container_type;
   entry (lit "container") (lit "%s") [AStr container];;
   vm ← (match op_in_vm with
         | None => mret UNKNOWN_STR
         | Some o => b ← pure o; mret (yes_no b)
         end);
   entry (lit "vm") (lit "%s") [AStr vm];;
   section_of_op (lit "prctl") op_show_prctl;;
   section_of_op (lit "security module") op_show_security_module;;
   entry (lit "kernel headers version") (lit "%u.%u.%u")
     [ANum (Z.shiftr LINUX_VERSION_CODE 16); ANum (Z.land (Z.shiftr LINUX_VERSION_CODE 8) 255);
      ANum (Z.land LINUX_VERSION_CODE 255)];;
   name ← pure (get_personality_name personality_map (Z.land personality PER_MASK));
   section_open (lit "personality");;
   (entry (lit "type") (lit "%s") [AStr (default UNKNOWN_STR name)];;
    flags ← in_mem (
      b ← get_personality_flags personality_flag_map (Z.land personality (Z.lxor (-1) PER_MASK));
      match b with Some b => pure (string_at b 0) | None => mret [] end);
    entry (lit "flags") (lit "%s") [AStr flags]);;
   section_close);;
  footer.
End Show.

(** ** What they print *)
Section Spec.
Context `{AllocTotal} `{LocaleLaws} (cfg : settings).
Context `{!Util.System} `{!Driver} `{!Identity}.

(** A number under [%k.kd]. *)
Lemma number_padded sp k n :
  sp_left sp = false -> sp_width sp = k -> sp_prec sp = Some k -> sp_long sp = 0 -> in_int n ->
  number_text sp 100 n = zeros k (digits 10 n).
Proof.
  intros Hl Hw Hp Hlong Hn. unfold number_text, width_of. rewrite Hlong. cbn [Nat.eqb].
  rewrite to_signed_int by done. unfold in_int in Hn. rewrite (proj2 (Z.ltb_ge n 0)) by lia.
  rewrite Z.abs_eq by lia. unfold format_number. rewrite Hl, Hw, Hp. cbn [app].
  unfold pad, zeros. rewrite length_app, length_replicate.
  replace (k - (k - length (digits 10 n) + length (digits 10 n))) with 0 by lia. done.
Qed.

Lemma drop_last_newline s : drop_last (s ++ [NL]) = Ok s.
Proof.
  unfold drop_last. rewrite length_app. cbn [length].
  replace (length s + 1 - 1) with (length s) by lia. rewrite take_app_exact by done.
  by destruct s.
Qed.

(** The broken-down time as [show_time] writes it. *)
Definition iso_text (t : tm) : wstr :=
  zeros 4 (digits 10 (1900 + tm_year t)) ++ lit "-" ++ zeros 2 (digits 10 (tm_mon t)) ++ lit "-" ++
  zeros 2 (digits 10 (tm_mday t)) ++ lit "T" ++ zeros 2 (digits 10 (tm_hour t)) ++ lit ":" ++
  zeros 2 (digits 10 (tm_min t)).

(** [show_time] prints the seconds (of an unsigned int) and the
    nanoseconds, without leading zeros, the text of [asctime_r (3)] without
    its newline, and a date whose month is [tm_mon], which counts from 0, so
    that it is one less than the month of ISO 8601. *)
Theorem show_time_correct `{!Clock} ts t s w :
  op_get_time = Some (Some ts) -> localtime (tv_sec ts) = Some t -> asctime_r t = Some (s ++ [NL]) ->
  text_is cfg s w -> in_int (1900 + tm_year t) -> in_int (tm_mon t) -> in_int (tm_mday t) ->
  in_int (tm_hour t) -> in_int (tm_min t) ->
  prints cfg show_time
    [TBlock KSection (lit "time")
       [ TEntry (lit "raw") (uint_text (tv_sec ts) ++ lit "." ++ ulong_text (tv_nsec ts));
         TEntry (lit "local") w;
         TEntry (lit "ISO") (iso_text t) ]].
Proof.
  intros Hts Ht Ha Hw Hy Hmo Hd Hh Hmi. unfold show_time. rewrite Hts, Ht, Ha.
  reading (apply reads_pure, drop_last_newline). eapply prints_eq; [prints_steps|].
  rewrite (number_padded _ 4 (1900 + tm_year t)) by done. rewrite !(number_padded _ 2) by done. same_trees.
Qed.

Lemma titled_show_time `{!Clock} ts t s :
  op_get_time = Some (Some ts) -> localtime (tv_sec ts) = Some t -> asctime_r t = Some (s ++ [NL]) ->
  showable cfg s -> titled cfg (lit "time") DISPLAY_DEPTH show_time.
Proof.
  intros Hts Ht Ha Hw. unfold show_time. rewrite Hts, Ht, Ha.
  reading (apply reads_pure, drop_last_newline). typed_steps.
Qed.

Lemma titled_show_threads `{!Threads} :
  (forall sched p, schedparam = Some (sched, p) -> sched ∈ [SCHED_OTHER; SCHED_FIFO; SCHED_RR]) ->
  titled cfg (lit "threads") DISPLAY_DEPTH show_threads.
Proof.
  intros Hs. unfold show_threads. typed_steps.
  - destruct scope as [s|]; [destruct (Z.eqb s _)|]; by apply printable_showable.
  - destruct guard_size; typed_steps.
  - assert (exists name, reads cfg (match schedparam with
            | None => mret (Some UNKNOWN_STR)
            | Some (sched, _) => pure (get_thread_scheduler_name SCHED_OTHER SCHED_FIFO SCHED_RR sched)
            end) (Some name) /\ showable cfg name) as (name & Hr & Hn).
    { destruct schedparam as [[sched p]|];
        [|exists UNKNOWN_STR; split; [apply reads_ret|by apply printable_showable]].
      specialize (Hs _ _ eq_refl).
      unfold get_thread_scheduler_name, thread_sched_policy_map. cbn [map_scan].
      destruct (Z.eqb_spec SCHED_OTHER sched);
        [|destruct (Z.eqb_spec SCHED_FIFO sched); [|destruct (Z.eqb_spec SCHED_RR sched); [|set_solver]]];
        eexists; (split; [by apply reads_pure|by apply printable_showable]). }
    reading (exact Hr). cbn [str_arg]. typed_steps.
    + destruct schedparam as [[? ?]|]; typed_steps.
    + destruct inheritsched as [s|]; [destruct (Z.eqb s _)|]; by apply printable_showable.
Qed.

(** *** The file of the program *)
Lemma printable_perms mode : printable (perms_text mode) = true.
Proof.
  unfold perms_text, triple, printable. cbn [app forallb].
  repeat (apply andb_true_intro; split); by repeat case_match.
Qed.

Lemma reads_perms mode :
  reads cfg (in_mem (b ← format_perms mode;
                     match b with Some b => s ← pure (string_at b 0); mret (Some s) | None => mret None end))
    (Some (perms_text mode)).
Proof.
  apply reads_mem. intros m0. exists (tick m0). split; [|apply ticked_tick].
  step_with (format_perms_run mode m0). erewrite prog_bind_ok; [done|].
  apply pure_ok, string_at_start, printable_nz, printable_perms.
Qed.

Definition time_text (t : Z) (w : wstr) : wstr := ulong_text t ++ lit " (" ++ w ++ lit ")".

Definition stat_tree (T : bytes -> wstr) (program_name real_path user_name group_name : bytes)
  (st : file_status) (atime mtime ctime : wstr) : tree :=
  TBlock KSection (lit "stat")
    [ TEntry (lit "argv[0]") (lit "'" ++ T program_name ++ lit "'");
      TEntry (lit "real path") (lit "'" ++ T real_path ++ lit "'");
      TBlock KSection (lit "device")
        [ TEntry (lit "major") (uint_text (major (f_dev st)));
          TEntry (lit "minor") (uint_text (minor (f_dev st))) ];
      TEntry (lit "inode") (ulong_text (f_ino st));
      TBlock KSection (lit "permissions")
        [ TEntry (lit "octal")
            (pad false 4 (zeros 4 (digits 8 (to_unsigned 32 (Z.land (f_mode st) (Z.lnot S_IFMT))))));
          TEntry (lit "symbolic") (perms_text (f_mode st)) ];
      TEntry (lit "hard links") (uint_text (f_nlink st));
      TEntry (lit "user id (uid)") (int_text (f_uid st) ++ lit " ('" ++ T user_name ++ lit "')");
      TEntry (lit "group id (gid)") (int_text (f_gid st) ++ lit " ('" ++ T group_name ++ lit "')");
      TEntry (lit "size")
        (ulong_text (f_size st) ++ lit " bytes (" ++ ulong_text (f_blocks st) ++ lit " 512-byte blocks)");
      TBlock KSection (lit "times")
        [ TEntry (lit "atime (access)") (time_text (f_atime st) atime);
          TEntry (lit "mtime (modification)") (time_text (f_mtime st) mtime);
          TEntry (lit "ctime (status change)") (time_text (f_ctime st) ctime) ] ].

Lemma prints_file_time `{!Clock} name t s w :
  name_is cfg name name -> ctime_r t = Some (s ++ [NL]) -> text_is cfg s w ->
  prints cfg (show_file_time name t) [TEntry name (time_text t w)].
Proof.
  intros Hn Ht Hw. unfold show_file_time. rewrite Ht.
  reading (apply reads_pure, drop_last_newline). eapply prints_eq; [prints_steps|same_trees].
Qed.

(** when the file of the program is found, [show_stat] prints its name, its
    real path, device, inode, permissions in octal and in letters, links,
    owner, size and times; the name beside the number of the group is that
    of the group whose number is the owner's user id. *)
Theorem show_stat_correct `{!Clock} `{!Files} (T : bytes -> wstr)
  program_name tmp real_path st user_name group_name sa sm sc wa wm wc :
  (forall m0, exists m1, get_path getcwd env_path path_stdpath program_name m0 = Ok (Some tmp, m1)
                         /\ ticked m0 m1) ->
  realpath tmp = Some real_path -> stat_file real_path = Some st ->
  get_user_name (f_uid st) = Some user_name -> get_group_name (f_uid st) = Some group_name ->
  (forall s, s ∈ [program_name; real_path; user_name; group_name] -> text_is cfg s (T s)) ->
  ctime_r (f_atime st) = Some (sa ++ [NL]) -> text_is cfg sa wa ->
  ctime_r (f_mtime st) = Some (sm ++ [NL]) -> text_is cfg sm wm ->
  ctime_r (f_ctime st) = Some (sc ++ [NL]) -> text_is cfg sc wc ->
  prints cfg (show_stat program_name)
    [stat_tree T program_name real_path user_name group_name st wa wm wc].
Proof.
  intros Hpath Hreal Hst Hu Hg HT Ha Hwa Hm Hwm Hc Hwc. unfold show_stat.
  reading (apply reads_mem, Hpath). rewrite Hreal, Hst, Hu, Hg.
  cbn [str_arg]. eapply prints_eq.
  - prints_steps. reading (apply reads_perms).
    pose proof (printable_text cfg _ (printable_perms (f_mode st))) as Hperms.
    prints_steps.
    1-3: eapply prints_file_time; [solve_name|done|done].
  - same_trees.
Qed.

(** The program's file is found, and its owner and the group of that number
    have names. *)
Class StatAnswers `{!Clock} `{!Files} (program_name : bytes) : Prop := {
  stat_found : exists tmp real_path st user_name group_name,
    (forall m0, exists m1, get_path getcwd env_path path_stdpath program_name m0 = Ok (Some tmp, m1)
                           /\ ticked m0 m1) /\
    realpath tmp = Some real_path /\ stat_file real_path = Some st /\
    get_user_name (f_uid st) = Some user_name /\ get_group_name (f_uid st) = Some group_name /\
    showable cfg program_name /\ showable cfg real_path /\ showable cfg user_name /\
    showable cfg group_name;
  stat_times : forall t, exists s, ctime_r t = Some (s ++ [NL]) /\ showable cfg s
}.

Lemma typed_file_time `{!Clock} name t :
  nameable cfg name -> (exists s, ctime_r t = Some (s ++ [NL]) /\ showable cfg s) ->
  typed cfg CMembers 0 (show_file_time name t).
Proof.
  intros Hn (s & Ht & Hs). unfold show_file_time. rewrite Ht.
  reading (apply reads_pure, drop_last_newline). typed_steps.
Qed.

Lemma titled_show_stat `{!Clock} `{!Files} program_name `{!StatAnswers program_name} :
  titled cfg (lit "stat") DISPLAY_DEPTH (show_stat program_name).
Proof.
  destruct stat_found as (tmp & rp & st & un & gn & Hpath & Hreal & Hst & Hu & Hg & Hp & Hrp & Hun & Hgn).
  unfold show_stat. reading (apply reads_mem, Hpath). rewrite Hreal, Hst, Hu, Hg. cbn [str_arg].
  typed_steps. reading (apply reads_perms).
  pose proof (printable_showable cfg _ (printable_perms (f_mode st))) as Hperms.
  typed_steps; (eapply typed_le; [apply typed_file_time; [solve_nameable|apply stat_times]|lia]).
Qed.

(** *** The miscellany *)
Lemma reads_personality_flags tbl flags :
  Forall (fun e => printable e.1 = true) tbl ->
  exists s, printable s = true /\
    reads cfg (in_mem (b ← get_personality_flags tbl flags;
                       match b with Some b => pure (string_at b 0) | None => mret [] end)) s.
Proof.
  intros Htbl. exists (listing (flag_names tbl flags)). split.
  - assert (Forall (fun n => printable n = true) (flag_names tbl flags)) as Hn.
    { apply Forall_forall. intros n Hn. apply list_elem_of_fmap in Hn as (e & -> & He).
      apply list_elem_of_filter in He as [_ He]. rewrite Forall_forall in Htbl. by apply Htbl. }
    destruct Hn as [|n ns Hn Hns]; [done|]. unfold listing. rewrite printable_app, Hn. cbn [andb].
    induction Hns as [|n' ns Hn' _ IH]; [done|]. cbn [map concat]. rewrite !printable_app, Hn', IH. done.
  - apply reads_mem. intros m0.
    assert (Forall (fun e => nz e.1) tbl) as Hnz
      by (eapply Forall_impl; [exact Htbl|]; intros e; apply printable_nz).
    destruct (flags_loop_ok tbl flags None [] true m0 Hnz eq_refl (Forall_nil_2 _))
      as (b & m' & E & Ht & Hb & Hn).
    exists m'. split; [|done]. unfold get_personality_flags. step_with E. cbn [app] in Hb.
    destruct b as [b|].
    + apply pure_ok. destruct Hb as [junk ->]. apply string_at_start, nz_listing.
      apply Forall_forall. intros n Hn'. apply list_elem_of_fmap in Hn' as (e & -> & He).
      apply list_elem_of_filter in He as [_ He]. rewrite Forall_forall in Hnz. by apply Hnz.
    + by rewrite (proj2 (proj1 Hn eq_refl)).
Qed.

Class MiscAnswers `{!Personality} (m : procenv_misc) : Prop := {
  misc_chroot : exists b, in_chroot = Ok b;
  misc_container : exists s, container_type = Ok s /\ showable cfg s;
  misc_personality : exists tbl, personality_map = terminated tbl /\
    Forall (fun e => printable e.1 = true) tbl;
  misc_flags : Forall (fun e => printable e.1 = true) personality_flag_map;
  misc_strings : showable cfg (cwd m) /\ showable cfg (root m)
}.

Lemma typed_section_of_op d name op :
  nameable cfg name -> typed cfg CMembers d (run_op op) -> typed cfg CMembers (S d) (section_of_op name op).
Proof.
  intros Hn Ho. destruct op as [m|]; cbn [section_of_op run_op] in *; [|apply typed_ret].
  by apply typed_section_last.
Qed.

Lemma titled_show_misc `{!DriverTyped cfg} `{!Personality} m `{!MiscAnswers m} :
  titled cfg (lit "misc") DISPLAY_DEPTH (show_misc m).
Proof.
  destruct misc_chroot as [b Hb], misc_container as (c & Hc & Hcs), misc_strings as [Hcwd Hroot].
  destruct misc_personality as (tbl & Htbl & Hnames).
  destruct (reads_personality_flags personality_flag_map
              (Z.land personality (Z.lxor (-1) PER_MASK)) misc_flags) as (fl & Hfl & Hrf).
  assert (showable cfg (quotes (root m))) as Hq by (unfold quotes; case_bool_decide; by apply printable_showable).
  unfold show_misc. typed_steps. reading (by apply reads_pure). typed_step.
  reading (by apply reads_pure). typed_step.
  assert (exists v, reads cfg (match op_in_vm with
         | None => mret UNKNOWN_STR | Some o => b ← pure o; mret (yes_no b) end) v /\ showable cfg v)
    as (v & Hv & Hvs).
  { pose proof in_vm_answers as Hvm. destruct op_in_vm as [o|].
    - destruct Hvm as [x ->]. exists (yes_no x). split; [|apply showable_yes_no].
      eapply reads_bind; [by apply reads_pure|apply reads_ret].
    - exists UNKNOWN_STR. split; [apply reads_ret|by apply printable_showable]. }
  reading (exact Hv). do 2 typed_step.
  { apply typed_section_of_op; [solve_nameable|typed_op]. }
  typed_step. { apply typed_section_of_op; [solve_nameable|typed_op]. }
  typed_step. unfold get_personality_name. rewrite Htbl.
  destruct (map_scan_some tbl (fun num => Z.eqb num (Z.land (Z.land personality PER_MASK) PER_MASK)))
    as (o & Eo & Ho).
  reading (by apply reads_pure).
  assert (showable cfg (default UNKNOWN_STR o)) as Hos.
  { destruct o as [name|]; cbn; [|by apply printable_showable]. destruct (Ho name eq_refl) as [z Hz].
    rewrite Forall_forall in Hnames. by apply printable_showable, (Hnames (name, z)). }
  typed_steps. pose proof (printable_showable cfg fl Hfl). reading (exact Hrf). typed_steps.
Qed.
End Spec.
