(* ===== verification/NetCache.v ===== *)
(** NetCache: the cache of link-level entries of show_network
    (src/src/procenv.c): a doubly linked list of [struct network_map] behind
    an empty head, in a heap of nodes with addresses.  Reading or writing a
    node that is not in the heap is undefined behaviour.

    The list operations of the code refine those of a functional list: to put
    an entry in front, and to take out the first entry of a name. *)
From S2P Require Import Prelude Memory PrList PrListSpec Locale StringUtil.

(** A socket address: its family and the bytes [getnameinfo (3)] reads. *)
Record sockaddr : Set := mk_sockaddr { sa_family : Z; sa_data : bytes }.

Record ifaddrs : Set := mk_ifaddrs {
  ifa_name : bytes;
  ifa_flags : Z;
  ifa_addr : option sockaddr;
  ifa_netmask : option sockaddr;
  ifa_broadaddr : option sockaddr;
  ifa_dstaddr : option sockaddr
}.

(** A node; that of the head holds no entry, its memory being zero. *)
Record network_map : Set := mk_network_map {
  n_ifaddr : option ifaddrs;
  n_mac : option bytes;
  n_next : nat;
  n_prev : nat
}.

Record cache : Set := mk_cache { c_nodes : gmap nat network_map; c_fresh : nat }.

#[export] Instance sockaddr_eq_dec : EqDecision sockaddr.
Proof. solve_decision. Defined.
#[export] Instance ifaddrs_eq_dec : EqDecision ifaddrs.
Proof. solve_decision. Defined.
#[export] Instance network_map_eq_dec : EqDecision network_map.
Proof. solve_decision. Defined.
#[export] Instance cache_eq_dec : EqDecision cache.
Proof. solve_decision. Defined.

Definition HEAD : nat := 1.

Definition load_node (c : cache) (p : nat) : outcome network_map :=
  match c_nodes c !! p with Some n => Ok n | None => UB "dangling or null pointer" end.

Definition store_node (p : nat) (n : network_map) (c : cache) : cache :=
  mk_cache (<[p := n]> (c_nodes c)) (c_fresh c).

Definition set_next (p q : nat) (c : cache) : outcome cache :=
  n ← load_node c p; Ok (store_node p (mk_network_map (n_ifaddr n) (n_mac n) q (n_prev n)) c).

Definition set_prev (p q : nat) (c : cache) : outcome cache :=
  n ← load_node c p; Ok (store_node p (mk_network_map (n_ifaddr n) (n_mac n) (n_next n) q) c).

Definition free_cache_node (p : nat) (c : cache) : outcome cache :=
  load_node c p;; Ok (mk_cache (delete p (c_nodes c)) (c_fresh c)).

(** [head = calloc (1, sizeof (struct network_map))]. *)
Definition new_cache : cache := mk_cache {[ HEAD := mk_network_map None None NULL NULL ]} (S HEAD).

(** The entry of a link-level interface is put in front. *)
Definition cache_add (ifa : ifaddrs) (mac : option bytes) (c : cache) : outcome cache :=
  let node := c_fresh c in
  let c1 := mk_cache (<[node := mk_network_map (Some ifa) mac NULL NULL]> (c_nodes c)) (S node) in
  h ← load_node c1 HEAD;
  c2 ← set_next node (n_next h) c1;
  c3 ← (if Nat.eqb (n_next h) NULL then Ok c2 else set_prev (n_next h) node c2);
  c4 ← set_prev node HEAD c3;
  set_next HEAD node c4.

Definition unlink (node : nat) (n : network_map) (c : cache) : outcome cache :=
  c1 ← set_next (n_prev n) (n_next n) c;
  c2 ← (if Nat.eqb (n_next n) NULL then Ok c1 else set_prev (n_next n) (n_prev n) c1);
  free_cache_node node c2.

(** The search for an entry of the same name: its MAC address is kept, and the
    node taken out of the list and freed. *)
Fixpoint cache_search (fuel : nat) (node : nat) (name : bytes) (c : cache)
  : outcome (option bytes * cache) :=
  match fuel with
  | 0 => Diverge
  | S fuel' =>
    if Nat.eqb node NULL then Ok (None, c)
    else
      n ← load_node c node;
      match n_ifaddr n with
      | None => Ok (None, c)
      | Some ifa =>
        if Z.eqb (strcmp (ifa_name ifa) name) 0 then
          c' ← unlink node n c; Ok (n_mac n, c')
        else cache_search fuel' (n_next n) name c
      end
  end.

(** The number of nodes bounds the steps of a walk on the list. *)
Definition cache_size (c : cache) : nat := size (c_nodes c).

Definition cache_take (name : bytes) (c : cache) : outcome (option bytes * cache) :=
  h ← load_node c HEAD;
  cache_search (S (cache_size c)) (n_next h) name c.

(** ** The functional list *)
Abbreviation entry_of := (ifaddrs * option bytes)%type.

Fixpoint take_name (name : bytes) (es : list entry_of) : option bytes * list entry_of :=
  match es with
  | [] => (None, [])
  | e :: es' =>
    if Z.eqb (strcmp (ifa_name e.1) name) 0 then (e.2, es')
    else let '(m, rest) := take_name name es' in (m, e :: rest)
  end.

(** ** Segments of the linked list *)

(** A node and what it holds. *)
Abbreviation cell := (nat * (option ifaddrs * option bytes))%type.
Implicit Types (h : gmap nat network_map) (xs ys : list cell).

Definition first (nxt : nat) xs : nat := match xs with [] => nxt | x :: _ => x.1 end.
Fixpoint lastp (prv : nat) xs : nat := match xs with [] => prv | x :: xs' => lastp x.1 xs' end.

(** The nodes of [xs] are linked in order, the first one back to [prv] and the
    last one on to [nxt]. *)
Fixpoint seg h (prv : nat) xs (nxt : nat) : Prop :=
  match xs with
  | [] => True
  | x :: xs' => h !! x.1 = Some (mk_network_map x.2.1 x.2.2 (first nxt xs') prv) /\ seg h x.1 xs' nxt
  end.

Lemma seg_app h prv xs ys nxt :
  seg h prv (xs ++ ys) nxt <-> seg h prv xs (first nxt ys) /\ seg h (lastp prv xs) ys nxt.
Proof.
  revert prv. induction xs as [|x xs IH]; intros prv; cbn; [tauto|].
  rewrite IH. assert (first nxt (xs ++ ys) = first (first nxt ys) xs) as -> by by destruct xs. tauto.
Qed.

Lemma seg_frame h h' prv xs nxt :
  (forall x, x ∈ xs -> h' !! x.1 = h !! x.1) -> seg h prv xs nxt -> seg h' prv xs nxt.
Proof.
  revert prv. induction xs as [|x xs IH]; intros prv Hf; [done|]. cbn. intros [Hx Hs].
  split; [rewrite Hf by set_solver; done|]. apply IH; [|done]. intros y Hy. apply Hf. set_solver.
Qed.

Lemma keys_not (xs : list cell) q : q ∉ xs.*1 -> forall x, x ∈ xs -> x.1 <> q.
Proof. intros Hq x Hx E. apply Hq. apply list_elem_of_fmap. by exists x. Qed.

Lemma seg_insert h prv xs nxt q n : q ∉ xs.*1 -> seg h prv xs nxt -> seg (<[q := n]> h) prv xs nxt.
Proof.
  intros Hq. apply seg_frame. intros x Hx. apply lookup_insert_ne. by apply not_eq_sym, (keys_not xs).
Qed.

Lemma seg_delete h prv xs nxt q : q ∉ xs.*1 -> seg h prv xs nxt -> seg (delete q h) prv xs nxt.
Proof.
  intros Hq. apply seg_frame. intros x Hx. apply lookup_delete_ne. by apply not_eq_sym, (keys_not xs).
Qed.

(** Changing the link of the first node back, or of the last node on. *)
Definition changed_node (c c' : cache) (p : nat) (n : network_map) : Prop :=
  c_fresh c' = c_fresh c /\ c_nodes c' = <[p := n]> (c_nodes c).

Lemma set_prev_first c x xs prv nxt prv' :
  seg (c_nodes c) prv (x :: xs) nxt -> x.1 ∉ xs.*1 ->
  exists c' n, set_prev x.1 prv' c = Ok c' /\ changed_node c c' x.1 n /\ seg (c_nodes c') prv' (x :: xs) nxt.
Proof.
  intros [Hx Hs] Hni. unfold set_prev, load_node. rewrite Hx. cbn.
  eexists _, _. split; [reflexivity|]. split; [done|]. cbn. split; [by rewrite lookup_insert_eq|].
  by apply seg_insert.
Qed.

Lemma set_next_last c x xs prv nxt nxt' :
  seg (c_nodes c) prv (xs ++ [x]) nxt -> x.1 ∉ xs.*1 ->
  exists c' n, set_next x.1 nxt' c = Ok c' /\ changed_node c c' x.1 n /\
    seg (c_nodes c') prv (xs ++ [x]) nxt'.
Proof.
  rewrite seg_app. intros [Hs [Hx _]] Hni. unfold set_next, load_node. rewrite Hx. cbn.
  eexists _, _. split; [reflexivity|]. split; [done|]. apply seg_app. split; [by apply seg_insert|].
  cbn. split; [by rewrite lookup_insert_eq|done].
Qed.

(** The cache holds the entries [es]: its nodes are exactly those of a linked
    list that starts with the head. *)
Definition cells (ps : list nat) (es : list entry_of) : list cell :=
  zip ps (map (fun e => (Some e.1, e.2)) es).

Definition list_is (c : cache) (ps : list nat) (es : list entry_of) : Prop :=
  length ps = length es /\
  seg (c_nodes c) NULL ((HEAD, (None, None)) :: cells ps es) NULL /\
  NoDup (NULL :: HEAD :: ps) /\ Forall (fun p => p < c_fresh c) (HEAD :: ps) /\
  dom (c_nodes c) = list_to_set (HEAD :: ps).

Definition cache_is (c : cache) (es : list entry_of) : Prop := exists ps, list_is c ps es.

Lemma outcome_bind_Ok {A B} (a : A) (k : A -> outcome B) : (Ok a ≫= k) = k a.
Proof. reflexivity. Qed.

Lemma outcome_step {A B} (m : outcome A) (k : A -> outcome B) a : m = Ok a -> (m ≫= k) = k a.
Proof. by intros ->. Qed.

Lemma set_prev_rest c xs prv prv' nxt :
  seg (c_nodes c) prv xs nxt -> NULL ∉ xs.*1 -> NoDup (xs.*1) -> (xs = [] -> nxt = NULL) ->
  exists c', (if Nat.eqb (first nxt xs) NULL then Ok c else set_prev (first nxt xs) prv' c) = Ok c' /\
    c_fresh c' = c_fresh c /\ seg (c_nodes c') prv' xs nxt /\
    (forall p, p ∉ xs.*1 -> c_nodes c' !! p = c_nodes c !! p) /\
    dom (c_nodes c') = dom (c_nodes c).
Proof.
  intros Hs Hnull Hnd Hnil. destruct xs as [|x xs].
  - cbn. rewrite Hnil by done. cbn. by exists c.
  - cbn [fmap list_fmap] in *. apply not_elem_of_cons in Hnull as [Hx0 _].
    apply NoDup_cons in Hnd as [Hnx _]. cbn [first].
    rewrite (proj2 (Nat.eqb_neq _ _)) by done.
    destruct (set_prev_first c x xs prv nxt prv' Hs Hnx) as (c' & n & E & [Hf Hn] & Hs').
    exists c'. split_and!; [done|done|done| |].
    + intros p Hp. rewrite Hn. apply lookup_insert_ne. set_solver.
    + rewrite Hn, dom_insert_L. destruct Hs as [Hl _].
      assert (x.1 ∈ dom (c_nodes c)) by by apply elem_of_dom. set_solver.
Qed.

(** Taking a node out of the list. *)
Lemma unlink_ok c ys l q zs :
  seg (c_nodes c) NULL (ys ++ l :: q :: zs) NULL -> NoDup ((ys ++ l :: q :: zs).*1) ->
  NULL ∉ zs.*1 ->
  exists n c', c_nodes c !! q.1 = Some n /\ n_ifaddr n = q.2.1 /\ n_mac n = q.2.2 /\
    n_next n = first NULL zs /\ unlink q.1 n c = Ok c' /\ c_fresh c' = c_fresh c /\
    seg (c_nodes c') NULL (ys ++ l :: zs) NULL /\ dom (c_nodes c') = dom (c_nodes c) ∖ {[ q.1 ]}.
Proof.
  intros Hs Hnd Hnull. rewrite fmap_app in Hnd. cbn [fmap list_fmap] in Hnd.
  apply NoDup_app in Hnd as (Hys & Hdis & Hnd). apply NoDup_cons in Hnd as [Hl Hnd].
  apply NoDup_cons in Hnd as [Hq Hzs].
  assert (ys ++ l :: q :: zs = (ys ++ [l]) ++ q :: zs) as El by by rewrite <- app_assoc.
  rewrite El, seg_app in Hs. destruct Hs as [Hs1 [Hq1 Hs2]].
  assert (lastp NULL (ys ++ [l]) = l.1) as Elast.
  { clear. generalize NULL. induction ys as [|y ys IH]; intros k; cbn; [done|]. apply IH. }
  rewrite Elast in Hq1. eexists. unfold unlink.
  destruct (set_next_last c l ys NULL _ (first NULL zs) Hs1) as (c1 & n1 & E1 & [F1 N1] & S1).
  { intros Hin. apply (Hdis l.1 Hin). set_solver. }
  assert (seg (c_nodes c1) q.1 zs NULL) as S2 by (rewrite N1; apply seg_insert; [set_solver|done]).
  destruct (set_prev_rest c1 zs q.1 l.1 NULL S2 Hnull Hzs ltac:(done))
    as (c2 & E2 & F2 & S3 & K2 & D2).
  exists (mk_cache (delete q.1 (c_nodes c2)) (c_fresh c2)).
  split_and!; [exact Hq1|done|done|done| | | |].
  - cbn [n_prev n_next]. rewrite (outcome_step _ _ _ E1), (outcome_step _ _ _ E2).
    unfold free_cache_node, load_node. rewrite K2, N1, lookup_insert_ne, Hq1 by set_solver. done.
  - cbn. by rewrite F2, F1.
  - cbn [c_nodes]. replace (ys ++ l :: zs) with ((ys ++ [l]) ++ zs) by by rewrite <- app_assoc.
    apply seg_app. rewrite Elast. split; (apply seg_delete; [|]).
    + rewrite fmap_app. cbn. intros Hin. apply elem_of_app in Hin as [Hin|Hin]; [|set_solver].
      apply (Hdis q.1 Hin). set_solver.
    + eapply seg_frame; [|exact S1]. intros x Hx. apply K2. intros Hin.
      apply elem_of_app in Hx as [Hx|Hx]; [|set_solver].
      apply (Hdis x.1); [apply list_elem_of_fmap; by exists x|set_solver].
    + done.
    + exact S3.
  - cbn [c_nodes]. rewrite dom_delete_L, D2, N1, dom_insert_L.
    assert (l.1 ∈ dom (c_nodes c)).
    { apply seg_app in Hs1 as [_ [Hl1 _]]. by apply elem_of_dom. }
    set_solver.
Qed.

Lemma keys_cells ps es : length ps = length es -> (cells ps es).*1 = ps.
Proof. intros Hl. apply fst_zip. rewrite length_map. lia. Qed.

Lemma cells_cons p ps e es : cells (p :: ps) (e :: es) = (p, (Some e.1, e.2)) :: cells ps es.
Proof. reflexivity. Qed.

Lemma cells_app ps1 ps2 es1 es2 :
  length ps1 = length es1 -> cells (ps1 ++ ps2) (es1 ++ es2) = cells ps1 es1 ++ cells ps2 es2.
Proof. intros Hl. unfold cells. rewrite map_app, zip_with_app; [done|]. by rewrite length_map. Qed.

Definition head_cell : cell := (HEAD, (None, None)).

Lemma new_cache_is : cache_is new_cache [].
Proof.
  exists []. split_and!; [done|by split|repeat constructor; set_solver|by repeat constructor|].
  unfold new_cache. cbn [c_nodes list_to_set foldr]. rewrite dom_singleton_L. set_solver.
Qed.

Lemma list_head c ps es :
  list_is c ps es -> exists n, load_node c HEAD = Ok n /\ n_next n = first NULL (cells ps es).
Proof. intros (_ & [Hh _] & _). unfold load_node. cbn in Hh. rewrite Hh. by eexists. Qed.

Lemma cache_next_run c p n q :
  c_nodes c !! p = Some n ->
  set_next p q c = Ok (store_node p (mk_network_map (n_ifaddr n) (n_mac n) q (n_prev n)) c).
Proof. intros E. unfold set_next, load_node. by rewrite E. Qed.

Lemma cache_prev_run c p n q :
  c_nodes c !! p = Some n ->
  set_prev p q c = Ok (store_node p (mk_network_map (n_ifaddr n) (n_mac n) (n_next n) q) c).
Proof. intros E. unfold set_prev, load_node. by rewrite E. Qed.

Lemma lookup_store c p n : c_nodes (store_node p n c) !! p = Some n.
Proof. cbn. by rewrite lookup_insert_eq. Qed.

Lemma lookup_store_ne c p q n : p <> q -> c_nodes (store_node p n c) !! q = c_nodes c !! q.
Proof. intros Hne. by apply lookup_insert_ne. Qed.

Lemma cache_add_ok c es ifa mac :
  cache_is c es -> exists c', cache_add ifa mac c = Ok c' /\ cache_is c' ((ifa, mac) :: es).
Proof.
  intros (ps & Hl & [Hh Hs] & Hnd & Hfr & Hdom). cbn in Hh, Hs.
  rewrite Forall_cons in Hfr. destruct Hfr as [HfH Hfr].
  assert ((NULL ∉ ps) /\ (HEAD ∉ ps) /\ NoDup ps) as (Hnull & HnH & Hndp).
  { rewrite !NoDup_cons, not_elem_of_cons in Hnd. naive_solver. }
  pose proof (keys_cells ps es Hl) as Hkeys.
  destruct c as [h node]. cbn [c_nodes c_fresh] in *.
  assert (node <> HEAD) as HnodeH by lia.
  assert (node ∉ ps) as Hnode by (intros Hin; rewrite Forall_forall in Hfr; apply Hfr in Hin; lia).
  unfold cache_add. cbn [c_fresh c_nodes]. set (nd := mk_network_map (Some ifa) mac NULL NULL).
  set (c1 := mk_cache (<[node := nd]> h) (S node)).
  assert (c_nodes c1 !! node = Some nd) as L1 by apply lookup_insert_eq.
  unfold load_node at 1. replace (c_nodes c1 !! HEAD) with (h !! HEAD)
    by (symmetry; by apply lookup_insert_ne).
  rewrite Hh, outcome_bind_Ok. cbn [n_next]. set (nx := first NULL (cells ps es)).
  rewrite (outcome_step _ _ _ (cache_next_run _ _ _ nx L1)). cbn [n_ifaddr n_mac n_prev nd].
  set (c2 := store_node node _ c1).
  assert (c_nodes c2 = <[node := mk_network_map (Some ifa) mac nx NULL]> h) as N2.
  { unfold c2, c1. cbn. by rewrite insert_insert_eq. }
  assert (seg (c_nodes c2) HEAD (cells ps es) NULL) as S2.
  { rewrite N2. apply seg_insert; [by rewrite Hkeys|done]. }
  destruct (set_prev_rest c2 (cells ps es) HEAD node NULL S2) as (c3 & E3 & F3 & S3 & K3 & D3);
    rewrite ?Hkeys in *; try done.
  unfold nx at 1 2. rewrite (outcome_step _ _ _ E3).
  assert (c_nodes c3 !! node = Some (mk_network_map (Some ifa) mac nx NULL)) as L3.
  { rewrite K3, N2 by done. apply lookup_insert_eq. }
  rewrite (outcome_step _ _ _ (cache_prev_run _ _ _ HEAD L3)). cbn [n_ifaddr n_mac n_next].
  set (c4 := store_node node _ c3).
  assert (c_nodes c4 !! HEAD = h !! HEAD) as L4.
  { unfold c4. rewrite lookup_store_ne, K3, N2 by done. by apply lookup_insert_ne. }
  rewrite Hh in L4. rewrite (cache_next_run _ _ _ node L4). cbn [n_ifaddr n_mac n_prev].
  eexists. split; [reflexivity|]. exists (node :: ps). split_and!.
  - cbn. by rewrite Hl.
  - rewrite cells_cons. cbn [seg first fst snd]. split; [by rewrite lookup_store|].
    split; [rewrite lookup_store_ne by done; apply lookup_store|].
    apply seg_insert; [by rewrite Hkeys|]. apply seg_insert; [by rewrite Hkeys|]. exact S3.
  - rewrite !NoDup_cons, !not_elem_of_cons. unfold HEAD, NULL in *. split_and!; try done; lia.
  - cbn [c_fresh store_node c4]. rewrite F3. cbn [c_fresh store_node c2 c1].
    rewrite !Forall_cons. split_and!; [lia|lia|]. eapply Forall_impl; [exact Hfr|]. cbn. lia.
  - cbn [c_nodes store_node c4]. rewrite !dom_insert_L, D3, N2.
    rewrite !dom_insert_L, Hdom. set_solver.
Qed.

Lemma cells_first c ps1 ps2 es1 es2 :
  list_is c (ps1 ++ ps2) (es1 ++ es2) -> length ps1 = length es1 ->
  match ps2, es2 with
  | [], [] => True
  | q :: ps, e :: es =>
    exists n, load_node c q = Ok n /\ n_ifaddr n = Some e.1 /\ n_mac n = e.2 /\
      n_next n = first NULL (cells ps es) /\ q <> NULL
  | _, _ => False
  end.
Proof.
  intros (Hl & Hs & Hnd & _ & _) Hl1. rewrite !length_app in Hl.
  destruct ps2 as [|q ps], es2 as [|e es]; cbn in Hl; try (exfalso; lia); [done|].
  rewrite cells_app, cells_cons in Hs by done. rewrite app_comm_cons in Hs.
  apply seg_app in Hs as [_ [Hq _]]. cbn [fst] in Hq. eexists. unfold load_node. rewrite Hq.
  split_and!; [done|done|done|done|]. intros ->.
  rewrite !NoDup_cons, not_elem_of_cons, not_elem_of_app, not_elem_of_cons in Hnd. naive_solver.
Qed.

(** Taking out the node of the entry after [es1]. *)
Lemma unlink_list c ps1 q ps2 es1 e es2 :
  list_is c (ps1 ++ q :: ps2) (es1 ++ e :: es2) -> length ps1 = length es1 ->
  exists n c', load_node c q = Ok n /\ unlink q n c = Ok c' /\ list_is c' (ps1 ++ ps2) (es1 ++ es2).
Proof.
  intros (Hl2 & Hs & Hnd & Hfr & Hdom) Hl.
  rewrite cells_app, cells_cons in Hs by done. rewrite app_comm_cons in Hs.
  destruct (exists_last (l := head_cell :: cells ps1 es1) ltac:(done)) as (ys & l & Ey).
  unfold head_cell in Ey. rewrite Ey, <- app_assoc in Hs. cbn [app] in Hs.
  assert (length ps2 = length es2) as Hl3 by (rewrite !length_app in Hl2; cbn in Hl2; lia).
  assert ((ys ++ l :: (q, (Some e.1, e.2)) :: cells ps2 es2).*1 = HEAD :: ps1 ++ q :: ps2) as Ek.
  { change (ys ++ l :: ?r) with (ys ++ [l] ++ r). rewrite app_assoc, <- Ey. cbn [app fmap list_fmap fst].
    rewrite fmap_app, keys_cells by done. cbn [fmap list_fmap fst]. by rewrite keys_cells. }
  assert (NoDup (HEAD :: ps1 ++ q :: ps2) /\ (NULL ∉ ps2)) as [Hnd1 Hnull].
  { rewrite NoDup_cons, not_elem_of_cons, not_elem_of_app, not_elem_of_cons in Hnd. tauto. }
  assert (NULL :: HEAD :: ps1 ++ q :: ps2 ≡ₚ q :: NULL :: HEAD :: ps1 ++ ps2) as Ep by solve_Permutation.
  rewrite Ep, NoDup_cons, not_elem_of_cons in Hnd. destruct Hnd as [[_ Hq2] Hnd2].
  destruct (unlink_ok c ys l (q, (Some e.1, e.2)) (cells ps2 es2) Hs) as
    (n & c' & Hn & _ & _ & _ & Eu & Fu & Su & Du); [by rewrite Ek|by rewrite keys_cells|].
  exists n, c'. unfold load_node. cbn [fst] in Hn. rewrite Hn. split; [done|]. split; [exact Eu|].
  split_and!.
  - rewrite !length_app. lia.
  - rewrite cells_app by done. rewrite app_comm_cons, Ey, <- app_assoc. exact Su.
  - exact Hnd2.
  - rewrite Fu. rewrite !Forall_cons, !Forall_app, Forall_cons in *. tauto.
  - rewrite Du, Hdom. cbn [fst]. clear - Hq2. set_solver.
Qed.

Lemma cache_search_ok fuel c ps1 ps2 es1 es2 name :
  list_is c (ps1 ++ ps2) (es1 ++ es2) -> length ps1 = length es1 -> length ps2 < fuel ->
  exists c', cache_search fuel (first NULL (cells ps2 es2)) name c = Ok ((take_name name es2).1, c') /\
    cache_is c' (es1 ++ (take_name name es2).2).
Proof.
  revert ps1 ps2 es1 es2. induction fuel as [|fuel IH]; intros ps1 ps2 es1 es2 Hc Hl Hf; [lia|].
  pose proof (cells_first c ps1 ps2 es1 es2 Hc Hl) as Hq.
  destruct ps2 as [|q ps], es2 as [|e es]; try done.
  { exists c. split; [done|by exists (ps1 ++ [])]. }
  destruct Hq as (n & Hn & Hi & Hm & Hx & Hq0). rewrite cells_cons. cbn [cache_search first fst].
  rewrite (proj2 (Nat.eqb_neq _ _)) by done. rewrite (outcome_step _ _ _ Hn), Hi. cbn [take_name].
  destruct (Z.eqb (strcmp (ifa_name e.1) name) 0).
  - destruct (unlink_list c ps1 q ps es1 e es Hc Hl) as (n' & c' & Hn' & Eu & Hc').
    rewrite Hn in Hn'. injection Hn' as <-. rewrite (outcome_step _ _ _ Eu), Hm.
    exists c'. split; [done|]. by exists (ps1 ++ ps).
  - assert ((ps1 ++ q :: ps) = (ps1 ++ [q]) ++ ps) as Ep by by rewrite <- app_assoc.
    assert ((es1 ++ e :: es) = (es1 ++ [e]) ++ es) as Ee by by rewrite <- app_assoc.
    rewrite Ep, Ee in Hc. rewrite Hx.
    destruct (IH (ps1 ++ [q]) ps (es1 ++ [e]) es Hc) as (c' & E & Hc');
      [rewrite !length_app; cbn; lia|cbn in Hf; lia|].
    exists c'. destruct (take_name name es) as [m rest]. cbn [fst snd] in *. split; [exact E|].
    by rewrite <- app_assoc in Hc'.
Qed.

(** What is left of the list from a node on, when the nodes before it have been
    freed. *)
Definition rest_is (c : cache) (ps : list nat) (es : list entry_of) : Prop :=
  length ps = length es /\ (exists prv, seg (c_nodes c) prv (cells ps es) NULL) /\
  NoDup (NULL :: HEAD :: ps) /\ dom (c_nodes c) = list_to_set (HEAD :: ps).

Lemma rest_size c ps es : rest_is c ps es -> cache_size c = S (length ps).
Proof.
  unfold cache_size.
  intros (_ & _ & Hnd & Hdom). rewrite <- size_dom, Hdom. rewrite NoDup_cons in Hnd.
  rewrite size_list_to_set by tauto. reflexivity.
Qed.

Lemma list_rest c ps es : list_is c ps es -> rest_is c ps es.
Proof. intros (Hl & [_ Hs] & Hnd & _ & Hdom). split_and!; [done|by eexists|done|done]. Qed.

(** The first node left is there, holds its entry and can be freed. *)
Lemma rest_step c p ps e es :
  rest_is c (p :: ps) (e :: es) ->
  exists n c', load_node c p = Ok n /\ n_ifaddr n = Some e.1 /\ n_mac n = e.2 /\
    n_next n = first NULL (cells ps es) /\ p <> NULL /\
    free_cache_node p c = Ok c' /\ rest_is c' ps es.
Proof.
  intros (Hl & (prv & Hs) & Hnd & Hdom). rewrite cells_cons in Hs. destruct Hs as [Hp Hs].
  cbn [fst snd] in Hp, Hs. injection Hl as Hl.
  rewrite !NoDup_cons, !not_elem_of_cons in Hnd.
  destruct Hnd as ((HN0 & HN1 & HN2) & (HH1 & HH2) & Hp1 & Hps).
  unfold free_cache_node, load_node. rewrite Hp. eexists _, _. split_and!; try done.
  split_and!; cbn [c_nodes]; [done| | |].
  - exists p. apply seg_delete; [by rewrite keys_cells|done].
  - rewrite !NoDup_cons, !not_elem_of_cons. done.
  - rewrite dom_delete_L, Hdom. set_solver.
Qed.

Lemma cache_take_ok c es name :
  cache_is c es -> exists c', cache_take name c = Ok ((take_name name es).1, c') /\
    cache_is c' (take_name name es).2.
Proof.
  intros (ps & Hc). destruct (list_head c ps es Hc) as (n & Hn & Hx).
  unfold cache_take. rewrite (outcome_step _ _ _ Hn), Hx.
  apply (cache_search_ok _ c [] ps [] es name Hc); [done|]. rewrite (rest_size c ps es (list_rest _ _ _ Hc)). lia.
Qed.
