(* ===== verification/Network.v ===== *)
(** Network: the display of the network interfaces (src/src/procenv.c):
    get_network_address, decode_if_flags, get_ipv6_scope_name,
    get_mac_address, get_net_family_name, show_network_if, show_network.

    [network_view] is the specification of what is shown: each interface with
    an address in the order of the system, with the MAC address of its
    link-level entry, and then the link-level entries that are left.  The
    loops on the linked list of [NetCache] are shown to refine it. *)
From S2P Require Import Prelude Memory PrList PrListSpec Locale PString StringUtil Encode Output OutputSpec Document Prints Util Format Platform Report NetCache.

Definition AF_INET : Z := 2.
Definition AF_INET6 : Z := 10.
Definition AF_PACKET : Z := 17.
Definition IFF_BROADCAST : Z := 2.
Definition IFF_POINTOPOINT : Z := 16.
Definition EAI_NONAME : Z := -2.
Definition EAI_FAMILY : Z := -6.
Definition NI_MAXHOST : nat := 1025.
Definition IFNAMSIZ : nat := 16.
Definition sizeof_sockaddr_in : Z := 16.
Definition sizeof_sockaddr_in6 : Z := 28.

(** The kernel and the C library: [getnameinfo] gives an error or a text,
    [hwaddr] the bytes of [ifr_hwaddr.sa_data], when the socket and the query
    succeed. *)
Class Network : Type := {
  getnameinfo : sockaddr -> Z -> Z + bytes;
  hwaddr : bytes -> option bytes;
  getifaddrs : option (list ifaddrs)
}.

Definition get_net_family_name (family : Z) : bytes :=
  if Z.eqb family AF_PACKET then lit "AF_PACKET"
  else if Z.eqb family AF_INET then lit "AF_INET"
  else if Z.eqb family AF_INET6 then lit "AF_INET6"
  else UNKNOWN_STR.

Definition get_ipv6_scope_name (scope : Z) : bytes :=
  match scope with
  | 0%Z | 15%Z => lit "reserved"
  | 1%Z => lit "interface-local"
  | 2%Z => lit "link-local"
  | 4%Z => lit "admin-local"
  | 5%Z => lit "site-local"
  | 8%Z => lit "organization-local"
  | 14%Z => lit "global"
  | _ => UNKNOWN_STR
  end.

Section Show.
Context `{Allocator} `{Locale} `{Driver} `{Network}.

(** What [get_network_address] leaves in [name]. *)
Definition address_name (a : sockaddr) (family : Z) : bytes :=
  if Z.eqb family AF_INET || Z.eqb family AF_INET6 then
    match getnameinfo a (if Z.eqb family AF_INET then sizeof_sockaddr_in else sizeof_sockaddr_in6) with
    | inr text => text
    | inl ret => if Z.eqb ret EAI_NONAME || Z.eqb ret EAI_FAMILY then NA_STR else UNKNOWN_STR
    end
  else NA_STR.

Definition get_network_address (address : option sockaddr) (family : Z) : outcome bytes :=
  match address with
  | None => Abort "address"
  | Some a =>
    let name := address_name a family in
    if length name <? NI_MAXHOST then Ok name else Abort "name[NI_MAXHOST-1] == '\0'"
  end.

(** A row of the table shows its flag, when it is set. *)
Fixpoint decode_flags (cells : list (option bytes * Z)) (flags : Z) : prog ostate unit :=
  match cells with
  | [] => ub "read past the end of the table"
  | (None, _) :: _ => mret tt
  | (Some name, num) :: cells' =>
    (if Z.eqb (Z.land flags num) 0 then mret tt
     else object_open false;; entry name (lit "0x%x") [ANum num];; object_close false);;
    decode_flags cells' flags
  end.

Definition decode_if_flags (flags : Z) : prog ostate unit := decode_flags if_flag_map flags.

(** [data[i]]: the request was filled with zeros before the query. *)
Definition mac_byte (data : bytes) (i : nat) : Z := default 0%Z (data !! i).

Definition MAC_SIZE : nat := 6 * 2 + 5 + 1.

Definition get_mac_address (ifa : ifaddrs) : prog mem (option bytes) :=
  match hwaddr (take (IFNAMSIZ - 1) (ifa_name ifa)) with
  | None => mret None
  | Some data =>
    let valid := existsb (fun i => negb (Z.eqb (mac_byte data i) 0)) (seq 0 6) in
    if negb valid then mret None
    else
      b ← calloc_buf MAC_SIZE;
      match b with
      | None => mret None
      | Some b =>
        text ← pure (format_mbs (lit "%.2x:%.2x:%.2x:%.2x:%.2x:%.2x")
                       (map (fun i => ANum (mac_byte data i mod 256)) (seq 0 6)));
        match text with
        | None => ub "error of sprintf"
        | Some text =>
          b ← pure (store_all b 0 (text ++ [0%Z]));
          s ← pure (string_at b 0);
          mret (Some s)
        end
      end
  end.

Definition show_network_if (ifa : ifaddrs) (mac_address : option bytes) : prog ostate unit :=
  common_assert;;
  match ifa_addr ifa with
  | None => ub "null address of an interface"
  | Some a =>
    let family := sa_family a in
    section_open (ifa_name ifa);;
    (entry (lit "family") (lit "%s (0x%x)") [AStr (get_net_family_name family); ANum family];;
     section_open (lit "flags");;
     (entry (lit "value") (lit "0x%x") [ANum (ifa_flags ifa)];;
      container_open (lit "fields");;
      decode_if_flags (ifa_flags ifa);;
      container_close);;
     section_close;;
     section_open (lit "extended flags");;
     (entry (lit "value") (lit "0x%x") [ANum 0];;
      container_open (lit "fields");;
      run_op ((fun f => f (ifa_name ifa)) <$> op_show_extended_if_flags);;
      container_close);;
     section_close;;
     let mtu := match op_get_mtu with Some f => f (ifa_name ifa) | None => 0%Z end in
     entry (lit "mac") (lit "%s") [AStr (default NA_STR mac_address)];;
     (if Z.ltb 0 mtu then entry (lit "mtu") (lit "%d") [ANum mtu]
      else entry (lit "mtu") (lit "%s") [AStr UNKNOWN_STR]);;
     address ← pure (get_network_address (Some a) family);
     entry (lit "address") (lit "%s") [AStr address];;
     netmask ← pure (match ifa_netmask ifa with
                     | Some m => get_network_address (Some m) family
                     | None => Ok NA_STR
                     end);
     entry (lit "netmask") (lit "%s") [AStr netmask];;
     (if negb (Z.eqb family AF_PACKET) then
        match ifa_broadaddr ifa with
        | Some b =>
          if negb (Z.eqb (Z.land (ifa_flags ifa) IFF_BROADCAST) 0) then
            address ← pure (get_network_address (Some b) family);
            entry (lit "broadcast") (lit "%s") [AStr address]
          else mret tt
        | None => mret tt
        end
      else entry (lit "broadcast") (lit "%s") [AStr NA_STR]);;
     match ifa_dstaddr ifa with
     | Some d =>
       if negb (Z.eqb (Z.land (ifa_flags ifa) IFF_POINTOPOINT) 0) then
         address ← pure (get_network_address (Some d) family);
         entry (lit "point-to-point") (lit "%s") [AStr address]
       else mret tt
     | None => mret tt
     end);;
    section_close
  end.

(** The second loop of [show_network]: the entries left in the cache are shown
    and freed. *)
Fixpoint show_cached (fuel : nat) (node : nat) (c : cache) : prog ostate unit :=
  match fuel with
  | 0 => diverge
  | S fuel' =>
    if Nat.eqb node NULL then mret tt
    else
      n ← pure (load_node c node);
      match n_ifaddr n with
      | None => mret tt
      | Some ifa =>
        show_network_if ifa (n_mac n);;
        c' ← pure (free_cache_node node c);
        show_cached fuel' (n_next n) c'
      end
  end.

Definition show_rest (c : cache) : prog ostate unit :=
  h ← pure (load_node c HEAD);
  show_cached (S (cache_size c)) (n_next h) c.

(** The first loop; the second one follows it. *)
Fixpoint network_loop (if_addrs : list ifaddrs) (c : cache) : prog ostate unit :=
  match if_addrs with
  | [] => show_rest c
  | ifa :: if_addrs' =>
    match ifa_addr ifa with
    | None => network_loop if_addrs' c
    | Some a =>
      if Z.eqb (sa_family a) AF_PACKET then
        mac_address ← in_mem (get_mac_address ifa);
        node ← in_mem alloc;
        match node with
        | None => abort "node"
        | Some _ => c ← pure (cache_add ifa mac_address c); network_loop if_addrs' c
        end
      else
        '(cached, c) ← pure (cache_take (ifa_name ifa) c);
        mac_address ← in_mem (match cached with Some m => strdup_mem m | None => mret None end);
        show_network_if ifa mac_address;;
        network_loop if_addrs' c
    end
  end.

(** When the query fails, the section stays open. *)
Definition show_network : prog ostate unit :=
  common_assert;;
  header (lit "network");;
  match getifaddrs with
  | None => mret tt
  | Some if_addrs =>
    (head ← in_mem alloc;
     match head with
     | None => abort "head"
     | Some _ => network_loop if_addrs new_cache
     end);;
    footer
  end.

(** ** What is shown *)

(** Six bytes in hexadecimal, separated by colons. *)
Definition mac_hex (data : bytes) (i : nat) : bytes := zeros 2 (digits 16 (mac_byte data i mod 256)).

Definition mac_text (data : bytes) : bytes :=
  mac_hex data 0 ++ lit ":" ++ mac_hex data 1 ++ lit ":" ++ mac_hex data 2 ++ lit ":" ++
  mac_hex data 3 ++ lit ":" ++ mac_hex data 4 ++ lit ":" ++ mac_hex data 5.

(** The MAC address of an interface, unless it is zero. *)
Definition mac_of (ifa : ifaddrs) : option bytes :=
  data ← hwaddr (take (IFNAMSIZ - 1) (ifa_name ifa));
  if existsb (fun i => negb (Z.eqb (mac_byte data i) 0)) (seq 0 6) then Some (mac_text data) else None.

(** The interfaces shown, each with a MAC address: those with an address in
    the order of the list; the first one of a name takes the last link-level
    entry of that name from the cache [es].  Then the entries left, the last
    one of the list first. *)
Fixpoint network_view (if_addrs : list ifaddrs) (es : list entry_of) : list entry_of :=
  match if_addrs with
  | [] => es
  | ifa :: if_addrs' =>
    match ifa_addr ifa with
    | None => network_view if_addrs' es
    | Some a =>
      if Z.eqb (sa_family a) AF_PACKET then network_view if_addrs' ((ifa, mac_of ifa) :: es)
      else (ifa, (take_name (ifa_name ifa) es).1) :: network_view if_addrs' (take_name (ifa_name ifa) es).2
    end
  end.
End Show.

(** ** The MAC address *)
Lemma mac_hex_length data i : length (mac_hex data i) = 2.
Proof.
  unfold mac_hex, zeros. pose proof (Z.mod_pos_bound (mac_byte data i) 256 ltac:(lia)) as Hb.
  pose proof (digits_length 16 ltac:(lia) (mac_byte data i mod 256) 1 ltac:(lia)).
  rewrite length_app, length_replicate. lia.
Qed.

Lemma mac_text_length data : length (mac_text data) = 17.
Proof. unfold mac_text. rewrite !length_app, !mac_hex_length. reflexivity. Qed.

Lemma printable_mac data : printable (mac_text data) = true.
Proof.
  assert (forall i, printable (mac_hex data i) = true) as Hh.
  { intros i. apply printable_zeros, printable_digits; [lia|]. apply Z.mod_pos_bound. lia. }
  unfold mac_text. rewrite !printable_app, !Hh. reflexivity.
Qed.

Lemma number_hex2 sp n :
  sp_left sp = false -> sp_width sp = 0 -> sp_prec sp = Some 2 -> sp_long sp = 0 ->
  number_text sp 120 (n mod 256) = zeros 2 (digits 16 (n mod 256)).
Proof.
  intros Hl Hw Hp Hlong. unfold number_text, width_of. rewrite Hlong. cbn [Nat.eqb].
  pose proof (Z.mod_pos_bound n 256 ltac:(lia)). unfold to_unsigned. rewrite Z.mod_small by lia.
  unfold format_number. by rewrite Hl, Hw, Hp.
Qed.

Lemma mac_renders data :
  renders plain (lit "%.2x:%.2x:%.2x:%.2x:%.2x:%.2x")
    (map (fun i => ANum (mac_byte data i mod 256)) (seq 0 6)) (mac_text data).
Proof.
  cbn [map seq]. render. rewrite !number_hex2 by done. unfold mac_text, mac_hex. same_trees.
Qed.

(** The text and its terminator fill the buffer, whatever the address. *)
Lemma get_mac_address_ok `{AllocTotal} `{!Locale} `{!Network} ifa m :
  exists m', get_mac_address ifa m = Ok (mac_of ifa, m') /\ ticked m m'.
Proof.
  unfold get_mac_address, mac_of. destruct (hwaddr _) as [data|]; cbn [mbind option_bind];
    [|exists m; split; [done|apply ticked_refl]].
  destruct (existsb _ _); cbn [negb]; [|exists m; split; [done|apply ticked_refl]].
  exists (tick m). split; [|apply ticked_tick]. step_with (calloc_buf_run MAC_SIZE m).
  destruct (plain_renders _ _ _ (mac_renders data)) as [E Hnz].
  step_with (pure_ok (S := mem) _ _ (tick m) E).
  assert (store_all (replicate MAC_SIZE (Some 0%Z)) 0 (mac_text data ++ [0%Z]) = Ok (holding (mac_text data) []))
    as Es.
  { pose proof (store_all_middle [] (replicate MAC_SIZE (Some 0%Z)) [] (mac_text data ++ [0%Z]) 0 eq_refl) as Em.
    rewrite length_app, mac_text_length, length_replicate in Em. specialize (Em eq_refl).
    cbn [app] in Em. rewrite app_nil_r in Em. rewrite Em. unfold holding. by rewrite map_app, app_nil_r. }
  step_with (pure_ok (S := mem) _ _ (tick m) Es).
  step_with (pure_ok (S := mem) _ _ (tick m) (string_at_start (mac_text data) [] Hnz)). done.
Qed.

(** ** What is printed *)
Section Spec.
Context `{AllocTotal} `{LocaleLaws} (cfg : settings).
Context `{!Driver} `{!Network}.

(** The loops on the cache show the entries of [network_view], in order. *)
Lemma prints_cached fuel c ps es tss :
  rest_is c ps es -> length ps < fuel ->
  Forall2 (fun e ts => prints cfg (show_network_if e.1 e.2) ts) es tss ->
  prints cfg (show_cached fuel (first NULL (cells ps es)) c) (concat tss).
Proof.
  revert c ps es tss. induction fuel as [|fuel IH]; intros c ps es tss Hc Hf Ht; [lia|].
  destruct Ht as [|[ifa mac] ts es tss Hts Ht].
  { destruct Hc as (Hl & _). destruct ps; [apply prints_ret|done]. }
  destruct ps as [|p ps]; [by destruct Hc as (Hl & _)|].
  destruct (rest_step c p ps _ es Hc) as (n & c' & Hn & Hi & Hm & Hx & Hp & Hfr & Hc').
  rewrite cells_cons. cbn [show_cached first fst snd concat]. rewrite (proj2 (Nat.eqb_neq _ _)) by done.
  reading (by apply reads_pure). rewrite Hi, Hm. cbn [fst snd].
  apply prints_seq; [done|]. reading (by apply reads_pure). rewrite Hx.
  apply IH; [done|cbn in Hf; lia|done].
Qed.

Lemma prints_rest c es tss :
  cache_is c es -> Forall2 (fun e ts => prints cfg (show_network_if e.1 e.2) ts) es tss ->
  prints cfg (show_rest c) (concat tss).
Proof.
  intros (ps & Hc) Ht. destruct (list_head c ps es Hc) as (n & Hn & Hx).
  unfold show_rest. reading (by apply reads_pure). rewrite Hx. pose proof (list_rest c ps es Hc) as Hr.
  eapply prints_cached; [exact Hr| |done]. rewrite (rest_size c ps es Hr). lia.
Qed.

Lemma prints_network_loop ifs c es tss :
  cache_is c es ->
  Forall2 (fun e ts => prints cfg (show_network_if e.1 e.2) ts) (network_view ifs es) tss ->
  prints cfg (network_loop ifs c) (concat tss).
Proof.
  revert c es tss. induction ifs as [|ifa ifs IH]; intros c es tss Hc Ht; [by eapply prints_rest|].
  cbn [network_loop network_view] in *. destruct (ifa_addr ifa) as [a|]; [|by eapply IH].
  destruct (Z.eqb (sa_family a) AF_PACKET).
  - reading (apply reads_mem; intros m0; apply get_mac_address_ok). apply prints_alloc.
    destruct (cache_add_ok c es ifa (mac_of ifa) Hc) as (c' & E & Hc').
    reading (by apply reads_pure). by eapply IH.
  - destruct (cache_take_ok c es (ifa_name ifa) Hc) as (c' & E & Hc').
    reading (apply reads_pure, E). apply Forall2_cons_inv_l in Ht as (ts & tss' & Hts & Ht & ->).
    reading (apply (reads_mem cfg _ (take_name (ifa_name ifa) es).1); intros m0;
             destruct (take_name (ifa_name ifa) es).1; [eexists; split; [apply strdup_run|apply ticked_tick]
                                                       |exists m0; split; [done|apply ticked_refl]]).
    apply prints_seq; [done|]. by eapply IH.
Qed.

(** *** The section of an interface *)
Section Tree.
Context (T : bytes -> wstr) (ext : bytes -> list tree) (tbl : list (bytes * Z)).

Definition flag_tree (e : bytes * Z) : tree := TObject [TEntry (T e.1) (lit "0x" ++ hex_text e.2)].

Definition flag_trees (flags : Z) : list tree :=
  map flag_tree (filter (fun e : bytes * Z => Z.land flags e.2 <> 0%Z) tbl).

Definition interface_tree (e : entry_of) : list tree :=
  match ifa_addr e.1 with
  | None => []
  | Some a =>
    let family := sa_family a in
    let flags := ifa_flags e.1 in
    let mtu := match op_get_mtu with Some f => f (ifa_name e.1) | None => 0%Z end in
    [TBlock KSection (T (ifa_name e.1))
      ([ TEntry (lit "family") (get_net_family_name family ++ lit " (0x" ++ hex_text family ++ lit ")");
         TBlock KSection (lit "flags")
           [ TEntry (lit "value") (lit "0x" ++ hex_text flags);
             TBlock KContainer (lit "fields") (flag_trees flags) ];
         TBlock KSection (lit "extended flags")
           [ TEntry (lit "value") (lit "0x0"); TBlock KContainer (lit "fields") (ext (ifa_name e.1)) ];
         TEntry (lit "mac") (default NA_STR e.2);
         TEntry (lit "mtu") (if Z.ltb 0 mtu then int_text mtu else UNKNOWN_STR);
         TEntry (lit "address") (T (address_name a family));
         TEntry (lit "netmask")
           (match ifa_netmask e.1 with Some m => T (address_name m family) | None => NA_STR end) ] ++
       (if Z.eqb family AF_PACKET then [TEntry (lit "broadcast") NA_STR]
        else match ifa_broadaddr e.1 with
             | Some b => if Z.eqb (Z.land flags IFF_BROADCAST) 0 then []
                         else [TEntry (lit "broadcast") (T (address_name b family))]
             | None => []
             end) ++
       match ifa_dstaddr e.1 with
       | Some d => if Z.eqb (Z.land flags IFF_POINTOPOINT) 0 then []
                   else [TEntry (lit "point-to-point") (T (address_name d family))]
       | None => []
       end)]
  end.
End Tree.

Lemma text_family family : text_is cfg (get_net_family_name family) (get_net_family_name family).
Proof. apply printable_text. unfold get_net_family_name. by repeat case_match. Qed.

Lemma prints_flags T tbl flags :
  Forall (fun e : bytes * Z => text_is cfg e.1 (T e.1) /\ e.1 <> []) tbl ->
  prints cfg (decode_flags (terminated tbl) flags) (flag_trees T tbl flags).
Proof.
  unfold terminated, flag_trees. induction 1 as [|[n z] tbl [Hn Hne] _ IH]; [apply prints_ret|].
  cbn [map app decode_flags fst snd] in *. destruct (Z.eqb_spec (Z.land flags z) 0) as [E|E].
  - rewrite filter_cons_False by (cbn; lia). by apply (prints_seq cfg _ _ []); [apply prints_ret|].
  - rewrite filter_cons_True by done. cbn [map]. apply (prints_seq cfg _ _ [_]); [|done].
    eapply prints_eq; [prints_steps; by apply name_text|]. unfold flag_tree. cbn [fst snd]. same_trees.
Qed.

(** What the system says of an interface: its addresses fit the buffer, and
    its strings can be shown. *)
Definition interface_ok (T : bytes -> wstr) (ext : bytes -> list tree) (ifa : ifaddrs) : Prop :=
  text_is cfg (ifa_name ifa) (T (ifa_name ifa)) /\ ifa_name ifa <> [] /\
  (forall a family, length (address_name a family) < NI_MAXHOST /\
     text_is cfg (address_name a family) (T (address_name a family))) /\
  prints cfg (run_op ((fun f => f (ifa_name ifa)) <$> op_show_extended_if_flags)) (ext (ifa_name ifa)).

Lemma reads_address b family :
  length (address_name b family) < NI_MAXHOST ->
  reads cfg (pure (get_network_address (Some b) family)) (address_name b family).
Proof. intros Hl. apply reads_pure. unfold get_network_address. by rewrite (proj2 (Nat.ltb_lt _ _)). Qed.

(** An address shown when a flag says that it is one. *)
Lemma prints_address T (name : wstr) (address : option sockaddr) (test : bool) family :
  name_is cfg name name ->
  (forall a family, length (address_name a family) < NI_MAXHOST /\
     text_is cfg (address_name a family) (T (address_name a family))) ->
  prints cfg
    (match address with
     | Some b => if negb test then
                   address ← pure (get_network_address (Some b) family);
                   entry name (lit "%s") [AStr address]
                 else mret tt
     | None => mret tt
     end)
    (match address with
     | Some b => if test then [] else [TEntry name (T (address_name b family))]
     | None => []
     end).
Proof.
  intros Hn Ha. destruct address as [b|]; [|apply prints_ret]. destruct test; [apply prints_ret|].
  cbn [negb]. reading (apply reads_address, Ha). destruct (Ha b family) as [_ Ht].
  eapply prints_eq; [prints_steps|same_trees].
Qed.

Lemma prints_interface T ext tbl ifa mac :
  interface_ok T ext ifa -> if_flag_map = terminated tbl ->
  Forall (fun e : bytes * Z => text_is cfg e.1 (T e.1) /\ e.1 <> []) tbl ->
  is_Some (ifa_addr ifa) -> text_is cfg (default NA_STR mac) (default NA_STR mac) ->
  prints cfg (show_network_if ifa mac) (interface_tree T ext tbl (ifa, mac)).
Proof.
  intros (Hn & Hne & Ha & He) Htbl Hnames [a Ea] Hmac. unfold show_network_if, interface_tree.
  cbn [fst snd]. rewrite Ea.
  pose proof (text_family (sa_family a)) as Hf. destruct (Ha a (sa_family a)) as [_ Hta].
  set (family := sa_family a) in *. clearbody family.
  set (mtu := match op_get_mtu with Some f => _ | None => _ end). clearbody mtu.
  assert (prints cfg (if Z.ltb 0 mtu then entry (lit "mtu") (lit "%d") [ANum mtu]
                      else entry (lit "mtu") (lit "%s") [AStr UNKNOWN_STR])
            [TEntry (lit "mtu") (if Z.ltb 0 mtu then int_text mtu else UNKNOWN_STR)]) as Hmtu.
  { destruct (Z.ltb 0 mtu); (eapply prints_eq; [prints_steps|same_trees]). }
  assert (exists s, reads cfg (pure (match ifa_netmask ifa with
            | Some m => get_network_address (Some m) family | None => Ok NA_STR end)) s /\
            text_is cfg s (match ifa_netmask ifa with Some m => T (address_name m family) | None => NA_STR end))
    as (s & Hrs & Hts).
  { destruct (ifa_netmask ifa) as [m|].
    - exists (address_name m family). split; [apply reads_address|]; apply Ha.
    - exists NA_STR. split; [by apply reads_pure|by apply printable_text]. }
  pose proof (prints_address T (lit "broadcast") (ifa_broadaddr ifa)
    (Z.eqb (Z.land (ifa_flags ifa) IFF_BROADCAST) 0) family ltac:(solve_name) Ha) as Hb.
  pose proof (prints_address T (lit "point-to-point") (ifa_dstaddr ifa)
    (Z.eqb (Z.land (ifa_flags ifa) IFF_POINTOPOINT) 0) family ltac:(solve_name) Ha) as Hd.
  pose proof (prints_flags T tbl (ifa_flags ifa) Hnames) as Hfl. rewrite <- Htbl in Hfl.
  assert (prints cfg (entry (lit "broadcast") (lit "%s") [AStr NA_STR])
            [TEntry (lit "broadcast") NA_STR]) as Hna by (eapply prints_eq; [prints_steps|same_trees]).
  eapply prints_eq.
  - prints_steps; try exact Hfl; try exact He; try exact Hmtu; try by apply name_text.
    reading (apply reads_address, Ha). prints_step. reading (exact Hrs). prints_steps; [|exact Hd].
    instantiate (1 := if Z.eqb family AF_PACKET then [TEntry (lit "broadcast") NA_STR] else _).
    destruct (Z.eqb family AF_PACKET); [exact Hna|exact Hb].
  - cbn [app]. rewrite ?app_nil_r. by do 3 f_equal.
Qed.

(** *** All the interfaces *)

(** What is shown is of the list, has an address and a printable MAC
    address. *)
Definition view_entry (ifs : list ifaddrs) (e : entry_of) : Prop :=
  e.1 ∈ ifs /\ is_Some (ifa_addr e.1) /\ text_is cfg (default NA_STR e.2) (default NA_STR e.2).

Lemma text_mac ifa : text_is cfg (default NA_STR (mac_of ifa)) (default NA_STR (mac_of ifa)).
Proof.
  apply printable_text. unfold mac_of. destruct (hwaddr _) as [data|]; [|done]. cbn [mbind option_bind].
  destruct (existsb _ _); [apply printable_mac|done].
Qed.

Lemma take_name_entries (P : entry_of -> Prop) name es :
  Forall P es -> Forall P (take_name name es).2 /\
  forall m, (take_name name es).1 = Some m -> exists e, P e /\ e.2 = Some m.
Proof.
  induction 1 as [|e es He Hes IH]; [done|]. cbn [take_name].
  destruct (Z.eqb (strcmp (ifa_name e.1) name) 0); cbn [fst snd]; [split; [done|by eexists]|].
  destruct (take_name name es) as [m rest]. cbn [fst snd] in *. destruct IH as [IH1 IH2].
  split; [by constructor|done].
Qed.

Lemma network_view_entries all ifs es :
  (forall i, i ∈ ifs -> i ∈ all) -> Forall (view_entry all) es ->
  Forall (view_entry all) (network_view ifs es).
Proof.
  revert es. induction ifs as [|ifa ifs IH]; intros es Hall Hes; [done|]. cbn [network_view].
  assert (ifa ∈ all) as Hin by (apply Hall; set_solver).
  assert (forall i, i ∈ ifs -> i ∈ all) as Hall' by (intros i Hi; apply Hall; set_solver).
  destruct (ifa_addr ifa) as [a|] eqn:Ea; [|by apply IH].
  destruct (Z.eqb (sa_family a) AF_PACKET).
  - apply IH; [done|]. constructor; [|done]. split_and!; [done|by eexists|apply text_mac].
  - destruct (take_name_entries (view_entry all) (ifa_name ifa) es Hes) as [Hrest Hm].
    constructor; [|by apply IH]. split_and!; [done|by eexists|]. cbn [snd].
    destruct (take_name (ifa_name ifa) es).1 as [m|]; [|by apply printable_text].
    destruct (Hm m eq_refl) as ([i o] & (_ & _ & Ht) & Eo). cbn in Eo, Ht. by rewrite Eo in Ht.
Qed.

(** C21: when the interfaces can be queried, [show_network] prints a section of
    one section per entry of [network_view]: the interfaces with an address in
    the order of the system, each with the MAC address that the cache held for
    its name (an interface with several addresses shows it only once), and
    then the link-level entries that no address took.  The cache, a doubly
    linked list in a heap, is never read or written outside its nodes, and the
    walks on it end. *)
Theorem show_network_correct (T : bytes -> wstr) (ext : bytes -> list tree) tbl ifs :
  getifaddrs = Some ifs -> if_flag_map = terminated tbl ->
  Forall (fun e : bytes * Z => text_is cfg e.1 (T e.1) /\ e.1 <> []) tbl ->
  Forall (interface_ok T ext) ifs ->
  prints cfg show_network
    [TBlock KSection (lit "network") (flat_map (interface_tree T ext tbl) (network_view ifs []))].
Proof.
  intros Hifs Htbl Hnames Hok. unfold show_network. rewrite Hifs.
  prints_steps. apply prints_alloc. rewrite flat_map_concat_map.
  apply (prints_network_loop ifs new_cache []); [apply new_cache_is|].
  apply Forall2_fmap_r, Forall_Forall2_diag.
  eapply Forall_impl; [by apply (network_view_entries ifs)|]. intros [ifa mac] (Hin & Ha & Hm).
  rewrite Forall_forall in Hok. by apply prints_interface; [apply Hok|..].
Qed.

(** *** Well placed *)
Class NetworkAnswers : Prop := {
  interfaces : exists ifs, getifaddrs = Some ifs /\
    Forall (fun ifa => showable cfg (ifa_name ifa) /\ ifa_name ifa <> []) ifs;
  address_names : forall a family, length (address_name a family) < NI_MAXHOST /\
    showable cfg (address_name a family)
}.

Lemma typed_address d name (address : option sockaddr) (test : bool) family `{!NetworkAnswers} :
  nameable cfg name ->
  typed cfg CMembers d
    (match address with
     | Some b => if test then
                   address ← pure (get_network_address (Some b) family);
                   entry name (lit "%s") [AStr address]
                 else mret tt
     | None => mret tt
     end).
Proof.
  intros Hn. destruct address as [b|]; [|apply typed_ret]. destruct test; [|apply typed_ret].
  destruct (address_names b family) as [Hl Ht]. reading (by apply reads_address). typed_steps.
Qed.

Lemma typed_flags (tbl : list (bytes * Z)) flags :
  Forall (fun e => match e.1 with Some n => nameable cfg n | None => True end) (terminated tbl) ->
  typed cfg CObjects 1 (decode_flags (terminated tbl) flags).
Proof.
  unfold terminated. induction tbl as [|[n z] tbl IH]; intros Hnames; [apply typed_ret|].
  cbn [map app decode_flags fst snd] in *. apply Forall_cons in Hnames as [Hn Hnames]. cbn in Hn.
  apply typed_seq; [|by apply IH]. typed_steps.
Qed.

Lemma typed_interface `{!DriverTyped cfg} `{!NetworkAnswers} ifa mac :
  showable cfg (ifa_name ifa) -> ifa_name ifa <> [] -> is_Some (ifa_addr ifa) ->
  showable cfg (default NA_STR mac) -> typed cfg CMembers (3 + DRIVER_DEPTH) (show_network_if ifa mac).
Proof.
  intros Hn Hne [a Ea] Hmac. unfold show_network_if. rewrite Ea.
  destruct (address_names a (sa_family a)) as [Hl Hta].
  assert (showable cfg (get_net_family_name (sa_family a))) as Hf by (eexists; apply text_family).
  set (family := sa_family a) in *. clearbody family.
  assert (exists s, reads cfg (pure (match ifa_netmask ifa with
            | Some m => get_network_address (Some m) family | None => Ok NA_STR end)) s /\ showable cfg s)
    as (s & Hrs & Hts).
  { destruct (ifa_netmask ifa) as [m|].
    - destruct (address_names m family). exists (address_name m family). split; [by apply reads_address|done].
    - exists NA_STR. split; [by apply reads_pure|by apply printable_showable]. }
  destruct terminated_if_flag_map as [tbl Htbl].
  pose proof showable_if_flags as Hnames. rewrite Htbl in Hnames.
  pose proof (typed_flags tbl (ifa_flags ifa) Hnames) as Hfl. rewrite <- Htbl in Hfl.
  typed_steps.
  - by apply nameable_showable.
  - eapply typed_le; [exact Hfl|unfold DRIVER_DEPTH; lia].
  - apply typed_run_op; [apply typed_extended_if_flags|done].
  - reading (by apply reads_address). typed_step. reading (exact Hrs). typed_steps;
      apply typed_address; solve_nameable.
Qed.

Lemma typed_choice {A} c d (xs : list A) f :
  Forall (fun x => typed cfg c d (f x)) xs ->
  exists tss, Forall2 (fun x ts => prints cfg (f x) ts) xs tss /\
    forallb (well_placed c) (concat tss) = true /\ Forall (fun t => depth t <= d) (concat tss).
Proof.
  induction 1 as [|x xs (ts & Hp & Hw & Hd) _ (tss & Hps & Hws & Hds)]; [by exists []|].
  exists (ts :: tss). cbn [concat]. split_and!; [by constructor| |by apply Forall_app].
  by rewrite forallb_app, Hw, Hws.
Qed.

Lemma titled_show_network `{!DriverTyped cfg} `{!NetworkAnswers} :
  titled cfg (lit "network") DISPLAY_DEPTH show_network.
Proof.
  destruct interfaces as (ifs & Hifs & Hok). unfold show_network. rewrite Hifs.
  typed_steps. apply typed_alloc.
  destruct (typed_choice CMembers 8 (network_view ifs []) (fun e => show_network_if e.1 e.2))
    as (tss & Hp & Hw & Hd).
  - eapply Forall_impl; [by apply (network_view_entries ifs)|]. intros [ifa mac] (Hin & Ha & Hm).
    rewrite Forall_forall in Hok. destruct (Hok _ Hin). apply (typed_interface ifa mac); try done. by eexists.
  - eapply typed_prints; [|exact Hw|exact Hd]. by apply (prints_network_loop ifs new_cache []); [apply new_cache_is|].
Qed.
End Spec.

(** *** A concrete network *)
Section Sample.
#[local] Existing Instances total_allocator total_allocator_total c_locale c_locale_laws sample_driver.

Definition sample_eth0 : ifaddrs := mk_ifaddrs (lit "eth0") 3 (Some (mk_sockaddr AF_INET [])) None None None.
Definition sample_link : ifaddrs := mk_ifaddrs (lit "eth0") 3 (Some (mk_sockaddr AF_PACKET [])) None None None.
Definition sample_lo : ifaddrs := mk_ifaddrs (lit "lo") 9 (Some (mk_sockaddr AF_PACKET [])) None None None.

Definition sample_network : Network := {|
  getnameinfo := fun _ _ => inr (lit "10.0.0.1");
  hwaddr := fun name => if bool_decide (name = lit "eth0") then Some [0; 16; 171; 205; 239; 1]%Z else None;
  getifaddrs := Some [sample_lo; sample_link; sample_eth0; sample_eth0]
|}.
#[local] Existing Instance sample_network.

(** The second address of an interface is shown without its MAC address. *)
Example sample_view :
  network_view [sample_lo; sample_link; sample_eth0; sample_eth0] []
  = [(sample_eth0, Some (lit "00:10:ab:cd:ef:01")); (sample_eth0, None); (sample_lo, None)].
Proof. vm_compute. reflexivity. Qed.

Lemma show_network_witness :
  prints (start_settings OUTPUT_FORMAT_JSON) show_network
    [TBlock KSection (lit "network")
       (flat_map (interface_tree (fun s => s) (fun _ => [])
                    [(lit "IFF_UP", 1%Z); (lit "IFF_BROADCAST", 2%Z); (lit "IFF_LOOPBACK", 8%Z)])
          (network_view [sample_lo; sample_link; sample_eth0; sample_eth0] []))].
Proof.
  apply (show_network_correct (start_settings OUTPUT_FORMAT_JSON)); [done|done| |].
  - repeat constructor; cbn [fst snd]; (text_lit || discriminate).
  - assert (forall a family, length (address_name a family) < NI_MAXHOST /\
      text_is (start_settings OUTPUT_FORMAT_JSON) (address_name a family) (address_name a family)) as Ha.
    { intros a family. unfold address_name. destruct (Z.eqb _ _ || Z.eqb _ _); cbn [getnameinfo sample_network];
        (split; [vm_compute; lia|by apply printable_text]). }
    repeat (apply Forall_cons_2 || apply Forall_nil_2); (split_and!; [text_lit|discriminate|exact Ha|apply prints_ret]).
Defined.
End Sample.
