(* ===== verification/Generic.v ===== *)
(** Generic: the operations of the drivers that several systems share
    (src/src/platform/platform-generic.c), and get_major_minor of
    src/src/procenv.c.

    [generic_driver] is a driver made of them; it keeps the promises of
    [DriverTyped] (at the end of the file). *)
From S2P Require Import Prelude Memory PrList Locale PString StringUtil Encode Output OutputSpec Document Prints Util Affinity Display Format Tables Platform Process Report Terminal Ranges NetCache Network.

Record sysinfo_data : Type := mk_sysinfo {
  totalram : Z;
  freeram : Z;
  sharedram : Z;
  bufferram : Z;
  totalswap : Z;
  freeswap : Z;
  mem_unit : Z
}.

Record mntent : Type := mk_mntent {
  mnt_fsname : bytes;
  mnt_dir : bytes;
  mnt_type : bytes;
  mnt_opts : bytes;
  mnt_freq : Z;
  mnt_passno : Z
}.

Record statvfs_data : Type := mk_statvfs {
  f_bsize : Z;
  f_total : Z;
  f_bfree : Z;
  f_bavail : Z;
  f_files : Z;
  f_ffree : Z;
  f_fsid : Z
}.

(** What the kernel and the C library answer.  [readlink] gives the whole
    target of a link, [pathconf] the value and [errno], [confstr] the text
    when there is one, [shared_objects] the entries that [dl_iterate_phdr]
    visits, [mount_table] those of /proc/mounts. *)
Class GenericSystem : Type := {
  getrlimit : bytes -> option (Z * Z);
  clock_getres : Z -> option timespec;
  clock_gettime_realtime : option timespec;
  interface_mtu : bytes -> option (option Z);
  ttyname : Z -> option bytes;
  show_fd_capabilities : option (Z -> prog ostate unit);
  confstr : Z -> option bytes;
  sysinfo : option sysinfo_data;
  pathconf : bytes -> Z -> Z * Z;
  mount_table : option (list mntent);
  statvfs : bytes -> option statvfs_data;
  readlink : bytes -> option bytes;
  tzname0 : bytes;
  tzname1 : bytes;
  timezone : Z;
  daylight : Z;
  shared_objects : list (bytes * Z)
}.

Definition DF_BLOCK_SIZE : Z := 1024.
Definition PROCENV_KB : Z := 1024.
Definition PROCENV_MB : Z := 1024 * PROCENV_KB.
Definition PROCENV_GB : Z := 1024 * PROCENV_MB.

(** Unsigned arithmetic at 32 and 64 bits. *)
Definition u32 (z : Z) : Z := to_unsigned 32 z.
Definition u64 (z : Z) : Z := to_unsigned 64 z.

Definition get_major_minor `{Util.System} (path : bytes) : bool * (Z * Z) :=
  match stat path with
  | None => (false, (0, 0)%Z)
  | Some st => (true, (major (st_dev st), minor (st_dev st)))
  end.

Section Generic.
Context `{Allocator} `{Locale} `{Headers} `{Machine} `{Util.System} `{Terminal} `{GenericSystem}.

(** ** Limits and clocks *)
Definition limit_max : Z := ULONG_MAX.

Definition show_limit (limit : bytes) : prog ostate unit :=
  match getrlimit limit with
  | None => die "failed to query rlimit"
  | Some (rlim_cur, rlim_max) =>
    section_open limit;;
    (section_open (lit "soft");;
     (entry (lit "current") (lit "%lu") [ANum rlim_cur];;
      entry (lit "max") (lit "%lu") [ANum limit_max]);;
     section_close;;
     section_open (lit "hard");;
     (entry (lit "current") (lit "%lu") [ANum rlim_max];;
      entry (lit "max") (lit "%lu") [ANum limit_max]);;
     section_close);;
    section_close
  end.

Definition show_rlimits_generic : prog ostate unit :=
  for_each (defined_entries rlimit_names) (fun e => show_limit e.1).

Definition show_clock_res (clock : bytes * Z) : prog ostate unit :=
  section_open clock.1;;
  (match clock_getres clock.2 with
   | None => entry (lit "resolution") (lit "%s") [AStr UNKNOWN_STR]
   | Some res => entry (lit "resolution") (lit "%ld.%09lds") [ANum (tv_sec res); ANum (tv_nsec res)]
   end);;
  section_close.

Definition show_clocks_generic : prog ostate unit :=
  for_each (defined_entries clock_names) show_clock_res.

Definition get_kernel_bits_generic : Z :=
  match macro (lit "_SC_LONG_BIT") with
  | Some name => sysconf name
  | None => u64 (sizeof (lit "long") * CHAR_BIT)
  end.

(** [-1] without a socket, [0] when the query fails. *)
Definition get_mtu_generic (ifa_name : bytes) : Z :=
  match interface_mtu (take (IFNAMSIZ - 1) ifa_name) with
  | None => (-1)%Z
  | Some None => 0%Z
  | Some (Some mtu) => mtu
  end.

Definition get_time_generic : option timespec := clock_gettime_realtime.

(** ** File descriptors *)
Definition show_fd (fd : Z) : prog ostate unit :=
  let is_tty := isatty fd in
  if negb (fd_valid fd) then mret tt
  else
    num ← in_mem (b ← appendf None (lit "%d") [ANum fd]; string_of b);
    object_open false;;
    (section_open num;;
     (entry (lit "terminal") (lit "%s") [AStr (yes_no is_tty)];;
      entry (lit "valid") (lit "%s") [AStr (yes_no (fd_valid fd))];;
      entry (lit "device") (lit "%s") [AStr (default NA_STR (ttyname fd))];;
      section_open (lit "capabilities");;
      run_op ((fun f => f fd) <$> show_fd_capabilities);;
      section_close);;
     section_close);;
    object_close false.

Definition show_fds_generic : prog ostate unit :=
  let max := to_signed 32 (match macro (lit "_SC_OPEN_MAX") with Some n => sysconf n | None => -1 end)%Z in
  for_each (seqZ 0 max) show_fd.

(** ** Strings of the configuration *)
Definition newline_to_space (s : bytes) : bytes := map (fun c => if Z.eqb c NL then SPACE else c) s.

Definition show_confstr (e : bytes * Z) : prog ostate unit :=
  match confstr e.2 with
  | None => mret tt
  | Some text =>
    buffer ← in_mem alloc;
    match buffer with
    | None => die "failed to allocate space for confstr"
    | Some _ =>
      let s := newline_to_space text in
      let quote := if bool_decide (s = []) then [] else lit "'" in
      entry e.1 (lit "%s%s%s") [AStr quote; AStr (if bool_decide (s = []) then NA_STR else s); AStr quote]
    end
  end.

Definition confstr_entries : list (bytes * Z) :=
  omap (fun e => (fun z => (e.2, z)) <$> macro e.1) confstr_names.

Definition show_confstrs_generic : prog ostate unit := for_each confstr_entries show_confstr.

(** ** Memory *)

(** The number as a [double], in the largest unit it exceeds. *)
Definition show_human_size_entry (value : Z) : prog ostate unit :=
  let '(result, units) :=
    if Z.ltb PROCENV_GB value then (ADouble (to_double value) (-30), lit "GB")
    else if Z.ltb PROCENV_MB value then (ADouble (to_double value) (-20), lit "MB")
    else if Z.ltb PROCENV_KB value then (ADouble (to_double value) (-10), lit "KB")
    else (ADouble (to_double value) 0, lit "bytes") in
  entry (lit "human") (lit "%2.2f %s") [result; AStr units].

Definition mk_mem_section (name : bytes) (value : Z) : prog ostate unit :=
  section_open name;;
  (entry (lit "bytes") (lit "%lu") [ANum value];;
   show_human_size_entry value);;
  section_close.

Definition show_memory_generic : prog ostate unit :=
  match sysinfo with
  | None => mret tt
  | Some info =>
    let multiplier := to_signed 32 (mem_unit info) in
    let bytes_of (units : Z) := u64 (units * multiplier) in
    section_open (lit "ram");;
    (mk_mem_section (lit "total") (bytes_of (totalram info));;
     mk_mem_section (lit "free") (bytes_of (freeram info));;
     mk_mem_section (lit "shared") (bytes_of (sharedram info));;
     mk_mem_section (lit "buffer") (bytes_of (bufferram info)));;
    section_close;;
    section_open (lit "swap");;
    (mk_mem_section (lit "total") (bytes_of (totalswap info));;
     mk_mem_section (lit "free") (bytes_of (freeswap info)));;
    section_close
  end.

(** ** Mounts *)
Definition show_pathconf (path : bytes) (e : bytes * Z) : prog ostate unit :=
  let '(conf, errno) := pathconf path e.2 in
  if Z.eqb conf (-1) && Z.eqb errno 0 then entry e.1 (lit "%s") [AStr NA_STR]
  else entry e.1 (lit "%d") [ANum conf].

Definition show_pathconfs (what : ShowMountType) (dir : bytes) : prog ostate unit :=
  header (if bool_decide (what = SHOW_PATHCONF) then dir else lit "pathconf");;
  for_each (defined_entries pathconf_names) (show_pathconf dir);;
  footer.

(** The target of a link of at least [len] bytes fills the buffer, and its
    terminator is written behind it. *)
Definition get_canonical_generic_linux (path : bytes) (canonical : buffer) (len : nat)
  : outcome (bool * buffer) :=
  match readlink path with
  | None => c ← store_all canonical 0 (UNKNOWN_STR ++ [0%Z]); Ok (false, c)
  | Some target =>
    let n := length (take len target) in
    c ← store_all canonical 0 (take len target);
    c ← store c (if n <=? len then n else len) 0%Z;
    Ok (true, c)
  end.

(** The part of a mount that needs its file system. *)
Definition show_mount_stats (fs : statvfs_data) : prog ostate unit :=
  let multiplier := u32 (f_bsize fs / DF_BLOCK_SIZE) in
  let blocks := u64 (f_total fs * multiplier) in
  let bfree := u64 (f_bfree fs * multiplier) in
  let bavail := u64 (f_bavail fs * multiplier) in
  entry (lit "fsid") (lit "%.*x%.*x")
    [ANum 8; ANum (u32 (f_fsid fs)); ANum 8; ANum (u32 (Z.shiftr (f_fsid fs) 32))];;
  entry (lit "optimal block size") (lit "%lu") [ANum (f_bsize fs)];;
  section_open (lit "blocks");;
  (entry (lit "size") (lit "%lu bytes") [ANum DF_BLOCK_SIZE];;
   entry (lit "total") (lit "%lu") [ANum blocks];;
   entry (lit "used") (lit "%lu") [ANum (u64 (blocks - bfree))];;
   entry (lit "free") (lit "%lu") [ANum bfree];;
   entry (lit "available") (lit "%lu") [ANum bavail]);;
  section_close;;
  section_open (lit "files/inodes");;
  (entry (lit "total") (lit "%lu") [ANum (f_files fs)];;
   entry (lit "used") (lit "%lu") [ANum (u64 (f_files fs - f_ffree fs))];;
   entry (lit "free") (lit "%lu") [ANum (f_ffree fs)]);;
  section_close.

Definition show_no_stats : prog ostate unit :=
  entry (lit "fsid") (lit "%s") [AStr UNKNOWN_STR];;
  entry (lit "optimal block size") (lit "%s") [AStr UNKNOWN_STR];;
  section_open (lit "blocks");;
  (entry (lit "size") (lit "%lu bytes") [ANum DF_BLOCK_SIZE];;
   entry (lit "total") (lit "%s") [AStr UNKNOWN_STR];;
   entry (lit "used") (lit "%s") [AStr UNKNOWN_STR];;
   entry (lit "free") (lit "%s") [AStr UNKNOWN_STR];;
   entry (lit "available") (lit "%s") [AStr UNKNOWN_STR]);;
  section_close;;
  section_open (lit "files/inodes");;
  (entry (lit "total") (lit "%s") [AStr UNKNOWN_STR];;
   entry (lit "used") (lit "%s") [AStr UNKNOWN_STR];;
   entry (lit "free") (lit "%s") [AStr UNKNOWN_STR]);;
  section_close.

(** The buffer [canonical] of [show_mounts_generic_linux] and what it holds. *)
Definition canonical_text (path : bytes) : outcome (bool * bytes) :=
  r ← get_canonical_generic_linux path (replicate PATH_MAX None) PATH_MAX;
  s ← string_at r.2 0; Ok (r.1, s).

Definition show_canonical (path : bytes) : prog ostate unit :=
  pure (canonical_text path) ≫= fun r : bool * bytes =>
    let quote := if r.1 then lit "'" else [] in
    entry (lit "canonical") (lit "%s%s%s") [AStr quote; AStr r.2; AStr quote].

(** One entry of the table. *)
Definition show_mount (what : ShowMountType) (mnt : mntent) : prog ostate unit :=
  let '(_, (mj, mi)) := get_major_minor (mnt_dir mnt) in
  section_open (mnt_dir mnt);;
  (entry (lit "filesystem") (lit "'%s'") [AStr (mnt_fsname mnt)];;
   show_canonical (mnt_fsname mnt);;
   entry (lit "type") (lit "'%s'") [AStr (mnt_type mnt)];;
   entry (lit "options") (lit "'%s'") [AStr (mnt_opts mnt)];;
   show_pathconfs what (mnt_dir mnt);;
   section_open (lit "device");;
   (entry (lit "major") (lit "%u") [ANum mj];;
    entry (lit "minor") (lit "%u") [ANum mi]);;
   section_close;;
   entry (lit "dump frequency") (lit "%d") [ANum (mnt_freq mnt)];;
   entry (lit "fsck pass number") (lit "%d") [ANum (mnt_passno mnt)];;
   match statvfs (mnt_dir mnt) with
   | Some fs => show_mount_stats fs
   | None => show_no_stats
   end);;
  section_close.

Definition show_mounts_generic_linux (what : ShowMountType) : prog ostate unit :=
  match mount_table with
  | None => mret tt
  | Some mounts =>
    for_each mounts (fun mnt =>
      if bool_decide (what = SHOW_ALL) || bool_decide (what = SHOW_MOUNTS) then show_mount what mnt
      else show_pathconfs what (mnt_dir mnt))
  end.

(** ** The options of a mount on BSD *)
Fixpoint opts_size (opts : list (option bytes * Z)) (flags : Z) (count : Z) (len : nat) : outcome (Z * nat) :=
  match opts with
  | [] => UB "read past the end of the table"
  | (None, _) :: _ => Ok (count, len)
  | (Some name, num) :: opts' =>
    if Z.eqb (Z.land flags num) 0 then opts_size opts' flags count len
    else opts_size opts' flags (count + 1)%Z (len + length name)
  end.

(** [strcat (str, s)]. *)
Definition strcat (str : buffer) (s : bytes) : outcome buffer := strncat_at str 0 s (length s).

Fixpoint opts_join (opts : list (option bytes * Z)) (flags : Z) (count : Z) (str : buffer) : outcome buffer :=
  match opts with
  | [] => UB "read past the end of the table"
  | (None, _) :: _ => Ok str
  | (Some name, num) :: opts' =>
    if Z.eqb (Z.land flags num) 0 then opts_join opts' flags count str
    else
      str ← strcat str name;
      str ← (if Z.ltb 1 count then strcat str (lit ",") else Ok str);
      opts_join opts' flags (count - 1)%Z str
  end.

Definition get_mount_opts_generic_bsd (opts : list (option bytes * Z)) (flags : Z)
  : prog mem (option buffer) :=
  if Z.eqb flags 0 then strdup_buf []
  else
    '(count, len) ← pure (opts_size opts flags 0 0);
    let total := if Z.ltb 1 count then (len + Z.to_nat (count - 1) + 1)%nat else (len + 1)%nat in
    str ← calloc_buf total;
    match str with
    | None => die "failed to allocate space for mount options"
    | Some str => s ← pure (opts_join opts flags count str); mret (Some s)
    end.

(** ** The time zone and the libraries *)
(** [platform_bsd] says whether [PROCENV_PLATFORM_BSD] is defined, as it is on
    FreeBSD, NetBSD and OpenBSD. *)
Definition show_timezone_generic (platform_bsd : bool) : prog ostate unit :=
  entry (lit "tzname[0]") (lit "'%s'") [AStr tzname0];;
  entry (lit "tzname[1]") (lit "'%s'") [AStr tzname1];;
  entry (lit "timezone") (lit "%ld") [ANum timezone];;
  if platform_bsd then mret tt else entry (lit "daylight") (lit "%d") [ANum daylight].

(** What follows the last occurrence of [c]. *)
Fixpoint after_last (c : Z) (s : bytes) : option bytes :=
  match s with
  | [] => None
  | d :: s' =>
    match after_last c s' with
    | Some t => Some t
    | None => if Z.eqb d c then Some s' else None
    end
  end.

Definition libs_callback (info : bytes * Z) : prog ostate unit :=
  if bool_decide (info.1 = []) then mret tt
  else
    let name := default info.1 (after_last SLASH info.1) in
    object_open false;;
    (section_open name;;
     (entry (lit "path") (lit "%s") [AStr info.1];;
      entry (lit "address") (lit "%p") [ANum info.2]);;
     section_close);;
    object_close false.

Definition show_libs_generic : prog ostate unit := for_each shared_objects libs_callback.
End Generic.

(** ** Sizes for human readers *)
Lemma round_half_even_near num den :
  (0 < den)%Z -> (2 * Z.abs (round_half_even num den * den - num) <= den)%Z.
Proof.
  intros Hd. unfold round_half_even.
  pose proof (Z.div_mod num den ltac:(lia)) as E. pose proof (Z.mod_pos_bound num den Hd) as Hm.
  set (q := (num / den)%Z) in *. set (r := (num mod den)%Z) in *. clearbody q r. subst num.
  destruct (Z.ltb_spec (2 * r) den); [lia|]. destruct (Z.ltb_spec den (2 * r)); [nia|].
  pose proof (Z.mod_pos_bound q 2 ltac:(lia)). set (s := (q mod 2)%Z) in *. clearbody s.
  assert (s = 0 \/ s = 1)%Z as [->| ->] by lia; lia.
Qed.

Lemma scaled_near m k p :
  (0 <= m)%Z -> (0 <= k)%Z -> (0 <= p)%Z ->
  (2 * Z.abs (scaled m (- k) p * 2 ^ k - m * 10 ^ p) <= 2 ^ k)%Z.
Proof.
  intros Hm Hk Hp. unfold scaled. rewrite (Z.max_r (- k) 0), (Z.max_l p 0), (Z.max_r (- p) 0) by lia.
  rewrite Z.opp_involutive, (Z.max_l k 0), !Z.mul_1_r by lia.
  apply round_half_even_near. by apply Z.pow_pos_nonneg.
Qed.

Lemma double_small n : (0 <= n < 2 ^ 53)%Z -> to_double n = n.
Proof. intros Hn. unfold to_double. by rewrite (proj2 (Z.ltb_lt _ _)) by lia. Qed.

(** A number of hundredths. *)
Definition hundredths (q : Z) : wstr := digits 10 (q / 100) ++ lit "." ++ zeros 2 (digits 10 (q mod 100)).

Lemma fixed_hundredths m e sp :
  sp_prec sp = Some 2 -> sp_left sp = false -> sp_width sp = 2 -> sp_zero sp = false -> (0 <= m)%Z ->
  double_text sp 102 m e = hundredths (scaled m e 2).
Proof.
  intros Hp Hl Hw Hz Hm. unfold double_text, format_double. rewrite Hp, Hl, Hw, Hz.
  rewrite (proj2 (Z.ltb_ge m 0)), Z.abs_eq by lia. cbn [default from_option id app andb].
  unfold fixed_text, fraction_text, hundredths. change (10 ^ Z.of_nat 2)%Z with 100%Z.
  change (Z.of_nat 2) with 2%Z. unfold pad.
  rewrite !length_app. cbn [length]. unfold zeros. rewrite length_app, length_replicate.
  match goal with |- context [replicate ?k SPACE ++ _] => replace k with 0 by lia end. reflexivity.
Qed.

Section Spec.
Context `{AllocTotal} `{LocaleLaws} (cfg : settings).

(** The unit in which a size is shown. *)
Definition human_unit (value : Z) : Z * bytes :=
  if Z.ltb PROCENV_GB value then (30%Z, lit "GB")
  else if Z.ltb PROCENV_MB value then (20%Z, lit "MB")
  else if Z.ltb PROCENV_KB value then (10%Z, lit "KB")
  else (0%Z, lit "bytes").

Lemma printable_unit value : printable (human_unit value).2 = true.
Proof. unfold human_unit. by repeat case_match. Qed.

Lemma prints_human_size value :
  (0 <= value < 2 ^ 53)%Z ->
  prints cfg (show_human_size_entry value)
    [TEntry (lit "human") (hundredths (scaled value (- (human_unit value).1) 2) ++ lit " " ++ (human_unit value).2)].
Proof.
  intros Hv. unfold show_human_size_entry, human_unit.
  rewrite (double_small value Hv). 
  destruct (Z.ltb PROCENV_GB value); [|destruct (Z.ltb PROCENV_MB value); [|destruct (Z.ltb PROCENV_KB value)]];
    (eapply prints_eq; [prints_steps|]); cbn [fst snd];
    rewrite fixed_hundredths by (try done; lia); same_trees.
Qed.

(** [show_human_size_entry] shows a size below 2^53 bytes in the largest of
    GB, MB and KB (powers of 1024) that is smaller than it, or in bytes, as a
    number of hundredths of that unit that is off by at most one half of a
    hundredth. *)
Theorem show_human_size_correct value :
  (0 <= value < 2 ^ 53)%Z ->
  exists q, let '(k, units) := human_unit value in
    prints cfg (show_human_size_entry value) [TEntry (lit "human") (hundredths q ++ lit " " ++ units)] /\
    (2 * Z.abs (q * 2 ^ k - 100 * value) <= 2 ^ k)%Z /\ (k = 0 \/ 2 ^ k < value)%Z /\
    (k = 30 \/ value <= 2 ^ (k + 10))%Z.
Proof.
  intros Hv. exists (scaled value (- (human_unit value).1) 2).
  pose proof (prints_human_size value Hv) as Hp.
  assert (0 <= (human_unit value).1)%Z as Hk by (unfold human_unit; by repeat case_match).
  pose proof (scaled_near value (human_unit value).1 2 ltac:(lia) Hk ltac:(lia)) as Hs.
  destruct (human_unit value) as [k units] eqn:E. cbn [fst snd] in *.
  split_and!; [exact Hp|lia|..]; unfold human_unit, PROCENV_GB, PROCENV_MB, PROCENV_KB in E;
    repeat match type of E with context [Z.ltb ?a ?b] => destruct (Z.ltb_spec a b) end;
    simplify_eq; lia.
Qed.
End Spec.

(** ** The options of a mount on BSD *)

(** The names with a comma between them. *)
Definition commas (names : list bytes) : bytes :=
  match names with [] => [] | n :: ns => n ++ concat (map (fun n => lit "," ++ n) ns) end.

Lemma opts_size_ok tbl flags count len :
  opts_size (terminated tbl) flags count len
  = Ok ((count + Z.of_nat (length (flag_names tbl flags)))%Z,
        len + sum_list_with length (flag_names tbl flags)).
Proof.
  unfold terminated, flag_names. revert count len.
  induction tbl as [|[n z] tbl IH]; intros count len; cbn [map app opts_size fst snd].
  { cbn. do 2 f_equal; lia. }
  destruct (Z.eqb_spec (Z.land flags z) 0) as [E|E].
  - rewrite IH. rewrite filter_cons_False by (cbn; lia). done.
  - rewrite IH. rewrite filter_cons_True by done. cbn [map length sum_list_with fst]. do 2 f_equal; lia.
Qed.

Lemma strcat_holding s t mid post :
  nz s -> nz t -> length mid = length t -> strcat (holding s (mid ++ post)) t = Ok (holding (s ++ t) post).
Proof.
  intros Hs Ht Hm. unfold strcat.
  pose proof (strncat_holding [] s t mid post 0 (length t) Hs Ht eq_refl) as E.
  rewrite firstn_all in E. by apply E.
Qed.

(** The length of what the second loop appends. *)
Definition rest_length (names : list bytes) : nat :=
  sum_list_with length names + pred (length names).

Lemma opts_join_ok tbl flags s junk :
  Forall (fun e : bytes * Z => nz e.1) tbl -> nz s ->
  length junk = rest_length (flag_names tbl flags) ->
  opts_join (terminated tbl) flags (Z.of_nat (length (flag_names tbl flags))) (holding s junk)
  = Ok (holding (s ++ commas (flag_names tbl flags)) []).
Proof.
  intros Hns. unfold terminated, flag_names. revert s junk.
  induction Hns as [|[n z] tbl Hn Hns IH]; intros s junk Hs Hj; cbn [map app opts_join fst snd].
  { destruct junk; [|done]. cbn. by rewrite app_nil_r. }
  cbn [fst] in Hn. destruct (Z.eqb_spec (Z.land flags z) 0) as [E|E].
  - rewrite filter_cons_False in * by (cbn; lia). by apply IH.
  - rewrite filter_cons_True in * by done. cbn [map fst length] in *.
    unfold rest_length in Hj. cbn [sum_list_with length pred] in Hj.
    revert IH Hj. destruct (map fst (filter _ tbl)) as [|n' names]; intros IH Hj.
    + cbn in Hj. rewrite <- (app_nil_r junk). rewrite strcat_holding by (try done; lia).
      rewrite outcome_bind_ok. cbn [length]. change (Z.ltb 1 (Z.of_nat 1)) with false. cbv iota.
      change (Ok ?a ≫= ?f) with (f a). cbv beta.
      change (Z.of_nat 1 - 1)%Z with (Z.of_nat (@length bytes [])).
      rewrite (IH (s ++ n) []); [|by apply nz_app|done]. cbn. by rewrite !app_nil_r.
    + cbn [length sum_list_with] in Hj.
      rewrite <- (take_drop (length n) junk), strcat_holding; [|done|done|len_lia].
      rewrite outcome_bind_ok. rewrite (proj2 (Z.ltb_lt 1 _)) by (cbn [length]; lia).
      rewrite <- (take_drop 1 (drop (length n) junk)).
      rewrite strcat_holding; [|by apply nz_app|nz_lit|change (length (lit ",")) with 1; len_lia].
      rewrite outcome_bind_ok.
      replace (Z.of_nat (S (length (n' :: names))) - 1)%Z with (Z.of_nat (length (n' :: names))) by (cbn [length]; lia).
      rewrite IH.
      * cbn [commas map concat]. by rewrite <- !app_assoc.
      * apply nz_app. split; [by apply nz_app|nz_lit].
      * unfold rest_length. cbn [sum_list_with length pred]. len_lia.
Qed.

(** [get_mount_opts_generic_bsd] gives the names of the options that are
    set, in the order of the table and separated by commas, in a buffer of
    exactly the needed size: neither loop reads past the table and no byte is
    written outside the buffer, whatever the flags. *)
Theorem get_mount_opts_correct `{AllocTotal} tbl flags m :
  Forall (fun e : bytes * Z => nz e.1) tbl -> flags <> 0%Z ->
  get_mount_opts_generic_bsd (terminated tbl) flags m
  = Ok (Some (holding (commas (flag_names tbl flags)) []), tick m).
Proof.
  intros Hns Hf. unfold get_mount_opts_generic_bsd. rewrite (proj2 (Z.eqb_neq _ _)) by done.
  step_with (pure_ok (S := mem) _ _ m (opts_size_ok tbl flags 0 0)).
  set (names := flag_names tbl flags). rewrite Z.add_0_l, Nat.add_0_l.
  set (total := if Z.ltb 1 (Z.of_nat (length names)) then _ else _).
  assert (total = S (rest_length names)) as ->.
  { unfold total, rest_length. destruct (Z.ltb_spec 1 (Z.of_nat (length names))); lia. }
  step_with (calloc_buf_run (S (rest_length names)) m).
  pose proof (opts_join_ok tbl flags [] (replicate (rest_length names) (Some 0%Z)) Hns (Forall_nil_2 _)) as E.
  step_with (pure_ok (S := mem) _ _ (tick m) (E (length_replicate _ _))). done.
Qed.

Lemma get_mount_opts_witness :
  @get_mount_opts_generic_bsd total_allocator
    (terminated [(lit "read-only", 1%Z); (lit "synchronous", 2%Z); (lit "noexec", 4%Z)]) 5 mem0
  = Ok (Some (holding (lit "read-only,noexec") []), tick mem0).
Proof.
  apply (@get_mount_opts_correct total_allocator total_allocator_total
           [(lit "read-only", 1%Z); (lit "synchronous", 2%Z); (lit "noexec", 4%Z)] 5 mem0); [|done].
  do 3 (apply Forall_cons_2; [nz_lit|]). constructor.
Defined.

(** ** The canonical form of a path *)

Lemma get_canonical_run `{GenericSystem} path target (b : buffer) :
  readlink path = Some target -> nz target ->
  match get_canonical_generic_linux path b (length b) with
  | Ok (true, c) => length target < length b /\ exists junk, c = holding target junk
  | UB why => length b <= length target /\ why = "write outside the buffer"%string
  | _ => False
  end.
Proof.
  intros Hp Hnz. unfold get_canonical_generic_linux. rewrite Hp.
  assert (exists post, store_all b 0 (take (length b) target) = Ok (map Some (take (length b) target) ++ post)
            /\ length (take (length b) target) + length post = length b) as (post & E & Hl).
  { unfold store_all. rewrite bool_decide_true by len_lia. eexists. split; [reflexivity|]. len_lia. }
  rewrite E, outcome_bind_ok. rewrite (proj2 (Nat.leb_le _ _)) by len_lia.
  destruct (le_lt_dec (length b) (length target)) as [Hle|Hlt].
  - unfold store. rewrite bool_decide_false by len_lia. done.
  - rewrite take_ge in * by lia. destruct post as [|x post]; [cbn in Hl; lia|].
    rewrite store_middle by len_lia. cbn. split; [lia|]. by exists post.
Qed.

(** C38: the target of a link that is shorter than the buffer is stored with its
    terminator; one that is as long or longer fills the buffer, and then the
    terminator is written one element behind its end. *)
Theorem get_canonical_bounds `{GenericSystem} path target (b : buffer) :
  readlink path = Some target -> nz target ->
  match get_canonical_generic_linux path b (length b) with
  | Ok (true, c) => length target < length b /\ exists junk, c = holding target junk
  | UB why => length b <= length target /\ why = "write outside the buffer"%string
  | _ => False
  end.
Proof. apply get_canonical_run. Qed.

(** ** Lists of processors *)
Lemma printable_cpu_range t cs : cpu_range t cs -> Forall in_int cs -> printable t = true.
Proof.
  destruct 1 as [n|a b Hab]; intros Hcs.
  - apply Forall_cons_1 in Hcs as [[? _] _]. by apply printable_digits.
  - assert (0 <= a)%Z.
    { rewrite Forall_forall in Hcs. apply (Hcs a), elem_of_seqZ. lia. }
    by rewrite !printable_app, !printable_digits by lia.
Qed.

Lemma printable_cpu_list t cs : cpu_list t cs -> Forall in_int cs -> printable t = true.
Proof.
  induction 1 as [t cs Hr|t cs t' cs' Hl IH Hr Hgap]; intros Hcs; [by eapply printable_cpu_range|].
  apply Forall_app in Hcs as [H1 H2]. rewrite !printable_app, IH by done.
  by rewrite (printable_cpu_range _ _ Hr H2).
Qed.

Lemma in_int_filter (has : Z -> bool) max : (max <= INT_MAX)%Z -> Forall in_int (filter has (seqZ 0 max)).
Proof.
  intros Hmax. apply Forall_forall. intros x Hx. apply list_elem_of_filter in Hx as [_ Hx].
  apply elem_of_seqZ in Hx. unfold in_int. lia.
Qed.

Section Processors.
Context `{AllocTotal} `{LocaleLaws} (cfg : settings).

Lemma listed_text (has : Z -> bool) max m :
  (max <= INT_MAX)%Z -> filter has (seqZ 0 max) <> [] ->
  exists b t m', affinity_list has max m = Ok (Some b, m') /\ ticked m m' /\ string_at b 0 = Ok t /\
    cpu_list t (filter has (seqZ 0 max)).
Proof.
  intros Hmax Hne. destruct (affinity_list_ok has max m Hmax) as (o & m' & E & Ht & Hl).
  destruct o as [b|]; [|done]. destruct Hl as (t & [junk ->] & Hnz & Hl).
  exists (holding t junk), t, m'. split_and!; [done|done|by apply string_at_start|done].
Qed.

Lemma unlisted (has : Z -> bool) max m :
  (max <= INT_MAX)%Z -> filter has (seqZ 0 max) = [] ->
  exists m', affinity_list has max m = Ok (None, m') /\ ticked m m'.
Proof.
  intros Hmax E0. destruct (affinity_list_ok has max m Hmax) as (o & m' & E & Ht & Hl). rewrite E0 in Hl.
  destruct o as [b|]; [|by exists m']. destruct Hl as (t & _ & _ & Hl). by apply cpu_list_ne in Hl.
Qed.

(** The list as a value that is read. *)
Lemma reads_listed {B : Set} (has : Z -> bool) max (k : option buffer -> prog ostate B) (v : bytes -> B) (v0 : B) :
  (max <= INT_MAX)%Z ->
  (forall b t w, string_at b 0 = Ok t -> k (Some b) w = Ok (v t, w)) ->
  (filter has (seqZ 0 max) = [] -> forall w, k None w = Ok (v0, w)) ->
  exists o, reads cfg (b ← in_mem (affinity_list has max); k b)
              (match o with Some t => v t | None => v0 end) /\
    match o with
    | Some t => printable t = true /\ cpu_list t (filter has (seqZ 0 max))
    | None => filter has (seqZ 0 max) = []
    end.
Proof.
  intros Hmax Hk Hk0. destruct (decide (filter has (seqZ 0 max) = [])) as [E|Hne].
  - exists None. split; [|done]. intros w a Hw. destruct (unlisted has max (o_mem w) Hmax E) as (m' & E' & Ht).
    exists (set_mem m' w). split; [|by apply rep_ticked].
    step_with (zoom_ok o_mem set_mem _ w _ _ E'). by apply Hk0.
  - destruct (listed_text has max mem0 Hmax Hne) as (_ & t & _ & _ & _ & _ & Hl).
    exists (Some t). split; [|split; [by eapply printable_cpu_list, in_int_filter|done]]. intros w a Hw.
    destruct (listed_text has max (o_mem w) Hmax Hne) as (b & t' & m' & E' & Ht & Hb & Hl').
    exists (set_mem m' w). split; [|by apply rep_ticked].
    step_with (zoom_ok o_mem set_mem _ w _ _ E'). rewrite (cpu_list_unique _ _ _ Hl Hl'). by apply Hk.
Qed.

(** The list of the set that the driver gives. *)
Lemma prints_affinities_generic {CpuSet : Type} (cs : CpuSet) (has : CpuSet -> Z -> bool) max :
  (max <= INT_MAX)%Z ->
  exists t, prints cfg (show_cpu_affinities_generic (Some (Some cs)) (Some has) max) [TEntry (lit "affinity list") t] /\
    (cpu_list t (filter (has cs) (seqZ 0 max)) \/ filter (has cs) (seqZ 0 max) = [] /\ t = lit "-1").
Proof.
  intros Hmax.
  destruct (reads_listed (has cs) max
    (fun b => match b with Some b => pure (string_at b 0) | None => mret (lit "-1") end) (fun t => t) (lit "-1") Hmax)
    as (o & Ho & Hl); [by intros b t w Hb; apply pure_ok|done|].
  exists (default (lit "-1") o). split.
  - assert (text_is cfg (default (lit "-1") o) (default (lit "-1") o)) as Ht.
    { apply printable_text. destruct o; [by apply Hl|done]. }
    unfold show_cpu_affinities_generic.
    rewrite <- bind_assoc. reading (exact Ho). destruct o; (eapply prints_eq; [prints_steps|same_trees]).
  - destruct o; [by left; apply Hl|by right].
Qed.
Lemma typed_affinities_generic {CpuSet : Type} (get : option (option CpuSet)) has max :
  (max <= INT_MAX)%Z -> typed cfg CMembers DRIVER_DEPTH (show_cpu_affinities_generic get has max).
Proof.
  intros Hmax. destruct get as [[cs|]|]; [|destruct has; apply typed_ret..]. destruct has as [has|]; [|apply typed_ret].
  destruct (prints_affinities_generic cs has max Hmax) as (t & Hp & _).
  eapply typed_prints; [exact Hp|done|]. apply Forall_cons_2; [cbn; lia|apply Forall_nil_2].
Qed.

End Processors.

(** ** The calls are well placed *)
Class GenericAnswers `{LocaleLaws} `{Allocator} `{Headers} `{GenericSystem} (cfg : settings) : Prop := {
  answers_limits : forall e, e ∈ defined_entries rlimit_names -> is_Some (getrlimit e.1);
  text_ttyname : forall fd s, ttyname fd = Some s -> showable cfg s;
  typed_fd_capabilities : forall fd, op_typed cfg CMembers 2 ((fun f => f fd) <$> show_fd_capabilities);
  text_confstr : forall z s, confstr z = Some s -> showable cfg (newline_to_space s);
  text_mounts : forall mounts, mount_table = Some mounts ->
    Forall (fun m => showable cfg (mnt_fsname m) /\ nameable cfg (mnt_dir m) /\
                     showable cfg (mnt_type m) /\ showable cfg (mnt_opts m)) mounts;
  text_links : forall path target, readlink path = Some target ->
    length target < PATH_MAX /\ showable cfg target;
  text_tznames : showable cfg tzname0 /\ showable cfg tzname1;
  text_libs : Forall (fun l => l.1 <> [] -> showable cfg l.1 /\ nameable cfg (default l.1 (after_last SLASH l.1)))
    shared_objects
}.

Section Typed.
Context `{AllocTotal} `{LocaleLaws} (cfg : settings).
Context `{!Headers} `{!Machine} `{!Util.System} `{!Terminal} `{!GenericSystem} `{!GenericAnswers cfg}.

Lemma op_typed_le c d d' op : op_typed cfg c d op -> d <= d' -> op_typed cfg c d' op.
Proof. destruct op as [m|]; cbn; [|done]. intros Hm Hd. by eapply typed_le. Qed.

Lemma typed_rlimits_generic : typed cfg CMembers DRIVER_DEPTH show_rlimits_generic.
Proof.
  unfold show_rlimits_generic. typed_steps. match goal with H : ?e ∈ _ |- _ => rename H into He end.
  destruct (answers_limits _ He) as [[c m] E]. unfold show_limit. rewrite E. typed_steps. of_defined.
Qed.

Lemma typed_clocks_generic : typed cfg CMembers DRIVER_DEPTH show_clocks_generic.
Proof.
  unfold show_clocks_generic, show_clock_res. typed_steps; [of_defined|].
  destruct (clock_getres _); typed_steps.
Qed.

Lemma reads_number_string (n : Z) :
  reads cfg (in_mem (b ← appendf None (lit "%d") [ANum n]; string_of b)) (int_text n).
Proof.
  apply reads_mem. intros m0.
  destruct (appendf_renders None [] (lit "%d") [ANum n] (int_text n) m0 eq_refl (Forall_nil_2 _))
    as (b & m1 & E & Hb & Ht); [render|].
  exists m1. split; [|done]. step_with E. apply (string_of_ok b); [done|].
  apply printable_nz. exact (printable_number_text (mk_spec false false 0 None 0) 100 n).
Qed.

Lemma typed_fds_generic : typed cfg CObjects DRIVER_DEPTH show_fds_generic.
Proof.
  unfold show_fds_generic, show_fd. typed_steps. reading (apply reads_number_string).
  assert (printable (int_text x) = true) as Hp
    by exact (printable_number_text (mk_spec false false 0 None 0) 100 x).
  assert (showable cfg (default NA_STR (ttyname x))) as Ht.
  { apply showable_default; [by apply printable_showable|]. apply text_ttyname. }
  typed_steps.
  - apply nameable_literal; [done|]. unfold int_text, signed_text. intros E.
    apply app_eq_nil in E as [_ E]. by apply (digits_nonempty 10) in E.
  - pose proof (typed_fd_capabilities x) as Hc. destruct show_fd_capabilities; [exact Hc|apply typed_ret].
Qed.

Lemma typed_confstrs_generic : typed cfg CMembers DRIVER_DEPTH show_confstrs_generic.
Proof.
  unfold show_confstrs_generic, confstr_entries. apply typed_for_each. intros e He.
  assert (nameable cfg e.1) as Hn.
  { apply list_elem_of_omap in He as (n & Hn & E). destruct (macro n.1) as [z|]; cbn in E; simplify_eq.
    cbn [fst]. apply (nameable_of cfg (map snd confstr_names)); [by vm_compute|].
    apply list_elem_of_fmap. by exists n. }
  unfold show_confstr. destruct (confstr e.2) as [s|] eqn:Es; [|apply typed_ret]. apply typed_alloc.
  pose proof (text_confstr _ _ Es) as Ht. destruct (bool_decide _); typed_steps.
Qed.

Lemma typed_mem_section d name value :
  nameable cfg name -> typed cfg CMembers (S d) (mk_mem_section name value).
Proof.
  intros Hn. unfold mk_mem_section, show_human_size_entry. typed_steps.
  destruct (Z.ltb PROCENV_GB value); [|destruct (Z.ltb PROCENV_MB value); [|destruct (Z.ltb PROCENV_KB value)]];
    typed_steps.
Qed.

Lemma typed_memory_generic : typed cfg CMembers DRIVER_DEPTH show_memory_generic.
Proof.
  unfold show_memory_generic. destruct sysinfo as [info|]; [|apply typed_ret].
  typed_steps; apply typed_mem_section; solve_nameable.
Qed.

(** The value of a variable of a directory; the code prints the [long] as an
    [int]. *)
Definition pathconf_text (dir : bytes) (name : Z) : wstr :=
  let '(conf, errno) := pathconf dir name in
  if bool_decide (conf = (-1)%Z /\ errno = 0%Z) then lit "n/a" else int_text conf.

Definition pathconf_tree (title : wstr) (dir : bytes) : tree :=
  TBlock KSection title (map (fun e => TEntry e.1 (pathconf_text dir e.2)) (defined_entries pathconf_names)).

Lemma prints_pathconf dir e :
  e ∈ defined_entries pathconf_names -> prints cfg (show_pathconf dir e) [TEntry e.1 (pathconf_text dir e.2)].
Proof.
  intros He. unfold show_pathconf, pathconf_text.
  assert (name_is cfg e.1 e.1) by (apply (literal_name cfg pathconf_names); [by vm_compute|by apply defined_name]).
  destruct (pathconf dir e.2) as [conf errno].
  destruct (Z.eqb_spec conf (-1)) as [->|Hc]; [destruct (Z.eqb_spec errno 0) as [->|He0]|]; cbn [andb].
  - rewrite bool_decide_true by done. eapply prints_eq; [prints_steps|same_trees].
  - rewrite bool_decide_false by tauto. eapply prints_eq; [prints_steps|same_trees].
  - rewrite bool_decide_false by tauto. eapply prints_eq; [prints_steps|same_trees].
Qed.

Lemma prints_pathconfs what dir n :
  (what = SHOW_PATHCONF -> name_is cfg dir n) ->
  prints cfg (show_pathconfs what dir)
    [pathconf_tree (if bool_decide (what = SHOW_PATHCONF) then n else lit "pathconf") dir].
Proof.
  intros Hn. unfold show_pathconfs, pathconf_tree. apply prints_header_last.
  - case_bool_decide; [by apply Hn|]. apply (literal_name cfg [lit "pathconf"]); [by vm_compute|by left].
  - eapply prints_eq; [apply (prints_for_each cfg _ _ (fun e => [TEntry e.1 (pathconf_text dir e.2)]))|].
    + intros e He. by apply prints_pathconf.
    + induction (defined_entries pathconf_names) as [|x xs IH]; cbn; [done|]. by rewrite <- IH.
Qed.

Lemma typed_pathconfs what dir d : nameable cfg dir -> typed cfg CMembers (S d) (show_pathconfs what dir).
Proof.
  intros Hd. unfold show_pathconfs, show_pathconf. typed_steps; [by case_bool_decide; solve_nameable|].
  destruct (pathconf dir _) as [conf errno]. destruct (_ && _); typed_steps; of_defined.
Qed.

Lemma canonical_text_ok path :
  exists r, canonical_text path = Ok r /\ showable cfg r.2.
Proof.
  unfold canonical_text. destruct (readlink path) as [target|] eqn:E.
  - destruct (text_links _ _ E) as [Hl Ht].
    assert (nz target) as Hnz by (destruct Ht as (w & Hnz & _); done).
    pose proof (get_canonical_run path target (replicate PATH_MAX None) E Hnz) as Hb.
    rewrite length_replicate in Hb.
    destruct (get_canonical_generic_linux _ _ _) as [[[] c]| | | |why|]; try done.
    + destruct Hb as (_ & junk & ->). rewrite outcome_bind_ok. cbn [fst snd].
      rewrite string_at_start by done. by eexists.
    + exfalso. destruct Hb. lia.
  - unfold get_canonical_generic_linux. rewrite E.
    exists (false, UNKNOWN_STR). split; [by vm_compute|by apply printable_showable].
Qed.

Lemma typed_mount what mnt :
  showable cfg (mnt_fsname mnt) -> nameable cfg (mnt_dir mnt) -> showable cfg (mnt_type mnt) ->
  showable cfg (mnt_opts mnt) -> typed cfg CMembers DRIVER_DEPTH (show_mount what mnt).
Proof.
  intros Hf Hd Ht Ho. unfold show_mount. destruct (get_major_minor _) as [? [mj mi]].
  destruct (canonical_text_ok (mnt_fsname mnt)) as ([ret canonical] & E & Hc). cbn [snd] in Hc.
  assert (typed cfg CMembers 0 (show_canonical (mnt_fsname mnt))) as Hcan.
  { unfold show_canonical. reading (by apply reads_pure). cbn [fst snd]. destruct ret; typed_steps. }
  typed_steps.
  - eapply typed_le; [exact Hcan|lia].
  - by apply typed_pathconfs.
  - destruct (statvfs _) as [fs|]; [unfold show_mount_stats|unfold show_no_stats]; typed_steps.
Qed.

Lemma typed_mounts_linux what : typed cfg CMembers DRIVER_DEPTH (show_mounts_generic_linux what).
Proof.
  unfold show_mounts_generic_linux. destruct mount_table as [mounts|] eqn:E; [|apply typed_ret].
  pose proof (text_mounts _ E) as Hm. rewrite Forall_forall in Hm. typed_steps.
  - destruct (Hm x) as (? & ? & ? & ?); [done|]. by apply typed_mount.
  - destruct (Hm x) as (? & ? & ? & ?); [done|]. by apply typed_pathconfs.
Qed.

Lemma typed_timezone_generic bsd : typed cfg CMembers DRIVER_DEPTH (show_timezone_generic bsd).
Proof. destruct text_tznames. unfold show_timezone_generic. typed_steps; destruct bsd; typed_steps. Qed.

Lemma typed_libs_generic : typed cfg CObjects DRIVER_DEPTH show_libs_generic.
Proof.
  pose proof text_libs as Hl. rewrite Forall_forall in Hl.
  unfold show_libs_generic, libs_callback. apply typed_for_each. intros x Hx.
  case_bool_decide as Hne; [apply typed_ret|]. destruct (Hl x Hx Hne). typed_steps.
Qed.
End Typed.

(** The operations of a list that a driver takes from here or leaves out. *)
Ltac shared_ops cfg :=
  each_op; try first
    [ exact I | exact (typed_clocks_generic cfg) | exact (typed_confstrs_generic cfg) | exact (typed_rlimits_generic cfg)
    | exact (typed_timezone_generic cfg _) | exact (typed_memory_generic cfg) | exact (typed_fds_generic cfg)
    | exact (typed_libs_generic cfg) ].

(** ** A driver made of the shared operations *)
Section DriverOf.
Context `{Allocator} `{Locale} `{Headers} `{Machine} `{Util.System} `{Terminal} `{GenericSystem}.

(** The entries of [struct procenv_ops] that the Linux driver takes from
    platform-generic.c; the display functions of its own are left out. *)
Definition generic_driver (signals flags : list (bytes * Z)) (affinities : prog ostate unit) : Driver := {|
  signal_map := terminated signals;
  if_flag_map := terminated flags;
  op_get_kernel_bits := Some get_kernel_bits_generic;
  op_get_time := Some get_time_generic;
  op_get_mtu := Some get_mtu_generic;
  op_show_capabilities := None;
  op_show_cgroups := None;
  op_show_clocks := Some show_clocks_generic;
  op_show_confstrs := Some show_confstrs_generic;
  op_show_cpu_affinities := Some affinities;
  op_show_cpu := None;
  op_show_extended_if_flags := None;
  op_show_fds := Some show_fds_generic;
  op_show_io_priorities := None;
  op_show_mounts := Some show_mounts_generic_linux;
  op_show_msg_queues := None;
  op_show_namespaces := None;
  op_show_oom := None;
  op_show_prctl := None;
  op_show_rlimits := Some show_rlimits_generic;
  op_show_security_module := None;
  op_show_semaphores := None;
  op_show_shared_mem := None;
  op_show_timezone := Some (show_timezone_generic false);
  op_show_libs := Some show_libs_generic;
  op_handle_memory := Some show_memory_generic;
  op_handle_numa_memory := None;
  op_handle_proc_branch := None;
  op_handle_scheduler_type := None;
  op_in_vm := None
|}.
End DriverOf.

Lemma generic_driver_typed `{AllocTotal} `{LocaleLaws} cfg
  `{!Headers} `{!Machine} `{!Util.System} `{!Terminal} `{!GenericSystem} `{!GenericAnswers cfg}
  signals flags affinities :
  Forall (fun e : bytes * Z => nameable cfg e.1) signals ->
  Forall (fun e : bytes * Z => nameable cfg e.1) flags ->
  typed cfg CMembers DRIVER_DEPTH affinities ->
  @DriverTyped _ _ (generic_driver signals flags affinities) cfg.
Proof.
  intros Hs Hf Ha.
  assert (forall tbl, Forall (fun e : bytes * Z => nameable cfg e.1) tbl ->
    Forall (fun e => match e.1 with Some n => nameable cfg n | None => True end) (terminated tbl)) as Ht.
  { intros tbl Htbl. unfold terminated. apply Forall_app. split; [|by constructor].
    by apply Forall_map. }
  constructor.
  - shared_ops cfg. exact Ha.
  - shared_ops cfg.
  - intros what. exact (typed_mounts_linux cfg what).
  - intros i. exact I.
  - by exists signals.
  - by exists flags.
  - by apply Ht.
  - by apply Ht.
  - exact I.
Qed.
