(* ===== verification/Options.v ===== *)
(** Options: what the environment variables of the program set
    (check_envvars of src/src/procenv.c), the command to execute included.

    [getenv (3)] is a parameter.  The globals of output.c are the state of
    [Output]; [check_envvars] returns the array [exec_args] when it sets it,
    and with it the flag [reexec]. *)
From S2P Require Import Prelude Memory PrList Locale PString StringUtil Encode Output Util Format.

Definition PROCENV_OUTPUT_ENV : bytes := lit "PROCENV_OUTPUT".
Definition PROCENV_FORMAT_ENV : bytes := lit "PROCENV_FORMAT".
Definition PROCENV_FILE_ENV : bytes := lit "PROCENV_FILE".
Definition PROCENV_FILE_APPEND_ENV : bytes := lit "PROCENV_FILE_APPEND".
Definition PROCENV_EXEC_ENV : bytes := lit "PROCENV_EXEC".
Definition PROCENV_INDENT_ENV : bytes := lit "PROCENV_INDENT".
Definition PROCENV_INDENT_CHAR_ENV : bytes := lit "PROCENV_INDENT_CHAR".
Definition PROCENV_SEPARATOR_ENV : bytes := lit "PROCENV_SEPARATOR".
Definition PROCENV_CRUMB_SEPARATOR_ENV : bytes := lit "PROCENV_CRUMB_SEPARATOR".

Definition TAB : Z := 9.

(** [atoi (3)]: 0 without a number, undefined when the number does not fit. *)
Definition atoi (s : bytes) : outcome Z :=
  match scan_int s with
  | None => Ok 0%Z
  | Some (n, _) =>
    if Z.ltb n (- INT_MAX - 1) || Z.ltb INT_MAX n then UB "atoi out of range" else Ok n
  end.

(** [index (3)]: the string from the first occurrence on. *)
Fixpoint index (s : bytes) (ch : Z) : option bytes :=
  match s with
  | [] => None
  | c :: s' => if Z.eqb c ch then Some s else index s' ch
  end.

(** The loop that counts the fields of the command. *)
Fixpoint count_fields (fuel : nat) (tmp : bytes) (count : nat) : outcome nat :=
  match fuel with
  | 0 => Diverge
  | S fuel' =>
    match tmp with
    | [] => Ok count
    | _ =>
      match index tmp SPACE with
      | None => Ok count
      | Some found => count_fields fuel' (drop 1 found) (S count)
      end
    end
  end.

Section Options.
Context `{Allocator} `{Locale} (getenv : bytes -> option bytes).

(** [exec_args[i] = strdup (token)] for each token; the array has [length
    args] elements. *)
Fixpoint fill_args (args : list (option bytes)) (i : nat) (tokens : list bytes)
  : prog ostate (list (option bytes)) :=
  match tokens with
  | [] => mret args
  | token :: tokens' =>
    p ← Output.strdup token;
    if bool_decide (i < length args) then
      match p with
      | None => die "failed to allocate space for exec arg"
      | Some _ => fill_args (<[i := p]> args) (S i) tokens'
      end
    else ub "write outside the argument array"
  end.

Definition exec_arguments (e : bytes) : prog ostate (list (option bytes)) :=
  string ← Output.strdup e;
  match string with
  | None => die "failed to copy environment string"
  | Some [] => die "invalid command"
  | Some string =>
    count ← pure (count_fields (S (length string)) string 1);
    p ← in_mem alloc;
    match p with
    | None => die "failed to allocate space for args copy"
    | Some _ => fill_args (replicate (count + 1) None) 0 (strsep_fields SPACE string)
    end
  end.

(** [e = getenv (name); if (e && *e) k (e)]. *)
Definition when_set (name : bytes) (k : bytes -> prog ostate unit) : prog ostate unit :=
  match getenv name with
  | Some (_ :: _ as e) => k e
  | _ => mret tt
  end.

Definition check_envvars : prog ostate (option (list (option bytes))) :=
  when_set PROCENV_OUTPUT_ENV set_output_value;;
  when_set PROCENV_FILE_ENV (fun e => set_output_file (Some e);; set_output_value_raw OUTPUT_FILE);;
  when_set PROCENV_FILE_APPEND_ENV (fun _ => set_output_file_append);;
  when_set PROCENV_FORMAT_ENV set_output_format;;
  when_set PROCENV_INDENT_ENV (fun e => n ← pure (atoi e); set_indent_amount n);;
  when_set PROCENV_INDENT_CHAR_ENV (fun e =>
    if Z.eqb (strcmp e (BACKSLASH :: lit "t")) 0 then set_indent_char (Some [TAB])
    else set_indent_char (Some e));;
  when_set PROCENV_SEPARATOR_ENV set_text_separator;;
  when_set PROCENV_CRUMB_SEPARATOR_ENV (fun e =>
    if Z.eqb (strcmp e (BACKSLASH :: lit "t")) 0 then set_crumb_separator (Some [TAB])
    else set_crumb_separator (Some e));;
  match getenv PROCENV_EXEC_ENV with
  | Some (_ :: _ as e) => args ← exec_arguments e; mret (Some args)
  | _ => mret None
  end.
End Options.

(** ** The command to execute *)
Lemma index_spec s ch :
  match index s ch with
  | None => ch ∉ s
  | Some found => exists l r, s = l ++ ch :: r /\ found = ch :: r /\ (ch ∉ l)
  end.
Proof.
  induction s as [|c s IH]; cbn; [apply not_elem_of_nil|].
  destruct (Z.eqb_spec c ch) as [->|Hne].
  - exists [], s. split_and!; [done|done|apply not_elem_of_nil].
  - destruct (index s ch) as [found|].
    + destruct IH as (l & r & -> & -> & Hl). exists (c :: l), r. split_and!; [done|done|].
      apply not_elem_of_cons. by split.
    + apply not_elem_of_cons. by split.
Qed.

Lemma strsep_fields_none ch s : ch ∉ s -> strsep_fields ch s = [s].
Proof.
  induction s as [|c s IH]; intros Hs; [done|]. apply not_elem_of_cons in Hs as [Hc Hs].
  cbn. rewrite IH by done. by rewrite (proj2 (Z.eqb_neq _ _)) by congruence.
Qed.

Lemma strsep_fields_app ch l r :
  ch ∉ l -> strsep_fields ch (l ++ ch :: r) = l :: strsep_fields ch r.
Proof.
  induction l as [|c l IH]; intros Hl; cbn; [by rewrite Z.eqb_refl|].
  apply not_elem_of_cons in Hl as [Hc Hl]. rewrite IH by done.
  by rewrite (proj2 (Z.eqb_neq _ _)) by congruence.
Qed.

(** The array has an element for each field and one for the null pointer. *)
Lemma count_fields_ok fuel s n :
  length s < fuel -> count_fields fuel s (S n) = Ok (n + length (strsep_fields SPACE s)).
Proof.
  revert s n. induction fuel as [|fuel IH]; intros s n Hf; [lia|]. cbn [count_fields].
  destruct s as [|c s]; [cbn; f_equal; lia|].
  pose proof (index_spec (c :: s) SPACE) as Hi. destruct (index (c :: s) SPACE) as [found|].
  - destruct Hi as (l & r & E & -> & Hl). cbn [drop]. rewrite drop_0, E.
    rewrite strsep_fields_app by done. rewrite IH by (rewrite E, length_app in Hf; cbn [length] in Hf; lia).
    cbn [length]. f_equal. lia.
  - rewrite strsep_fields_none by done. cbn. f_equal. lia.
Qed.

(** The fields with the separator between them are the string. *)
Fixpoint joined (ch : Z) (fs : list bytes) : bytes :=
  match fs with
  | [] => []
  | [f] => f
  | f :: fs' => f ++ ch :: joined ch fs'
  end.

Lemma strsep_fields_joined ch s :
  joined ch (strsep_fields ch s) = s /\ Forall (fun f => ch ∉ f) (strsep_fields ch s) /\
  strsep_fields ch s <> [].
Proof.
  induction s as [|c s (IH & Hall & Hne)]; cbn.
  - split_and!; [done|constructor; [apply not_elem_of_nil|constructor]|done].
  - destruct (Z.eqb_spec c ch) as [->|Hc].
    + split_and!; [|constructor; [apply not_elem_of_nil|done]|done].
      cbn. destruct (strsep_fields ch s); [done|]. by rewrite IH.
    + destruct (strsep_fields ch s) as [|f fs]; [done|]. apply Forall_cons_1 in Hall as [Hf Hfs].
      split_and!; [|constructor; [by apply not_elem_of_cons|done]|done].
      rewrite <- IH. by destruct fs.
Qed.

Section ExecSpec.
Context `{AllocTotal}.

Lemma strdup_state_run s w : Output.strdup s w = Ok (Some s, set_mem (tick (o_mem w)) w).
Proof.
  unfold Output.strdup, in_mem. by step_with (zoom_ok o_mem set_mem _ w _ _ (alloc_run (o_mem w))).
Qed.

Lemma fill_args_ok tokens front k w :
  length tokens <= k ->
  exists m', fill_args (front ++ replicate k None) (length front) tokens w
    = Ok (front ++ map Some tokens ++ replicate (k - length tokens) None, set_mem m' w) /\
    ticked (o_mem w) m'.
Proof.
  revert front k w. induction tokens as [|token tokens IH]; intros front k w Hk.
  - exists (o_mem w). cbn. rewrite Nat.sub_0_r. split; [by destruct w|done].
  - cbn [fill_args]. step_with (strdup_state_run token w). cbn [length] in Hk.
    rewrite bool_decide_true by len_lia. destruct k as [|k]; [lia|]. cbn [replicate].
    rewrite insert_app_at by done.
    destruct (IH (front ++ [Some token]) k (set_mem (tick (o_mem w)) w) ltac:(lia)) as (m' & E & Ht).
    rewrite length_app, Nat.add_comm in E. cbn [length Nat.add] in E. rewrite <- app_assoc in E.
    exists m'. split; [|by etrans; [apply ticked_tick|exact Ht]].
    cbn [app] in E. etrans; [exact E|]. rewrite <- app_assoc. done.
Qed.
End ExecSpec.

(** C40: for a command that is not empty, the argument array that PROCENV_EXEC
    asks for is exactly large enough: it holds the fields of the command, in
    order, and one null pointer after them; no field holds a space, and the
    fields with single spaces between them are the command. *)
Theorem exec_arguments_correct `{AllocTotal} (e : bytes) (w : ostate) :
  e <> [] ->
  exists fields m', exec_arguments e w = Ok (map Some fields ++ [None], set_mem m' w) /\
    ticked (o_mem w) m' /\ joined SPACE fields = e /\ Forall (fun f => SPACE ∉ f) fields.
Proof.
  intros He. exists (strsep_fields SPACE e).
  destruct (strsep_fields_joined SPACE e) as (Hj & Hall & _).
  unfold exec_arguments. set (w1 := set_mem (tick (o_mem w)) w).
  set (fs := strsep_fields SPACE e) in *.
  destruct (fill_args_ok fs [] (length fs + 1) (set_mem (tick (o_mem w1)) w1)) as (m' & E & Ht); [lia|].
  exists m'. split_and!; [|by etrans; [apply (ticked_trans _ _ _ (ticked_tick _) (ticked_tick _))|exact Ht]|done|done].
  step_with (strdup_state_run e w). destruct e as [|c e]; [done|].
  step_with (pure_ok _ _ w1 (count_fields_ok (S (length (c :: e))) (c :: e) 0 ltac:(lia))).
  unfold in_mem. step_with (zoom_ok o_mem set_mem _ w1 _ _ (alloc_run (o_mem w1))).
  fold fs. cbn [Nat.add]. cbn [app length] in E. etrans; [exact E|].
  replace (length fs + 1 - length fs) with 1 by lia. done.
Qed.

Lemma exec_arguments_witness :
  exists fields m', @exec_arguments total_allocator (lit "ls  -l /") (initial_state mem0 None)
      = Ok (map Some fields ++ [None], set_mem m' (initial_state mem0 None)) /\
    ticked (o_mem (initial_state mem0 None)) m' /\ joined SPACE fields = lit "ls  -l /" /\
    Forall (fun f => SPACE ∉ f) fields.
Proof.
  apply (@exec_arguments_correct total_allocator total_allocator_total (lit "ls  -l /")
           (initial_state mem0 None)). done.
Defined.
