(* ===== verification/LinuxProc.v ===== *)
(** LinuxProc: what the Linux driver (src/src/platform/linux/platform.c) reads
    from the files under /proc: the control groups, the scores of the
    out-of-memory killer, the ancestors of the process, the names of processes
    and the processor in use.

    A file is its whole contents; [fgets] takes it apart, with the buffer sizes
    of the code. *)
From S2P Require Import Prelude Memory PrList Locale PString StringUtil Encode Output OutputSpec Document Prints Util Affinity Display Format Platform Process ProcessTree Report Runtime Generic Options.

Definition COLON : Z := 58.

(** [strsep (&s, delim)]: the token, and what [s] points to afterwards. *)
Definition strsep (delim : Z) (s : option bytes) : option bytes * option bytes :=
  match s with
  | None => (None, None)
  | Some s =>
    match split_at delim s with
    | Some (token, rest) => (Some token, Some rest)
    | None => (Some s, None)
    end
  end.

(** What the scheduler answers. *)
Class Scheduler : Type := {
  sched_getcpu : Z;
  sched_getscheduler : Z
}.

Definition SC_NPROCESSORS_ONLN `{Headers} `{Machine} : Z :=
  match macro (lit "_SC_NPROCESSORS_ONLN") with Some n => sysconf n | None => (-1)%Z end.

(** The program asks for [comm] names of at most 15 characters. *)
Definition PROCENV_TASK_COMM_NAME_LEN : nat := 15.

(** The highest process identifier of Linux bounds the number of ancestors. *)
Definition PID_MAX_LIMIT : nat := Z.to_nat 4194304.

Section Show.
Context `{Allocator} `{Locale} `{Util.System} `{Headers} `{Machine} `{Identity} `{Scheduler}.

(** [sprintf] into a buffer that is large enough. *)
Definition sprintf (fmt : bytes) (args : list arg) : outcome bytes :=
  text ← format_mbs fmt args;
  match text with Some s => Ok s | None => UB "sprintf failed" end.

(** ** The name of a process *)
Definition pid_to_name (pid : Z) : prog mem (option bytes) :=
  path ← pure (sprintf (lit "/proc/%d/cmdline") [ANum pid]);
  match read_file path with
  | None => mret None
  | Some f =>
    match fgets PATH_MAX f with
    | None => mret None
    | Some (path, _) =>
      name ← append None path;
      match name with
      | None => mret None
      | Some b => s ← pure (string_at b 0); mret (Some s)
      end
    end
  end.

(** ** Control groups *)
Definition show_cgroup (buffer : bytes) : prog ostate unit :=
  let '(hierarchy, b) := strsep COLON (Some buffer) in
  match hierarchy with
  | None => mret tt
  | Some hierarchy =>
    let '(subsystems, b) := strsep COLON b in
    let '(path, b) := strsep COLON b in
    match path with
    | None => mret tt
    | Some path =>
      container_open hierarchy;;
      (object_open false;;
       ((match subsystems with
         | Some (c :: s) => entry (lit "subsystems") (lit "%s") [AStr (c :: s)]
         | _ => mret tt
         end);;
        entry (lit "path") (lit "%s") [AStr path]);;
       object_close false);;
      container_close
    end
  end.

Fixpoint cgroups_loop (fuel : nat) (f : bytes) : prog ostate unit :=
  match fuel with
  | 0 => diverge
  | S fuel' =>
    match fgets PROCENV_BUFFER f with
    | None => mret tt
    | Some (buffer, f') =>
      buffer ← pure (drop_last buffer);
      buf ← in_mem alloc;
      match buf with
      | None => die "failed to allocate storage"
      | Some _ => show_cgroup buffer;; cgroups_loop fuel' f'
      end
    end
  end.

Definition show_cgroups_linux : prog ostate unit :=
  match read_file (lit "/proc/self/cgroup") with
  | None => mret tt
  | Some f => cgroups_loop (S (length f)) f
  end.

(** ** The out-of-memory killer *)
Fixpoint oom_lines (fuel : nat) (file f : bytes) : prog ostate unit :=
  match fuel with
  | 0 => diverge
  | S fuel' =>
    match fgets PROCENV_BUFFER f with
    | None => mret tt
    | Some (buffer, f') =>
      buffer ← pure (drop_last buffer);
      entry file (lit "%s") [AStr buffer];;
      oom_lines fuel' file f'
    end
  end.

Definition oom_files : list bytes := [lit "oom_score"; lit "oom_adj"; lit "oom_score_adj"].

Definition oom_file (file : bytes) : option bytes := read_file (lit "/proc/self/" ++ file).

(** The last call has the text for the format where the name belongs. *)
Definition show_oom_linux : prog ostate unit :=
  for_each oom_files (fun file =>
    match oom_file file with
    | None => mret tt
    | Some f => oom_lines (S (length f)) file f
    end);;
  if existsb (fun file => bool_decide (is_Some (oom_file file))) oom_files then mret tt
  else entry (lit "%s") UNKNOWN_STR [].

(** ** The ancestors *)

(** The lines of a status file: the buffers [name] and [ppid], which are
    not initialised before the first line that sets them. *)
Fixpoint status_fields (fuel : nat) (f : bytes) (name ppid : option bytes)
  : outcome (option bytes * option bytes) :=
  match fuel with
  | 0 => Diverge
  | S fuel' =>
    match fgets PROCENV_BUFFER f with
    | None => Ok (name, ppid)
    | Some (buffer, f') =>
      buffer ← drop_last buffer;
      let name := if prefix_of (lit "Name:") buffer
                  then Some (take PROCENV_TASK_COMM_NAME_LEN (drop 6 buffer)) else name in
      if prefix_of (lit "PPid:") buffer
      then Ok (name, Some (take PROCENV_TASK_COMM_NAME_LEN (drop 6 buffer)))
      else status_fields fuel' f' name ppid
    end
  end.

Definition initialised (s : option bytes) : outcome bytes :=
  match s with Some s => Ok s | None => UB "read of an uninitialised buffer" end.

Definition status_path (pid : bytes) : bytes := lit "/proc/" ++ pid ++ lit "/status".

Fixpoint branch_loop (fuel : nat) (pid : bytes) (name ppid : option bytes) (str : option buffer)
  : prog mem (option buffer) :=
  match fuel with
  | 0 => diverge
  | S fuel' =>
    match read_file (status_path pid) with
    | None => appendf str (lit "%s") [AStr UNKNOWN_STR]
    | Some f =>
      '(name, ppid) ← pure (status_fields (S (length f)) f name ppid);
      n ← pure (initialised name);
      if bool_decide (pid = lit "1") then appendf str (lit "%s ('%s')") [AStr pid; AStr n]
      else
        str ← appendf str (lit "%s ('%s'), ") [AStr pid; AStr n];
        pid ← pure (initialised ppid);
        branch_loop fuel' pid name ppid str
    end
  end.

Definition handle_proc_branch_linux : prog ostate unit :=
  pid ← pure (sprintf (lit "%d") [ANum getpid]);
  str ← in_mem (b ← branch_loop PID_MAX_LIMIT pid None None None; string_of b);
  entry (lit "ancestry") (lit "%s") [AStr str].

(** ** The processor in use *)

(** For systems without [sched_getcpu]. *)
Definition procenv_getcpu : outcome Z :=
  match read_file (lit "/proc/self/stat") with
  | None => Ok (-1)%Z
  | Some f =>
    match fgets PROCENV_BUFFER f with
    | None => Ok (-1)%Z
    | Some (buffer, _) =>
      buffer ← drop_last buffer;
      fields ← split_fields SPACE true buffer;
      if negb (Nat.eqb (length fields) 42) then Ok (-1)%Z
      else match fields !! 41 with Some field => atoi field | None => Abort "field" end
    end
  end.

Definition show_cpu_linux : prog ostate unit :=
  let max := SC_NPROCESSORS_ONLN in
  cpu ← (if ifdef (lit "HAVE_SCHED_GETCPU") then mret sched_getcpu else pure procenv_getcpu);
  if Z.ltb cpu 0 then entry (lit "number") (lit "%s of %ld") [AStr UNKNOWN_STR; ANum max]
  else entry (lit "number") (lit "%u of %ld") [ANum (cpu + 1); ANum max].
End Show.

(** ** What they print *)
Lemma split_at_app ch s t : ch ∉ s -> split_at ch (s ++ ch :: t) = Some (s, t).
Proof.
  induction s as [|c s IH]; intros Hs; cbn [app split_at]; [by rewrite Z.eqb_refl|].
  apply not_elem_of_cons in Hs as [Hc Hs]. rewrite (proj2 (Z.eqb_neq _ _)) by congruence. by rewrite IH.
Qed.

Lemma nz_c_string b : nz (c_string b).
Proof.
  induction b as [|c b IH]; [constructor|]. cbn. destruct (Z.eqb_spec c 0); [constructor|by constructor].
Qed.

Lemma nz_fgets n f l f' : fgets n f = Some (l, f') -> nz l.
Proof.
  unfold fgets. destruct f as [|c f]; [done|]. destruct (fgets_take _ _) as [l1 r]. intros [= <- <-].
  apply nz_c_string.
Qed.

Lemma sprintf_renders `{Locale} fmt args t : renders plain fmt args t -> sprintf fmt args = Ok t.
Proof. intros Hr. destruct (plain_renders fmt args t Hr) as [E _]. unfold sprintf. by rewrite E. Qed.

(** The first line of a file of text lines that fit in the buffer, without its
    newline. *)
Lemma fgets_file l ls :
  text_line 1023 l -> fgets PROCENV_BUFFER (file_of (l :: ls)) = Some (l ++ [NL], file_of ls).
Proof. intros Hl. rewrite file_of_cons. by apply (fgets_line 1023). Qed.

Section Spec.
Context `{AllocTotal} `{LocaleLaws} (cfg : settings).
Context `{!Util.System} `{!Headers} `{!Machine} `{!Identity} `{!Scheduler}.

(** *** Names of processes *)

(** The first string of the command line, unless it is empty. *)
Definition process_title (pid : Z) : option bytes :=
  f ← read_file (lit "/proc/" ++ int_text pid ++ lit "/cmdline");
  l ← fgets PATH_MAX f;
  match l.1 with [] => None | s => Some s end.

Lemma pid_to_name_ok pid m :
  exists m', pid_to_name pid m = Ok (process_title pid, m') /\ ticked m m'.
Proof.
  assert (forall o : option bytes, exists m', (mret o : prog mem (option bytes)) m = Ok (o, m') /\ ticked m m') as Hret.
  { intros o. exists m. split; [done|apply ticked_refl]. }
  unfold pid_to_name, process_title.
  assert (sprintf (lit "/proc/%d/cmdline") [ANum pid] = Ok (lit "/proc/" ++ int_text pid ++ lit "/cmdline")) as E.
  { apply sprintf_renders. render. }
  step_with (pure_ok _ _ m E). destruct (read_file _) as [f|]; [|apply (Hret None)].
  cbn [mbind option_bind]. destruct (fgets PATH_MAX f) as [[l f']|] eqn:Ef; [|apply (Hret None)].
  apply nz_fgets in Ef. cbn [fst option_bind].
  destruct l as [|c l]; [exists m; split; [done|apply ticked_refl]|].
  destruct (appendn_ok None [] (c :: l) (length (c :: l)) m eq_refl (Forall_nil_2 _) Ef)
    as (m1 & E1 & Ht); [cbn; lia|].
  exists m1. split; [|done]. unfold append. step_with E1.
  rewrite take_ge by done. by erewrite prog_bind_ok by (by apply pure_ok, string_at_start).
Qed.

(** *** Control groups *)

(** A line of /proc/self/cgroup. *)
Definition cgroup_line (g : bytes * bytes * bytes) : bytes :=
  g.1.1 ++ COLON :: g.1.2 ++ COLON :: g.2.

Definition before (ch : Z) (s : bytes) : bytes := match split_at ch s with Some (t, _) => t | None => s end.

Definition cgroup_tree (T : bytes -> wstr) (g : bytes * bytes * bytes) : tree :=
  TBlock KContainer (T g.1.1)
    [TObject ((if bool_decide (g.1.2 = []) then [] else [TEntry (lit "subsystems") (T g.1.2)]) ++
              [TEntry (lit "path") (T (before COLON g.2))])].

Definition cgroup_ok (T : bytes -> wstr) (g : bytes * bytes * bytes) : Prop :=
  text_line 1023 (cgroup_line g) /\ (COLON ∉ g.1.1) /\ (COLON ∉ g.1.2) /\ g.1.1 <> [] /\
  forall s, s ∈ [g.1.1; g.1.2; before COLON g.2] -> text_is cfg s (T s).

Lemma prints_cgroup T g : cgroup_ok T g -> prints cfg (show_cgroup (cgroup_line g)) [cgroup_tree T g].
Proof.
  destruct g as [[h s] p]. intros (_ & Hh & Hs & Hne & HT). unfold cgroup_line, cgroup_tree, show_cgroup in *.
  cbn [fst snd] in *. unfold strsep. rewrite !split_at_app by done.
  assert (text_is cfg h (T h)) as Th by (apply HT; in_list).
  assert (text_is cfg s (T s)) as Ts by (apply HT; in_list).
  assert (text_is cfg (before COLON p) (T (before COLON p))) as Tp by (apply HT; in_list).
  unfold before in *.
  destruct (split_at COLON p) as [[p1 p2]|], s as [|c s];
    (eapply prints_eq; [prints_steps; by apply name_text|same_trees]).
Qed.

Lemma prints_cgroups_loop T groups fuel :
  Forall (cgroup_ok T) groups -> length groups < fuel ->
  prints cfg (cgroups_loop fuel (file_of (map cgroup_line groups))) (map (cgroup_tree T) groups).
Proof.
  intros Hg. revert fuel. induction Hg as [|g groups Hg _ IH]; intros [|fuel] Hf; cbn in Hf; try lia;
    [apply prints_ret|].
  cbn [map cgroups_loop]. rewrite fgets_file by apply Hg.
  reading (apply reads_pure, drop_last_newline). apply prints_alloc.
  apply (prints_seq cfg _ _ [_]); [by apply prints_cgroup|]. apply IH. lia.
Qed.

Lemma prints_cgroups T groups :
  read_file (lit "/proc/self/cgroup") = Some (file_of (map cgroup_line groups)) ->
  Forall (cgroup_ok T) groups -> prints cfg show_cgroups_linux (map (cgroup_tree T) groups).
Proof.
  intros E Hg. unfold show_cgroups_linux. rewrite E. apply prints_cgroups_loop; [done|].
  pose proof (file_of_length (map cgroup_line groups)) as Hl. rewrite length_map in Hl. lia.
Qed.

(** When /proc/self/cgroup has lines of a hierarchy, subsystems and a path,
    separated by colons, that fit in the buffer, [show_cgroups_linux] prints
    for each line, in order, a container named after the hierarchy with one
    object: the subsystems, unless they are empty, and the path up to its
    first colon. *)
Theorem show_cgroups_correct T groups :
  read_file (lit "/proc/self/cgroup") = Some (file_of (map cgroup_line groups)) ->
  Forall (cgroup_ok T) groups -> prints cfg show_cgroups_linux (map (cgroup_tree T) groups).
Proof. apply prints_cgroups. Qed.

(** *** Ancestors *)

(** A status file as the kernel writes it: the name before the parent. *)
Definition status_file (before between after : list bytes) (name ppid : bytes) : bytes :=
  file_of (before ++ (lit "Name:" ++ [TAB] ++ name) :: between ++ (lit "PPid:" ++ [TAB] ++ ppid) :: after).

Definition other_line (l : bytes) : Prop :=
  text_line 1023 l /\ prefix_of (lit "Name:") l = false /\ prefix_of (lit "PPid:") l = false.

Lemma file_of_app ls ls' : file_of (ls ++ ls') = file_of ls ++ file_of ls'.
Proof. unfold file_of. by rewrite map_app, concat_app. Qed.

Lemma status_skip ls fuel f name ppid :
  Forall other_line ls -> 
  status_fields (length ls + fuel) (file_of ls ++ f) name ppid = status_fields fuel f name ppid.
Proof.
  induction 1 as [|l ls (Hl & Hn & Hp) _ IH]; [done|]. rewrite file_of_cons, <- app_assoc. cbn [app].
  cbn [length Nat.add status_fields]. rewrite (fgets_line 1023) by done.
  rewrite drop_last_newline, outcome_bind_ok, Hn, Hp. apply IH.
Qed.

(** What the lines say of the process [pid]. *)
Definition status_of (pid name ppid : bytes) : Prop :=
  exists before between after, Forall other_line before /\ Forall other_line between /\
    read_file (status_path pid) = Some (status_file before between after name ppid) /\
    nz name /\ nz ppid /\ (NL ∉ name) /\ (NL ∉ ppid) /\ length name < 1017 /\ length ppid < 1017.

Lemma field_line field name :
  length field = 5 -> nz field -> NL ∉ field -> nz name -> NL ∉ name -> length name < 1017 ->
  text_line 1023 (field ++ [TAB] ++ name).
Proof.
  intros Hf Hnz Hnl Hn Hnn Hl. split_and!.
  - apply nz_app. split; [done|]. apply nz_app. split; [nz_lit|done].
  - rewrite !elem_of_app. intros [?|[Ht|?]]; [done| |done]. by apply list_elem_of_singleton in Ht.
  - len_lia.
Qed.

Lemma status_fields_ok pid name ppid n0 p0 :
  status_of pid name ppid ->
  exists f, read_file (status_path pid) = Some f /\
    status_fields (S (length f)) f n0 p0
    = Ok (Some (take PROCENV_TASK_COMM_NAME_LEN name), Some (take PROCENV_TASK_COMM_NAME_LEN ppid)).
Proof.
  intros (before & between & after & Hb & Hm & E & Hn & Hp & Hnl & Hpl & Hln & Hlp).
  eexists. split; [exact E|]. unfold status_file.
  pose proof (file_of_length (before ++ (lit "Name:" ++ [TAB] ++ name) :: between ++
                (lit "PPid:" ++ [TAB] ++ ppid) :: after)) as Hlen.
  set (fuel := S (length (file_of _))). rewrite length_app in Hlen. cbn [length] in Hlen.
  rewrite length_app in Hlen. cbn [length] in Hlen.
  assert (exists k, fuel = length before + S (length between + S k)) as [k ->]
    by (exists (fuel - length before - length between - 2); unfold fuel; lia).
  rewrite file_of_app, status_skip, file_of_cons by done. cbn [status_fields].
  unfold PROCENV_BUFFER. rewrite (fgets_line 1023) by (apply field_line; [done|nz_lit|by vm_compute; set_solver|done..]).
  rewrite drop_last_newline, outcome_bind_ok.
  change (prefix_of (lit "Name:") (lit "Name:" ++ [TAB] ++ name)) with true.
  change (prefix_of (lit "PPid:") (lit "Name:" ++ [TAB] ++ name)) with false.
  change (drop 6 (lit "Name:" ++ [TAB] ++ name)) with name. cbv beta iota zeta.
  rewrite file_of_app, status_skip, file_of_cons by done. cbn [status_fields].
  unfold PROCENV_BUFFER. rewrite (fgets_line 1023) by (apply field_line; [done|nz_lit|by vm_compute; set_solver|done..]).
  by rewrite drop_last_newline, outcome_bind_ok.
Qed.

(** The ancestors of [pid] up to process 1, or up to a process that cannot be
    read; the names are cut at 15 characters. *)
Inductive lineage : bytes -> list bytes -> Prop :=
| lineage_init name ppid :
    status_of (lit "1") name ppid ->
    lineage (lit "1") [ancestor_text (lit "1") (take PROCENV_TASK_COMM_NAME_LEN name)]
| lineage_lost pid : read_file (status_path pid) = None -> lineage pid [UNKNOWN_STR]
| lineage_parent pid name ppid ts :
    pid <> lit "1" -> nz pid -> status_of pid name ppid -> length ppid <= PROCENV_TASK_COMM_NAME_LEN ->
    lineage ppid ts -> lineage pid (ancestor_text pid (take PROCENV_TASK_COMM_NAME_LEN name) :: ts).

Lemma nz_status_name pid name ppid : status_of pid name ppid -> nz (take PROCENV_TASK_COMM_NAME_LEN name).
Proof. intros (? & ? & ? & _ & _ & _ & Hn & _). by apply Forall_take. Qed.

Lemma lineage_ne pid ts : lineage pid ts -> ts <> [].
Proof. by destruct 1. Qed.

Lemma branch_ok pid ts fuel n0 p0 str s m :
  lineage pid ts -> length ts <= fuel -> cstr_of str s -> nz s ->
  exists b m', branch_loop fuel pid n0 p0 str m = Ok (Some b, m') /\ cstr_of (Some b) (s ++ listing ts) /\
    nz (listing ts) /\ ticked m m'.
Proof.
  intros Hl. revert fuel n0 p0 str s m. induction Hl as [name ppid Hs|pid Hs|pid name ppid ts Hne Hp Hs Hlp Hl IH];
    intros [|fuel] n0 p0 str s m Hf Hb Hnz; cbn in Hf; try lia; cbn [branch_loop].
  - destruct (status_fields_ok _ name ppid n0 p0 Hs) as (f & -> & E). apply nz_status_name in Hs.
    step_with (pure_ok _ _ m E). cbv beta iota. erewrite prog_bind_ok by reflexivity.
    rewrite bool_decide_true by done.
    destruct (appendf_renders str s (lit "%s ('%s')") [AStr (lit "1"); AStr (take PROCENV_TASK_COMM_NAME_LEN name)]
      (ancestor_text (lit "1") (take PROCENV_TASK_COMM_NAME_LEN name)) m Hb Hnz) as (b & m' & Eb & Hb' & Ht);
      [unfold ancestor_text; render; apply plain_intro; nz_lit|].
    exists b, m'. unfold listing. cbn [map concat]. rewrite app_nil_r. split_and!; [done|done| |done].
    apply nz_ancestor; [nz_lit|done].
  - rewrite Hs. destruct (appendf_renders str s (lit "%s") [AStr UNKNOWN_STR] UNKNOWN_STR m Hb Hnz)
      as (b & m' & Eb & Hb' & Ht); [render; apply plain_intro; nz_lit|].
    exists b, m'. unfold listing. cbn [map concat]. rewrite app_nil_r. split_and!; [done|done|nz_lit|done].
  - destruct (status_fields_ok _ name ppid n0 p0 Hs) as (f & -> & E). pose proof (nz_status_name _ _ _ Hs) as Hn.
    step_with (pure_ok _ _ m E). cbv beta iota. erewrite prog_bind_ok by reflexivity.
    rewrite bool_decide_false by done. rewrite (take_ge ppid) by done.
    destruct (appendf_renders str s (lit "%s ('%s'), ") [AStr pid; AStr (take PROCENV_TASK_COMM_NAME_LEN name)]
      (ancestor_text pid (take PROCENV_TASK_COMM_NAME_LEN name) ++ lit ", ") m Hb Hnz)
      as (b & m1 & Eb & Hb' & Ht); [unfold ancestor_text; render; by rewrite <- !app_assoc|].
    step_with Eb. erewrite prog_bind_ok by reflexivity.
    pose proof (nz_ancestor pid _ Hp Hn) as Ha.
    destruct (IH fuel (Some (take PROCENV_TASK_COMM_NAME_LEN name)) (Some ppid) (Some b)
                (s ++ ancestor_text pid (take PROCENV_TASK_COMM_NAME_LEN name) ++ lit ", ") m1)
      as (b2 & m2 & E2 & Hb2 & Hnl & Ht2); [lia|done| |].
    { apply nz_app. split; [done|]. apply nz_app. split; [done|nz_lit]. }
    exists b2, m2. rewrite listing_cons by (by eapply lineage_ne). split_and!.
    + exact E2.
    + by rewrite <- !app_assoc in Hb2.
    + apply nz_app. split; [done|]. apply nz_app. split; [nz_lit|done].
    + by etrans.
Qed.

Lemma prints_branch ts w :
  lineage (int_text getpid) ts -> length ts <= PID_MAX_LIMIT -> text_is cfg (listing ts) w ->
  prints cfg handle_proc_branch_linux [TEntry (lit "ancestry") w].
Proof.
  intros Hl Hlen Hw. unfold handle_proc_branch_linux.
  reading (apply reads_pure, sprintf_renders; render).
  assert (reads cfg (in_mem (b ← branch_loop PID_MAX_LIMIT (int_text getpid) None None None; string_of b))
            (listing ts)) as Hr.
  { apply reads_mem. intros m.
    destruct (branch_ok _ _ PID_MAX_LIMIT None None None [] m Hl Hlen eq_refl (Forall_nil_2 _))
      as (b & m' & E & Hb & Hnz & Ht).
    exists m'. split; [|done]. step_with E. by apply (string_of_ok b). }
  reading (exact Hr). eapply prints_eq; [prints_steps|same_trees].
Qed.

(** C26: when the status files of the process and of its ancestors name their
    process and then its parent, and lead to process 1 or to a process that
    cannot be read, [handle_proc_branch_linux] ends and prints the ancestors,
    the process first: the identifier of each and its name, cut at 15
    characters, separated by commas. *)
Theorem handle_proc_branch_correct ts w :
  lineage (int_text getpid) ts -> length ts <= PID_MAX_LIMIT -> text_is cfg (listing ts) w ->
  prints cfg handle_proc_branch_linux [TEntry (lit "ancestry") w].
Proof. apply prints_branch. Qed.

(** *** The calls are well placed *)
Class ProcAnswers : Prop := {
  answers_cgroups : read_file (lit "/proc/self/cgroup") = None \/
    exists T groups, read_file (lit "/proc/self/cgroup") = Some (file_of (map cgroup_line groups)) /\
      Forall (cgroup_ok T) groups;
  answers_oom : forall file f, file ∈ oom_files -> oom_file file = Some f ->
    exists ls, f = file_of ls /\ Forall (fun l => text_line 1023 l /\ showable cfg l) ls;
  answers_lineage : exists ts, lineage (int_text getpid) ts /\ length ts <= PID_MAX_LIMIT /\
    showable cfg (listing ts);
  answers_getcpu : macro (lit "HAVE_SCHED_GETCPU") = None -> exists cpu, procenv_getcpu = Ok cpu
}.
Context `{!ProcAnswers}.

Lemma typed_cgroups_linux : typed cfg CMembers DRIVER_DEPTH show_cgroups_linux.
Proof.
  destruct answers_cgroups as [E|(T & groups & E & Hg)]; [unfold show_cgroups_linux; rewrite E; apply typed_ret|].
  eapply typed_prints; [by apply prints_cgroups| |].
  - apply forallb_forall. intros t Ht. apply in_map_iff in Ht as (g & <- & _). unfold cgroup_tree.
    by case_bool_decide.
  - apply Forall_map, Forall_forall. intros g _. unfold cgroup_tree, DRIVER_DEPTH.
    case_bool_decide; cbn; lia.
Qed.

Lemma typed_oom_lines d file fuel ls :
  nameable cfg file -> Forall (fun l => text_line 1023 l /\ showable cfg l) ls -> length ls < fuel ->
  typed cfg CMembers d (oom_lines fuel file (file_of ls)).
Proof.
  intros Hn Hls. revert fuel. induction Hls as [|l ls [Hl Hs] _ IH]; intros [|fuel] Hf; cbn in Hf; try lia;
    [apply typed_ret|].
  cbn [oom_lines]. rewrite fgets_file by done. reading (apply reads_pure, drop_last_newline).
  typed_step. apply IH. lia.
Qed.

Lemma typed_oom_linux : typed cfg CMembers DRIVER_DEPTH show_oom_linux.
Proof.
  unfold show_oom_linux. typed_steps. destruct (oom_file x) as [f|] eqn:E; [|apply typed_ret].
  destruct (answers_oom x f) as (ls & -> & Hls); [done|done|].
  apply typed_oom_lines; [|done|pose proof (file_of_length ls); lia].
  eapply nameable_of; [|eassumption]. by vm_compute.
Qed.

Lemma typed_branch_linux : typed cfg CMembers DRIVER_DEPTH handle_proc_branch_linux.
Proof.
  destruct answers_lineage as (ts & Hl & Hlen & w & Hw).
  eapply typed_prints; [by eapply prints_branch|done|]. apply Forall_cons_2; [|apply Forall_nil_2].
  unfold DRIVER_DEPTH. cbn. lia.
Qed.

Lemma typed_cpu_linux : typed cfg CMembers DRIVER_DEPTH show_cpu_linux.
Proof.
  assert (exists cpu, reads cfg (if ifdef (lit "HAVE_SCHED_GETCPU") then mret sched_getcpu else pure procenv_getcpu) cpu)
    as [cpu Hr].
  { unfold ifdef. case_bool_decide as Hm.
    - exists sched_getcpu. apply (reads_pure cfg (Ok sched_getcpu)). done.
    - destruct answers_getcpu as [cpu E]; [by destruct (macro _); [destruct Hm|]|].
      exists cpu. by apply reads_pure. }
  unfold show_cpu_linux. reading (exact Hr). typed_steps.
Qed.
End Spec.
