(* ===== verification/LinuxIpc.v ===== *)
(** LinuxIpc: the System V objects (show_msg_queues_linux, show_semaphores_linux
    and show_shared_mem_linux of src/src/platform/linux/platform.c).

    The kernel keeps the objects in an array; the first query of each function
    gives the index of the last slot in use, and unused slots are passed
    over. *)
From S2P Require Import Prelude Memory PrList Locale PString StringUtil Encode Output OutputSpec Document Prints Util Affinity Display Format Platform Process Report Runtime Generic LinuxProc.

Record ipc_perm : Type := mk_ipc_perm {
  p_key : Z;
  p_seq : Z;
  p_mode : Z;
  p_uid : Z;
  p_gid : Z;
  p_cuid : Z;
  p_cgid : Z
}.

Record msqid_ds : Type := mk_msqid_ds {
  msg_perm : ipc_perm;
  msg_stime : Z;
  msg_rtime : Z;
  msg_ctime : Z;
  msg_cbytes : Z;
  msg_qnum : Z;
  msg_qbytes : Z;
  msg_lspid : Z;
  msg_lrpid : Z
}.

Record semid_ds : Type := mk_semid_ds {
  sem_perm : ipc_perm;
  sem_otime : Z;
  sem_ctime : Z;
  sem_nsems : Z
}.

Record shmid_ds : Type := mk_shmid_ds {
  shm_perm : ipc_perm;
  shm_segsz : Z;
  shm_atime : Z;
  shm_dtime : Z;
  shm_ctime : Z;
  shm_cpid : Z;
  shm_lpid : Z;
  shm_nattch : Z
}.

(** [msgctl], [semctl] and [shmctl]: the last index and the fields of the
    summary by name; the identifier and the object of a slot, when it is in
    use. *)
Class Ipc : Type := {
  msg_info : option (Z * (bytes -> Z));
  msg_stat : Z -> option (Z * msqid_ds);
  sem_info : option (Z * (bytes -> Z));
  sem_stat : Z -> option (Z * semid_ds);
  shm_info : option (Z * (bytes -> Z));
  shm_stat : Z -> option (Z * shmid_ds)
}.

Definition CTIME_BUFFER : nat := 32.
Definition SHM_DEST : Z := 512.
Definition SHM_LOCKED : Z := 1024.

Definition msginfo_fields : list bytes :=
  [ lit "msgpool"; lit "msgmap"; lit "msgmax"; lit "msgmnb"; lit "msgmni"; lit "msgssz"; lit "msgtql";
    lit "msgseg" ].

Definition seminfo_fields : list bytes :=
  [ lit "semmap"; lit "semmni"; lit "semmns"; lit "semmnu"; lit "semmsl"; lit "semopm"; lit "semume";
    lit "semusz"; lit "semvmx"; lit "semaem" ].

(** The titles and the fields of struct shm_info that are shown as longs. *)
Definition shm_info_fields : list (bytes * bytes) :=
  [ (lit "pages", lit "shm_tot"); (lit "shm_rss", lit "shm_rss"); (lit "shm_swp", lit "shm_swp");
    (lit "swap_attempts", lit "swap_attempts"); (lit "swap_successes", lit "swap_successes") ].

Section Show.
Context `{Allocator} `{Locale} `{Util.System} `{Headers} `{Machine} `{Identity} `{Clock} `{Ipc}.

(** [format_time (&t, buffer, len)]: what the buffer holds. *)
Definition format_time (t : Z) (len : nat) : prog ostate bytes :=
  match ctime_r t with
  | None => die "failed to format time"
  | Some str =>
    if len <? length str then exit_failure "buffer too small" else pure (drop_last str)
  end.

(** A time that may not have been set. *)
Definition format_time_set (t : Z) : prog ostate bytes :=
  if Z.eqb t 0 then mret NA_STR else format_time t CTIME_BUFFER.

Definition permissions_string (mode : Z) : prog ostate bytes :=
  modestr ← in_mem (b ← format_perms mode;
                    match b with Some b => s ← pure (string_at b 0); mret (Some s) | None => mret None end);
  match modestr with
  | None => die "failed to allocate space for permissions string"
  | Some modestr => mret modestr
  end.

Definition id_string (id : Z) : prog ostate bytes :=
  in_mem (b ← appendf None (lit "%d") [ANum id]; string_of b).

(** The parts the three functions have in common. *)
Definition show_key (perm : ipc_perm) : prog ostate unit :=
  entry (lit "key") (lit "0x%.*x") [ANum (sizeof (lit "void *") * 2); ANum (p_key perm)];;
  entry (lit "sequence") (lit "%u") [ANum (p_seq perm)].

Definition show_permissions (perm : ipc_perm) (modestr : bytes) : prog ostate unit :=
  section_open (lit "permissions");;
  (entry (lit "octal") (lit "%4.4o") [ANum (p_mode perm)];;
   entry (lit "symbolic") (lit "%s") [AStr modestr]);;
  section_close.

Definition show_ids (title utitle gtitle : bytes) (u g : Z) : prog ostate unit :=
  section_open title;;
  (name ← str_arg (get_user_name u);
   entry utitle (lit "%u ('%s')") [ANum u; name];;
   name ← str_arg (get_group_name g);
   entry gtitle (lit "%u ('%s')") [ANum g; name]);;
  section_close.

Definition show_creator (perm : ipc_perm) : prog ostate unit :=
  show_ids (lit "creator") (lit "euid") (lit "egid") (p_cuid perm) (p_cgid perm).
Definition show_owner (perm : ipc_perm) : prog ostate unit :=
  show_ids (lit "owner") (lit "uid") (lit "gid") (p_uid perm) (p_gid perm).

Definition show_ipc_time (title : bytes) (t : Z) (formatted : bytes) : prog ostate unit :=
  entry title (lit "%lu (%s)") [ANum t; AStr formatted].

Definition show_pid (title : bytes) (pid : Z) (name : option bytes) : prog ostate unit :=
  entry title (lit "%d (%s)") [ANum pid; AStr (default UNKNOWN_STR name)].

(** ** Message queues *)
Definition show_msg_queue (i : Z) : prog ostate unit :=
  match msg_stat i with
  | None => mret tt
  | Some (id, ds) =>
    let perm := msg_perm ds in
    modestr ← permissions_string (p_mode perm);
    formatted_stime ← format_time_set (msg_stime ds);
    formatted_rtime ← format_time_set (msg_rtime ds);
    formatted_ctime ← format_time_set (msg_ctime ds);
    lspid ← in_mem (pid_to_name (msg_lspid ds));
    lrpid ← in_mem (pid_to_name (msg_lrpid ds));
    id_str ← id_string id;
    container_open id_str;;
    (object_open false;;
     (show_key perm;;
      show_permissions perm modestr;;
      show_creator perm;;
      show_owner perm;;
      section_open (lit "times");;
      (show_ipc_time (lit "last send (stime)") (msg_stime ds) formatted_stime;;
       show_ipc_time (lit "last receive (rtime)") (msg_rtime ds) formatted_rtime;;
       show_ipc_time (lit "last change (ctime)") (msg_ctime ds) formatted_ctime);;
      section_close;;
      entry (lit "queue_bytes") (lit "%lu") [ANum (msg_cbytes ds)];;
      entry (lit "msg_qnum") (lit "%lu") [ANum (msg_qnum ds)];;
      entry (lit "msg_qbytes") (lit "%lu") [ANum (msg_qbytes ds)];;
      show_pid (lit "last msgsnd pid") (msg_lspid ds) lspid;;
      show_pid (lit "last msgrcv pid") (msg_lrpid ds) lrpid);;
     object_close false);;
    container_close
  end.

Definition show_msg_queues_linux : prog ostate unit :=
  match msg_info with
  | None => mret tt
  | Some (max, info) =>
    section_open (lit "info");;
    for_each msginfo_fields (fun f => entry f (lit "%d") [ANum (info f)]);;
    section_close;;
    container_open (lit "sets");;
    (object_open false;;
     for_each (seqZ 0 (max + 1)) show_msg_queue;;
     object_close false);;
    container_close
  end.

(** ** Semaphores *)
Definition show_semaphore (i : Z) : prog ostate unit :=
  match sem_stat i with
  | None => mret tt
  | Some (id, ds) =>
    let perm := sem_perm ds in
    modestr ← permissions_string (p_mode perm);
    formatted_otime ← format_time_set (sem_otime ds);
    formatted_ctime ← format_time (sem_ctime ds) CTIME_BUFFER;
    id_str ← id_string id;
    container_open id_str;;
    (object_open false;;
     (show_key perm;;
      entry (lit "number in set") (lit "%lu") [ANum (sem_nsems ds)];;
      show_permissions perm modestr;;
      show_creator perm;;
      show_owner perm;;
      section_open (lit "times");;
      (show_ipc_time (lit "last semop (otime)") (sem_otime ds) formatted_otime;;
       show_ipc_time (lit "last change (ctime)") (sem_ctime ds) formatted_ctime);;
      section_close);;
     object_close false);;
    container_close
  end.

Definition show_semaphores_linux : prog ostate unit :=
  match sem_info with
  | None => mret tt
  | Some (max, info) =>
    section_open (lit "info");;
    for_each seminfo_fields (fun f => entry f (lit "%d") [ANum (info f)]);;
    section_close;;
    container_open (lit "set");;
    (object_open false;;
     for_each (seqZ 0 (max + 1)) show_semaphore;;
     object_close false);;
    container_close
  end.

(** ** Shared memory *)
Definition flag_text (flag : Z) : bytes :=
  if Z.eqb flag 0 then NO_STR else if Z.ltb 0 flag then YES_STR else NA_STR.

Definition show_segment (i : Z) : prog ostate unit :=
  match shm_stat i with
  | None => mret tt
  | Some (id, ds) =>
    let perm := shm_perm ds in
    modestr ← permissions_string (p_mode perm);
    let locked := Z.land (p_mode perm) SHM_LOCKED in
    let destroy := Z.land (p_mode perm) SHM_DEST in
    formatted_atime ← format_time (shm_atime ds) CTIME_BUFFER;
    formatted_ctime ← format_time (shm_ctime ds) CTIME_BUFFER;
    formatted_dtime ← format_time (shm_dtime ds) CTIME_BUFFER;
    cpid ← in_mem (pid_to_name (shm_cpid ds));
    lpid ← in_mem (pid_to_name (shm_lpid ds));
    id_str ← id_string id;
    container_open id_str;;
    (object_open false;;
     (show_key perm;;
      show_permissions perm modestr;;
      section_open (lit "pids");;
      (show_pid (lit "create") (shm_cpid ds) cpid;;
       show_pid (lit "last") (shm_lpid ds) lpid);;
      section_close;;
      entry (lit "attachers") (lit "%lu") [ANum (shm_nattch ds)];;
      show_creator perm;;
      show_owner perm;;
      entry (lit "segment size") (lit "%lu") [ANum (shm_segsz ds)];;
      section_open (lit "times");;
      (show_ipc_time (lit "last attach (atime)") (shm_atime ds) formatted_atime;;
       show_ipc_time (lit "last detach (dtime)") (shm_dtime ds) formatted_dtime;;
       show_ipc_time (lit "last change (ctime)") (shm_ctime ds) formatted_ctime);;
      section_close;;
      entry (lit "locked") (lit "%s") [AStr (flag_text locked)];;
      entry (lit "destroy") (lit "%s") [AStr (flag_text destroy)]);;
     object_close false);;
    container_close
  end.

Definition show_shared_mem_linux : prog ostate unit :=
  match shm_info with
  | None => mret tt
  | Some (max, info) =>
    section_open (lit "info");;
    (entry (lit "segments") (lit "%u") [ANum (info (lit "used_ids"))];;
     for_each shm_info_fields (fun f => entry f.1 (lit "%lu") [ANum (info f.2)]));;
    section_close;;
    container_open (lit "segments");;
    (object_open false;;
     for_each (seqZ 0 (max + 1)) show_segment;;
     object_close false);;
    container_close
  end.
End Show.

(** ** What they print *)
Section Spec.
Context `{AllocTotal} `{LocaleLaws} (cfg : settings).
Context `{!Util.System} `{!Headers} `{!Machine} `{!Identity} `{!Clock} `{!Ipc}.

(** The text of a time without its newline. *)
Definition clock_text (t : Z) : bytes := match ctime_r t with Some s => take (length s - 1) s | None => [] end.

Definition clock_ok (t : Z) : Prop := ctime_r t = Some (clock_text t ++ [NL]) /\ length (clock_text t) < CTIME_BUFFER.

Definition set_time_text (t : Z) : bytes := if Z.eqb t 0 then NA_STR else clock_text t.

Lemma reads_format_time t : clock_ok t -> reads cfg (format_time t CTIME_BUFFER) (clock_text t).
Proof.
  intros [E Hl]. unfold format_time. rewrite E. rewrite (proj2 (Nat.ltb_ge _ _)).
  - apply reads_pure, drop_last_newline.
  - rewrite length_app. cbn [length]. lia.
Qed.

Lemma reads_format_time_set t : (t <> 0%Z -> clock_ok t) -> reads cfg (format_time_set t) (set_time_text t).
Proof.
  intros Ht. unfold format_time_set, set_time_text. destruct (Z.eqb_spec t 0); [apply reads_ret|].
  by apply reads_format_time, Ht.
Qed.

Lemma reads_permissions_string mode : reads cfg (permissions_string mode) (perms_text mode).
Proof. eapply reads_bind; [apply reads_perms|apply reads_ret]. Qed.

Lemma reads_pid_to_name pid : reads cfg (in_mem (pid_to_name pid)) (process_title pid).
Proof. apply reads_mem, pid_to_name_ok. Qed.

(** *** Entries in common *)
Context (T : bytes -> wstr).

Definition user_text (u : Z) : bytes := default [] (get_user_name u).
Definition group_name_text (g : Z) : bytes := default [] (get_group_name g).

(** The key with the digits of a pointer of eight bytes. *)
Definition key_trees (perm : ipc_perm) : list tree :=
  [ TEntry (lit "key") (lit "0x" ++ zeros 16 (digits 16 (to_unsigned 32 (p_key perm))));
    TEntry (lit "sequence") (uint_text (p_seq perm)) ].

Definition octal_text (mode : Z) : wstr := pad false 4 (zeros 4 (digits 8 (to_unsigned 32 mode))).

Definition permissions_tree (perm : ipc_perm) : tree := TBlock KSection (lit "permissions")
  [ TEntry (lit "octal") (octal_text (p_mode perm)); TEntry (lit "symbolic") (perms_text (p_mode perm)) ].

Definition ids_tree (title utitle gtitle : bytes) (u g : Z) : tree := TBlock KSection title
  [ TEntry utitle (uint_text u ++ lit " ('" ++ T (user_text u) ++ lit "')");
    TEntry gtitle (uint_text g ++ lit " ('" ++ T (group_name_text g) ++ lit "')") ].

Definition creator_tree (perm : ipc_perm) : tree :=
  ids_tree (lit "creator") (lit "euid") (lit "egid") (p_cuid perm) (p_cgid perm).
Definition owner_tree (perm : ipc_perm) : tree :=
  ids_tree (lit "owner") (lit "uid") (lit "gid") (p_uid perm) (p_gid perm).

Definition ipc_time_tree (title : bytes) (t : Z) (s : bytes) : tree :=
  TEntry title (ulong_text t ++ lit " (" ++ T s ++ lit ")").

Definition pid_tree (title : bytes) (pid : Z) : tree :=
  TEntry title (int_text pid ++ lit " (" ++ T (default UNKNOWN_STR (process_title pid)) ++ lit ")").

(** The owners have names. *)
Definition perm_named (perm : ipc_perm) : Prop :=
  is_Some (get_user_name (p_cuid perm)) /\ is_Some (get_group_name (p_cgid perm)) /\
  is_Some (get_user_name (p_uid perm)) /\ is_Some (get_group_name (p_gid perm)).

Definition perm_strings (perm : ipc_perm) : list bytes :=
  [ user_text (p_cuid perm); group_name_text (p_cgid perm); user_text (p_uid perm); group_name_text (p_gid perm) ].

Context (pointers : sizeof (lit "void *") = 8%Z).

Lemma prints_key perm : prints cfg (show_key perm) (key_trees perm).
Proof.
  unfold show_key, key_trees. rewrite pointers. eapply prints_eq; [prints_steps|same_trees].
Qed.

Lemma printable_int n : printable (int_text n) = true.
Proof. exact (printable_number_text (mk_spec false false 0 None 0) 100 n). Qed.

Lemma int_text_ne n : int_text n <> [].
Proof. unfold int_text, signed_text. intros E. apply app_eq_nil in E as [_ E]. by apply (digits_nonempty 10) in E. Qed.

Lemma name_int n : name_is cfg (int_text n) (int_text n).
Proof. apply name_text; [apply printable_text, printable_int|apply int_text_ne]. Qed.

Lemma prints_permissions perm :
  prints cfg (show_permissions perm (perms_text (p_mode perm))) [permissions_tree perm].
Proof.
  pose proof (printable_text cfg _ (printable_perms (p_mode perm))) as Hp.
  unfold show_permissions, permissions_tree. eapply prints_eq; [prints_steps|same_trees].
Qed.

Lemma prints_ids title utitle gtitle u g :
  name_is cfg title title -> name_is cfg utitle utitle -> name_is cfg gtitle gtitle ->
  is_Some (get_user_name u) -> is_Some (get_group_name g) ->
  text_is cfg (user_text u) (T (user_text u)) -> text_is cfg (group_name_text g) (T (group_name_text g)) ->
  prints cfg (show_ids title utitle gtitle u g) [ids_tree title utitle gtitle u g].
Proof.
  intros Ht Hut Hgt [un Eu] [gn Eg] Hu Hg. unfold show_ids, ids_tree, user_text, group_name_text in *.
  rewrite Eu, Eg in *. cbn [from_option id str_arg] in *. eapply prints_eq; [prints_steps|same_trees].
Qed.

Lemma prints_ipc_time title t s :
  name_is cfg title title -> text_is cfg s (T s) -> prints cfg (show_ipc_time title t s) [ipc_time_tree title t s].
Proof. intros. unfold show_ipc_time, ipc_time_tree. eapply prints_eq; [prints_steps|same_trees]. Qed.

Lemma prints_pid title pid :
  name_is cfg title title -> text_is cfg (default UNKNOWN_STR (process_title pid)) (T (default UNKNOWN_STR (process_title pid))) ->
  prints cfg (show_pid title pid (process_title pid)) [pid_tree title pid].
Proof. intros. unfold show_pid, pid_tree. eapply prints_eq; [prints_steps|same_trees]. Qed.

(** The parts of an object. *)
Ltac ipc_parts :=
  lazymatch goal with
  | |- name_is _ (int_text _) _ => apply name_int
  | |- prints _ (show_key _) _ => apply prints_key
  | |- prints _ (show_permissions _ _) _ => apply prints_permissions
  | |- prints _ (show_creator _) _ => apply prints_ids; solve [solve_name|assumption]
  | |- prints _ (show_owner _) _ => apply prints_ids; solve [solve_name|assumption]
  | |- prints _ (show_ipc_time _ _ _) _ => apply prints_ipc_time; solve [solve_name|assumption]
  | |- prints _ (show_pid _ _ _) _ => apply prints_pid; solve [solve_name|assumption]
  end.

(** *** Message queues *)
Definition queue_tree (id : Z) (ds : msqid_ds) : tree := TBlock KContainer (int_text id)
  [ TObject
      (key_trees (msg_perm ds) ++
       [ permissions_tree (msg_perm ds); creator_tree (msg_perm ds); owner_tree (msg_perm ds);
         TBlock KSection (lit "times")
           [ ipc_time_tree (lit "last send (stime)") (msg_stime ds) (set_time_text (msg_stime ds));
             ipc_time_tree (lit "last receive (rtime)") (msg_rtime ds) (set_time_text (msg_rtime ds));
             ipc_time_tree (lit "last change (ctime)") (msg_ctime ds) (set_time_text (msg_ctime ds)) ];
         TEntry (lit "queue_bytes") (ulong_text (msg_cbytes ds));
         TEntry (lit "msg_qnum") (ulong_text (msg_qnum ds));
         TEntry (lit "msg_qbytes") (ulong_text (msg_qbytes ds));
         pid_tree (lit "last msgsnd pid") (msg_lspid ds);
         pid_tree (lit "last msgrcv pid") (msg_lrpid ds) ]) ].

Definition queue_times (ds : msqid_ds) : list Z := [msg_stime ds; msg_rtime ds; msg_ctime ds].

Definition queue_strings (ds : msqid_ds) : list bytes :=
  perm_strings (msg_perm ds) ++ map set_time_text (queue_times ds) ++
  map (fun pid => default UNKNOWN_STR (process_title pid)) [msg_lspid ds; msg_lrpid ds].

Definition queue_ok (ds : msqid_ds) : Prop :=
  perm_named (msg_perm ds) /\ Forall (fun t => t <> 0%Z -> clock_ok t) (queue_times ds) /\
  Forall (fun s => text_is cfg s (T s)) (queue_strings ds).

Lemma prints_msg_queue i id ds :
  msg_stat i = Some (id, ds) -> queue_ok ds -> prints cfg (show_msg_queue i) [queue_tree id ds].
Proof.
  intros E ((Hcu & Hcg & Hu & Hg) & Ht & Hs). unfold show_msg_queue. rewrite E.
  unfold queue_strings, queue_times, perm_strings in *. cbn [map app] in *. rewrite !Forall_cons in Ht. rewrite !Forall_cons in Hs.
  destruct Ht as (Hst & Hrt & Hct & _). destruct Hs as (S1 & S2 & S3 & S4 & S5 & S6 & S7 & S8 & S9 & _).
  reading (apply reads_permissions_string).
  reading (by apply reads_format_time_set). reading (by apply reads_format_time_set).
  reading (by apply reads_format_time_set). reading (apply reads_pid_to_name). reading (apply reads_pid_to_name).
  reading (apply reads_number_string). eapply prints_eq.
  - prints_steps; ipc_parts.
  - unfold queue_tree, creator_tree, owner_tree. cbn [app]. same_trees.
Qed.

(** The objects of the slots in use. *)
Definition slots {A} (stat : Z -> option (Z * A)) (max : Z) : list (Z * A) := omap stat (seqZ 0 (max + 1)).

Lemma prints_slots {A} (stat : Z -> option (Z * A)) max (show : Z -> prog ostate unit) (tree_of : Z -> A -> tree) :
  (forall i, stat i = None -> show i = mret tt) ->
  (forall i id ds, i ∈ seqZ 0 (max + 1) -> stat i = Some (id, ds) -> prints cfg (show i) [tree_of id ds]) ->
  prints cfg (for_each (seqZ 0 (max + 1)) show) (map (fun e => tree_of e.1 e.2) (slots stat max)).
Proof.
  unfold slots. generalize (seqZ 0 (max + 1)) as idx. intros idx Hn Hs.
  eapply prints_eq; [apply prints_for_each; intros i Hi;
    instantiate (1 := fun i => match stat i with Some (id, ds) => [tree_of id ds] | None => [] end); cbv beta|].
  - destruct (stat i) as [[id ds]|] eqn:E; [by apply (Hs i)|]. rewrite Hn by done. apply prints_ret.
  - clear. induction idx as [|i idx IH]; [done|]. cbn. destruct (stat i) as [[id ds]|]; cbn; by rewrite IH.
Qed.

Lemma elem_slots {A} (stat : Z -> option (Z * A)) max i id ds :
  i ∈ seqZ 0 (max + 1) -> stat i = Some (id, ds) -> (id, ds) ∈ slots stat max.
Proof. intros Hi E. apply list_elem_of_omap. by exists i. Qed.

Lemma prints_fields {A} (fields : list A) (title : A -> bytes) (show : A -> prog ostate unit) (text : A -> wstr) :
  forallb (fun f => printable (title f) && negb (bool_decide (title f = []))) fields = true ->
  (forall f, name_is cfg (title f) (title f) -> prints cfg (show f) [TEntry (title f) (text f)]) ->
  prints cfg (for_each fields show) (map (fun f => TEntry (title f) (text f)) fields).
Proof.
  intros Hf Hs. rewrite forallb_forall in Hf. eapply prints_eq.
  - apply (prints_for_each cfg fields show (fun f => [TEntry (title f) (text f)])). intros f Hin. apply Hs.
    apply list_elem_of_In, Hf, andb_prop in Hin as [Hp Hne].
    apply name_text; [by apply printable_text|by apply negb_true_iff, bool_decide_eq_false in Hne].
  - clear. induction fields as [|f fields IH]; [done|]. cbn. by rewrite IH.
Qed.

Definition queue_info (info : bytes -> Z) : tree :=
  TBlock KSection (lit "info") (map (fun f => TEntry f (int_text (info f))) msginfo_fields).

Lemma prints_queues max info :
  msg_info = Some (max, info) -> Forall (fun e => queue_ok e.2) (slots msg_stat max) ->
  prints cfg show_msg_queues_linux
    [ queue_info info;
      TBlock KContainer (lit "sets") [TObject (map (fun e => queue_tree e.1 e.2) (slots msg_stat max))] ].
Proof.
  intros E Hq. rewrite Forall_forall in Hq. unfold show_msg_queues_linux. rewrite E.
  eapply prints_eq.
  - prints_steps.
    + apply (prints_fields _ (fun f => f) _ (fun f => int_text (info f))); [by vm_compute|].
      intros f Hf. eapply prints_eq; [prints_steps|same_trees].
    + apply (prints_slots msg_stat max show_msg_queue queue_tree).
      * intros i En. unfold show_msg_queue. by rewrite En.
      * intros i id ds Hi Es. apply (prints_msg_queue i); [done|]. by apply (Hq (id, ds)), (elem_slots msg_stat max i).
  - same_trees.
Qed.

(** C28: when the message queues of the system can be queried and their owners
    have names, [show_msg_queues_linux] prints the summary and one container
    for each slot in use, in order: its key with the digits of a pointer, its
    permissions in octal and in letters, creator and owner with their names,
    the times ("n/a" for one that was not set), the sizes, and the last
    processes with the first word of their command lines. *)
Theorem show_msg_queues_correct max info :
  msg_info = Some (max, info) -> Forall (fun e => queue_ok e.2) (slots msg_stat max) ->
  prints cfg show_msg_queues_linux
    [ queue_info info;
      TBlock KContainer (lit "sets") [TObject (map (fun e => queue_tree e.1 e.2) (slots msg_stat max))] ].
Proof. apply prints_queues. Qed.

(** *** Semaphores *)
Definition semaphore_tree (id : Z) (ds : semid_ds) : tree := TBlock KContainer (int_text id)
  [ TObject
      (key_trees (sem_perm ds) ++
       [ TEntry (lit "number in set") (ulong_text (sem_nsems ds));
         permissions_tree (sem_perm ds); creator_tree (sem_perm ds); owner_tree (sem_perm ds);
         TBlock KSection (lit "times")
           [ ipc_time_tree (lit "last semop (otime)") (sem_otime ds) (set_time_text (sem_otime ds));
             ipc_time_tree (lit "last change (ctime)") (sem_ctime ds) (clock_text (sem_ctime ds)) ] ]) ].

Definition semaphore_ok (ds : semid_ds) : Prop :=
  perm_named (sem_perm ds) /\ (sem_otime ds <> 0%Z -> clock_ok (sem_otime ds)) /\ clock_ok (sem_ctime ds) /\
  Forall (fun s => text_is cfg s (T s))
    (perm_strings (sem_perm ds) ++ [set_time_text (sem_otime ds); clock_text (sem_ctime ds)]).

Lemma prints_semaphore i id ds :
  sem_stat i = Some (id, ds) -> semaphore_ok ds -> prints cfg (show_semaphore i) [semaphore_tree id ds].
Proof.
  intros E ((Hcu & Hcg & Hu & Hg) & Ho & Hc & Hs). unfold show_semaphore. rewrite E.
  unfold perm_strings in *. cbn [app] in *. rewrite !Forall_cons in Hs. destruct Hs as (S1 & S2 & S3 & S4 & S5 & S6 & _).
  reading (apply reads_permissions_string). reading (by apply reads_format_time_set).
  reading (by apply reads_format_time). reading (apply reads_number_string). eapply prints_eq.
  - prints_steps; ipc_parts.
  - same_trees.
Qed.

Definition semaphore_info (info : bytes -> Z) : tree :=
  TBlock KSection (lit "info") (map (fun f => TEntry f (int_text (info f))) seminfo_fields).

Lemma prints_semaphores max info :
  sem_info = Some (max, info) -> Forall (fun e => semaphore_ok e.2) (slots sem_stat max) ->
  prints cfg show_semaphores_linux
    [ semaphore_info info;
      TBlock KContainer (lit "set") [TObject (map (fun e => semaphore_tree e.1 e.2) (slots sem_stat max))] ].
Proof.
  intros E Hq. rewrite Forall_forall in Hq. unfold show_semaphores_linux. rewrite E.
  eapply prints_eq.
  - prints_steps.
    + apply (prints_fields _ (fun f => f) _ (fun f => int_text (info f))); [by vm_compute|].
      intros f Hf. eapply prints_eq; [prints_steps|same_trees].
    + apply (prints_slots sem_stat max show_semaphore semaphore_tree).
      * intros i En. unfold show_semaphore. by rewrite En.
      * intros i id ds Hi Es. apply (prints_semaphore i); [done|]. by apply (Hq (id, ds)), (elem_slots sem_stat max i).
  - same_trees.
Qed.

(** *** Shared memory *)
Definition segment_tree (id : Z) (ds : shmid_ds) : tree := TBlock KContainer (int_text id)
  [ TObject
      (key_trees (shm_perm ds) ++
       [ permissions_tree (shm_perm ds);
         TBlock KSection (lit "pids")
           [ pid_tree (lit "create") (shm_cpid ds); pid_tree (lit "last") (shm_lpid ds) ];
         TEntry (lit "attachers") (ulong_text (shm_nattch ds));
         creator_tree (shm_perm ds); owner_tree (shm_perm ds);
         TEntry (lit "segment size") (ulong_text (shm_segsz ds));
         TBlock KSection (lit "times")
           [ ipc_time_tree (lit "last attach (atime)") (shm_atime ds) (clock_text (shm_atime ds));
             ipc_time_tree (lit "last detach (dtime)") (shm_dtime ds) (clock_text (shm_dtime ds));
             ipc_time_tree (lit "last change (ctime)") (shm_ctime ds) (clock_text (shm_ctime ds)) ];
         TEntry (lit "locked") (flag_text (Z.land (p_mode (shm_perm ds)) SHM_LOCKED));
         TEntry (lit "destroy") (flag_text (Z.land (p_mode (shm_perm ds)) SHM_DEST)) ]) ].

Definition segment_ok (ds : shmid_ds) : Prop :=
  perm_named (shm_perm ds) /\ Forall clock_ok [shm_atime ds; shm_ctime ds; shm_dtime ds] /\
  Forall (fun s => text_is cfg s (T s))
    (perm_strings (shm_perm ds) ++ [clock_text (shm_atime ds); clock_text (shm_ctime ds); clock_text (shm_dtime ds)] ++
     map (fun pid => default UNKNOWN_STR (process_title pid)) [shm_cpid ds; shm_lpid ds]).

Lemma text_flag flag : text_is cfg (flag_text flag) (flag_text flag).
Proof. apply printable_text. unfold flag_text. by repeat case_match. Qed.

Lemma prints_segment i id ds :
  shm_stat i = Some (id, ds) -> segment_ok ds -> prints cfg (show_segment i) [segment_tree id ds].
Proof.
  intros E ((Hcu & Hcg & Hu & Hg) & Ht & Hs). unfold show_segment. rewrite E.
  unfold perm_strings in *. cbn [app map] in *. rewrite !Forall_cons in Ht. rewrite !Forall_cons in Hs.
  destruct Ht as (Ha & Hc & Hd & _). destruct Hs as (S1 & S2 & S3 & S4 & S5 & S6 & S7 & S8 & S9 & _).
  pose proof (text_flag (Z.land (p_mode (shm_perm ds)) SHM_LOCKED)) as Hl.
  pose proof (text_flag (Z.land (p_mode (shm_perm ds)) SHM_DEST)) as Hde.
  reading (apply reads_permissions_string). reading (by apply reads_format_time).
  reading (by apply reads_format_time). reading (by apply reads_format_time).
  reading (apply reads_pid_to_name). reading (apply reads_pid_to_name).
  reading (apply reads_number_string). eapply prints_eq.
  - prints_steps; ipc_parts.
  - same_trees.
Qed.

Definition segment_info (info : bytes -> Z) : tree :=
  TBlock KSection (lit "info")
    (TEntry (lit "segments") (uint_text (info (lit "used_ids"))) ::
     map (fun f => TEntry f.1 (ulong_text (info f.2))) shm_info_fields).

Lemma prints_segments max info :
  shm_info = Some (max, info) -> Forall (fun e => segment_ok e.2) (slots shm_stat max) ->
  prints cfg show_shared_mem_linux
    [ segment_info info;
      TBlock KContainer (lit "segments") [TObject (map (fun e => segment_tree e.1 e.2) (slots shm_stat max))] ].
Proof.
  intros E Hq. rewrite Forall_forall in Hq. unfold show_shared_mem_linux. rewrite E.
  eapply prints_eq.
  - prints_steps.
    + apply (prints_fields _ fst _ (fun f => ulong_text (info f.2))); [by vm_compute|].
      intros f Hf. eapply prints_eq; [prints_steps|same_trees].
    + apply (prints_slots shm_stat max show_segment segment_tree).
      * intros i En. unfold show_segment. by rewrite En.
      * intros i id ds Hi Es. apply (prints_segment i); [done|]. by apply (Hq (id, ds)), (elem_slots shm_stat max i).
  - same_trees.
Qed.
End Spec.

(** ** The calls are well placed *)
Section Typed.
Context `{AllocTotal} `{LocaleLaws} (cfg : settings).
Context `{!Util.System} `{!Headers} `{!Machine} `{!Identity} `{!Clock} `{!Ipc}.

Class IpcAnswers : Prop := {
  ipc_pointers : sizeof (lit "void *") = 8%Z;
  answers_queues : exists T, forall max info, msg_info = Some (max, info) ->
    Forall (fun e => queue_ok cfg T e.2) (slots msg_stat max);
  answers_semaphores : exists T, forall max info, sem_info = Some (max, info) ->
    Forall (fun e => semaphore_ok cfg T e.2) (slots sem_stat max);
  answers_segments : exists T, forall max info, shm_info = Some (max, info) ->
    Forall (fun e => segment_ok cfg T e.2) (slots shm_stat max)
}.
Context `{!IpcAnswers}.

Lemma typed_objects_of {A} m (info : tree) title (objects : list A) (tree_of : A -> tree) :
  prints cfg m [info; TBlock KContainer title [TObject (map tree_of objects)]] ->
  well_placed CMembers info = true -> depth info <= 3 ->
  (forall x, well_placed CMembers (tree_of x) = true /\ depth (tree_of x) <= 3) ->
  typed cfg CMembers DRIVER_DEPTH m.
Proof.
  intros Hp Hw Hd Ho. eapply typed_prints; [exact Hp| |].
  - cbn. rewrite Hw. cbn. rewrite !andb_true_r. apply forallb_forall. intros t Ht.
    apply in_map_iff in Ht as (x & <- & _). apply Ho.
  - apply Forall_cons_2; [unfold DRIVER_DEPTH; lia|]. apply Forall_cons_2; [|apply Forall_nil_2].
    unfold DRIVER_DEPTH. cbn. do 2 apply le_n_S.
    apply depth_list, Forall_map, Forall_forall. intros x _. apply Ho.
Qed.

Lemma typed_queues : typed cfg CMembers DRIVER_DEPTH show_msg_queues_linux.
Proof.
  destruct msg_info as [[max info]|] eqn:E; [|unfold show_msg_queues_linux; rewrite E; apply typed_ret].
  destruct answers_queues as [T HT]. eapply typed_objects_of; [by apply (prints_queues cfg T ipc_pointers max info E), (HT max info)|done|cbn; lia|].
  intros e. split; [done|cbn; lia].
Qed.

Lemma typed_semaphores : typed cfg CMembers DRIVER_DEPTH show_semaphores_linux.
Proof.
  destruct sem_info as [[max info]|] eqn:E; [|unfold show_semaphores_linux; rewrite E; apply typed_ret].
  destruct answers_semaphores as [T HT].
  eapply typed_objects_of; [by apply (prints_semaphores cfg T ipc_pointers max info E), (HT max info)|done|cbn; lia|].
  intros e. split; [done|cbn; lia].
Qed.

Lemma typed_segments : typed cfg CMembers DRIVER_DEPTH show_shared_mem_linux.
Proof.
  destruct shm_info as [[max info]|] eqn:E; [|unfold show_shared_mem_linux; rewrite E; apply typed_ret].
  destruct answers_segments as [T HT].
  eapply typed_objects_of; [by apply (prints_segments cfg T ipc_pointers max info E), (HT max info)|done|cbn; lia|].
  intros e. split; [done|cbn; lia].
Qed.
End Typed.
