(* ===== verification/LinuxCaps.v ===== *)
(** LinuxCaps: what the Linux driver asks the kernel about the process
    (show_capabilities_linux, show_prctl_linux, show_rlimits_linux, the
    security modules and the process name of
    src/src/platform/linux/platform.c and platform-linux.h).

    An option is shown when the headers define it and the running kernel is
    recent enough; the version is that of [uname]. *)
From S2P Require Import Prelude Memory PrList Locale PString StringUtil Encode Output OutputSpec Document Prints Util Affinity Display Format Tables Platform Process Report Terminal Generic LinuxProc.

(** [prctl (option, ...)]: the result and what is written through the pointer
    given; [prctl_name] is the name [PR_GET_NAME] writes. *)
Class Prctl : Type := {
  prctl : Z -> Z -> Z * Z;
  prctl_name : option bytes
}.

(** [cap_get_flag] by the name of the set; [None] is a failure. *)
Class Capabilities : Type := {
  cap_get_proc : bool;
  cap_get_flag : bytes -> Z -> option Z;
  cap_get_bound : Z -> Z
}.

Class SecurityModules : Type := {
  aa_is_enabled : bool;
  aa_gettaskcon : option (bytes * option bytes);
  is_selinux_enabled : Z;
  is_selinux_mls_enabled : Z;
  getpidcon : option bytes
}.

Definition CAP_SET : Z := 1.

(** A capability is a bit of a set of 64. *)
Definition CAP_BITS : nat := 64.

(** A kernel version: major, minor and revision, -1 where it does not matter. *)
Definition version : Type := Z * Z * Z.

(** The capabilities with the kernel they need. *)
Definition capability_table : list (bytes * option version) :=
  map (fun n => (n, None))
    [ lit "CAP_CHOWN"; lit "CAP_DAC_OVERRIDE"; lit "CAP_DAC_READ_SEARCH"; lit "CAP_FOWNER"; lit "CAP_FSETID";
      lit "CAP_KILL"; lit "CAP_SETGID"; lit "CAP_SETUID"; lit "CAP_SETPCAP"; lit "CAP_LINUX_IMMUTABLE";
      lit "CAP_NET_BIND_SERVICE"; lit "CAP_NET_BROADCAST"; lit "CAP_NET_ADMIN"; lit "CAP_NET_RAW";
      lit "CAP_IPC_LOCK"; lit "CAP_IPC_OWNER"; lit "CAP_SYS_MODULE"; lit "CAP_SYS_RAWIO"; lit "CAP_SYS_CHROOT";
      lit "CAP_SYS_PTRACE"; lit "CAP_SYS_PACCT"; lit "CAP_SYS_ADMIN"; lit "CAP_SYS_BOOT"; lit "CAP_SYS_NICE";
      lit "CAP_SYS_RESOURCE"; lit "CAP_SYS_TIME"; lit "CAP_SYS_TTY_CONFIG" ] ++
  [ (lit "CAP_MKNOD", Some (2, 4, -1)%Z); (lit "CAP_LEASE", Some (2, 4, -1)%Z);
    (lit "CAP_AUDIT_WRITE", Some (2, 6, 11)%Z); (lit "CAP_AUDIT_CONTROL", Some (2, 6, 11)%Z);
    (lit "CAP_SETFCAP", Some (2, 6, 24)%Z);
    (lit "CAP_MAC_OVERRIDE", Some (2, 6, 25)%Z); (lit "CAP_MAC_ADMIN", Some (2, 6, 25)%Z);
    (lit "CAP_SYSLOG", Some (2, 6, 37)%Z); (lit "CAP_WAKE_ALARM", Some (3, 0, -1)%Z);
    (lit "CAP_BLOCK_SUSPEND", Some (3, 5, -1)%Z); (lit "CAP_AUDIT_READ", Some (3, 16, -1)%Z);
    (lit "CAP_PERFMON", Some (5, 8, -1)%Z); (lit "CAP_BPF", Some (5, 8, -1)%Z);
    (lit "CAP_CHECKPOINT_RESTORE", Some (5, 9, -1)%Z) ].

Definition rlimit_table : list (bytes * option version) :=
  [ (lit "RLIMIT_AS", None); (lit "RLIMIT_CORE", None); (lit "RLIMIT_CPU", None); (lit "RLIMIT_DATA", None);
    (lit "RLIMIT_FSIZE", None); (lit "RLIMIT_RTTIME", Some (2, 6, 25)%Z); (lit "RLIMIT_LOCKS", None);
    (lit "RLIMIT_MEMLOCK", None); (lit "RLIMIT_MSGQUEUE", Some (2, 6, 8)%Z);
    (lit "RLIMIT_NICE", Some (2, 6, 12)%Z); (lit "RLIMIT_NOFILE", None); (lit "RLIMIT_NPROC", None);
    (lit "RLIMIT_RSS", None); (lit "RLIMIT_RTPRIO", None); (lit "RLIMIT_SIGPENDING", Some (2, 6, 8)%Z);
    (lit "RLIMIT_STACK", None) ].

(** The label of a switch: a number or a constant of the headers. *)
Inductive label : Type := Number (n : Z) | Constant (name : bytes).

Section Show.
Context `{Allocator} `{Locale} `{Headers} `{Machine} `{Identity} `{Prctl} `{Capabilities} `{SecurityModules}
  `{Util.System} `{Terminal.Terminal} `{GenericSystem}.

(** [uts.release]. *)
Definition uts_release : bytes := match uname with Some u => release u | None => [] end.

(** The statement under [LINUX_KERNEL_MM] or [LINUX_KERNEL_MMR]. *)
Definition since (v : option version) (m : prog ostate unit) : prog ostate unit :=
  match v with
  | None => m
  | Some (a, b, c) =>
    pure (linux_kernel_version uts_release a b c) ≫= fun recent : bool => if recent then m else mret tt
  end.

(** The statement under [#ifdef]. *)
Definition when_defined (name : bytes) (m : Z -> prog ostate unit) : prog ostate unit :=
  match macro name with Some z => m z | None => mret tt end.

(** ** Capabilities *)
Definition CAP_IS_SUPPORTED (cap : Z) : bool := Z.leb 0 (cap_get_bound cap).

Definition get_capability_by_flag_type (type : bytes) (cap : Z) : Z :=
  match cap_get_flag type cap with Some result => result | None => (-1)%Z end.

Definition get_ambient_capability (cap : Z) : outcome Z :=
  linux_kernel_version uts_release 4 3 0 ≫= fun recent : bool =>
  Ok (if negb recent then 0%Z
      else match macro (lit "PR_CAP_AMBIENT") with
           | Some option => if Z.eqb (prctl option cap).1 1 then 1%Z else 0%Z
           | None => 0%Z
           end).

Definition bound_text (bound : Z) : bytes :=
  if Z.ltb bound 0 then UNKNOWN_STR else if Z.eqb bound 0 then NO_STR else YES_STR.

Definition set_text (known set : Z) : bytes :=
  if Z.ltb known 0 then NOT_DEFINED_STR else if Z.eqb set CAP_SET then YES_STR else NO_STR.

(** The entry "ambient" looks at the permitted set. *)
Definition show_capability (cap : Z) (name : bytes) : prog ostate unit :=
  let bound := cap_get_bound cap in
  ambient ← pure (get_ambient_capability cap);
  let effective := get_capability_by_flag_type (lit "CAP_EFFECTIVE") cap in
  let inheritable := get_capability_by_flag_type (lit "CAP_INHERITABLE") cap in
  let permitted := get_capability_by_flag_type (lit "CAP_PERMITTED") cap in
  section_open name;;
  (entry (lit "number") (lit "%d") [ANum cap];;
   entry (lit "supported") (lit "%s") [AStr (yes_no (CAP_IS_SUPPORTED cap))];;
   entry (lit "in bounding set") (lit "%s") [AStr (bound_text bound)];;
   entry (lit "ambient") (lit "%s") [AStr (set_text ambient permitted)];;
   entry (lit "effective") (lit "%s") [AStr (set_text effective effective)];;
   entry (lit "inheritable") (lit "%s") [AStr (set_text inheritable inheritable)];;
   entry (lit "permitted") (lit "%s") [AStr (set_text permitted permitted)]);;
  section_close.

(** The capabilities the headers do not know, from [i] on. *)
Fixpoint unknown_capabilities (fuel : nat) (i : Z) : prog ostate unit :=
  match fuel with
  | 0 => diverge
  | S fuel' =>
    if Z.ltb (cap_get_bound i) 0 then mret tt
    else
      name ← in_mem (b ← appendf None (lit "CAP_LAST_CAP+%d") [ANum i]; string_of b);
      show_capability i name;;
      unknown_capabilities fuel' (i + 1)
  end.

Definition show_const (flags : Z) (constant : bytes) : prog ostate unit :=
  when_defined constant (fun bit =>
    object_open false;;
    entry constant (lit "%d") [ANum (if Z.eqb (Z.land flags bit) 0 then 0 else 1)];;
    object_close false).

Definition show_keepcaps (option : Z) : prog ostate unit :=
  since (Some (2, 2, 18)%Z)
    (let ret := (prctl option 0).1 in
     if Z.ltb ret 0 then entry (lit "keep") (lit "%s") [AStr UNKNOWN_STR]
     else entry (lit "keep") (lit "%s") [AStr (yes_no (negb (Z.eqb ret 0)))]).

Definition show_securebits (option : Z) : prog ostate unit :=
  since (Some (2, 6, 26)%Z)
    (let ret := (prctl option 0).1 in
     if Z.ltb ret 0 then entry (lit "securebits") (lit "%s") [AStr UNKNOWN_STR]
     else
       section_open (lit "securebits");;
       (entry (lit "value") (lit "0x%x") [ANum ret];;
        container_open (lit "fields");;
        for_each [lit "SECBIT_KEEP_CAPS"; lit "SECBIT_NO_SETUID_FIXUP"; lit "SECBIT_NOROOT"] (show_const ret);;
        container_close);;
       section_close).

Definition show_capabilities_linux : prog ostate unit :=
  if negb (ifdef (lit "HAVE_SYS_CAPABILITY_H")) then mret tt
  else
    let last_known := default 0%Z (macro (lit "CAP_LAST_CAP")) in
    entry (lit "count (CAP_LAST_CAP+1)") (lit "%d") [ANum (last_known + 1)];;
    if negb cap_get_proc then mret tt
    else
      section_open (lit "known");;
      for_each capability_table (fun e =>
        when_defined (lit "PR_CAPBSET_READ") (fun _ =>
          when_defined e.1 (fun cap => since e.2 (show_capability cap e.1))));;
      section_close;;
      section_open (lit "unknown");;
      when_defined (lit "PR_CAPBSET_READ") (fun _ => unknown_capabilities CAP_BITS (1 + last_known));;
      section_close;;
      when_defined (lit "PR_GET_KEEPCAPS") show_keepcaps;;
      when_defined (lit "PR_GET_SECUREBITS") (fun option =>
        when_defined (lit "HAVE_LINUX_SECUREBITS_H") (fun _ => show_securebits option)).

(** ** Process control *)
Definition label_is (value : Z) (l : label) : bool :=
  match l with
  | Number n => Z.eqb value n
  | Constant name => bool_decide (macro name = Some value)
  end.

(** The case of a switch; the default is "unknown". *)
Fixpoint switch (value : Z) (cases : list (label * bytes)) : bytes :=
  match cases with
  | [] => UNKNOWN_STR
  | (l, text) :: cases' => if label_is value l then text else switch value cases'
  end.

(** An entry whose text depends on the result, or on the value written through
    the pointer. *)
Definition show_prctl_switch (opt title : bytes) (v : version) (pointer : bool)
  (cases : list (label * bytes)) : prog ostate unit :=
  when_defined opt (fun code =>
    since (Some v)
      (let '(rc, arg2) := prctl code 0 in
       entry title (lit "%s")
         [AStr (if Z.ltb rc 0 then UNKNOWN_STR else switch (if pointer then arg2 else rc) cases)])).

(** An entry that shows the result as a number. *)
Definition show_prctl_number (opt title fmt : bytes) (arg : Z) (v : option version) : prog ostate unit :=
  when_defined opt (fun code =>
    since v
      (let rc := (prctl code arg).1 in
       if Z.ltb rc 0 then entry title (lit "%s") [AStr UNKNOWN_STR] else entry title fmt [ANum rc])).

Definition show_prctl_name : prog ostate unit :=
  when_defined (lit "PR_GET_NAME") (fun _ =>
    since (Some (2, 6, 11)%Z) (entry (lit "process name") (lit "%s") [AStr (default UNKNOWN_STR prctl_name)])).

(** The result of a successful call is 0, whatever the signal. *)
Definition show_prctl_pdeathsig : prog ostate unit :=
  when_defined (lit "PR_GET_PDEATHSIG") (fun code =>
    since (Some (2, 3, 15)%Z)
      (let '(rc, arg2) := prctl code 0 in
       if Z.ltb rc 0 then entry (lit "parent death signal") (lit "%s") [AStr UNKNOWN_STR]
       else if Z.eqb rc 0 then entry (lit "parent death signal") (lit "disabled") []
       else entry (lit "parent death signal") (lit "%d") [ANum arg2])).

Definition show_prctl_subreaper : prog ostate unit :=
  when_defined (lit "PR_GET_CHILD_SUBREAPER") (fun code =>
    since (Some (3, 4, -1)%Z)
      (let '(rc, arg2) := prctl code 0 in
       if Z.ltb rc 0 then entry (lit "child subreaper") (lit "%s") [AStr UNKNOWN_STR]
       else entry (lit "child subreaper") (lit "%s") [AStr (yes_no (negb (Z.eqb arg2 0)))])).

(** The kernel stores a pointer through the argument, which points to an
    [int]. *)
Definition show_prctl_tid : prog ostate unit :=
  when_defined (lit "PR_GET_TID_ADDRESS") (fun code =>
    let '(rc, arg2) := prctl code 0 in
    if Z.ltb rc 0 then entry (lit "clear child tid address") (lit "%s") [AStr UNKNOWN_STR]
    else if Z.ltb (sizeof (lit "int")) (sizeof (lit "void *")) then ub "write outside arg2"
    else entry (lit "clear child tid address") (lit "%p") [ANum arg2]).

(** *** The options, one by one *)
Definition show_prctl_endian : prog ostate unit :=
  show_prctl_switch (lit "PR_GET_ENDIAN") (lit "process endian") (2, 6, 18)%Z true
    [ (Constant (lit "PR_ENDIAN_BIG"), BIG_STR); (Constant (lit "PR_ENDIAN_LITTLE"), LITTLE_STR);
      (Constant (lit "PR_ENDIAN_PPC_LITTLE"), lit "PowerPC pseudo little endian") ].

Definition show_prctl_dumpable : prog ostate unit :=
  show_prctl_switch (lit "PR_GET_DUMPABLE") (lit "dumpable") (2, 3, 20)%Z false
    [ (Number 0, NO_STR); (Number 1, YES_STR); (Number 2, lit "root-only") ].

Definition show_prctl_fpemu : prog ostate unit :=
  show_prctl_switch (lit "PR_GET_FPEMU") (lit "floating point emulation") (2, 4, 18)%Z true
    [ (Constant (lit "PR_FPEMU_NOPRINT"), YES_STR); (Constant (lit "PR_FPEMU_SIGFPE"), lit "send SIGFPE") ].

Definition show_prctl_fpexc : prog ostate unit :=
  show_prctl_switch (lit "PR_GET_FPEXC") (lit "floating point exceptions") (2, 4, 21)%Z true
    [ (Constant (lit "PR_FP_EXC_SW_ENABLE"), lit "software"); (Constant (lit "PR_FP_EXC_DISABLED"), lit "disabled");
      (Constant (lit "PR_FP_EXC_NONRECOV"), lit "non-recoverable");
      (Constant (lit "PR_FP_EXC_ASYNC"), lit "asynchronous"); (Constant (lit "PR_FP_EXC_PRECISE"), lit "precise") ].

Definition show_prctl_seccomp : prog ostate unit :=
  show_prctl_switch (lit "PR_GET_SECCOMP") (lit "secure computing") (2, 6, 23)%Z false
    [ (Number 0, lit "disabled"); (Number 1, lit "read/write/exit (mode 1)"); (Number 2, lit "BPF (mode 2)") ].

Definition show_prctl_timing : prog ostate unit :=
  show_prctl_switch (lit "PR_GET_TIMING") (lit "process timing") (2, 6, 1)%Z false
    [ (Constant (lit "PR_TIMING_STATISTICAL"), lit "statistical");
      (Constant (lit "PR_TIMING_TIMESTAMP"), lit "time-stamp") ].

Definition show_prctl_tsc : prog ostate unit :=
  show_prctl_switch (lit "PR_GET_TSC") (lit "timestamp counter read") (2, 6, 26)%Z true
    [ (Constant (lit "PR_TSC_ENABLE"), lit "enabled"); (Constant (lit "PR_TSC_SIGSEGV"), lit "segmentation fault") ].

Definition show_prctl_unalign : prog ostate unit :=
  show_prctl_switch (lit "PR_GET_UNALIGN") (lit "unaligned access") (2, 3, 48)%Z true
    [ (Constant (lit "PR_UNALIGN_NOPRINT"), lit "fix-up"); (Constant (lit "PR_UNALIGN_SIGBUS"), lit "send SIGBUS") ].

Definition show_prctl_mce_kill : prog ostate unit :=
  show_prctl_switch (lit "PR_MCE_KILL_GET") (lit "machine-check exception") (2, 6, 32)%Z false
    [ (Constant (lit "PR_MCE_KILL_DEFAULT"), lit "system default");
      (Constant (lit "PR_MCE_KILL_EARLY"), lit "early kill"); (Constant (lit "PR_MCE_KILL_LATE"), lit "late kill") ].

Definition show_prctl_no_new_privs : prog ostate unit :=
  show_prctl_switch (lit "PR_GET_NO_NEW_PRIVS") (lit "no new privileges") (3, 5, -1)%Z false
    [ (Number 0, lit "normal execve"); (Number 1, lit "enabled") ].

Definition show_prctl_timerslack : prog ostate unit :=
  show_prctl_number (lit "PR_GET_TIMERSLACK") (lit "timer slack") (lit "%dns") 0 (Some (2, 6, 28)%Z).

Definition show_prctl_speculation : prog ostate unit :=
  show_prctl_number (lit "PR_GET_SPECULATION_CTRL") (lit "speculation") (lit "0x%x")
    (default 0%Z (macro (lit "PR_SPEC_STORE_BYPASS"))) None.

Definition show_prctl_tagged_addr : prog ostate unit :=
  show_prctl_number (lit "PR_GET_TAGGED_ADDR_CTRL") (lit "tagged address mode") (lit "%d") 0 None.

Definition show_prctl_fp_mode : prog ostate unit :=
  show_prctl_number (lit "PR_GET_FP_MODE") (lit "floating-point mode") (lit "0x%x") 0 None.

Definition show_prctl_io_flusher : prog ostate unit :=
  show_prctl_number (lit "PR_GET_IO_FLUSHER") (lit "I/O flusher state") (lit "%d") 0 None.

Definition show_prctl_thp_disable : prog ostate unit :=
  show_prctl_number (lit "PR_GET_THP_DISABLE") (lit "THP disable flag") (lit "%d") 0 None.

Definition show_prctl_linux : prog ostate unit :=
  show_prctl_endian;;
  show_prctl_dumpable;;
  show_prctl_fpemu;;
  show_prctl_fpexc;;
  show_prctl_name;;
  show_prctl_pdeathsig;;
  show_prctl_seccomp;;
  show_prctl_timing;;
  show_prctl_tsc;;
  show_prctl_unalign;;
  show_prctl_mce_kill;;
  show_prctl_no_new_privs;;
  show_prctl_timerslack;;
  show_prctl_subreaper;;
  show_prctl_tid;;
  show_prctl_speculation;;
  show_prctl_tagged_addr;;
  show_prctl_fp_mode;;
  show_prctl_io_flusher;;
  show_prctl_thp_disable.

(** ** Limits *)
Definition show_rlimits_linux : prog ostate unit :=
  for_each rlimit_table (fun e => when_defined e.1 (fun _ => since e.2 (show_limit e.1))).

(** ** The name of the process and its root *)

(** What [proc_name] holds: it stays empty on older kernels. *)
Definition get_proc_name_linux : outcome bytes :=
  linux_kernel_version uts_release 2 6 11 ≫= fun recent : bool =>
  Ok (if recent then default UNKNOWN_STR prctl_name else []).

Definition ROOT_PATH : bytes := lit "/proc/self/root".

(** What [misc.root] holds. *)
Definition get_user_misc_linux : outcome bytes :=
  canonical_text ROOT_PATH ≫= fun r : bool * bytes => Ok r.2.

(** ** Security modules *)
Definition security_context : prog ostate (option bytes * option bytes) :=
  (if ifdef (lit "HAVE_APPARMOR") && aa_is_enabled then
         match aa_gettaskcon with
         | Some (context, mode) => mret (Some context, mode)
         | None => die "failed to query AppArmor context"
         end
       else mret (None, None)) ≫= fun c : option bytes * option bytes =>
  if ifdef (lit "HAVE_SELINUX_SELINUX_H") && negb (Z.eqb is_selinux_enabled 0) then
    match getpidcon with
    | Some context => mret (Some context, c.2)
    | None => die "failed to query SELinux context"
    end
  else mret c.

Definition show_security_module_context_linux : prog ostate unit :=
  security_context ≫= fun c : option bytes * option bytes =>
    match c with
    | (Some context, Some mode) => entry (lit "context") (lit "%s (%s)") [AStr context; AStr mode]
    | (Some context, None) => entry (lit "context") (lit "%s") [AStr context]
    | (None, _) => entry (lit "context") (lit "%s") [AStr UNKNOWN_STR]
    end.

Definition lsm_name : bytes :=
  let lsm := if ifdef (lit "HAVE_APPARMOR") && aa_is_enabled then lit "AppArmor" else UNKNOWN_STR in
  if ifdef (lit "HAVE_SELINUX_SELINUX_H") && Z.eqb is_selinux_enabled 1 then
    if Z.eqb is_selinux_mls_enabled 1 then lit "SELinux (MLS)" else lit "SELinux"
  else lsm.

Definition show_security_module_linux : prog ostate unit :=
  entry (lit "name") (lit "%s") [AStr lsm_name];;
  show_security_module_context_linux.
End Show.

(** ** What they print *)
Section Spec.
Context `{AllocTotal} `{LocaleLaws} (cfg : settings).
Context `{!Headers} `{!Machine} `{!Identity} `{!Prctl} `{!Capabilities} `{!SecurityModules}
  `{!Util.System} `{!Terminal.Terminal} `{!GenericSystem}.

(** Whether the running kernel has the version. *)
Definition recent_enough (v : option version) : bool :=
  match v with
  | None => true
  | Some (a, b, c) => match linux_kernel_version uts_release a b c with Ok r => r | _ => false end
  end.

Definition asks_version (v : option version) : Prop :=
  match v with None => True | Some (a, _, _) => (0 < a)%Z end.

(** The release of the kernel starts with a number. *)
Context (known_release : (scan_version uts_release).1.1 <> (-1)%Z).

Lemma version_answers a b c : (0 < a)%Z -> exists r, linux_kernel_version uts_release a b c = Ok r.
Proof.
  intros Ha. unfold linux_kernel_version. rewrite (proj2 (Z.leb_gt _ _)) by done.
  destruct (scan_version uts_release) as [[x y] z]. cbn in known_release.
  rewrite (proj2 (Z.eqb_neq _ _)) by done. by eexists.
Qed.

Lemma since_runs v m : asks_version v -> same_runs (since v m) (if recent_enough v then m else mret tt).
Proof.
  destruct v as [[[a b] c]|]; [|done]. intros Ha. destruct (version_answers a b c Ha) as [r E].
  unfold recent_enough, since. rewrite E. by constructor.
Qed.

Lemma prints_since v m ts :
  asks_version v -> prints cfg m ts -> prints cfg (since v m) (if recent_enough v then ts else []).
Proof. intros Ha Hm. rewrite since_runs by done. destruct (recent_enough v); [done|apply prints_ret]. Qed.

Lemma typed_since c d v m : asks_version v -> typed cfg c d m -> typed cfg c d (since v m).
Proof. intros Ha Hm. rewrite since_runs by done. destruct (recent_enough v); [done|apply typed_ret]. Qed.

Lemma typed_when_defined c d name m :
  (forall z, macro name = Some z -> typed cfg c d (m z)) -> typed cfg c d (when_defined name m).
Proof. unfold when_defined. destruct (macro name); intros Hm; [by apply Hm|apply typed_ret]. Qed.

(** *** Capabilities *)
Definition ambient_of (cap : Z) : Z := match get_ambient_capability cap with Ok z => z | _ => 0%Z end.

Definition capability_tree (cap : Z) (name : bytes) : tree :=
  let get := fun set => get_capability_by_flag_type set cap in
  TBlock KSection name
    [ TEntry (lit "number") (int_text cap);
      TEntry (lit "supported") (yes_no (Z.leb 0 (cap_get_bound cap)));
      TEntry (lit "in bounding set") (bound_text (cap_get_bound cap));
      TEntry (lit "ambient") (set_text (ambient_of cap) (get (lit "CAP_PERMITTED")));
      TEntry (lit "effective") (set_text (get (lit "CAP_EFFECTIVE")) (get (lit "CAP_EFFECTIVE")));
      TEntry (lit "inheritable") (set_text (get (lit "CAP_INHERITABLE")) (get (lit "CAP_INHERITABLE")));
      TEntry (lit "permitted") (set_text (get (lit "CAP_PERMITTED")) (get (lit "CAP_PERMITTED"))) ].

Lemma text_set known set : text_is cfg (set_text known set) (set_text known set).
Proof. apply printable_text. unfold set_text. by repeat case_match. Qed.

Lemma text_bound bound : text_is cfg (bound_text bound) (bound_text bound).
Proof. apply printable_text. unfold bound_text. by repeat case_match. Qed.

Lemma ambient_answers cap : get_ambient_capability cap = Ok (ambient_of cap).
Proof.
  unfold ambient_of. unfold get_ambient_capability at 1 2. destruct (version_answers 4 3 0) as [r E]; [lia|].
  by rewrite E, outcome_bind_ok.
Qed.

Lemma prints_capability cap name :
  name_is cfg name name -> prints cfg (show_capability cap name) [capability_tree cap name].
Proof.
  intros Hn. unfold show_capability. reading (apply reads_pure, ambient_answers).
  assert (forall b, text_is cfg (yes_no b) (yes_no b)) as Hyn by by intros []; apply printable_text.
  pose proof text_set as Hts. pose proof text_bound as Htb.
  eapply prints_eq; [prints_steps; by auto|same_trees].
Qed.

(** The entries of [capability_table] that are shown. *)
Definition known_capabilities : list (bytes * Z) :=
  omap (fun e => match macro e.1 with
                 | Some cap => if recent_enough e.2 then Some (e.1, cap) else None
                 | None => None
                 end) capability_table.

Definition table_ok (table : list (bytes * option version)) : bool :=
  forallb (fun e => printable e.1 && negb (bool_decide (e.1 = [])) &&
                    match e.2 with Some (a, _, _) => Z.ltb 0 a | None => true end) table.

Lemma table_entry table e :
  table_ok table = true -> e ∈ table -> name_is cfg e.1 e.1 /\ asks_version e.2.
Proof.
  unfold table_ok. rewrite forallb_forall. intros Ht He. apply list_elem_of_In, Ht in He.
  rewrite !andb_true_iff in He. destruct He as [[Hp Hne] Hv]. split.
  - apply name_text; [by apply printable_text|]. by apply negb_true_iff, bool_decide_eq_false in Hne.
  - destruct e as [n [[[a b] c]|]]; [by apply Z.ltb_lt in Hv|done].
Qed.

Definition unknown_name (i : Z) : bytes := lit "CAP_LAST_CAP+" ++ int_text i.

Lemma reads_unknown_name i :
  reads cfg (in_mem (b ← appendf None (lit "CAP_LAST_CAP+%d") [ANum i]; string_of b)) (unknown_name i).
Proof.
  apply reads_mem. intros m0.
  destruct (appendf_renders None [] (lit "CAP_LAST_CAP+%d") [ANum i] (unknown_name i) m0 eq_refl (Forall_nil_2 _))
    as (b & m1 & E & Hb & Ht); [unfold unknown_name; render|].
  exists m1. split; [|done]. step_with E. apply (string_of_ok b); [done|].
  apply printable_nz. unfold unknown_name. rewrite printable_app. apply andb_true_intro. split; [done|].
  exact (printable_number_text (mk_spec false false 0 None 0) 100 i).
Qed.

Lemma name_unknown i : name_is cfg (unknown_name i) (unknown_name i).
Proof.
  apply name_text; [|done]. apply printable_text. unfold unknown_name. rewrite printable_app.
  apply andb_true_intro. split; [done|]. exact (printable_number_text (mk_spec false false 0 None 0) 100 i).
Qed.

Lemma prints_unknown n fuel i :
  n < fuel -> (forall j, i <= j < i + Z.of_nat n -> 0 <= cap_get_bound j)%Z ->
  (cap_get_bound (i + Z.of_nat n) < 0)%Z ->
  prints cfg (unknown_capabilities fuel i)
    (map (fun j => capability_tree j (unknown_name j)) (seqZ i (Z.of_nat n))).
Proof.
  revert fuel i. induction n as [|n IH]; intros [|fuel] i Hf Hin Hend; try lia; cbn [unknown_capabilities].
  - replace (i + Z.of_nat 0)%Z with i in Hend by lia. rewrite (proj2 (Z.ltb_lt _ _)) by done. apply prints_ret.
  - rewrite (proj2 (Z.ltb_ge _ _)) by (apply Hin; lia). reading (apply reads_unknown_name).
    rewrite seqZ_cons by lia. cbn [map]. apply (prints_seq cfg _ _ [_]).
    + apply prints_capability, name_unknown.
    + replace (Z.pred (Z.of_nat (S n))) with (Z.of_nat n) by lia. apply IH; [lia| |].
      * intros j Hj. apply Hin. lia.
      * replace (Z.succ i + Z.of_nat n)%Z with (i + Z.of_nat (S n))%Z by lia. done.
Qed.

(** The entry and the section of the secure bits. *)
Definition keep_trees : list tree :=
  match macro (lit "PR_GET_KEEPCAPS") with
  | Some code =>
    if recent_enough (Some (2, 2, 18)%Z) then
      let ret := (prctl code 0).1 in
      [TEntry (lit "keep") (if Z.ltb ret 0 then UNKNOWN_STR else yes_no (negb (Z.eqb ret 0)))]
    else []
  | None => []
  end.

Definition secbit_trees (ret : Z) : list tree :=
  flat_map (fun n => match macro n with
                     | Some bit => [TObject [TEntry n (int_text (if Z.eqb (Z.land ret bit) 0 then 0 else 1))]]
                     | None => []
                     end) [lit "SECBIT_KEEP_CAPS"; lit "SECBIT_NO_SETUID_FIXUP"; lit "SECBIT_NOROOT"].

Definition securebits_trees : list tree :=
  match macro (lit "PR_GET_SECUREBITS"), macro (lit "HAVE_LINUX_SECUREBITS_H") with
  | Some code, Some _ =>
    if recent_enough (Some (2, 6, 26)%Z) then
      let ret := (prctl code 0).1 in
      if Z.ltb ret 0 then [TEntry (lit "securebits") UNKNOWN_STR]
      else [TBlock KSection (lit "securebits")
              [TEntry (lit "value") (lit "0x" ++ hex_text ret); TBlock KContainer (lit "fields") (secbit_trees ret)]]
    else []
  | _, _ => []
  end.

Lemma prints_keepcaps : prints cfg (when_defined (lit "PR_GET_KEEPCAPS") show_keepcaps) keep_trees.
Proof.
  unfold when_defined, keep_trees. destruct (macro _) as [code|]; [|apply prints_ret].
  unfold show_keepcaps. apply prints_since; [done|].
  assert (forall b, text_is cfg (yes_no b) (yes_no b)) as Hyn by by intros []; apply printable_text.
  cbv zeta. destruct (Z.ltb _ 0); (eapply prints_eq; [prints_steps|same_trees]).
Qed.

Lemma prints_secbit ret n :
  name_is cfg n n ->
  prints cfg (show_const ret n)
    (match macro n with
     | Some bit => [TObject [TEntry n (int_text (if Z.eqb (Z.land ret bit) 0 then 0 else 1))]]
     | None => []
     end).
Proof.
  intros Hn. unfold show_const, when_defined. destruct (macro n); [|apply prints_ret].
  eapply prints_eq; [prints_steps|same_trees].
Qed.

Lemma prints_securebits :
  prints cfg (when_defined (lit "PR_GET_SECUREBITS") (fun opt =>
    when_defined (lit "HAVE_LINUX_SECUREBITS_H") (fun _ => show_securebits opt))) securebits_trees.
Proof.
  unfold when_defined, securebits_trees. destruct (macro (lit "PR_GET_SECUREBITS")) as [code|]; [|apply prints_ret].
  destruct (macro (lit "HAVE_LINUX_SECUREBITS_H")); [|apply prints_ret].
  unfold show_securebits. apply prints_since; [done|]. cbv zeta.
  destruct (Z.ltb _ 0); [eapply prints_eq; [prints_steps|same_trees]|].
  eapply prints_eq.
  - prints_steps. apply (prints_for_each cfg) with (g := fun n => match macro n with
                     | Some bit => [TObject [TEntry n (int_text (if Z.eqb (Z.land (prctl code 0).1 bit) 0 then 0 else 1))]]
                     | None => []
                     end).
    intros n Hn. apply prints_secbit.
    apply name_text; [apply printable_text|]; repeat (apply elem_of_cons in Hn as [->|Hn]; [done|]);
      by apply elem_of_nil in Hn.
  - same_trees.
Qed.

Lemma prints_known cap0 :
  macro (lit "PR_CAPBSET_READ") = Some cap0 ->
  prints cfg (for_each capability_table (fun e =>
        when_defined (lit "PR_CAPBSET_READ") (fun _ =>
          when_defined e.1 (fun cap => since e.2 (show_capability cap e.1)))))
    (map (fun e => capability_tree e.2 e.1) known_capabilities).
Proof.
  intros E. unfold known_capabilities. eapply prints_eq.
  - apply (prints_for_each cfg) with (g := fun e => match macro e.1 with
        | Some cap => if recent_enough e.2 then [capability_tree cap e.1] else [] | None => [] end).
    intros e He. apply (table_entry capability_table) in He as [Hn Hv]; [|by vm_compute].
    unfold when_defined. rewrite E. destruct (macro e.1) as [cap|]; [|apply prints_ret].
    by apply prints_since, prints_capability.
  - generalize capability_table as l. induction l as [|e l IH]; [done|]. cbn. rewrite IH.
    destruct (macro e.1); [|done]. by destruct (recent_enough e.2).
Qed.

(** The number of capabilities the kernel knows beyond those of the headers. *)
Definition unknown_are (last_known : Z) (n : nat) : Prop :=
  n < CAP_BITS /\ (forall j, last_known < j <= last_known + Z.of_nat n -> 0 <= cap_get_bound j)%Z /\
  (cap_get_bound (last_known + 1 + Z.of_nat n) < 0)%Z.

Lemma prints_capabilities h r last_known n :
  macro (lit "HAVE_SYS_CAPABILITY_H") = Some h -> macro (lit "PR_CAPBSET_READ") = Some r ->
  macro (lit "CAP_LAST_CAP") = Some last_known -> cap_get_proc = true -> unknown_are last_known n ->
  prints cfg show_capabilities_linux
    ([ TEntry (lit "count (CAP_LAST_CAP+1)") (int_text (last_known + 1));
       TBlock KSection (lit "known") (map (fun e => capability_tree e.2 e.1) known_capabilities);
       TBlock KSection (lit "unknown")
         (map (fun i => capability_tree i (unknown_name i)) (seqZ (last_known + 1) (Z.of_nat n))) ] ++
     keep_trees ++ securebits_trees).
Proof.
  intros Hh Hr Hl Hp (Hn & Hin & Hend). unfold show_capabilities_linux, ifdef.
  rewrite bool_decide_true by (rewrite Hh; by eexists). rewrite Hl, Hp. cbn [negb default from_option].
  eapply prints_eq.
  - prints_steps; [by eapply prints_known| |apply prints_keepcaps|apply prints_securebits].
    unfold when_defined at 1. rewrite Hr. apply (prints_unknown n); [done| |].
    + intros j Hj. apply Hin. cbn in Hj. lia.
    + cbn. by replace (1 + last_known + Z.of_nat n)%Z with (last_known + 1 + Z.of_nat n)%Z by lia.
  - cbn [id app]. rewrite (Z.add_comm 1 last_known). same_trees.
Qed.

(** C24: when the headers have the capabilities and the kernel gives those of the
    process, [show_capabilities_linux] prints a section for each capability
    that the headers define and the running kernel is recent enough for, a
    section for each one beyond the last that the headers know, up to the
    first that the kernel refuses, and the secure bits.  The entry "ambient"
    of a capability shows whether it is permitted. *)
Theorem show_capabilities_correct h r last_known n :
  macro (lit "HAVE_SYS_CAPABILITY_H") = Some h -> macro (lit "PR_CAPBSET_READ") = Some r ->
  macro (lit "CAP_LAST_CAP") = Some last_known -> cap_get_proc = true -> unknown_are last_known n ->
  prints cfg show_capabilities_linux
    ([ TEntry (lit "count (CAP_LAST_CAP+1)") (int_text (last_known + 1));
       TBlock KSection (lit "known") (map (fun e => capability_tree e.2 e.1) known_capabilities);
       TBlock KSection (lit "unknown")
         (map (fun i => capability_tree i (unknown_name i)) (seqZ (last_known + 1) (Z.of_nat n))) ] ++
     keep_trees ++ securebits_trees).
Proof. apply prints_capabilities. Qed.

(** *** The calls are well placed *)
Class KernelAnswers : Prop := {
  answers_release : (scan_version uts_release).1.1 <> (-1)%Z;
  answers_unknown : exists n, unknown_are (default 0%Z (macro (lit "CAP_LAST_CAP"))) n;
  answers_tid : forall code, macro (lit "PR_GET_TID_ADDRESS") = Some code ->
    ((prctl code 0).1 < 0 \/ sizeof (lit "void *") <= sizeof (lit "int"))%Z;
  text_prctl_name : forall s, prctl_name = Some s -> showable cfg s;
  answers_rlimits : forall e, e ∈ rlimit_table -> is_Some (getrlimit e.1);
  answers_context : exists c, security_context = mret c /\
    (forall s, c.1 = Some s -> showable cfg s) /\ (forall s, c.2 = Some s -> showable cfg s)
}.
End Spec.

Section Typed.
Context `{AllocTotal} `{LocaleLaws} (cfg : settings).
Context `{!Headers} `{!Machine} `{!Identity} `{!Prctl} `{!Capabilities} `{!SecurityModules}
  `{!Util.System} `{!Terminal.Terminal} `{!GenericSystem} `{!KernelAnswers cfg}.

Lemma typed_capability d cap name :
  nameable cfg name -> typed cfg CMembers (S d) (show_capability cap name).
Proof.
  intros [w Hn]. unfold show_capability. reading (apply reads_pure, ambient_answers, (answers_release cfg)).
  assert (forall known set, showable cfg (set_text known set)) as Hs by (intros; eexists; apply text_set).
  assert (forall bound, showable cfg (bound_text bound)) as Hb by (intros; eexists; apply text_bound).
  assert (nameable cfg name) as Hn' by by eexists.
  typed_steps; by auto.
Qed.

Lemma nameable_table table e :
  table_ok table = true -> e ∈ table -> nameable cfg e.1 /\ asks_version e.2.
Proof. intros Ht He. destruct (table_entry cfg table e Ht He) as [Hn Hv]. split; [by eexists|done]. Qed.

Lemma typed_since' c d v m : asks_version v -> typed cfg c d m -> typed cfg c d (since v m).
Proof. exact (typed_since cfg (answers_release cfg) c d v m). Qed.

Lemma typed_capabilities_linux : typed cfg CMembers DRIVER_DEPTH show_capabilities_linux.
Proof.
  destruct (answers_unknown cfg) as (n & Hn & Hin & Hend).
  unfold show_capabilities_linux. typed_steps.
  - apply typed_when_defined. intros _ _. apply typed_when_defined. intros cap _.
    destruct (nameable_table capability_table x) as [Hx Hv]; [by vm_compute|done|].
    apply typed_since'; [done|]. by apply typed_capability.
  - apply typed_when_defined. intros _ _. eapply typed_prints.
    + apply (prints_unknown cfg (answers_release cfg) n); [done| |].
      * intros j Hj. apply Hin. lia.
      * by rewrite (Z.add_comm 1).
    + apply forallb_forall. intros t Ht. by apply in_map_iff in Ht as (j & <- & _).
    + apply Forall_map, Forall_forall. intros j _. cbn. lia.
  - apply typed_when_defined. intros code _. apply typed_since'; [done|]. cbv zeta. typed_steps.
  - apply typed_when_defined. intros code _. apply typed_when_defined. intros _ _.
    apply typed_since'; [done|]. cbv zeta. typed_steps.
    unfold show_const. apply typed_when_defined. intros bit _.
    assert (nameable cfg x) as Hx
      by (eapply (nameable_of cfg [lit "SECBIT_KEEP_CAPS"; lit "SECBIT_NO_SETUID_FIXUP"; lit "SECBIT_NOROOT"]);
          [by vm_compute|done]).
    typed_steps.
Qed.

(** *** Process control *)
Lemma showable_switch value cases :
  forallb (fun e => printable e.2) cases = true -> showable cfg (switch value cases).
Proof.
  induction cases as [|[l text] cases IH]; intros Hc; [by apply printable_showable|].
  cbn in Hc. apply andb_prop in Hc as [Hp Hc]. cbn [switch].
  destruct (label_is value l); [by apply printable_showable|by apply IH].
Qed.

Lemma typed_prctl_switch d opt title v pointer cases :
  nameable cfg title -> asks_version (Some v) -> forallb (fun e => printable e.2) cases = true ->
  typed cfg CMembers d (show_prctl_switch opt title v pointer cases).
Proof.
  intros Ht Hv Hc. apply typed_when_defined. intros code _. apply typed_since'; [done|].
  destruct (prctl code 0) as [rc arg2].
  assert (showable cfg (switch (if pointer then arg2 else rc) cases)) as Hs by by apply showable_switch.
  typed_steps.
Qed.

Lemma typed_prctl_number d opt title fmt arg v :
  nameable cfg title -> asks_version v -> (forall z, sayable cfg fmt [ANum z]) ->
  typed cfg CMembers d (show_prctl_number opt title fmt arg v).
Proof.
  intros Ht Hv Hf. apply typed_when_defined. intros code _. apply typed_since'; [done|]. cbv zeta.
  typed_steps. apply Hf.
Qed.

Lemma typed_prctl_tid d : typed cfg CMembers d show_prctl_tid.
Proof.
  apply typed_when_defined. intros code E. pose proof (answers_tid cfg code E) as Ht.
  destruct (prctl code 0) as [rc arg2]. cbn [fst] in Ht.
  destruct (Z.ltb_spec rc 0); [typed_steps|]. rewrite (proj2 (Z.ltb_ge _ _)) by lia. typed_steps.
Qed.

Lemma typed_prctl_linux : typed cfg CMembers DRIVER_DEPTH show_prctl_linux.
Proof.
  assert (showable cfg (default UNKNOWN_STR prctl_name)) as Hn.
  { apply showable_default; [by apply printable_showable|exact (text_prctl_name cfg)]. }
  unfold show_prctl_linux, show_prctl_endian, show_prctl_dumpable, show_prctl_fpemu, show_prctl_fpexc,
    show_prctl_seccomp, show_prctl_timing, show_prctl_tsc, show_prctl_unalign, show_prctl_mce_kill,
    show_prctl_no_new_privs, show_prctl_timerslack, show_prctl_speculation, show_prctl_tagged_addr,
    show_prctl_fp_mode, show_prctl_io_flusher, show_prctl_thp_disable.
  repeat first
    [ apply typed_seq
    | apply typed_prctl_switch; [solve_nameable|done|done]
    | apply typed_prctl_number; [solve_nameable|done|intros z; solve_sayable]
    | apply typed_prctl_tid ].
  - apply typed_when_defined. intros _ _. apply typed_since'; [done|]. typed_steps.
  - apply typed_when_defined. intros code _. apply typed_since'; [done|].
    destruct (prctl code 0) as [rc arg2]. typed_steps.
  - apply typed_when_defined. intros code _. apply typed_since'; [done|].
    destruct (prctl code 0) as [rc arg2]. typed_steps.
Qed.

(** *** Limits and security modules *)
Lemma typed_limit d name :
  nameable cfg name -> is_Some (getrlimit name) -> typed cfg CMembers (S (S d)) (show_limit name).
Proof. intros Hn [[c m] E]. unfold show_limit. rewrite E. typed_steps. Qed.

Lemma typed_rlimits_linux : typed cfg CMembers DRIVER_DEPTH show_rlimits_linux.
Proof.
  unfold show_rlimits_linux. apply typed_for_each. intros e He.
  destruct (nameable_table rlimit_table e) as [Hn Hv]; [by vm_compute|done|].
  apply typed_when_defined. intros _ _. apply typed_since'; [done|]. apply typed_limit; [done|].
  by apply (answers_rlimits cfg).
Qed.

Lemma typed_security_linux : typed cfg CMembers DRIVER_DEPTH show_security_module_linux.
Proof.
  destruct (answers_context cfg) as ([c m] & E & Hc & Hm). cbn in Hc, Hm.
  assert (showable cfg lsm_name) as Hl.
  { unfold lsm_name. repeat case_match; by apply printable_showable. }
  unfold show_security_module_linux, show_security_module_context_linux. typed_steps. rewrite E.
  apply typed_ret_bind. destruct c as [c|]; [destruct m as [m|]|]; typed_steps; by auto.
Qed.
End Typed.
