(* ===== verification/LinuxFds.v ===== *)
(** LinuxFds: what the Linux driver reads from the links under /proc/self: the
    open file descriptors (show_fds_linux) and the namespaces
    (show_namespaces_linux of src/src/platform/linux/platform.c).

    The namespaces are sorted in a list of src/src/pr_list.c.  The list has a
    memory of its own ([in_region]), whose allocations are those of the run. *)
From Stdlib Require Import Sorting.Sorted.
From S2P Require Import Prelude Memory PrList PrListSpec Locale PString StringUtil Encode Output OutputSpec Document Prints Util Affinity Display Format Platform Process Report Terminal Runtime Generic Options LinuxProc LinuxIpc.

(** [opendir] and [readdir]: the names in a directory, in order. *)
Class Directories : Type := { readdir : bytes -> option (list bytes) }.

Definition MAXPATHLEN : nat := 4096.

Definition S_ISDIR (mode : Z) : bool := Z.eqb (Z.land mode S_IFMT) 16384.

Definition dot_name (name : bytes) : bool :=
  bool_decide (name = lit ".") || bool_decide (name = lit "..").

(** What a buffer of [MAXPATHLEN] characters gets of the target of a link. *)
Definition link_target `{GenericSystem} (path : bytes) : option bytes :=
  take (MAXPATHLEN - 1) <$> readlink path.

(** [op] in a memory of its own: its [n]-th allocation is the next one but [n]
    of the run. *)
Definition in_region `{Allocator} {A} (op : Allocator -> prog mem A) : prog ostate (A * mem) :=
  in_mem (fun m =>
    match op (fun n => alloc_ok (allocs m + n)) mem0 with
    | Ok (a, h) => Ok ((a, h), ticks (allocs h) m)
    | Die msg => Die msg
    | Exit msg => Exit msg
    | Abort cond => Abort cond
    | UB why => UB why
    | Diverge => Diverge
    end).

(** *** The list of the namespaces *)
Section Listing.
Context `{Allocator} `{GenericSystem}.

Definition NS_PATH : bytes := lit "/proc/self/ns".

(** The line of an entry of the directory: its name, a space and where it leads
    to. *)
Definition namespace_line (name : bytes) : option bytes :=
  if dot_name name then None
  else (fun link => name ++ SPACE :: link) <$> link_target (NS_PATH ++ lit "/" ++ name).

Definition add_namespace (l : nat) (name : bytes) : prog mem unit :=
  if dot_name name then mret tt
  else
    match link_target (NS_PATH ++ lit "/" ++ name) with
    | None => mret tt
    | Some link =>
      assert_ (negb (bool_decide (link = []))) "len";;
      let path := name ++ SPACE :: link in
      data ← strndup path (length path);
      entry ← pr_list_new data;
      assert_ (nonnull entry) "entry";;
      added ← pr_list_prepend_str_sorted l entry;
      assert_ (nonnull added) "pr_list_prepend_str_sorted (list, entry)"
    end.

Fixpoint add_namespaces (l : nat) (names : list bytes) : prog mem unit :=
  match names with
  | [] => mret tt
  | name :: names' => add_namespace l name;; add_namespaces l names'
  end.

Definition namespace_list (names : list bytes) : prog mem nat :=
  l ← pr_list_new None;
  assert_ (nonnull l) "list";;
  add_namespaces l names;;
  mret l.

(** The head of [PR_LIST_FOREACH_SAFE]. *)
Definition first_two (l : nat) : prog mem (nat * nat) :=
  iter ← get_next l; tmp ← get_next iter; mret (iter, tmp).

(** The body of the loop around what it prints: the entry is taken out and its
    data read; then it is freed and the loop goes on. *)
Definition take_entry (iter : nat) : prog mem (option bytes) :=
  pr_list_remove iter;; get_data iter.

Definition drop_entry (iter tmp : nat) : prog mem nat :=
  free_node iter;; get_next tmp.
End Listing.

Section Show.
Context `{Allocator} `{Locale} `{Util.System} `{Headers} `{Identity} `{Terminal} `{Files} `{GenericSystem}
  `{Directories}.

(** ** File descriptors *)
(** What is shown of a terminal. *)
Definition show_tty_device (link : bytes) (st : file_status) : prog ostate unit :=
  modestr ← permissions_string (f_mode st);
  let perms := Z.land (f_mode st) (Z.lnot S_IFMT) in
  section_open (lit "permissions");;
  (entry (lit "octal") (lit "%4.4o") [ANum perms];;
   entry (lit "symbolic") (lit "%s") [AStr modestr]);;
  section_close;;
  let '(_, (mj, mi)) := get_major_minor link in
  entry (lit "major") (lit "%u") [ANum mj];;
  entry (lit "minor") (lit "%u") [ANum mi];;
  section_open (lit "owner");;
  (name ← str_arg (get_user_name (f_uid st));
   entry (lit "user (uid)") (lit "%d ('%s')") [ANum (f_uid st); name];;
   name ← str_arg (get_group_name (f_uid st));
   entry (lit "group (gid)") (lit "%d ('%s')") [ANum (f_gid st); name]);;
  section_close.

Definition show_device (fd : Z) (link : bytes) (st : file_status) : prog ostate unit :=
  section_open (lit "device");;
  (entry (lit "name") (lit "%s") [AStr link];;
   if isatty fd then show_tty_device link st else mret tt);;
  section_close.

Definition show_descriptor (name : bytes) : prog ostate unit :=
  if dot_name name then mret tt
  else
    fd ← pure (atoi name);
    match link_target (lit "/proc/self/fd/" ++ name) with
    | None => mret tt
    | Some link =>
      num ← id_string fd;
      if bool_decide (link = []) then abort "len"
      else
        match stat_file link with
        | None => mret tt
        | Some st =>
          if bool_decide (head link = Some SLASH) && S_ISDIR (f_mode st) then mret tt
          else
            object_open false;;
            (section_open num;;
             (entry (lit "terminal") (lit "%s") [AStr (yes_no (isatty fd))];;
              entry (lit "valid") (lit "%s") [AStr (yes_no (fd_valid fd))];;
              show_device fd link st);;
             section_close);;
            object_close false
        end
    end.

Definition show_fds_linux : prog ostate unit :=
  match readdir (lit "/proc/self/fd") with
  | None => mret tt
  | Some names => for_each names show_descriptor
  end.

(** ** Namespaces *)
Definition show_namespace (data : option bytes) : prog ostate unit :=
  match strsep SPACE data with
  | (Some name, Some value) =>
    object_open false;;
    entry name (lit "%s") [AStr value];;
    object_close false
  | _ => mret tt
  end.

Fixpoint namespaces_loop (fuel : nat) (l iter tmp : nat) (h : mem) : prog ostate unit :=
  match fuel with
  | 0 => diverge
  | S fuel' =>
    if Nat.eqb iter l then pure (free_node l h) ≫= fun _ => mret tt
    else
      pure (take_entry iter h) ≫= fun r : option bytes * mem =>
      show_namespace r.1;;
      pure (drop_entry iter tmp r.2) ≫= fun r : nat * mem =>
      namespaces_loop fuel' l tmp r.1 r.2
  end.

Definition show_namespaces_linux : prog ostate unit :=
  match readdir NS_PATH with
  | None => mret tt
  | Some names =>
    in_region (fun al => @namespace_list al _ names) ≫= fun r : nat * mem =>
    pure (first_two r.1 r.2) ≫= fun s : (nat * nat) * mem =>
    namespaces_loop (S (allocs s.2)) r.1 s.1.1 s.1.2 s.2
  end.
End Show.

(** ** A memory of its own *)
Section Region.
Context `{AllocTotal} `{LocaleLaws} (cfg : settings).

Lemma reads_region {A : Set} (op : Allocator -> prog mem A) a h :
  (forall al, @AllocTotal al -> op al mem0 = Ok (a, h)) -> reads cfg (in_region op) (a, h).
Proof.
  intros Hop. apply reads_mem. intros m. exists (ticks (allocs h) m). split; [|by eexists].
  rewrite Hop; [done|]. intros n. exact (alloc_total (allocs m + n)).
Qed.
End Region.

(** ** The list of the namespaces *)
Section ListSpec.
Context `{AllocTotal} `{GenericSystem}.
Implicit Types (m : mem) (l : nat) (xs : list nat).

(** The names and the links of the directory, in its order. *)
Definition namespaces_of (names : list bytes) : list (bytes * bytes) :=
  omap (fun name => if dot_name name then None
                    else (fun link => (name, link)) <$> link_target (NS_PATH ++ lit "/" ++ name)) names.

Definition line_of (e : bytes * bytes) : bytes := e.1 ++ SPACE :: e.2.

(** The list at [l] holds the lines of [es], sorted. *)
Definition lists (m : mem) (l : nat) (es : list (bytes * bytes)) : Prop :=
  exists xs, mem_ok m /\ ring (heap m) l xs /\ Sorted data_le (map (key_of (heap m)) xs) /\
    map (key_of (heap m)) xs ≡ₚ map (fun e => Some (line_of e)) es.

Lemma strndup_all s m : strndup s (length s) m = Ok (Some s, tick m).
Proof. by rewrite strndup_run, firstn_all. Qed.

Lemma fresh_keys m m' l xs e s :
  fresh_entry m m' l xs e s -> map (key_of (heap m')) xs = map (key_of (heap m)) xs.
Proof.
  intros (_ & _ & _ & _ & _ & Hk). apply map_ext_in. intros c Hc. unfold key_of. rewrite Hk; [done|].
  apply list_elem_of_In in Hc. set_solver.
Qed.

Lemma insert_line m l es e :
  lists m l es ->
  exists n m1 m2, pr_list_new (Some (line_of e)) (tick m) = Ok (n, m1) /\ nonnull n = true /\
    pr_list_prepend_str_sorted l n m1 = Ok (n, m2) /\ lists m2 l (e :: es).
Proof.
  intros (xs & Hm & Hr & Hs & Hp).
  destruct (new_entry_ok m l xs (line_of e) Hm Hr) as (m1 & E1 & Hf).
  pose proof (fresh_keys _ _ _ _ _ _ Hf) as Hk. destruct Hf as (Hm1 & Hr1 & Hin & Hl & Hd & _).
  set (n := S (S (allocs m))) in *.
  destruct (prepend_sorted_run m1 l n pr_list_cmp_str _ xs Hm1 Hr1 Hin Hl
    (fun p => cmp_entry_run m1 l n xs p Hm1 Hr1 Hl)) as (m2 & E2 & Hr2 & Hsame).
  exists n, m1, m2. split_and!; [done|done|done|].
  eexists. split_and!; [by eapply same_data_mem_ok|exact Hr2| |].
  - rewrite (same_data_keys m1 m2) by done. apply ins_before_sorted. by rewrite Hk.
  - rewrite (same_data_keys m1 m2) by done. cbn [map]. rewrite ins_before_perm. cbn [map].
    rewrite Hk, Hp. unfold key_of at 1. by rewrite Hd.
Qed.
End ListSpec.

Section ListRun.
Context `{GenericSystem}.

Lemma add_namespace_ok l name m es :
  Forall (fun e => e.2 <> []) (namespaces_of [name]) -> lists m l es ->
  exists m', (forall al, @AllocTotal al -> @add_namespace al _ l name m = Ok (tt, m')) /\
    lists m' l (namespaces_of [name] ++ es).
Proof.
  unfold namespaces_of, add_namespace. cbn [omap list_omap]. intros Hne Hl.
  destruct (dot_name name); [by exists m|].
  destruct (link_target _) as [link|]; cbn [option_map fmap option_fmap] in *; [|by exists m].
  apply Forall_cons_1 in Hne as [Hne _]. cbn [snd] in Hne.
  destruct (@insert_line total_allocator total_allocator_total m l es (name, link) Hl)
    as (n & m1 & m2 & E1 & Hn & E2 & Hl2).
  exists m2. split; [|exact Hl2]. intros al Hal.
  assert (negb (bool_decide (link = [])) = true) as Hb by by rewrite bool_decide_false.
  step_with (nonnull_run _ "len" m Hb). step_with (strndup_all (name ++ SPACE :: link) m).
  assert (@pr_list_new al (Some (name ++ SPACE :: link)) (tick m) = Ok (n, m1)) as En.
  { rewrite <- E1. unfold pr_list_new. by rewrite !(prog_bind_ok _ _ _ _ _ (alloc_run (tick m))). }
  step_with En. step_with (nonnull_run _ "entry" m1 Hn). step_with E2. by apply nonnull_run.
Qed.

Lemma add_namespaces_ok l names m es :
  Forall (fun e => e.2 <> []) (namespaces_of names) -> lists m l es ->
  exists m', (forall al, @AllocTotal al -> @add_namespaces al _ l names m = Ok (tt, m')) /\
    exists es', lists m' l es' /\ es' ≡ₚ namespaces_of names ++ es.
Proof.
  revert m es. induction names as [|name names IH]; intros m es Hne Hl; [exists m; split; [done|by exists es]|].
  assert (namespaces_of (name :: names) = namespaces_of [name] ++ namespaces_of names) as Ec.
  { unfold namespaces_of. cbn [omap list_omap]. by destruct (if dot_name name then _ else _). }
  rewrite Ec in *. apply Forall_app in Hne as [H1 H2].
  destruct (add_namespace_ok l name m es H1 Hl) as (m1 & E1 & Hl1).
  destruct (IH m1 _ H2 Hl1) as (m2 & E2 & es' & Hl2 & Hp).
  exists m2. split.
  - intros al Hal. cbn [add_namespaces]. step_with (E1 al Hal). by apply E2.
  - exists es'. split; [done|]. rewrite Hp, !app_assoc. f_equiv. apply Permutation_app_comm.
Qed.

Lemma namespace_list_ok names :
  Forall (fun e => e.2 <> []) (namespaces_of names) ->
  exists m', (forall al, @AllocTotal al -> @namespace_list al _ names mem0 = Ok (1, m')) /\
    lists m' 1 (namespaces_of names).
Proof.
  intros Hne.
  assert (mem_ok mem0) as H0 by (intros a [n Hn]; cbn in Hn; by rewrite lookup_empty in Hn).
  destruct (@new_ok total_allocator total_allocator_total mem0 None H0) as (m1 & E1 & Hm1 & Hr1 & _).
  assert (lists m1 1 []) as Hl1 by (exists []; by split_and!).
  destruct (add_namespaces_ok 1 names m1 [] Hne Hl1) as (m2 & E2 & es & (xs & Hm2 & Hr2 & Hs & Hk) & Hp).
  exists m2. split.
  - intros al Hal. unfold namespace_list.
    assert (@pr_list_new al None mem0 = Ok (1, m1)) as En.
    { change 1 with (S (allocs mem0)). rewrite <- E1. unfold pr_list_new.
      by rewrite !(prog_bind_ok _ _ _ _ _ (alloc_run mem0)). }
    step_with En. step_with (nonnull_run true "list" m1 eq_refl). by step_with (E2 al Hal).
  - exists xs. split_and!; [done..|]. rewrite Hk, Hp, app_nil_r. done.
Qed.
End ListRun.

(** ** What they print *)
Section Spec.
Context `{AllocTotal} `{LocaleLaws} (cfg : settings).
Context `{!Util.System} `{!Headers} `{!Identity} `{!Terminal} `{!Files} `{!GenericSystem} `{!Directories}.

(** *** Namespaces *)
Definition namespace_tree (T : bytes -> wstr) (e : bytes * bytes) : tree := TObject [TEntry (T e.1) (T e.2)].

Definition namespace_ok (T : bytes -> wstr) (e : bytes * bytes) : Prop :=
  (SPACE ∉ e.1) /\ e.1 <> [] /\ e.2 <> [] /\ text_is cfg e.1 (T e.1) /\ text_is cfg e.2 (T e.2).

Lemma prints_namespace T e :
  namespace_ok T e -> prints cfg (show_namespace (Some (line_of e))) [namespace_tree T e].
Proof.
  intros (Hs & Hne & _ & T1 & T2). unfold show_namespace, strsep, line_of. rewrite split_at_app by done.
  eapply prints_eq; [prints_steps; by apply name_text|same_trees].
Qed.

Lemma take_entry_ok h l x xs :
  mem_ok h -> ring (heap h) l (x :: xs) ->
  exists h', take_entry x h = Ok (key_of (heap h) x, h') /\ ring (heap h') l xs /\ ring (heap h') x [] /\
    same_data h h'.
Proof.
  intros Hm Hr. destruct (remove_ok h l [] x xs Hm Hr) as (h' & E & Hl & Hx & Hs).
  exists h'. split; [|done]. unfold take_entry. step_with E.
  assert (live h' x) as Hlx by (eapply ring_live; [exact Hx|set_solver]).
  rewrite (get_data_run _ _ _ (live_data _ _ Hlx)). unfold key_of. destruct Hs as [_ ->]. done.
Qed.

Lemma drop_entry_ok h l x xs :
  mem_ok h -> ring (heap h) l xs -> live h x -> x ∉ l :: xs ->
  exists tmp h', drop_entry x (hd l xs) h = Ok (tmp, h') /\ mem_ok h' /\ ring (heap h') l xs /\
    next_of (heap h') (hd l xs) = Some tmp /\
    map (key_of (heap h')) xs = map (key_of (heap h)) xs.
Proof.
  intros Hm Hr [n Hx] Hin. set (h' := mk_mem (allocs h) (delete x (heap h))).
  assert (forall c, c ∈ l :: xs -> heap h' !! c = heap h !! c) as Hf.
  { intros c Hc. unfold h'. cbn. apply lookup_delete_ne. intros <-. done. }
  assert (ring (heap h') l xs) as Hr' by (by eapply ring_frame).
  assert (live h' (hd l xs)) as [n' Hn'] by (eapply ring_live; [done|apply hd_in]).
  exists (next n'), h'. split_and!.
  - unfold drop_entry, free_node. erewrite prog_bind_ok by (by rewrite Hx).
    apply get_next_run. unfold next_of. by rewrite Hn'.
  - intros a Ha. apply Hm. unfold h' in Ha. cbn in Ha. destruct Ha as [m Ha].
    apply lookup_delete_Some in Ha as [_ Ha]. by eexists.
  - done.
  - unfold next_of. by rewrite Hn'.
  - apply map_ext_in. intros c Hc. apply list_elem_of_In in Hc. unfold key_of, data_of. by rewrite Hf by set_solver.
Qed.

Lemma prints_namespaces_loop T es fuel l xs tmp h :
  mem_ok h -> ring (heap h) l xs -> next_of (heap h) (hd l xs) = Some tmp ->
  map (key_of (heap h)) xs = map (fun e => Some (line_of e)) es -> Forall (namespace_ok T) es ->
  length xs < fuel ->
  prints cfg (namespaces_loop fuel l (hd l xs) tmp h) (map (namespace_tree T) es).
Proof.
  intros Hm Hr Ht Hk Hes. revert fuel xs tmp h Hm Hr Ht Hk.
  induction Hes as [|e es He Hes IH]; intros [|fuel] xs tmp h Hm Hr Ht Hk Hf; try (cbn in Hf; lia);
    cbn [namespaces_loop].
  - destruct xs; [|done]. cbn [hd]. rewrite Nat.eqb_refl.
    assert (live h l) as [n Hn] by (eapply ring_live; [exact Hr|set_solver]).
    assert (free_node l h = Ok (tt, mk_mem (allocs h) (delete l (heap h)))) as E by (unfold free_node; by rewrite Hn).
    reading (apply reads_pure, E). apply prints_ret.
  - destruct xs as [|x xs]; [done|]. cbn [map hd] in *. injection Hk as Hx Hk.
    pose proof Hr as [Hnd _]. apply NoDup_cons in Hnd as [Hlx Hnd]. apply NoDup_cons in Hnd as [Hxx _].
    rewrite (proj2 (Nat.eqb_neq x l)) by set_solver.
    destruct (take_entry_ok h l x xs Hm Hr) as (h1 & E1 & Hr1 & Hrx & Hs).
    reading (apply reads_pure, E1). cbn [fst snd]. rewrite Hx.
    assert (tmp = hd l xs) as ->.
    { pose proof (ring_next _ _ _ (proj1 (ring_rotate (heap h) l [] x xs) Hr)) as Hn.
      rewrite Ht in Hn. injection Hn as ->. by destruct xs. }
    apply (prints_seq cfg _ _ [_]); [by apply prints_namespace|].
    assert (live h1 x) as Hl1 by (eapply ring_live; [exact Hrx|set_solver]).
    assert (mem_ok h1) as Hm1 by by eapply same_data_mem_ok.
    destruct (drop_entry_ok h1 l x xs Hm1 Hr1 Hl1) as (tmp' & h2 & E2 & Hm2 & Hr2 & Ht2 & Hk2); [set_solver|].
    reading (apply reads_pure, E2). cbn [fst snd]. apply IH; try done.
    + by rewrite Hk2, (same_data_keys h h1).
    + cbn in Hf. lia.
Qed.

Lemma prints_namespaces T names :
  readdir NS_PATH = Some names -> Forall (namespace_ok T) (namespaces_of names) ->
  exists es, es ≡ₚ namespaces_of names /\ Sorted data_le (map (fun e => Some (line_of e)) es) /\
    prints cfg show_namespaces_linux (map (namespace_tree T) es).
Proof.
  intros Hn Hok. destruct (namespace_list_ok names) as (h & E & xs & Hm & Hr & Hs & Hp).
  { eapply Forall_impl; [exact Hok|]. intros e He. apply He. }
  apply Permutation_map_inv in Hp as (es & Hk & Hp).
  exists es. split_and!; [done|by rewrite <- Hk|].
  unfold show_namespaces_linux. rewrite Hn. reading (by apply reads_region). cbn [fst snd].
  assert (live h (hd 1 xs)) as [n Hl] by (eapply ring_live; [exact Hr|apply hd_in]).
  assert (next_of (heap h) (hd 1 xs) = Some (next n)) as Hnx by (unfold next_of; by rewrite Hl).
  assert (first_two 1 h = Ok ((hd 1 xs, next n), h)) as E2.
  { unfold first_two. step_with (get_next_run _ _ _ (ring_next _ _ _ Hr)). by step_with (get_next_run _ _ _ Hnx). }
  reading (apply reads_pure, E2). cbn [fst snd].
  apply prints_namespaces_loop; try done.
  - by rewrite <- Hp.
  - pose proof (ring_length _ _ _ Hm Hr). cbn in *. lia.
Qed.

(** C25: [show_namespaces_linux] prints one object for each entry of
    /proc/self/ns whose link can be read, sorted by the bytes of the name and
    the link: the list of pr_list.c that it sorts them in is built, walked
    and freed without touching a dead node, in a memory that no other list
    shares. *)
Theorem show_namespaces_correct T names :
  readdir NS_PATH = Some names -> Forall (namespace_ok T) (namespaces_of names) ->
  exists es, es ≡ₚ namespaces_of names /\ Sorted data_le (map (fun e => Some (line_of e)) es) /\
    prints cfg show_namespaces_linux (map (namespace_tree T) es).
Proof. apply prints_namespaces. Qed.

(** *** File descriptors *)

(** A descriptor that is shown: its number, where it leads to, and the file. *)
Definition descriptor (name : bytes) : option (Z * bytes * file_status) :=
  if dot_name name then None
  else
    match atoi name with
    | Ok fd =>
      link ← link_target (lit "/proc/self/fd/" ++ name);
      st ← stat_file link;
      if bool_decide (head link = Some SLASH) && S_ISDIR (f_mode st) then None else Some (fd, link, st)
    | _ => None
    end.

Definition tty_trees (T : bytes -> wstr) (link : bytes) (st : file_status) : list tree :=
  [ TBlock KSection (lit "permissions")
      [ TEntry (lit "octal") (octal_text (Z.land (f_mode st) (Z.lnot S_IFMT)));
        TEntry (lit "symbolic") (perms_text (f_mode st)) ];
    TEntry (lit "major") (uint_text (get_major_minor link).2.1);
    TEntry (lit "minor") (uint_text (get_major_minor link).2.2);
    TBlock KSection (lit "owner")
      [ TEntry (lit "user (uid)") (int_text (f_uid st) ++ lit " ('" ++ T (user_text (f_uid st)) ++ lit "')");
        TEntry (lit "group (gid)") (int_text (f_gid st) ++ lit " ('" ++ T (group_name_text (f_uid st)) ++ lit "')") ] ].

Definition descriptor_tree (T : bytes -> wstr) (d : Z * bytes * file_status) : tree :=
  let '(fd, link, st) := d in
  TObject
    [ TBlock KSection (int_text fd)
        [ TEntry (lit "terminal") (yes_no (isatty fd));
          TEntry (lit "valid") (yes_no (fd_valid fd));
          TBlock KSection (lit "device")
            (TEntry (lit "name") (T link) :: if isatty fd then tty_trees T link st else []) ] ].

(** The names are numbers, no link is empty, and the owner of a terminal has
    names, as a user and as a group. *)
Definition descriptor_ok (T : bytes -> wstr) (name : bytes) : Prop :=
  dot_name name = false ->
  (exists fd, atoi name = Ok fd) /\ link_target (lit "/proc/self/fd/" ++ name) <> Some [] /\
  forall fd link st, descriptor name = Some (fd, link, st) ->
    text_is cfg link (T link) /\
    (isatty fd = true -> is_Some (get_user_name (f_uid st)) /\ is_Some (get_group_name (f_uid st)) /\
       text_is cfg (user_text (f_uid st)) (T (user_text (f_uid st))) /\
       text_is cfg (group_name_text (f_uid st)) (T (group_name_text (f_uid st)))).

Lemma prints_tty_device T link st :
  is_Some (get_user_name (f_uid st)) -> is_Some (get_group_name (f_uid st)) ->
  text_is cfg (user_text (f_uid st)) (T (user_text (f_uid st))) ->
  text_is cfg (group_name_text (f_uid st)) (T (group_name_text (f_uid st))) ->
  prints cfg (show_tty_device link st) (tty_trees T link st).
Proof.
  intros [u Eu] [g Eg] Hu Hg. pose proof (printable_text cfg _ (printable_perms (f_mode st))) as Hp.
  unfold show_tty_device, tty_trees, user_text, group_name_text in *. rewrite Eu, Eg in *.
  cbn [from_option id str_arg] in *. destruct (get_major_minor link) as [r [mj mi]]. cbn [fst snd].
  reading (apply reads_permissions_string). cbv zeta. eapply prints_eq; [prints_steps|same_trees].
Qed.

Lemma prints_device T fd link st :
  text_is cfg link (T link) ->
  (isatty fd = true -> is_Some (get_user_name (f_uid st)) /\ is_Some (get_group_name (f_uid st)) /\
     text_is cfg (user_text (f_uid st)) (T (user_text (f_uid st))) /\
     text_is cfg (group_name_text (f_uid st)) (T (group_name_text (f_uid st)))) ->
  prints cfg (show_device fd link st)
    [TBlock KSection (lit "device") (TEntry (lit "name") (T link) :: if isatty fd then tty_trees T link st else [])].
Proof.
  intros Hl Ht. unfold show_device.
  assert (prints cfg (if isatty fd then show_tty_device link st else mret tt)
            (if isatty fd then tty_trees T link st else [])) as Hp.
  { apply prints_if; [|intros _; apply prints_ret]. intros Hf. destruct (Ht Hf) as (? & ? & ? & ?).
    by apply prints_tty_device. }
  eapply prints_eq; [prints_steps; exact Hp|same_trees].
Qed.

Lemma prints_descriptor T name :
  descriptor_ok T name ->
  prints cfg (show_descriptor name) (map (descriptor_tree T) (option_list (descriptor name))).
Proof.
  unfold descriptor_ok, show_descriptor, descriptor. destruct (dot_name name); [intros _; apply prints_ret|].
  intros Hok. destruct Hok as ([fd E] & Hne & Hd); [done|].
  reading (apply reads_pure, E). rewrite E in *.
  destruct (link_target _) as [link|]; [|apply prints_ret]. cbn [mbind option_bind] in *.
  reading (apply reads_number_string). rewrite bool_decide_false by congruence.
  destruct (stat_file link) as [st|]; [|apply prints_ret]. cbn [mbind option_bind] in *.
  destruct (bool_decide _ && _); [apply prints_ret|].
  destruct (Hd fd link st eq_refl) as [Hl Ht]. pose proof (text_yes_no cfg (isatty fd)). pose proof (text_yes_no cfg (fd_valid fd)).
  eapply prints_eq; [prints_steps; [apply name_int|by apply (prints_device T)]|same_trees].
Qed.

Lemma prints_fds T names :
  readdir (lit "/proc/self/fd") = Some names -> Forall (descriptor_ok T) names ->
  prints cfg show_fds_linux (map (descriptor_tree T) (omap descriptor names)).
Proof.
  intros Hn Hok. unfold show_fds_linux. rewrite Hn. rewrite Forall_forall in Hok.
  eapply prints_eq.
  - apply (prints_for_each cfg names _ (fun name => map (descriptor_tree T) (option_list (descriptor name)))).
    intros name Hin. by apply prints_descriptor, Hok.
  - clear Hok Hn. induction names as [|name names IH]; [done|]. cbn [flat_map omap list_omap].
    rewrite IH. by destruct (descriptor name).
Qed.

(** [show_fds_linux] prints one object for each entry of /proc/self/fd whose
    link can be read and whose target can be examined, unless it is a
    directory: the number of the descriptor, whether it is a terminal and
    valid, the target, and for a terminal its permissions, device and owner. *)
Theorem show_fds_linux_correct T names :
  readdir (lit "/proc/self/fd") = Some names -> Forall (descriptor_ok T) names ->
  prints cfg show_fds_linux (map (descriptor_tree T) (omap descriptor names)).
Proof. apply prints_fds. Qed.

(** *** The calls are well placed *)
Class LinkAnswers : Prop := {
  answers_namespaces : readdir NS_PATH = None \/
    exists T names, readdir NS_PATH = Some names /\ Forall (namespace_ok T) (namespaces_of names);
  answers_descriptors : readdir (lit "/proc/self/fd") = None \/
    exists T names, readdir (lit "/proc/self/fd") = Some names /\ Forall (descriptor_ok T) names
}.
Context `{!LinkAnswers}.

Lemma typed_namespaces_linux : typed cfg CObjects DRIVER_DEPTH show_namespaces_linux.
Proof.
  destruct answers_namespaces as [E|(T & names & E & Hok)];
    [unfold show_namespaces_linux; rewrite E; apply typed_ret|].
  destruct (prints_namespaces T names E Hok) as (es & _ & _ & Hp).
  eapply typed_prints; [exact Hp| |].
  - apply forallb_forall. intros t Ht. by apply in_map_iff in Ht as (e & <- & _).
  - apply Forall_map, Forall_forall. intros e _. unfold DRIVER_DEPTH. cbn. lia.
Qed.

Lemma typed_fds_linux : typed cfg CObjects DRIVER_DEPTH show_fds_linux.
Proof.
  destruct answers_descriptors as [E|(T & names & E & Hok)];
    [unfold show_fds_linux; rewrite E; apply typed_ret|].
  eapply typed_prints; [by apply (prints_fds T names)| |].
  - apply forallb_forall. intros t Ht. apply in_map_iff in Ht as ([[fd link] st] & <- & _). cbn.
    by destruct (isatty fd).
  - apply Forall_map, Forall_forall. intros [[fd link] st] _. unfold DRIVER_DEPTH. cbn.
    destruct (isatty fd); cbn; lia.
Qed.
End Spec.
