(* ===== verification/Linux.v ===== *)
(** Linux: the rest of the Linux driver (src/src/platform/linux/platform.c): the
    priorities of I/O, memory nodes, the scheduler, the flags of interfaces,
    the set of processors, and the driver itself, which keeps the promises of
    [DriverTyped]. *)
From S2P Require Import Prelude Memory PrList Locale PString StringUtil Encode Output OutputSpec Document Prints Util Affinity Display Format Tables Platform Process Report Terminal Runtime NetCache Network Generic Options LinuxProc LinuxIpc LinuxCaps LinuxFds.

(** What the kernel and the libraries answer.  [extended_flags] is [None]
    without a socket and [Some None] when the query fails;
    [pthread_getaffinity_np] gives the processors that it stores in a set of
    so many bytes. *)
Class IoPriorities : Type := { ioprio_get : Z -> Z }.

Class Numa : Type := {
  numa_available : Z;
  get_mempolicy : option Z;
  numa_num_possible_nodes : Z;
  numa_num_configured_nodes : Z;
  numa_max_node : Z;
  numa_get_mems_allowed : option (Z * (Z -> bool));
  numa_get_run_node_mask : Z -> bool;
  NUMA_NUM_NODES : Z
}.

Class LinuxSystem : Type := {
  extended_flags : bytes -> option (option Z);
  pthread_getaffinity_np : Z -> Z * list Z;
  ioctl_lock_status : Z -> option termios
}.

Definition EINVAL : Z := 22.

(** ** Priorities of I/O *)
Definition IOPRIO_CLASS_SHIFT : Z := 13.
Definition IOPRIO_PRIO_MASK : Z := 2 ^ IOPRIO_CLASS_SHIFT - 1.
Definition IOPRIO_PRIO_CLASS (mask : Z) : Z := Z.shiftr mask IOPRIO_CLASS_SHIFT.
Definition IOPRIO_PRIO_DATA (mask : Z) : Z := Z.land mask IOPRIO_PRIO_MASK.
Definition IOPRIO_WHO_PROCESS : Z := 1.
Definition IOPRIO_WHO_PGRP : Z := 2.
Definition IOPRIO_WHO_USER : Z := 3.

Definition io_priorities_classes : list (bytes * Z) :=
  [ (lit "IOPRIO_CLASS_NONE", 0); (lit "IOPRIO_CLASS_RT", 1); (lit "IOPRIO_CLASS_BE", 2);
    (lit "IOPRIO_CLASS_IDLE", 3); (lit "IOPRIO_CLASS_NORMAL", 4) ]%Z.

Definition io_priorities_class_map : list (option bytes * Z) := terminated io_priorities_classes.

Definition get_ioprio_class_name (ioprio : Z) : outcome (option bytes) :=
  map_scan io_priorities_class_map (fun num => Z.eqb ioprio num).

Section Show.
Context `{Allocator} `{Locale} `{Headers} `{Machine} `{Scheduler} `{IoPriorities} `{Numa} `{LinuxSystem}.

Definition io_prio_get (which : Z) : Z := ioprio_get which.

Definition get_io_priorities_linux : procenv_priority :=
  mk_priority (io_prio_get IOPRIO_WHO_PROCESS) (io_prio_get IOPRIO_WHO_PGRP) (io_prio_get IOPRIO_WHO_USER).

Definition show_io_priority (title : bytes) (ioprio : Z) : prog ostate unit :=
  section_open title;;
  (pure (get_ioprio_class_name (IOPRIO_PRIO_CLASS ioprio)) ≫= fun name : option bytes =>
   name ← str_arg name;
   entry (lit "class") (lit "%s") [name];;
   entry (lit "priority") (lit "%d") [ANum (IOPRIO_PRIO_DATA ioprio)]);;
  section_close.

Definition show_io_priorities_linux (priority_io : procenv_priority) : prog ostate unit :=
  show_io_priority (lit "process") (pri_process priority_io);;
  show_io_priority (lit "group") (pri_pgrp priority_io);;
  show_io_priority (lit "user") (pri_user priority_io).

(** ** Memory nodes *)
Definition mempolicy_names : list bytes :=
  [lit "MPOL_DEFAULT"; lit "MPOL_PREFERRED"; lit "MPOL_BIND"; lit "MPOL_INTERLEAVE"].

(** The table has no terminator. *)
Definition numa_mempolicy_map : list (option bytes * Z) :=
  map (fun e => (Some e.1, e.2)) (defined_entries mempolicy_names).

Definition get_numa_policy (policy : Z) : outcome (option bytes) :=
  map_scan numa_mempolicy_map (fun num => Z.eqb num policy).

(** The loop over the nodes is that of the list of processors. *)
Definition show_allowed (allowed_size : Z) (isset : Z -> bool) : prog ostate unit :=
  allowed_list ← in_mem (affinity_list isset allowed_size);
  allowed_list ← match allowed_list with
                 | Some b => s ← pure (string_at b 0); str_arg (Some s)
                 | None => str_arg None
                 end;
  entry (lit "allowed list") (lit "%s") [allowed_list].

Definition LIBNUMA_2 : bool := bool_decide (macro (lit "LIBNUMA_API_VERSION") = Some 2%Z).

Definition show_numa : prog ostate unit :=
  if Z.ltb numa_available 0 then mret tt
  else
    entry (lit "api version") (lit "%d") [ANum (if LIBNUMA_2 then 2 else 1)];;
    match get_mempolicy with
    | None => entry (lit "policy") (lit "%s") [AStr UNKNOWN_STR]
    | Some policy =>
      pure (get_numa_policy policy) ≫= fun policy_name : option bytes =>
      entry (lit "policy") (lit "%s") [AStr (default UNKNOWN_STR policy_name)];;
      if LIBNUMA_2 then
        entry (lit "maximum nodes") (lit "%d") [ANum numa_num_possible_nodes];;
        entry (lit "configured nodes") (lit "%d") [ANum numa_num_configured_nodes];;
        match numa_get_mems_allowed with
        | None => die "failed to query NUMA allowed list"
        | Some (allowed_size, isset) => show_allowed allowed_size isset
        end
      else
        entry (lit "maximum nodes") (lit "%s") [AStr UNKNOWN_STR];;
        entry (lit "configured nodes") (lit "%d") [ANum numa_max_node];;
        show_allowed NUMA_NUM_NODES numa_get_run_node_mask
    end.

Definition handle_numa_memory_linux : prog ostate unit :=
  header (lit "numa");;
  (if ifdef (lit "HAVE_NUMA_H") then show_numa else mret tt);;
  footer.

(** ** The scheduler *)
Definition scheduler_map : list (option bytes * Z) := terminated (titled_entries scheduler_names).

Definition get_scheduler_name (sched : Z) : outcome (option bytes) :=
  map_scan scheduler_map (fun num => Z.eqb num sched).

Definition handle_scheduler_type_linux : prog ostate unit :=
  if Z.ltb sched_getscheduler 0 then entry (lit "type") (lit "%s") [AStr UNKNOWN_STR]
  else
    pure (get_scheduler_name sched_getscheduler) ≫= fun name : option bytes =>
    name ← str_arg name;
    entry (lit "type") (lit "%s") [name].

(** ** Interfaces and terminals *)
Definition show_extended_if_flags_linux (interface : bytes) : prog ostate unit :=
  match extended_flags (take (IFNAMSIZ - 1) interface) with
  | Some (Some ifr_flags) =>
    let flags := to_unsigned 16 ifr_flags in
    for_each (titled_entries if_extended_flag_names_linux) (fun p =>
      if Z.eqb (Z.land flags p.2) 0 then mret tt
      else
        object_open false;;
        entry p.1 (lit "0x%x") [ANum p.2];;
        object_close false)
  | _ => mret tt
  end.

(** Its caller has found a terminal: the descriptor is not -1. *)
Definition get_tty_locked_status_linux (tty_fd : Z) : termios := default unlocked (ioctl_lock_status tty_fd).

(** ** The set of processors *)
Definition CPU_ALLOC_SIZE (count : Z) : Z := (count + 63) / 64 * 8.
Definition CPU_SETSIZE : Z := 1024.

(** The loop over the sizes of the set: what the last query returned and
    stored, and whether the set is still allocated. *)
Fixpoint affinity_loop (fuel : nat) (max mult size : Z) : prog mem (Z * list Z * bool) :=
  match fuel with
  | 0 => diverge
  | S fuel' =>
    let '(ret, cs) := pthread_getaffinity_np size in
    if negb (Z.eqb ret EINVAL) then mret (ret, cs, true)
    else if Z.ltb 128 mult then mret (ret, [], false)
    else
      cs ← alloc;
      match cs with
      | None => ub "write through a null pointer"
      | Some _ => affinity_loop fuel' max (mult + 2) (CPU_ALLOC_SIZE ((mult + 2) * max))
      end
  end.

Definition get_cpuset_linux : prog mem (option (list Z)) :=
  let max := SC_NPROCESSORS_ONLN in
  if Z.ltb max 0 then mret None
  else
    cs ← alloc;
    match cs with
    | None => mret None
    | Some _ =>
      '(ret, cs, live) ← affinity_loop 67 max 0 (CPU_ALLOC_SIZE max);
      if Z.eqb ret 0 then mret (Some cs)
      else if live : bool then mret None
      else ub "free of memory that was freed"
    end.

Definition cpuset_has_cpu_linux (cs : list Z) (cpu : Z) : bool :=
  Z.leb 0 cpu && Z.ltb cpu CPU_SETSIZE && bool_decide (cpu ∈ cs).

(** [show_cpu_affinities_generic] with the operations of this driver. *)
Definition show_cpu_affinities_linux : prog ostate unit :=
  cs ← in_mem get_cpuset_linux;
  show_cpu_affinities_generic (Some cs) (Some cpuset_has_cpu_linux) SC_NPROCESSORS_ONLN.
End Show.

(** ** The set of processors *)

(** The sizes tried, in order. *)
Definition tried (max : Z) (k : nat) : Z := CPU_ALLOC_SIZE (if Nat.eqb k 0 then max else 2 * Z.of_nat k * max).

Section CpuSet.
Context `{AllocTotal} `{Headers} `{Machine} `{LinuxSystem}.

Definition refused (max : Z) (k : nat) : Prop := (pthread_getaffinity_np (tried max k)).1 = EINVAL.

Lemma affinity_step k max m :
  refused max k -> k < 65 ->
  affinity_loop (S (66 - k)) max (2 * Z.of_nat k) (tried max k) m
  = affinity_loop (S (66 - S k)) max (2 * Z.of_nat (S k)) (tried max (S k)) (tick m).
Proof.
  intros Hr Hk. change (affinity_loop (S (66 - k))) with
    (fun max mult size => let '(ret, cs) := pthread_getaffinity_np size in
      if negb (Z.eqb ret EINVAL) then mret (ret, cs, true)
      else if Z.ltb 128 mult then mret (ret, [], false)
      else cs ← alloc; match cs with
           | None => ub "write through a null pointer"
           | Some _ => affinity_loop (66 - k) max (mult + 2) (CPU_ALLOC_SIZE ((mult + 2) * max)) end
      : prog mem (Z * list Z * bool)).
  cbv beta. unfold refused in Hr. destruct (pthread_getaffinity_np (tried max k)) as [ret cs]. cbn [fst] in Hr.
  subst ret. rewrite Z.eqb_refl. cbn [negb].
  rewrite (proj2 (Z.ltb_ge 128 _)) by lia. step_with (alloc_run m).
  replace (66 - k) with (S (66 - S k)) by lia. unfold tried. cbn [Nat.eqb].
  replace (2 * Z.of_nat (S k))%Z with (2 * Z.of_nat k + 2)%Z by lia. done.
Qed.

Lemma affinity_steps k max m :
  (forall j, j < k -> refused max j) -> k <= 65 ->
  affinity_loop 67 max 0 (CPU_ALLOC_SIZE max) m
  = affinity_loop (S (66 - k)) max (2 * Z.of_nat k) (tried max k) (ticks k m).
Proof.
  induction k as [|k IH]; intros Hr Hk; [by rewrite ticks_0|].
  rewrite IH by auto with lia. rewrite affinity_step by (auto with lia). by rewrite tick_ticks.
Qed.

Lemma cpuset_found k ret cs m :
  (0 <= SC_NPROCESSORS_ONLN)%Z -> k <= 65 -> (forall j, j < k -> refused SC_NPROCESSORS_ONLN j) ->
  pthread_getaffinity_np (tried SC_NPROCESSORS_ONLN k) = (ret, cs) -> ret <> EINVAL ->
  get_cpuset_linux m = Ok (if Z.eqb ret 0 then Some cs else None, ticks (S k) m).
Proof.
  intros Hmax Hk Hr E Hret. unfold get_cpuset_linux. rewrite (proj2 (Z.ltb_ge _ 0)) by done.
  step_with (alloc_run m).
  assert (affinity_loop 67 SC_NPROCESSORS_ONLN 0 (CPU_ALLOC_SIZE SC_NPROCESSORS_ONLN) (tick m)
          = Ok ((ret, cs, true), ticks (S k) m)) as El.
  { rewrite (affinity_steps k) by done. cbn [affinity_loop]. rewrite E, (proj2 (Z.eqb_neq _ _)) by done.
    cbn [negb]. by rewrite ticks_S. }
  step_with El. by destruct (Z.eqb ret 0).
Qed.

Lemma cpuset_refused m :
  (0 <= SC_NPROCESSORS_ONLN)%Z -> (forall j, j <= 65 -> refused SC_NPROCESSORS_ONLN j) ->
  get_cpuset_linux m = UB "free of memory that was freed".
Proof.
  intros Hmax Hr. unfold get_cpuset_linux. rewrite (proj2 (Z.ltb_ge _ 0)) by done.
  step_with (alloc_run m).
  assert (affinity_loop 67 SC_NPROCESSORS_ONLN 0 (CPU_ALLOC_SIZE SC_NPROCESSORS_ONLN) (tick m)
          = Ok ((EINVAL, [], false), ticks 66 m)) as El.
  { rewrite (affinity_steps 65) by auto with lia. cbn [affinity_loop].
    pose proof (Hr 65 ltac:(lia)) as H65. unfold refused in H65.
    destruct (pthread_getaffinity_np (tried _ 65)) as [ret cs]. cbn [fst] in H65. subst ret.
    rewrite Z.eqb_refl. cbn [negb]. by rewrite ticks_S. }
  by step_with El.
Qed.

(** C27: [get_cpuset_linux] ends: it tries 66 sizes, from the number of
    processors to 130 times that, until the kernel does not refuse the size
    with EINVAL, and then gives the set, or none when the kernel gave another
    error.  When the kernel refuses every size the set is freed twice. *)
Theorem get_cpuset_linux_correct m :
  (0 <= SC_NPROCESSORS_ONLN)%Z ->
  (forall k ret cs, k <= 65 -> (forall j, j < k -> refused SC_NPROCESSORS_ONLN j) ->
     pthread_getaffinity_np (tried SC_NPROCESSORS_ONLN k) = (ret, cs) -> ret <> EINVAL ->
     get_cpuset_linux m = Ok (if Z.eqb ret 0 then Some cs else None, ticks (S k) m)) /\
  ((forall j, j <= 65 -> refused SC_NPROCESSORS_ONLN j) ->
     get_cpuset_linux m = UB "free of memory that was freed").
Proof.
  intros Hmax. split; [|by apply cpuset_refused]. intros k ret cs Hk Hr E Hret. by apply cpuset_found.
Qed.
End CpuSet.

(** ** What they print *)
Section Spec.
Context `{AllocTotal} `{LocaleLaws} (cfg : settings).
Context `{!Headers} `{!Machine} `{!Scheduler} `{!IoPriorities} `{!Numa} `{!LinuxSystem}.

Lemma prints_affinities (cs : list Z) :
  (SC_NPROCESSORS_ONLN <= INT_MAX)%Z -> reads cfg (in_mem get_cpuset_linux) (Some cs) ->
  exists t, prints cfg show_cpu_affinities_linux [TEntry (lit "affinity list") t] /\
    (cpu_list t (filter (cpuset_has_cpu_linux cs) (seqZ 0 SC_NPROCESSORS_ONLN)) \/
     filter (cpuset_has_cpu_linux cs) (seqZ 0 SC_NPROCESSORS_ONLN) = [] /\ t = lit "-1").
Proof.
  intros Hmax Hr. destruct (prints_affinities_generic cfg cs (cpuset_has_cpu_linux) _ Hmax) as (t & Hp & Ht).
  exists t. split; [|done]. unfold show_cpu_affinities_linux. by reading (exact Hr).
Qed.

Lemma prints_allowed size (isset : Z -> bool) :
  (size <= INT_MAX)%Z -> filter isset (seqZ 0 size) <> [] ->
  exists t, prints cfg (show_allowed size isset) [TEntry (lit "allowed list") t] /\
    cpu_list t (filter isset (seqZ 0 size)).
Proof.
  intros Hmax Hne.
  destruct (reads_listed cfg isset size
    (fun b => match b with Some b => s ← pure (string_at b 0); str_arg (Some s) | None => str_arg None end)
    AStr (AStr []) Hmax) as (o & Ho & Hl); [|done|].
  - intros b t w Hb. by step_with (pure_ok _ _ w Hb).
  - destruct o as [t|]; [|done]. destruct Hl as [Hp Hl]. exists t. split; [|done].
    pose proof (printable_text cfg t Hp). unfold show_allowed. rewrite <- bind_assoc. reading (exact Ho).
    eapply prints_eq; [prints_steps|same_trees].
Qed.

(** *** Tables *)
Lemma map_scan_in cells test name :
  map_scan cells test = Ok (Some name) -> exists z, (Some name, z) ∈ cells /\ test z = true.
Proof.
  induction cells as [|[[n|] z] cells IH]; cbn; [done| |done]. destruct (test z) eqn:E.
  - intros [= ->]. exists z. split; [left|done].
  - intros Hs. destruct (IH Hs) as (z' & Hin & Ht). exists z'. split; [by right|done].
Qed.

Lemma text_of_cells cells test name :
  forallb (fun e => match e.1 with Some s => printable s | None => true end) cells = true ->
  map_scan cells test = Ok (Some name) -> text_is cfg name name.
Proof.
  intros Hc Hs. apply map_scan_in in Hs as (z & Hin & _). rewrite forallb_forall in Hc.
  apply list_elem_of_In in Hin. apply Hc in Hin. by apply printable_text.
Qed.

Lemma printable_terminated tbl :
  forallb (fun e : bytes * Z => printable e.1) tbl = true ->
  forallb (fun e : option bytes * Z => match e.1 with Some s => printable s | None => true end) (terminated tbl) = true.
Proof.
  unfold terminated. induction tbl as [|[n z] tbl IH]; [done|]. cbn in *.
  intros Ht. apply andb_prop in Ht as [-> Ht]. by apply IH.
Qed.

(** *** Priorities of I/O *)
Lemma get_ioprio_class_name_run io :
  get_ioprio_class_name (IOPRIO_PRIO_CLASS io) = Ok (find_name io_priorities_classes (IOPRIO_PRIO_CLASS io)).
Proof. apply map_scan_terminated. Qed.

Definition io_priority_tree (title : bytes) (io : Z) : tree :=
  TBlock KSection title
    [ TEntry (lit "class") (default [] (find_name io_priorities_classes (IOPRIO_PRIO_CLASS io)));
      TEntry (lit "priority") (int_text (IOPRIO_PRIO_DATA io)) ].

Lemma prints_io_priority title io :
  name_is cfg title title -> is_Some (find_name io_priorities_classes (IOPRIO_PRIO_CLASS io)) ->
  prints cfg (show_io_priority title io) [io_priority_tree title io].
Proof.
  intros Hn [name E]. pose proof (get_ioprio_class_name_run io) as Hr. rewrite E in Hr.
  assert (text_is cfg name name) as Ht.
  { unfold get_ioprio_class_name in Hr. eapply text_of_cells; [|exact Hr]. by vm_compute. }
  unfold show_io_priority, io_priority_tree. rewrite E. cbn [default from_option id].
  eapply prints_eq; [prints_step|].
  - reading (apply reads_pure, Hr). cbn [str_arg]. prints_steps.
  - same_trees.
Qed.

Lemma prints_io_priorities (p : procenv_priority) :
  Forall (fun io => is_Some (find_name io_priorities_classes (IOPRIO_PRIO_CLASS io)))
    [pri_process p; pri_pgrp p; pri_user p] ->
  prints cfg (show_io_priorities_linux p)
    [ io_priority_tree (lit "process") (pri_process p); io_priority_tree (lit "group") (pri_pgrp p);
      io_priority_tree (lit "user") (pri_user p) ].
Proof.
  rewrite !Forall_cons. intros (Hp & Hg & Hu & _). unfold show_io_priorities_linux.
  eapply prints_eq; [prints_steps; apply prints_io_priority; solve [done|solve_name]|same_trees].
Qed.

(** *** Memory nodes *)

(** The names of the four policies; for any other one the search leaves the
    table. *)
Lemma get_numa_policy_run policy :
  match list_find (fun e => Z.eqb e.2 policy) (defined_entries mempolicy_names) with
  | Some (_, e) => get_numa_policy policy = Ok (Some e.1)
  | None => get_numa_policy policy = UB "read past the end of the table"
  end.
Proof.
  unfold get_numa_policy, numa_mempolicy_map. induction (defined_entries mempolicy_names) as [|[n z] tbl IH]; [done|].
  cbn [list_find map map_scan fst snd]. destruct (decide (Is_true (Z.eqb z policy))) as [Hz|Hz].
  - apply Is_true_true in Hz. by rewrite Hz.
  - apply Is_true_false in Hz. rewrite Hz. by destruct (list_find _ tbl) as [[i e]|].
Qed.

Lemma prints_numa policy name size isset h :
  macro (lit "HAVE_NUMA_H") = Some h -> LIBNUMA_2 = true -> (0 <= numa_available)%Z ->
  get_mempolicy = Some policy -> get_numa_policy policy = Ok (Some name) ->
  numa_get_mems_allowed = Some (size, isset) -> (size <= INT_MAX)%Z -> filter isset (seqZ 0 size) <> [] ->
  exists t, cpu_list t (filter isset (seqZ 0 size)) /\
    prints cfg handle_numa_memory_linux
      [ TBlock KSection (lit "numa")
          [ TEntry (lit "api version") (int_text 2); TEntry (lit "policy") name;
            TEntry (lit "maximum nodes") (int_text numa_num_possible_nodes);
            TEntry (lit "configured nodes") (int_text numa_num_configured_nodes);
            TEntry (lit "allowed list") t ] ].
Proof.
  intros Hh Hapi Hav Hp Hname Hm Hmax Hne. destruct (prints_allowed size isset Hmax Hne) as (t & Ht & Hl).
  exists t. split; [done|]. unfold handle_numa_memory_linux, ifdef. rewrite bool_decide_true by (by rewrite Hh).
  unfold show_numa. rewrite (proj2 (Z.ltb_ge _ 0)), Hapi, Hp, Hm by done.
  assert (text_is cfg name name) as Hn.
  { eapply text_of_cells; [|exact Hname]. apply forallb_forall. intros c Hc. apply in_map_iff in Hc as (e & <- & He).
    cbn. apply list_elem_of_In, list_elem_of_omap in He as (n & Hin & E). destruct (macro n); cbn in E; simplify_eq.
    cbn. repeat (apply elem_of_cons in Hin as [->|Hin]; [done|]). by apply not_elem_of_nil in Hin. }
  eapply prints_eq; [prints_step; prints_step|].
  - reading (apply reads_pure, Hname). cbn [default from_option id]. prints_steps. exact Ht.
  - same_trees.
Qed.

(** When the kernel has memory nodes and the policy of the process is one of
    the four that the program knows, [handle_numa_memory_linux] prints the
    policy, the numbers of nodes and, as a list of numbers and ranges, exactly
    the nodes on which the process may allocate. *)
Theorem handle_numa_memory_correct policy name size isset h :
  macro (lit "HAVE_NUMA_H") = Some h -> LIBNUMA_2 = true -> (0 <= numa_available)%Z ->
  get_mempolicy = Some policy -> get_numa_policy policy = Ok (Some name) ->
  numa_get_mems_allowed = Some (size, isset) -> (size <= INT_MAX)%Z -> filter isset (seqZ 0 size) <> [] ->
  exists t, cpu_list t (filter isset (seqZ 0 size)) /\
    prints cfg handle_numa_memory_linux
      [ TBlock KSection (lit "numa")
          [ TEntry (lit "api version") (int_text 2); TEntry (lit "policy") name;
            TEntry (lit "maximum nodes") (int_text numa_num_possible_nodes);
            TEntry (lit "configured nodes") (int_text numa_num_configured_nodes);
            TEntry (lit "allowed list") t ] ].
Proof. apply prints_numa. Qed.
End Spec.

(** ** The calls are well placed *)
Section Typed.
Context `{AllocTotal} `{LocaleLaws} (cfg : settings).
Context `{!Headers} `{!Machine} `{!Scheduler} `{!IoPriorities} `{!Numa} `{!LinuxSystem}.

(** The kernel answers, with values that the tables of the program know. *)
Class LinuxAnswers : Prop := {
  answers_ioprio : Forall (fun io => is_Some (find_name io_priorities_classes (IOPRIO_PRIO_CLASS io)))
    [ioprio_get IOPRIO_WHO_PROCESS; ioprio_get IOPRIO_WHO_PGRP; ioprio_get IOPRIO_WHO_USER];
  answers_policy : forall policy, (0 <= numa_available)%Z -> get_mempolicy = Some policy ->
    exists name, get_numa_policy policy = Ok (Some name) /\ text_is cfg name name;
  answers_nodes : exists size isset,
    (if LIBNUMA_2 then numa_get_mems_allowed = Some (size, isset)
     else size = NUMA_NUM_NODES /\ isset = numa_get_run_node_mask) /\
    (size <= INT_MAX)%Z /\ filter isset (seqZ 0 size) <> [];
  answers_scheduler : (sched_getscheduler < 0)%Z \/ exists name, get_scheduler_name sched_getscheduler = Ok (Some name);
  answers_cpuset : (0 <= SC_NPROCESSORS_ONLN <= INT_MAX)%Z /\
    exists k cs, k <= 65 /\ (forall j, j < k -> refused SC_NPROCESSORS_ONLN j) /\
      pthread_getaffinity_np (tried SC_NPROCESSORS_ONLN k) = (0%Z, cs)
}.
Context `{!LinuxAnswers}.

Lemma typed_io_priorities_linux :
  typed cfg CMembers DRIVER_DEPTH (show_io_priorities_linux get_io_priorities_linux).
Proof.
  eapply typed_prints; [apply prints_io_priorities, answers_ioprio|done|].
  repeat apply Forall_cons_2; unfold DRIVER_DEPTH; cbn; try lia. apply Forall_nil_2.
Qed.

Lemma typed_allowed size (isset : Z -> bool) :
  (size <= INT_MAX)%Z -> filter isset (seqZ 0 size) <> [] -> typed cfg CMembers 1 (show_allowed size isset).
Proof.
  intros Hmax Hne. destruct (prints_allowed cfg size isset Hmax Hne) as (t & Hp & _).
  eapply typed_prints; [exact Hp|done|]. apply Forall_cons_2; [cbn; lia|apply Forall_nil_2].
Qed.

Lemma typed_numa_linux : typed cfg CMembers DRIVER_DEPTH handle_numa_memory_linux.
Proof.
  destruct answers_nodes as (size & isset & Hm & Hmax & Hne).
  pose proof (typed_allowed size isset Hmax Hne) as Ha.
  unfold handle_numa_memory_linux. typed_steps. unfold show_numa.
  destruct (Z.ltb_spec numa_available 0) as [|Hav]; [apply typed_ret|].
  typed_step. destruct get_mempolicy as [policy|] eqn:Ep; [|typed_steps].
  destruct (answers_policy policy Hav Ep) as (name & Hname & Ht).
  reading (apply reads_pure, Hname). cbn [default from_option id].
  assert (showable cfg name) as Hs by by exists name.
  destruct LIBNUMA_2.
  - rewrite Hm. typed_steps. eapply typed_le; [exact Ha|lia].
  - destruct Hm as [-> ->]. typed_steps. eapply typed_le; [exact Ha|lia].
Qed.

Lemma typed_scheduler_linux : typed cfg CMembers DRIVER_DEPTH handle_scheduler_type_linux.
Proof.
  unfold handle_scheduler_type_linux.
  destruct (Z.ltb_spec sched_getscheduler 0) as [|Hs]; [typed_steps|].
  destruct answers_scheduler as [|[name E]]; [lia|]. reading (apply reads_pure, E). cbn [str_arg].
  assert (showable cfg name) as Hn.
  { exists name. eapply text_of_cells; [|exact E]. apply printable_terminated, printable_titled. by vm_compute. }
  typed_steps.
Qed.

Lemma typed_extended_if_flags_linux i : typed cfg CObjects DRIVER_DEPTH (show_extended_if_flags_linux i).
Proof.
  unfold show_extended_if_flags_linux. destruct (extended_flags _) as [[flags|]|]; [|apply typed_ret..].
  cbv zeta. typed_steps. eapply nameable_titled; [|eassumption]. by vm_compute.
Qed.

Lemma typed_affinities_linux : typed cfg CMembers DRIVER_DEPTH show_cpu_affinities_linux.
Proof.
  destruct answers_cpuset as ([Hmin Hmax] & k & cs & Hk & Hr & E).
  assert (reads cfg (in_mem get_cpuset_linux) (Some cs)) as Hc.
  { apply reads_mem. intros m. exists (ticks (S k) m). split; [|by eexists].
    by rewrite (cpuset_found k 0 cs). }
  destruct (prints_affinities cfg cs Hmax Hc) as (t & Hp & _).
  eapply typed_prints; [exact Hp|done|]. apply Forall_cons_2; [cbn; lia|apply Forall_nil_2].
Qed.
End Typed.

(** ** The driver *)
Section Driver.
Context `{Allocator} `{Locale} `{Util.System} `{Headers} `{Machine} `{Identity} `{Scheduler} `{Ipc} `{Clock}
  `{Prctl} `{Capabilities} `{SecurityModules} `{Terminal} `{Files} `{GenericSystem} `{Directories}
  `{IoPriorities} `{Numa} `{LinuxSystem}.

(** The structure [platform_ops].  The priorities that [show_io_priorities_linux]
    shows are those that [get_io_priorities_linux] stored at the start. *)
Definition platform_ops : Driver := {|
  signal_map := terminated (titled_entries signal_names_linux);
  if_flag_map := terminated (titled_entries if_flag_names_linux);
  op_get_kernel_bits := Some get_kernel_bits_generic;
  op_get_time := Some get_time_generic;
  op_get_mtu := Some get_mtu_generic;
  op_show_capabilities := Some show_capabilities_linux;
  op_show_cgroups := Some show_cgroups_linux;
  op_show_clocks := Some show_clocks_generic;
  op_show_confstrs := Some show_confstrs_generic;
  op_show_cpu_affinities := Some show_cpu_affinities_linux;
  op_show_cpu := Some show_cpu_linux;
  op_show_extended_if_flags := Some show_extended_if_flags_linux;
  op_show_fds := Some show_fds_linux;
  op_show_io_priorities := Some (show_io_priorities_linux get_io_priorities_linux);
  op_show_mounts := Some show_mounts_generic_linux;
  op_show_msg_queues := Some show_msg_queues_linux;
  op_show_namespaces := Some show_namespaces_linux;
  op_show_oom := Some show_oom_linux;
  op_show_prctl := Some show_prctl_linux;
  op_show_rlimits := Some show_rlimits_linux;
  op_show_security_module := Some show_security_module_linux;
  op_show_semaphores := Some show_semaphores_linux;
  op_show_shared_mem := Some show_shared_mem_linux;
  op_show_timezone := Some (show_timezone_generic false);
  op_show_libs := Some show_libs_generic;
  op_handle_memory := Some show_memory_generic;
  op_handle_numa_memory := Some handle_numa_memory_linux;
  op_handle_proc_branch := Some handle_proc_branch_linux;
  op_handle_scheduler_type := Some handle_scheduler_type_linux;
  op_in_vm := Some in_vm_linux
|}.
End Driver.

Section DriverSpec.
Context `{AllocTotal} `{LocaleLaws} (cfg : settings).
Context `{!Util.System} `{!Headers} `{!Machine} `{!Identity} `{!Scheduler} `{!Ipc} `{!Clock}
  `{!Prctl} `{!Capabilities} `{!SecurityModules} `{!Terminal} `{!Files} `{!GenericSystem} `{!Directories}
  `{!IoPriorities} `{!Numa} `{!LinuxSystem}.

Lemma linux_driver_ok
  `{!GenericAnswers cfg} `{!ProcAnswers cfg} `{!IpcAnswers cfg} `{!KernelAnswers cfg} `{!LinkAnswers cfg}
  `{!LinuxAnswers cfg} :
  (exists vm, in_vm_linux = Ok vm) -> @DriverTyped _ _ platform_ops cfg.
Proof.
  intros Hvm. constructor.
  - each_op.
    + exact (typed_capabilities_linux cfg).
    + exact (typed_cgroups_linux cfg).
    + exact (typed_clocks_generic cfg).
    + exact (typed_confstrs_generic cfg).
    + exact (typed_affinities_linux cfg).
    + exact (typed_cpu_linux cfg).
    + exact (typed_io_priorities_linux cfg).
    + exact (typed_queues cfg).
    + exact (typed_oom_linux cfg).
    + exact (typed_prctl_linux cfg).
    + exact (typed_rlimits_linux cfg).
    + exact (typed_security_linux cfg).
    + exact (typed_semaphores cfg).
    + exact (typed_segments cfg).
    + exact (typed_timezone_generic cfg false).
    + exact (typed_memory_generic cfg).
    + exact (typed_numa_linux cfg).
    + exact (typed_branch_linux cfg).
    + exact (typed_scheduler_linux cfg).
  - each_op.
    + exact (typed_fds_linux cfg).
    + exact (typed_namespaces_linux cfg).
    + exact (typed_libs_generic cfg).
  - intros what. exact (typed_mounts_linux cfg what).
  - intros i. exact (typed_extended_if_flags_linux cfg i).
  - by eexists.
  - by eexists.
  - apply showable_titled. by vm_compute.
  - apply showable_titled. by vm_compute.
  - exact Hvm.
Qed.

(** C8: when the kernel answers with texts and with values that the tables of
    the program know, every display function of the Linux driver makes calls
    that are well placed where procenv.c calls it, and no deeper than five
    blocks: the driver keeps the promises of [DriverTyped], on which the
    theorems about complete runs of the program rest. *)
Theorem linux_driver_typed
  `{!GenericAnswers cfg} `{!ProcAnswers cfg} `{!IpcAnswers cfg} `{!KernelAnswers cfg} `{!LinkAnswers cfg}
  `{!LinuxAnswers cfg} :
  (exists vm, in_vm_linux = Ok vm) -> @DriverTyped _ _ platform_ops cfg.
Proof. apply linux_driver_ok. Qed.
End DriverSpec.
