(* ===== verification/SystemTables.v ===== *)
(** SystemTables: the tables of the drivers other than that of Linux
    (src/src/platform), in their order and without their terminators: the macro
    of each entry and its title. *)
From S2P Require Import Prelude.

(** The table [signal_map_freebsd]. *)
Definition signal_names_freebsd : list (bytes * bytes) :=
  [ (lit "SIGABRT", lit "SIGABRT"); (lit "SIGALRM", lit "SIGALRM"); (lit "SIGBUS", lit "SIGBUS");
    (lit "SIGCHLD", lit "SIGCHLD|SIGCLD"); (lit "SIGCONT", lit "SIGCONT"); (lit "SIGFPE", lit "SIGFPE");
    (lit "SIGHUP", lit "SIGHUP"); (lit "SIGILL", lit "SIGILL"); (lit "SIGINT", lit "SIGINT");
    (lit "SIGKILL", lit "SIGKILL"); (lit "SIGPIPE", lit "SIGPIPE"); (lit "SIGQUIT", lit "SIGQUIT");
    (lit "SIGSEGV", lit "SIGSEGV"); (lit "SIGSTOP", lit "SIGSTOP"); (lit "SIGTERM", lit "SIGTERM");
    (lit "SIGTRAP", lit "SIGTRAP"); (lit "SIGTSTP", lit "SIGTSTP"); (lit "SIGTTIN", lit "SIGTTIN");
    (lit "SIGTTOU", lit "SIGTTOU"); (lit "SIGUSR1", lit "SIGUSR1"); (lit "SIGUSR2", lit "SIGUSR2");
    (lit "SIGIO", lit "SIGIO"); (lit "SIGPROF", lit "SIGPROF"); (lit "SIGSYS", lit "SIGSYS");
    (lit "SIGURG", lit "SIGURG"); (lit "SIGVTALRM", lit "SIGVTALRM"); (lit "SIGWINCH", lit "SIGWINCH");
    (lit "SIGXCPU", lit "SIGXCPU"); (lit "SIGXFSZ", lit "SIGXFSZ"); (lit "SIGEMT", lit "SIGEMT");
    (lit "SIGINFO", lit "SIGINFO"); (lit "SIGTHR", lit "SIGTHR"); (lit "SIGLIBRT", lit "SIGLIBRT")].

(** The table [mntopt_map_freebsd] of FreeBSD. *)
Definition mntopt_names_freebsd : list (bytes * bytes) :=
  [ (lit "MNT_ACLS", lit "acls"); (lit "MNT_ASYNC", lit "asynchronous");
    (lit "MNT_EXPORTED", lit "NFS-exported"); (lit "MNT_GJOURNAL", lit "gjournal");
    (lit "MNT_LOCAL", lit "local"); (lit "MNT_MULTILABEL", lit "multilabel");
    (lit "MNT_NFS4ACLS", lit "nfsv4acls"); (lit "MNT_NOATIME", lit "noatime");
    (lit "MNT_NOCLUSTERR", lit "noclusterr"); (lit "MNT_NOCLUSTERW", lit "noclusterw");
    (lit "MNT_NOEXEC", lit "noexec"); (lit "MNT_NOSUID", lit "nosuid");
    (lit "MNT_NOSYMFOLLOW", lit "nosymfollow"); (lit "MNT_QUOTA", lit "with-quotas");
    (lit "MNT_RDONLY", lit "read-only"); (lit "MNT_SOFTDEP", lit "soft-updates");
    (lit "MNT_SUIDDIR", lit "suiddir"); (lit "MNT_SUJ", lit "journaled-soft-updates");
    (lit "MNT_SYNCHRONOUS", lit "synchronous"); (lit "MNT_UNION", lit "union")].

(** The table [if_flag_map_freebsd]. *)
Definition if_flag_names_freebsd : list (bytes * bytes) :=
  [ (lit "IFF_UP", lit "IFF_UP"); (lit "IFF_BROADCAST", lit "IFF_BROADCAST");
    (lit "IFF_DEBUG", lit "IFF_DEBUG"); (lit "IFF_LOOPBACK", lit "IFF_LOOPBACK");
    (lit "IFF_POINTOPOINT", lit "IFF_POINTOPOINT"); (lit "IFF_RUNNING", lit "IFF_RUNNING");
    (lit "IFF_NOARP", lit "IFF_NOARP"); (lit "IFF_PROMISC", lit "IFF_PROMISC");
    (lit "IFF_ALLMULTI", lit "IFF_ALLMULTI"); (lit "IFF_SIMPLEX", lit "IFF_SIMPLEX");
    (lit "IFF_MULTICAST", lit "IFF_MULTICAST")].

(** The table [signal_map_netbsd]. *)
Definition signal_names_netbsd : list (bytes * bytes) :=
  [ (lit "SIGABRT", lit "SIGABRT"); (lit "SIGALRM", lit "SIGALRM"); (lit "SIGBUS", lit "SIGBUS");
    (lit "SIGCHLD", lit "SIGCHLD|SIGCLD"); (lit "SIGCONT", lit "SIGCONT"); (lit "SIGFPE", lit "SIGFPE");
    (lit "SIGHUP", lit "SIGHUP"); (lit "SIGILL", lit "SIGILL"); (lit "SIGINT", lit "SIGINT");
    (lit "SIGKILL", lit "SIGKILL"); (lit "SIGPIPE", lit "SIGPIPE"); (lit "SIGQUIT", lit "SIGQUIT");
    (lit "SIGSEGV", lit "SIGSEGV"); (lit "SIGSTOP", lit "SIGSTOP"); (lit "SIGTERM", lit "SIGTERM");
    (lit "SIGTRAP", lit "SIGTRAP"); (lit "SIGTSTP", lit "SIGTSTP"); (lit "SIGTTIN", lit "SIGTTIN");
    (lit "SIGUSR1", lit "SIGUSR1"); (lit "SIGUSR2", lit "SIGUSR2"); (lit "SIGIO", lit "SIGIO");
    (lit "SIGPROF", lit "SIGPROF"); (lit "SIGSYS", lit "SIGSYS"); (lit "SIGURG", lit "SIGURG");
    (lit "SIGVTALRM", lit "SIGVTALRM"); (lit "SIGWINCH", lit "SIGWINCH"); (lit "SIGXCPU", lit "SIGXCPU");
    (lit "SIGXFSZ", lit "SIGXFSZ"); (lit "SIGEMT", lit "SIGEMT"); (lit "SIGINFO", lit "SIGINFO");
    (lit "SIGPWR", lit "SIGPWR")].

(** The table [mntopt_map] of NetBSD. *)
Definition mntopt_names_netbsd : list (bytes * bytes) :=
  [ (lit "MNT_ASYNC", lit "asynchronous"); (lit "MNT_EXPORTED", lit "NFS-exported");
    (lit "MNT_LOCAL", lit "local"); (lit "MNT_NOATIME", lit "noatime"); (lit "MNT_NOEXEC", lit "noexec");
    (lit "MNT_NOSUID", lit "nosuid"); (lit "MNT_QUOTA", lit "with-quotas");
    (lit "MNT_RDONLY", lit "read-only"); (lit "MNT_SOFTDEP", lit "soft-updates");
    (lit "MNT_SUJ", lit "journaled-soft-updates"); (lit "MNT_SYNCHRONOUS", lit "synchronous");
    (lit "MNT_UNION", lit "union")].

(** The table [if_flag_map_netbsd]. *)
Definition if_flag_names_netbsd : list (bytes * bytes) :=
  [ (lit "IFF_UP", lit "IFF_UP"); (lit "IFF_BROADCAST", lit "IFF_BROADCAST");
    (lit "IFF_DEBUG", lit "IFF_DEBUG"); (lit "IFF_LOOPBACK", lit "IFF_LOOPBACK");
    (lit "IFF_POINTOPOINT", lit "IFF_POINTOPOINT"); (lit "IFF_RUNNING", lit "IFF_RUNNING");
    (lit "IFF_NOARP", lit "IFF_NOARP"); (lit "IFF_PROMISC", lit "IFF_PROMISC");
    (lit "IFF_ALLMULTI", lit "IFF_ALLMULTI"); (lit "IFF_SIMPLEX", lit "IFF_SIMPLEX");
    (lit "IFF_MULTICAST", lit "IFF_MULTICAST")].

(** The table [signal_map_darwin] up to the entry that is SIGPOLL or SIGEMT. *)
Definition signal_names_darwin : list (bytes * bytes) :=
  [ (lit "SIGALRM", lit "SIGALRM"); (lit "SIGBUS", lit "SIGBUS"); (lit "SIGCONT", lit "SIGCONT");
    (lit "SIGFPE", lit "SIGFPE"); (lit "SIGHUP", lit "SIGHUP"); (lit "SIGILL", lit "SIGILL");
    (lit "SIGINT", lit "SIGINT"); (lit "SIGKILL", lit "SIGKILL"); (lit "SIGPIPE", lit "SIGPIPE");
    (lit "SIGQUIT", lit "SIGQUIT"); (lit "SIGSEGV", lit "SIGSEGV"); (lit "SIGSTOP", lit "SIGSTOP");
    (lit "SIGTERM", lit "SIGTERM"); (lit "SIGTRAP", lit "SIGTRAP"); (lit "SIGTSTP", lit "SIGTSTP");
    (lit "SIGTTIN", lit "SIGTTIN"); (lit "SIGTTOU", lit "SIGTTOU"); (lit "SIGUSR1", lit "SIGUSR1");
    (lit "SIGUSR2", lit "SIGUSR2"); (lit "SIGXCPU", lit "SIGXCPU"); (lit "SIGXFSZ", lit "SIGXFSZ");
    (lit "SIGIOT", lit "SIGIOT"); (lit "SIGPROF", lit "SIGPROF"); (lit "SIGSYS", lit "SIGSYS");
    (lit "SIGURG", lit "SIGURG"); (lit "SIGVTALRM", lit "SIGVTALRM"); (lit "SIGIO", lit "SIGIO");
    (lit "SIGWINCH", lit "SIGWINCH"); (lit "SIGINFO", lit "SIGINFO")].

(** The entries after it. *)
Definition signal_names_darwin_last : list (bytes * bytes) :=
  [ (lit "SIGCHLD", lit "SIGCHLD|SIGCLD"); (lit "SIGABRT", lit "SIGABRT|SIGIOT")].

(** The table [mntopt_map_darwin] of Darwin. *)
Definition mntopt_names_darwin : list (bytes * bytes) :=
  [ (lit "MNT_ASYNC", lit "asynchronous"); (lit "MNT_EXPORTED", lit "NFS-exported");
    (lit "MNT_LOCAL", lit "local"); (lit "MNT_MULTILABEL", lit "multilabel");
    (lit "MNT_NOATIME", lit "noatime"); (lit "MNT_NOEXEC", lit "noexec"); (lit "MNT_NOSUID", lit "nosuid");
    (lit "MNT_QUOTA", lit "with-quotas"); (lit "MNT_RDONLY", lit "read-only");
    (lit "MNT_SYNCHRONOUS", lit "synchronous"); (lit "MNT_UNION", lit "union")].

(** The table [if_flag_map_darwin]. *)
Definition if_flag_names_darwin : list (bytes * bytes) :=
  [ (lit "IFF_UP", lit "IFF_UP"); (lit "IFF_BROADCAST", lit "IFF_BROADCAST");
    (lit "IFF_DEBUG", lit "IFF_DEBUG"); (lit "IFF_LOOPBACK", lit "IFF_LOOPBACK");
    (lit "IFF_POINTOPOINT", lit "IFF_POINTOPOINT"); (lit "IFF_RUNNING", lit "IFF_RUNNING");
    (lit "IFF_NOARP", lit "IFF_NOARP"); (lit "IFF_PROMISC", lit "IFF_PROMISC");
    (lit "IFF_ALLMULTI", lit "IFF_ALLMULTI"); (lit "IFF_SIMPLEX", lit "IFF_SIMPLEX");
    (lit "IFF_MULTICAST", lit "IFF_MULTICAST")].

(** The table [signal_map_hurd]. *)
Definition signal_names_hurd : list (bytes * bytes) :=
  [ (lit "SIGABRT", lit "SIGABRT"); (lit "SIGALRM", lit "SIGALRM"); (lit "SIGBUS", lit "SIGBUS");
    (lit "SIGCHLD", lit "SIGCHLD|SIGCLD"); (lit "SIGCONT", lit "SIGCONT"); (lit "SIGFPE", lit "SIGFPE");
    (lit "SIGHUP", lit "SIGHUP"); (lit "SIGILL", lit "SIGILL"); (lit "SIGINT", lit "SIGINT");
    (lit "SIGKILL", lit "SIGKILL"); (lit "SIGPIPE", lit "SIGPIPE"); (lit "SIGQUIT", lit "SIGQUIT");
    (lit "SIGSEGV", lit "SIGSEGV"); (lit "SIGSTOP", lit "SIGSTOP"); (lit "SIGTERM", lit "SIGTERM");
    (lit "SIGTRAP", lit "SIGTRAP"); (lit "SIGTSTP", lit "SIGTSTP"); (lit "SIGTTIN", lit "SIGTTIN");
    (lit "SIGTTOU", lit "SIGTTOU"); (lit "SIGUSR1", lit "SIGUSR1"); (lit "SIGUSR2", lit "SIGUSR2");
    (lit "SIGIO", lit "SIGIO"); (lit "SIGPROF", lit "SIGPROF"); (lit "SIGSYS", lit "SIGSYS");
    (lit "SIGURG", lit "SIGURG"); (lit "SIGVTALRM", lit "SIGVTALRM"); (lit "SIGWINCH", lit "SIGWINCH");
    (lit "SIGXCPU", lit "SIGXCPU"); (lit "SIGXFSZ", lit "SIGXFSZ"); (lit "SIGEMT", lit "SIGEMT");
    (lit "SIGINFO", lit "SIGINFO"); (lit "SIGLOST", lit "SIGLOST")].

(** The table [if_flag_map_hurd]. *)
Definition if_flag_names_hurd : list (bytes * bytes) :=
  [ (lit "IFF_UP", lit "IFF_UP"); (lit "IFF_BROADCAST", lit "IFF_BROADCAST");
    (lit "IFF_DEBUG", lit "IFF_DEBUG"); (lit "IFF_LOOPBACK", lit "IFF_LOOPBACK");
    (lit "IFF_POINTOPOINT", lit "IFF_POINTOPOINT"); (lit "IFF_RUNNING", lit "IFF_RUNNING");
    (lit "IFF_NOARP", lit "IFF_NOARP"); (lit "IFF_PROMISC", lit "IFF_PROMISC");
    (lit "IFF_ALLMULTI", lit "IFF_ALLMULTI"); (lit "IFF_MULTICAST", lit "IFF_MULTICAST")].

(** The table [mntopt_map] of OpenBSD; one option is there twice. *)
Definition mntopt_names_openbsd : list (bytes * bytes) :=
  [ (lit "MNT_ASYNC", lit "asynchronous"); (lit "MNT_EXPORTED", lit "NFS-exported");
    (lit "MNT_LOCAL", lit "local"); (lit "MNT_NOATIME", lit "noatime"); (lit "MNT_NOEXEC", lit "noexec");
    (lit "MNT_NOSUID", lit "nosuid"); (lit "MNT_QUOTA", lit "with-quotas");
    (lit "MNT_RDONLY", lit "read-only"); (lit "MNT_SYNCHRONOUS", lit "synchronous");
    (lit "MNT_SUJ", lit "journaled-soft-updates"); (lit "MNT_SYNCHRONOUS", lit "synchronous")].

(** The table [if_flag_map_openbsd]. *)
Definition if_flag_names_openbsd : list (bytes * bytes) :=
  [ (lit "IFF_UP", lit "IFF_UP"); (lit "IFF_BROADCAST", lit "IFF_BROADCAST");
    (lit "IFF_DEBUG", lit "IFF_DEBUG"); (lit "IFF_LOOPBACK", lit "IFF_LOOPBACK");
    (lit "IFF_POINTOPOINT", lit "IFF_POINTOPOINT"); (lit "IFF_RUNNING", lit "IFF_RUNNING");
    (lit "IFF_NOARP", lit "IFF_NOARP"); (lit "IFF_PROMISC", lit "IFF_PROMISC");
    (lit "IFF_ALLMULTI", lit "IFF_ALLMULTI"); (lit "IFF_SIMPLEX", lit "IFF_SIMPLEX");
    (lit "IFF_MULTICAST", lit "IFF_MULTICAST")].

(** The table [signal_map_generic] of an unknown system. *)
Definition signal_names_unknown : list (bytes * bytes) :=
  [ (lit "SIGABRT", lit "SIGABRT"); (lit "SIGALRM", lit "SIGALRM"); (lit "SIGBUS", lit "SIGBUS");
    (lit "SIGCHLD", lit "SIGCHLD|SIGCLD"); (lit "SIGCONT", lit "SIGCONT"); (lit "SIGEMT", lit "SIGEMT");
    (lit "SIGFPE", lit "SIGFPE"); (lit "SIGHUP", lit "SIGHUP"); (lit "SIGILL", lit "SIGILL");
    (lit "SIGINFO", lit "SIGINFO"); (lit "SIGINT", lit "SIGINT"); (lit "SIGIO", lit "SIGIO");
    (lit "SIGIOT", lit "SIGIOT"); (lit "SIGKILL", lit "SIGKILL"); (lit "SIGPIPE", lit "SIGPIPE");
    (lit "SIGPOLL", lit "SIGPOLL"); (lit "SIGPROF", lit "SIGPROF"); (lit "SIGPWR", lit "SIGPWR");
    (lit "SIGQUIT", lit "SIGQUIT"); (lit "SIGSEGV", lit "SIGSEGV"); (lit "SIGSTOP", lit "SIGSTOP");
    (lit "SIGSYS", lit "SIGSYS"); (lit "SIGTERM", lit "SIGTERM"); (lit "SIGTRAP", lit "SIGTRAP");
    (lit "SIGTSTP", lit "SIGTSTP"); (lit "SIGTTIN", lit "SIGTTIN"); (lit "SIGTTOU", lit "SIGTTOU");
    (lit "SIGURG", lit "SIGURG"); (lit "SIGUSR1", lit "SIGUSR1"); (lit "SIGUSR2", lit "SIGUSR2");
    (lit "SIGVTALRM", lit "SIGVTALRM"); (lit "SIGWINCH", lit "SIGWINCH"); (lit "SIGXCPU", lit "SIGXCPU");
    (lit "SIGXFSZ", lit "SIGXFSZ")].

(** The rights of [show_fd_capabilities_freebsd]: whether they need a version after 9, and the name. *)
Definition capsicum_rights_1 : list (bool * bytes) :=
  [ (false, lit "CAP_ACCEPT"); (false, lit "CAP_ACL_CHECK"); (false, lit "CAP_ACL_DELETE");
    (false, lit "CAP_ACL_GET"); (false, lit "CAP_ACL_SET"); (false, lit "CAP_BIND"); (true, lit "CAP_BINDAT");
    (true, lit "CAP_CHFLAGSAT"); (false, lit "CAP_CONNECT"); (true, lit "CAP_CONNECTAT");
    (false, lit "CAP_CREATE"); (true, lit "CAP_EVENT"); (false, lit "CAP_EXTATTR_DELETE");
    (false, lit "CAP_EXTATTR_GET"); (false, lit "CAP_EXTATTR_LIST"); (false, lit "CAP_EXTATTR_SET");
    (false, lit "CAP_FCHDIR"); (false, lit "CAP_FCHFLAGS"); (false, lit "CAP_FCHMOD");
    (true, lit "CAP_FCHMODAT"); (false, lit "CAP_FCHOWN"); (true, lit "CAP_FCHOWNAT");
    (false, lit "CAP_FCNTL"); (false, lit "CAP_FEXECVE"); (false, lit "CAP_FLOCK");
    (false, lit "CAP_FPATHCONF"); (false, lit "CAP_FSCK"); (false, lit "CAP_FSTAT");
    (true, lit "CAP_FSTATAT"); (false, lit "CAP_FSTATFS"); (false, lit "CAP_FSYNC");
    (false, lit "CAP_FTRUNCATE"); (false, lit "CAP_FUTIMES"); (true, lit "CAP_FUTIMESAT");
    (false, lit "CAP_GETPEERNAME"); (false, lit "CAP_GETSOCKNAME"); (false, lit "CAP_GETSOCKOPT");
    (false, lit "CAP_IOCTL"); (true, lit "CAP_KQUEUE"); (true, lit "CAP_KQUEUE_CHANGE");
    (true, lit "CAP_KQUEUE_EVENT"); (true, lit "CAP_LINKAT"); (true, lit "CAP_LINKAT_SOURCE")].

(** The second half. *)
Definition capsicum_rights_2 : list (bool * bytes) :=
  [ (true, lit "CAP_LINKAT_TARGET"); (false, lit "CAP_LISTEN"); (false, lit "CAP_LOOKUP");
    (false, lit "CAP_MAC_GET"); (false, lit "CAP_MAC_SET"); (true, lit "CAP_MKDIRAT");
    (true, lit "CAP_MKFIFOAT"); (true, lit "CAP_MKNODAT"); (true, lit "CAP_MMAP"); (true, lit "CAP_MMAP_R");
    (true, lit "CAP_MMAP_RW"); (true, lit "CAP_MMAP_RWX"); (true, lit "CAP_MMAP_RX");
    (true, lit "CAP_MMAP_W"); (true, lit "CAP_MMAP_WX"); (true, lit "CAP_MMAP_X");
    (false, lit "CAP_PDGETPID"); (false, lit "CAP_PDKILL"); (false, lit "CAP_PDWAIT");
    (false, lit "CAP_PEELOFF"); (false, lit "CAP_POLL_EVENT"); (true, lit "CAP_PREAD");
    (true, lit "CAP_PWRITE"); (false, lit "CAP_READ"); (true, lit "CAP_RECV"); (true, lit "CAP_RENAMEAT");
    (true, lit "CAP_RENAMEAT_SOURCE"); (true, lit "CAP_RENAMEAT_TARGET"); (false, lit "CAP_SEEK");
    (true, lit "CAP_SEEK_TELL"); (false, lit "CAP_SEM_GETVALUE"); (false, lit "CAP_SEM_POST");
    (false, lit "CAP_SEM_WAIT"); (true, lit "CAP_SEND"); (false, lit "CAP_SETSOCKOPT");
    (false, lit "CAP_SHUTDOWN"); (true, lit "CAP_SOCK_CLIENT"); (true, lit "CAP_SOCK_SERVER");
    (true, lit "CAP_SYMLINKAT"); (false, lit "CAP_TTYHOOK"); (true, lit "CAP_UNLINKAT");
    (false, lit "CAP_WRITE")].

Definition capsicum_rights : list (bool * bytes) := capsicum_rights_1 ++ capsicum_rights_2.

(** The clocks of [show_clocks_freebsd]. *)
Definition clock_names_freebsd : list bytes :=
  [ lit "CLOCK_REALTIME"; lit "CLOCK_REALTIME_COARSE"; lit "CLOCK_REALTIME_HR"; lit "CLOCK_REALTIME_PRECISE";
    lit "CLOCK_REALTIME_FAST"; lit "CLOCK_MONOTONIC"; lit "CLOCK_MONOTONIC_COARSE"; lit "CLOCK_MONOTONIC_RAW";
    lit "CLOCK_MONOTONIC_PRECISE"; lit "CLOCK_MONOTONIC_FAST"; lit "CLOCK_UPTIME"; lit "CLOCK_UPTIME_PRECISE";
    lit "CLOCK_UPTIME_FAST"; lit "CLOCK_VIRTUAL"; lit "CLOCK_PROF"].
