(* ===== verification/Bsd.v ===== *)
(** Bsd: what the drivers of the BSD systems share: show_mounts_generic_bsd of
    src/src/platform/platform-generic.c; and the drivers for NetBSD
    (src/src/platform/netbsd/platform.c) and OpenBSD
    (src/src/platform/openbsd/platform.c). *)
From S2P Require Import Prelude Memory PrList Locale PString StringUtil Encode Output OutputSpec Document Prints Util Affinity Display Format Tables Platform Process ProcessTree Report Terminal Generic SystemTables.

(** ** Mounts *)

(** [struct statfs] or [struct statvfs], with the flags that
    [PROCENV_MNT_GET_FLAGS] and the two words that [PROCENV_MNT_GET_FSID] take
    from it. *)
Record mount : Type := mk_mount {
  m_fromname : bytes;
  m_onname : bytes;
  m_typename : bytes;
  m_flags : Z;
  m_fsid0 : Z;
  m_fsid1 : Z;
  m_bsize : Z;
  m_blocks : Z;
  m_bfree : Z;
  m_bavail : Z;
  m_files : Z;
  m_ffree : Z
}.

(** [getmntinfo (3)] gives no mount when it fails. *)
Class Mounts : Type := { getmntinfo : list mount }.

Section Mounts.
Context `{Allocator} `{Locale} `{Headers} `{Machine} `{Util.System} `{Terminal} `{GenericSystem} `{Mounts}.

(** One mount, with the text of its options. *)
Definition show_mount_bsd (mnt : mount) (opts : bytes) : prog ostate unit :=
  let '(_, (mj, mi)) := get_major_minor (m_onname mnt) in
  let multiplier := u32 (m_bsize mnt / DF_BLOCK_SIZE) in
  let blocks := u64 (m_blocks mnt * multiplier) in
  let bfree := u64 (m_bfree mnt * multiplier) in
  let bavail := u64 (m_bavail mnt * multiplier) in
  let used := u64 (blocks - bfree) in
  section_open (m_fromname mnt);;
  (entry (lit "dir") (lit "'%s'") [AStr (m_onname mnt)];;
   entry (lit "type") (lit "%s") [AStr (m_typename mnt)];;
   entry (lit "options") (lit "'%s'") [AStr opts];;
   section_open (lit "device");;
   (entry (lit "major") (lit "%u") [ANum mj];;
    entry (lit "minor") (lit "%u") [ANum mi]);;
   section_close;;
   entry (lit "fsid") (lit "%.*x%.*x") [ANum 8; ANum (m_fsid0 mnt); ANum 8; ANum (m_fsid1 mnt)];;
   entry (lit "optimal block size") (lit "%lu") [ANum (m_bsize mnt)];;
   section_open (lit "blocks");;
   (entry (lit "size") (lit "%lu bytes") [ANum DF_BLOCK_SIZE];;
    entry (lit "total") (lit "%lu") [ANum blocks];;
    entry (lit "used") (lit "%lu") [ANum used];;
    entry (lit "free") (lit "%lu") [ANum bfree];;
    entry (lit "available") (lit "%lu") [ANum bavail]);;
   section_close;;
   section_open (lit "files/inodes");;
   (entry (lit "total") (lit "%lu") [ANum (m_files mnt)];;
    entry (lit "used") (lit "%lu") [ANum (m_files mnt - m_ffree mnt)];;
    entry (lit "free") (lit "%lu") [ANum (m_ffree mnt)]);;
   section_close);;
  section_close.

(** The options are made for every mount, even if they are not shown. *)
Definition show_mount_entry_bsd (what : ShowMountType) (mntopt_map : list (option bytes * Z)) (mnt : mount)
  : prog ostate unit :=
  opts ← in_mem (get_mount_opts_generic_bsd mntopt_map (m_flags mnt));
  match opts with
  | None => die "cannot determine FS flags for mountpoint"
  | Some opts =>
    (if bool_decide (what = SHOW_ALL) || bool_decide (what = SHOW_MOUNTS) then
       opts ← pure (string_at opts 0); show_mount_bsd mnt opts
     else mret tt);;
    if bool_decide (what = SHOW_ALL) || bool_decide (what = SHOW_PATHCONF) then show_pathconfs what (m_onname mnt)
    else mret tt
  end.

Definition show_mounts_generic_bsd (what : ShowMountType) (mntopt_map : list (option bytes * Z))
  : prog ostate unit :=
  common_assert;;
  match getmntinfo with
  | [] => die "unable to query mount info"
  | mounts => for_each mounts (show_mount_entry_bsd what mntopt_map)
  end.
End Mounts.

Section MountSpec.
Context `{AllocTotal} `{LocaleLaws} (cfg : settings).
Context `{!Headers} `{!Machine} `{!Util.System} `{!Terminal} `{!GenericSystem} `{!Mounts}.

(** The options of a mount that the table names. *)
Definition mount_options (tbl : list (bytes * Z)) (flags : Z) : bytes :=
  if Z.eqb flags 0 then [] else commas (flag_names tbl flags).

Lemma reads_mount_opts tbl flags :
  Forall (fun e : bytes * Z => nz e.1) tbl ->
  reads cfg (in_mem (get_mount_opts_generic_bsd (terminated tbl) flags)) (Some (holding (mount_options tbl flags) [])).
Proof.
  intros Hn. apply reads_mem. intros m. unfold mount_options. destruct (Z.eqb_spec flags 0) as [->|Hf].
  - exists (tick m). split; [|apply ticked_tick]. apply strdup_buf_run.
  - exists (tick m). split; [|apply ticked_tick]. by apply get_mount_opts_correct.
Qed.

Lemma nz_mount_options tbl flags : Forall (fun e : bytes * Z => nz e.1) tbl -> nz (mount_options tbl flags).
Proof.
  intros Hn. unfold mount_options. destruct (Z.eqb flags 0); [constructor|].
  assert (Forall nz (flag_names tbl flags)) as Hf.
  { apply Forall_map, Forall_forall. intros e He. apply list_elem_of_filter in He as [_ He].
    rewrite Forall_forall in Hn. by apply Hn. }
  destruct Hf as [|n ns Hn' Hns]; [constructor|]. cbn [commas]. apply nz_app. split; [done|].
  induction Hns as [|n' ns Hn'' _ IH]; cbn [map concat]; [constructor|].
  apply nz_app. split; [apply nz_app; split; [nz_lit|done]|done].
Qed.

(** What is shown of one mount, [T] being the text that a byte string denotes. *)
Definition mount_tree (T : bytes -> wstr) (tbl : list (bytes * Z)) (mnt : mount) : tree :=
  let device := (get_major_minor (m_onname mnt)).2 in
  let units n := u64 (n * u32 (m_bsize mnt / DF_BLOCK_SIZE)) in
  TBlock KSection (T (m_fromname mnt))
    [ TEntry (lit "dir") (lit "'" ++ T (m_onname mnt) ++ lit "'");
      TEntry (lit "type") (T (m_typename mnt));
      TEntry (lit "options") (lit "'" ++ T (mount_options tbl (m_flags mnt)) ++ lit "'");
      TBlock KSection (lit "device")
        [ TEntry (lit "major") (uint_text device.1); TEntry (lit "minor") (uint_text device.2) ];
      TEntry (lit "fsid") (zeros 8 (hex_text (m_fsid0 mnt)) ++ zeros 8 (hex_text (m_fsid1 mnt)));
      TEntry (lit "optimal block size") (ulong_text (m_bsize mnt));
      TBlock KSection (lit "blocks")
        [ TEntry (lit "size") (lit "1024 bytes");
          TEntry (lit "total") (ulong_text (units (m_blocks mnt)));
          TEntry (lit "used") (ulong_text (u64 (units (m_blocks mnt) - units (m_bfree mnt))));
          TEntry (lit "free") (ulong_text (units (m_bfree mnt)));
          TEntry (lit "available") (ulong_text (units (m_bavail mnt))) ];
      TBlock KSection (lit "files/inodes")
        [ TEntry (lit "total") (ulong_text (m_files mnt));
          TEntry (lit "used") (ulong_text (m_files mnt - m_ffree mnt));
          TEntry (lit "free") (ulong_text (m_ffree mnt)) ] ].

Definition mount_ok (T : bytes -> wstr) (tbl : list (bytes * Z)) (mnt : mount) : Prop :=
  m_fromname mnt <> [] /\
  text_is cfg (m_fromname mnt) (T (m_fromname mnt)) /\ text_is cfg (m_onname mnt) (T (m_onname mnt)) /\
  text_is cfg (m_typename mnt) (T (m_typename mnt)) /\
  text_is cfg (mount_options tbl (m_flags mnt)) (T (mount_options tbl (m_flags mnt))).

Lemma prints_mount_bsd T tbl mnt :
  mount_ok T tbl mnt -> prints cfg (show_mount_bsd mnt (mount_options tbl (m_flags mnt))) [mount_tree T tbl mnt].
Proof.
  intros (Hne & Hf & Ho & Ht & Hopt). unfold show_mount_bsd, mount_tree.
  destruct (get_major_minor _) as [? [mj mi]]. cbn [snd fst].
  assert (name_is cfg (m_fromname mnt) (T (m_fromname mnt))) by by apply name_text.
  eapply prints_eq; [prints_steps|same_trees].
Qed.

(** What is shown for one mount, by what is asked for. *)
Definition mount_trees (T : bytes -> wstr) (tbl : list (bytes * Z)) (what : ShowMountType) (mnt : mount)
  : list tree :=
  match what with
  | SHOW_ALL => [mount_tree T tbl mnt; pathconf_tree (lit "pathconf") (m_onname mnt)]
  | SHOW_MOUNTS => [mount_tree T tbl mnt]
  | SHOW_PATHCONF => [pathconf_tree (T (m_onname mnt)) (m_onname mnt)]
  end.

Lemma prints_mount_entry T tbl what mnt :
  Forall (fun e : bytes * Z => nz e.1) tbl -> mount_ok T tbl mnt ->
  (what = SHOW_PATHCONF -> m_onname mnt <> []) ->
  prints cfg (show_mount_entry_bsd what (terminated tbl) mnt) (mount_trees T tbl what mnt).
Proof.
  intros Hn Hm Hne. unfold show_mount_entry_bsd. reading (by apply reads_mount_opts).
  assert (prints cfg (opts ← pure (string_at (holding (mount_options tbl (m_flags mnt)) []) 0); show_mount_bsd mnt opts)
            [mount_tree T tbl mnt]) as Hshow
    by (reading (by apply reads_pure, string_at_start, nz_mount_options); by apply prints_mount_bsd).
  assert (what = SHOW_PATHCONF -> name_is cfg (m_onname mnt) (T (m_onname mnt))) as Hname
    by (intros Hw; apply name_text; [by apply Hm|by apply Hne]).
  pose proof (prints_pathconfs cfg what (m_onname mnt) (T (m_onname mnt)) Hname) as Hpath.
  destruct what; cbn in Hpath |- *.
  - exact (prints_seq cfg _ _ [_] [_] Hshow Hpath).
  - exact (prints_seq cfg _ _ [_] [] Hshow (prints_ret cfg)).
  - exact Hpath.
Qed.

(** C29: [show_mounts_generic_bsd] shows the mounts in the order of the system.
    Of each mount, when all or the mounts are asked for, it shows the names, the
    type, the names of the flags that are set, the device, and sizes in units of
    1024 bytes, computed at 32 and 64 bits, which are all 0 for a file system
    with smaller blocks.  When all is asked for, a section "pathconf" with the
    variables of the directory that the headers define follows the section of
    each mount; when only these are asked for, there is one section for each
    mount, named after its directory. *)
Theorem show_mounts_bsd_correct T tbl what :
  getmntinfo <> [] -> Forall (fun e : bytes * Z => nz e.1) tbl -> Forall (mount_ok T tbl) getmntinfo ->
  (what = SHOW_PATHCONF -> Forall (fun mnt => m_onname mnt <> []) getmntinfo) ->
  prints cfg (show_mounts_generic_bsd what (terminated tbl)) (flat_map (mount_trees T tbl what) getmntinfo).
Proof.
  intros Hne Hn Hm Hdir. unfold show_mounts_generic_bsd. apply prints_do; [apply silent_common_assert|].
  rewrite Forall_forall in Hm. destruct getmntinfo as [|mnt mounts]; [done|].
  apply (prints_for_each cfg _ _ (mount_trees T tbl what)). intros x Hx.
  apply prints_mount_entry; [done|by apply Hm|]. intros Hw. specialize (Hdir Hw). rewrite Forall_forall in Hdir.
  by apply Hdir.
Qed.

(** *** The calls are well placed *)
Class MountAnswers (tbl : list (bytes * Z)) : Prop := {
  answers_mounts : getmntinfo <> [];
  nz_options : Forall (fun e : bytes * Z => nz e.1) tbl;
  showable_mounts : Forall (fun m => m_fromname m <> [] /\ m_onname m <> [] /\ showable cfg (m_fromname m) /\
    showable cfg (m_onname m) /\ showable cfg (m_typename m) /\ showable cfg (mount_options tbl (m_flags m)))
    getmntinfo
}.

Lemma typed_mounts_bsd tbl what `{!MountAnswers tbl} :
  typed cfg CMembers DRIVER_DEPTH (show_mounts_generic_bsd what (terminated tbl)).
Proof.
  unfold show_mounts_generic_bsd. apply typed_do; [apply silent_common_assert|].
  pose proof (showable_mounts (tbl := tbl)) as Hm. rewrite Forall_forall in Hm.
  pose proof (answers_mounts (tbl := tbl)) as Hne. pose proof (nz_options (tbl := tbl)) as Hn.
  destruct getmntinfo as [|mnt mounts]; [done|]. apply typed_for_each. intros x Hx.
  destruct (Hm x Hx) as (Hne1 & Hne2 & Hf & Ho & Ht & Hopt).
  assert (nameable cfg (m_fromname x)) by by apply nameable_showable.
  assert (nameable cfg (m_onname x)) by by apply nameable_showable.
  unfold show_mount_entry_bsd. reading (by apply reads_mount_opts). apply typed_seq.
  - destruct (_ || _); [|apply typed_ret]. reading (by apply reads_pure, string_at_start, nz_mount_options).
    unfold show_mount_bsd. destruct (get_major_minor _) as [? [mj mi]]. unfold DRIVER_DEPTH. typed_steps.
  - destruct (_ || _); [|apply typed_ret]. by apply typed_pathconfs.
Qed.
End MountSpec.

(** [get_sysconf (_SC_NPROCESSORS_ONLN)]. *)
Definition nprocessors_online `{Headers} `{Machine} : Z :=
  match macro (lit "_SC_NPROCESSORS_ONLN") with Some name => sysconf name | None => (-1)%Z end.

(** ** NetBSD *)

(** The set of processors that [pthread_getaffinity_np] fills. *)
Class Affinities : Type := { pthread_getaffinity_np : option (list Z) }.

(** The sets of processors of NetBSD; the type of a number of a processor is
    an [unsigned long]. *)
Class CpuSets : Type := {
  cpuset_create : bool;
  cpuset_isset : Z -> list Z -> Z
}.

Section Drivers.
Context `{Allocator} `{Locale} `{Headers} `{Machine} `{Util.System} `{Terminal} `{GenericSystem} `{Mounts}
  `{Identity} `{ProcessTable} `{Affinities} `{CpuSets}.

Definition mntopt_map_netbsd : list (option bytes * Z) := terminated (titled_entries mntopt_names_netbsd).

Definition show_mounts_netbsd (what : ShowMountType) : prog ostate unit :=
  show_mounts_generic_bsd what mntopt_map_netbsd.

Definition get_cpuset_netbsd : option (list Z) := if cpuset_create then pthread_getaffinity_np else None.

(** The library answers -1 for a processor outside the set, which counts as
    true. *)
Definition cpuset_has_cpu_netbsd (cs : list Z) (cpu : Z) : bool := negb (Z.eqb (cpuset_isset cpu cs) 0).

Definition show_cpu_affinities_netbsd : prog ostate unit :=
  show_cpu_affinities_generic (Some get_cpuset_netbsd) (Some cpuset_has_cpu_netbsd) (u64 nprocessors_online).

Definition platform_ops_netbsd : Driver := {|
  signal_map := terminated (titled_entries signal_names_netbsd);
  if_flag_map := terminated (titled_entries if_flag_names_netbsd);
  op_get_kernel_bits := Some get_kernel_bits_generic;
  op_get_time := Some get_time_generic;
  op_get_mtu := Some get_mtu_generic;
  op_show_capabilities := None;
  op_show_cgroups := None;
  op_show_clocks := Some show_clocks_generic;
  op_show_confstrs := Some show_confstrs_generic;
  op_show_cpu_affinities := Some show_cpu_affinities_netbsd;
  op_show_cpu := None;
  op_show_extended_if_flags := None;
  op_show_fds := Some show_fds_generic;
  op_show_io_priorities := None;
  op_show_mounts := Some show_mounts_netbsd;
  op_show_msg_queues := None;
  op_show_namespaces := None;
  op_show_oom := None;
  op_show_prctl := None;
  op_show_rlimits := Some show_rlimits_generic;
  op_show_security_module := None;
  op_show_semaphores := None;
  op_show_shared_mem := None;
  op_show_timezone := Some (show_timezone_generic true);
  op_show_libs := Some show_libs_generic;
  op_handle_memory := None;
  op_handle_numa_memory := None;
  op_handle_proc_branch := Some handle_proc_branch_netbsd;
  op_handle_scheduler_type := None;
  op_in_vm := None
|}.

(** ** OpenBSD *)

(** The table [signal_map_openbsd] of the driver starts with an entry whose
    members are exchanged, which is not a C constant; the operations of the
    driver that are its own are here. *)
Definition mntopt_map_openbsd : list (option bytes * Z) := terminated (titled_entries mntopt_names_openbsd).

Definition if_flag_map_openbsd : list (option bytes * Z) := terminated (titled_entries if_flag_names_openbsd).

Definition show_mounts_openbsd (what : ShowMountType) : prog ostate unit :=
  show_mounts_generic_bsd what mntopt_map_openbsd.

(** There is no set of processors to ask for. *)
Definition show_cpu_affinities_openbsd : prog ostate unit :=
  show_cpu_affinities_generic (CpuSet := list Z) None None (u64 nprocessors_online).
End Drivers.

Lemma u64_small z : (0 <= z <= INT_MAX)%Z -> (u64 z <= INT_MAX)%Z.
Proof. intros Hz. unfold u64, to_unsigned. rewrite Z.mod_small; [lia|]. unfold INT_MAX in Hz. lia. Qed.

Section DriverTyped.
Context `{AllocTotal} `{LocaleLaws} (cfg : settings).
Context `{!Headers} `{!Machine} `{!Util.System} `{!Terminal} `{!GenericSystem} `{!GenericAnswers cfg} `{!Mounts}
  `{!Identity} `{!ProcessTable} `{!Affinities} `{!CpuSets}.

Lemma netbsd_driver_ok :
  (0 <= nprocessors_online <= INT_MAX)%Z -> MountAnswers cfg (titled_entries mntopt_names_netbsd) ->
  (exists procs ps, processes_ok procs /\ (forall p, p ∈ procs -> 0 <= ki_pid p)%Z /\
     descends procs 0 getpid ps /\ showable cfg (listing (map padded_text ps))) ->
  @DriverTyped _ _ platform_ops_netbsd cfg.
Proof.
  intros Hmax Hm Hb. constructor.
  - shared_ops cfg; [apply typed_affinities_generic, u64_small; lia|by apply typed_branch_netbsd].
  - shared_ops cfg.
  - intros what. exact (typed_mounts_bsd cfg _ what).
  - done.
  - by eexists.
  - by eexists.
  - apply showable_titled. by vm_compute.
  - apply showable_titled. by vm_compute.
  - done.
Qed.
End DriverTyped.
