(* ===== verification/FreeBsd.v ===== *)
(** FreeBsd: the driver for FreeBSD (src/src/platform/freebsd/platform.c): the
    name of the process and its jail, the rights of descriptors, the processor
    in use, the set of processors and the clocks.  The ancestors of the process
    are in [ProcessTree], the mounts in [Bsd]. *)
From S2P Require Import Prelude Memory PrList Locale PString StringUtil Encode Output OutputSpec Document Prints Util Affinity Display Format Tables Platform Process ProcessTree Report Terminal Generic SystemTables Bsd.

(** What [kvm_getprocs (3)] answers about one process. *)
Record proc_info : Type := mk_proc_info { ki_flag : Z; ki_name : bytes; ki_oncpu : Z }.

(** The rights of a descriptor are words; [cap_rights_set] is
    [cap_rights_is_set (3)], a function since version 10. *)
Class FreeBsdSystem : Type := {
  kvm_getproc : Z -> option proc_info;
  cap_getmode : bool;
  cap_rights_get : Z -> option (list Z);
  cap_rights_set : list Z -> Z -> bool
}.

Definition P_JAILED : Z := 16777216.
Definition COMMLEN : nat := 19.
Definition PROCENV_PR_GET_NAME_LEN : nat := COMMLEN + 1.

Section FreeBsd.
Context `{Allocator} `{Locale} `{Headers} `{Machine} `{Util.System} `{Terminal} `{GenericSystem} `{Mounts}
  `{Identity} `{ProcessTable} `{Affinities} `{FreeBsdSystem}.

(** The fields [in_jail] and [proc_name] that are set; [proc_name] is a buffer
    of the program's data. *)
Definition get_user_misc_freebsd (pid : Z) (name : buffer) : outcome (bool * buffer) :=
  if negb kvm_openfiles then Die "unable to open kvm"
  else
    match kvm_getproc pid with
    | None => Die "failed to get process info"
    | Some proc =>
      let in_jail := negb (Z.eqb (Z.land (ki_flag proc) P_JAILED) 0) in
      name ← store_all name 0 (ki_name proc ++ [0%Z]);
      if negb kvm_close then Die "failed to close kvm" else Ok (in_jail, name)
    end.

(** ** Rights of descriptors *)
Definition freebsd_version : Z := default 0%Z (macro (lit "__FreeBSD__")).

(** A macro of platform-freebsd.h on version 9. *)
Definition cap_rights_is_set (rights : list Z) (cap : Z) : bool :=
  if Z.eqb freebsd_version 9 then negb (Z.eqb (Z.land (default 0%Z (head rights)) cap) 0)
  else cap_rights_set rights cap.

Definition show_capsicum_cap (rights : list Z) (cap : bytes * Z) : prog ostate unit :=
  entry cap.1 (lit "%s") [AStr (yes_no (cap_rights_is_set rights cap.2))].

(** The rights that the headers have, by their version. *)
Definition capsicum_names : list bytes :=
  omap (fun e : bool * bytes => if e.1 && Z.leb freebsd_version 9 then None else Some e.2) capsicum_rights.

Definition show_fd_capabilities_freebsd (fd : Z) : prog ostate unit :=
  if negb cap_getmode then mret tt
  else
    match cap_rights_get fd with
    | None => mret tt
    | Some rights => for_each (defined_entries capsicum_names) (show_capsicum_cap rights)
    end.

(** ** Processors and clocks *)

(** The number of a processor is an [int]. *)
Definition show_cpu_freebsd : prog ostate unit :=
  assert_ (Z.ltb 0 getpid) "user.pid > 0";;
  let max := nprocessors_online in
  if negb kvm_openfiles then die "unable to open kvm"
  else
    match kvm_getproc getpid with
    | None => die "failed to get process info"
    | Some proc =>
      let cpu := (1 + ki_oncpu proc)%Z in
      (if kvm_close then mret tt else die "failed to close kvm");;
      entry (lit "number") (lit "%u of %lu") [ANum cpu; ANum max]
    end.

Definition get_cpuset_freebsd : option (list Z) := pthread_getaffinity_np.

Definition cpuset_has_cpu_freebsd (cs : list Z) (cpu : Z) : bool := bool_decide (cpu ∈ cs).

Definition show_cpu_affinities_freebsd : prog ostate unit :=
  show_cpu_affinities_generic (Some get_cpuset_freebsd) (Some cpuset_has_cpu_freebsd) (to_signed 32 nprocessors_online).

Definition show_clocks_freebsd : prog ostate unit := for_each (defined_entries clock_names_freebsd) show_clock_res.

Definition mntopt_map_freebsd : list (option bytes * Z) := terminated (titled_entries mntopt_names_freebsd).

Definition show_mounts_freebsd (what : ShowMountType) : prog ostate unit :=
  show_mounts_generic_bsd what mntopt_map_freebsd.

(** The shared operations call the driver for the rights of a descriptor. *)
Definition freebsd_generic : GenericSystem := {|
  getrlimit := getrlimit;
  clock_getres := clock_getres;
  clock_gettime_realtime := clock_gettime_realtime;
  interface_mtu := interface_mtu;
  ttyname := ttyname;
  show_fd_capabilities := Some show_fd_capabilities_freebsd;
  confstr := confstr;
  sysinfo := sysinfo;
  pathconf := pathconf;
  mount_table := mount_table;
  statvfs := statvfs;
  readlink := readlink;
  tzname0 := tzname0;
  tzname1 := tzname1;
  timezone := timezone;
  daylight := daylight;
  shared_objects := shared_objects
|}.

Definition show_fds_freebsd : prog ostate unit := let G := freebsd_generic in show_fds_generic.

(** ** The driver *)
Definition platform_ops_freebsd : Driver := {|
  signal_map := terminated (titled_entries signal_names_freebsd);
  if_flag_map := terminated (titled_entries if_flag_names_freebsd);
  op_get_kernel_bits := Some get_kernel_bits_generic;
  op_get_time := Some get_time_generic;
  op_get_mtu := Some get_mtu_generic;
  op_show_capabilities := None;
  op_show_cgroups := None;
  op_show_clocks := Some show_clocks_freebsd;
  op_show_confstrs := Some show_confstrs_generic;
  op_show_cpu_affinities := Some show_cpu_affinities_freebsd;
  op_show_cpu := Some show_cpu_freebsd;
  op_show_extended_if_flags := None;
  op_show_fds := Some show_fds_freebsd;
  op_show_io_priorities := None;
  op_show_mounts := Some show_mounts_freebsd;
  op_show_msg_queues := None;
  op_show_namespaces := None;
  op_show_oom := None;
  op_show_prctl := None;
  op_show_rlimits := Some show_rlimits_generic;
  op_show_security_module := None;
  op_show_semaphores := None;
  op_show_shared_mem := None;
  op_show_timezone := Some (show_timezone_generic true);
  op_show_libs := Some show_libs_generic;
  op_handle_memory := Some show_memory_generic;
  op_handle_numa_memory := None;
  op_handle_proc_branch := Some handle_proc_branch_freebsd;
  op_handle_scheduler_type := None;
  op_in_vm := None
|}.
End FreeBsd.

(** ** The name of the process *)

(** The name and its terminator fit in [proc_name] when the name has at most
    [COMMLEN] characters; a longer one is written past its end. *)
Lemma get_user_misc_run `{ProcessTable} `{FreeBsdSystem} pid proc name :
  kvm_openfiles = true -> kvm_close = true -> kvm_getproc pid = Some proc -> nz (ki_name proc) ->
  length name = PROCENV_PR_GET_NAME_LEN ->
  if Nat.leb (length (ki_name proc)) COMMLEN then
    exists b, get_user_misc_freebsd pid name = Ok (negb (Z.eqb (Z.land (ki_flag proc) P_JAILED) 0), b) /\
      string_at b 0 = Ok (ki_name proc)
  else get_user_misc_freebsd pid name = UB "write outside the buffer".
Proof.
  intros Ho Hc Hp Hnz Hl. unfold get_user_misc_freebsd. rewrite Ho, Hc, Hp. cbn [negb].
  unfold PROCENV_PR_GET_NAME_LEN in Hl. unfold store_all.
  destruct (Nat.leb_spec (length (ki_name proc)) COMMLEN) as [Hle|Hlt].
  - rewrite bool_decide_true by len_lia. eexists. split; [reflexivity|].
    rewrite map_app, <- app_assoc. by apply string_at_start.
  - by rewrite bool_decide_false by len_lia.
Qed.

(** ** What the driver shows *)
Section FreeBsdTyped.
Context `{AllocTotal} `{LocaleLaws} (cfg : settings).
Context `{!Headers} `{!Machine} `{!Util.System} `{!Terminal} `{!GenericSystem} `{!GenericAnswers cfg} `{!Mounts}
  `{!Identity} `{!ProcessTable} `{!Affinities} `{!FreeBsdSystem}.

Lemma prints_cpu_freebsd proc :
  (0 < getpid)%Z -> kvm_openfiles = true -> kvm_close = true -> kvm_getproc getpid = Some proc ->
  prints cfg show_cpu_freebsd
    [TEntry (lit "number") (uint_text (1 + ki_oncpu proc) ++ lit " of " ++ ulong_text nprocessors_online)].
Proof.
  intros Hpid Ho Hc Hp. unfold show_cpu_freebsd. apply prints_do; [by apply silent_assert, Z.ltb_lt|].
  rewrite Ho, Hc, Hp. cbn [negb].
  eapply prints_eq; [prints_steps|same_trees].
Qed.

Lemma capsicum_literals :
  forallb (fun s => printable s && negb (bool_decide (s = []))) capsicum_names = true.
Proof.
  unfold capsicum_names. apply forallb_forall. intros n Hn. apply list_elem_of_In, list_elem_of_omap in Hn as (e & He & E).
  assert (forallb (fun e : bool * bytes => printable e.2 && negb (bool_decide (e.2 = []))) capsicum_rights = true) as Hall
    by by vm_compute.
  rewrite forallb_forall in Hall. apply list_elem_of_In, Hall in He. destruct (_ && _) in E; by simplify_eq.
Qed.

(** The rights shown, of a descriptor whose rights can be asked for. *)
Lemma prints_fd_capabilities fd rights :
  cap_getmode = true -> cap_rights_get fd = Some rights ->
  prints cfg (show_fd_capabilities_freebsd fd)
    (map (fun cap => TEntry cap.1 (yes_no (cap_rights_is_set rights cap.2))) (defined_entries capsicum_names)).
Proof.
  intros Hm Hr. unfold show_fd_capabilities_freebsd. rewrite Hm, Hr. cbn [negb].
  eapply prints_eq; [apply (prints_for_each cfg _ _ (fun cap => [TEntry cap.1 (yes_no (cap_rights_is_set rights cap.2))]))|].
  - intros cap Hc. unfold show_capsicum_cap.
    pose proof (text_yes_no cfg (cap_rights_is_set rights cap.2)).
    assert (name_is cfg cap.1 cap.1) by (by apply (literal_name cfg capsicum_names), defined_name; [apply capsicum_literals|]).
    eapply prints_eq; [prints_steps|same_trees].
  - induction (defined_entries capsicum_names) as [|x xs IH]; cbn; [done|]. by rewrite <- IH.
Qed.

(** What the driver asks, beyond the shared operations. *)
Class FreeBsdAnswers : Prop := {
  answers_processors : (0 < getpid)%Z /\ (0 <= nprocessors_online <= INT_MAX)%Z;
  answers_process : kvm_openfiles = true /\ kvm_close = true /\ is_Some (kvm_getproc getpid);
  answers_options :: MountAnswers cfg (titled_entries mntopt_names_freebsd);
  answers_branch : exists procs p ps, processes_ok procs /\ (forall q, q ∈ procs -> ki_pid q <> 0%Z) /\
    ancestry procs getpid (p :: ps) /\ showable cfg (listing (map named_text (p :: ps)))
}.
Context `{!FreeBsdAnswers}.

Lemma typed_fd_capabilities_freebsd fd : typed cfg CMembers 2 (show_fd_capabilities_freebsd fd).
Proof.
  unfold show_fd_capabilities_freebsd. destruct cap_getmode; [|apply typed_ret]. cbn [negb].
  destruct (cap_rights_get fd) as [rights|]; [|apply typed_ret].
  apply typed_for_each. intros cap Hc. unfold show_capsicum_cap.
  assert (nameable cfg cap.1) by (by eapply nameable_defined; [apply capsicum_literals|]). typed_steps.
Qed.

Lemma freebsd_generic_ok : @GenericAnswers _ _ _ _ freebsd_generic cfg.
Proof.
  constructor; cbn; try exact answers_limits; try exact text_ttyname; try exact text_confstr; try exact text_mounts;
    try exact text_links; try exact text_tznames; try exact text_libs.
  intros fd. apply typed_fd_capabilities_freebsd.
Qed.

Lemma typed_fds_freebsd : typed cfg CObjects DRIVER_DEPTH show_fds_freebsd.
Proof. exact (@typed_fds_generic _ _ _ _ cfg _ _ _ _ freebsd_generic freebsd_generic_ok). Qed.

Lemma typed_cpu_freebsd : typed cfg CMembers DRIVER_DEPTH show_cpu_freebsd.
Proof.
  destruct answers_processors as [Hpid _]. destruct answers_process as (Ho & Hc & proc & Hp).
  eapply typed_prints; [by apply (prints_cpu_freebsd proc)|done|]. apply Forall_cons_2; [cbn; lia|apply Forall_nil_2].
Qed.

Lemma typed_clocks_freebsd : typed cfg CMembers DRIVER_DEPTH show_clocks_freebsd.
Proof.
  unfold show_clocks_freebsd, show_clock_res. typed_steps; [of_defined|].
  destruct (clock_getres _); typed_steps.
Qed.

Lemma freebsd_driver_ok : @DriverTyped _ _ platform_ops_freebsd cfg.
Proof.
  constructor.
  - shared_ops cfg.
    + apply typed_clocks_freebsd.
    + apply typed_affinities_generic. destruct answers_processors as [_ [Hmin Hmax]]. by rewrite to_signed_int.
    + apply typed_cpu_freebsd.
    + by apply typed_branch_freebsd, answers_branch.
  - shared_ops cfg. apply typed_fds_freebsd.
  - intros what. exact (typed_mounts_bsd cfg _ what).
  - intros i. exact I.
  - by eexists.
  - by eexists.
  - apply showable_titled. by vm_compute.
  - apply showable_titled. by vm_compute.
  - exact I.
Qed.

(** C18: with the answers of a system that reach it, the driver of FreeBSD keeps
    what [DriverTyped] promises to the document: each of its display functions
    succeeds and makes well-placed calls, the rights of descriptors inside
    [show_fds_generic] included, so that [dump] makes a valid document with
    it. *)
Theorem freebsd_driver_typed : @DriverTyped _ _ platform_ops_freebsd cfg.
Proof. apply freebsd_driver_ok. Qed.
End FreeBsdTyped.
