(* ===== verification/Darwin.v ===== *)
(** Darwin: the driver for Darwin (src/src/platform/darwin/platform.c): the
    table of processes and the walk over it, the memory, and the shared
    libraries that the load commands of the program name.

    The load commands are read at their addresses in the image of the program:
    what is at an address is a parameter, and reading where there is no command
    is undefined behaviour. *)
From S2P Require Import Prelude Memory PrList Locale PString StringUtil Encode Output OutputSpec Document Prints Util Affinity Display Format Tables Platform Process ProcessTree PaddedTable Report Terminal Generic SystemTables Bsd.

(** ** Data *)

(** What [sysctl (3)] answers when it is given space for the processes. *)
Inductive procs_answer : Type :=
| Processes (procs : list kinfo_proc)
| TooMany
| Unavailable.

Record vm_statistics : Type := mk_vm_statistics {
  free_count : Z;
  active_count : Z;
  inactive_count : Z;
  wire_count : Z
}.

(** [struct mach_header] and its address. *)
Record mach_header : Type := mk_mach_header { mh_address : Z; mh_magic : Z; mh_ncmds : Z }.

(** A load command; the fields after [cmdsize] are those of [struct dylib]. *)
Record load_command : Type := mk_load_command {
  lc_cmd : Z;
  lc_cmdsize : Z;
  name_offset : Z;
  current_version : Z;
  compatibility_version : Z
}.

(** What the kernel and the dynamic linker answer.  The table of processes is
    asked for several times: the answers are numbered. *)
Class DarwinSystem : Type := {
  procs_bytes : nat -> option Z;
  procs_filled : nat -> Z -> procs_answer;
  sysctlbyname : bytes -> option Z;
  host_vm_info : option vm_statistics;
  calendar_clock : option timespec;
  executable_path : option bytes;
  dyld_images : list (option bytes * option mach_header);
  load_command_at : Z -> option load_command;
  string_at_address : Z -> option bytes;
  dlopen : bytes -> Z
}.

Definition MH_MAGIC_64 : Z := 4277009103.
Definition MH_CIGAM_64 : Z := 3489328638.

(** The commands that name a shared library. *)
Definition LC_REQ_DYLD : Z := 2 ^ 31.
Definition LC_LOAD_DYLIB : Z := 12.
Definition LC_ID_DYLIB : Z := 13.
Definition LC_LOAD_WEAK_DYLIB : Z := 24 + LC_REQ_DYLD.
Definition LC_REEXPORT_DYLIB : Z := 31 + LC_REQ_DYLD.
Definition LC_LAZY_LOAD_DYLIB : Z := 32.
Definition LC_LOAD_UPWARD_DYLIB : Z := 35 + LC_REQ_DYLD.

(** [basename (3)]. *)
Fixpoint drop_slashes (s : bytes) : bytes :=
  match s with
  | c :: s' => if Z.eqb c SLASH then drop_slashes s' else s
  | [] => []
  end.

Definition basename (path : bytes) : bytes :=
  if bool_decide (path = []) then lit "."
  else
    let stripped := reverse (drop_slashes (reverse path)) in
    if bool_decide (stripped = []) then lit "/" else default stripped (after_last SLASH stripped).

Section Darwin.
Context `{Allocator} `{Locale} `{Headers} `{Machine} `{Util.System} `{Terminal} `{GenericSystem} `{Mounts}
  `{Identity} `{DarwinSystem}.

Definition show_cpu_darwin : prog ostate unit :=
  entry (lit "number") (lit "%s of %lu") [AStr UNKNOWN_STR; ANum nprocessors_online].

Definition get_time_darwin : option timespec := calendar_clock.

(** ** The table of processes *)
Definition sizeof_kinfo_proc : Z := sizeof (lit "struct kinfo_proc").

(** The space is cleared, and the kernel may fill less of it than it asked
    for. *)
Definition table_of (count : Z) (procs : list kinfo_proc) : list kinfo_proc :=
  take (Z.to_nat count) (procs ++ replicate (Z.to_nat count) (mk_kinfo 0 0 [])).

(** The first loop, before the [attempt]-th attempt; the last attempt that is
    left is not made. *)
Fixpoint procs_loop (attempts attempt : nat) : prog mem (option (list kinfo_proc)) :=
  match attempts with
  | S (S _ as attempts') =>
    match procs_bytes attempt with
    | None => mret None
    | Some bytes =>
      let count := (bytes / sizeof_kinfo_proc)%Z in
      p ← alloc;
      match p with
      | None => mret None
      | Some _ =>
        match procs_filled attempt count with
        | Processes procs => mret (Some (table_of count procs))
        | TooMany => procs_loop attempts' (S attempt)
        | Unavailable => mret None
        end
      end
    end
  | _ => mret None
  end.

Definition handle_proc_branch_darwin : prog ostate unit :=
  procs ← in_mem (procs_loop 20 0);
  match procs with
  | None => mret tt
  | Some procs =>
    text ← in_mem (str ← table_text 0 (lit "%d ('%s')") name_args procs; string_of str);
    entry (lit "ancestry") (lit "%s") [AStr text]
  end.

Definition mntopt_map_darwin : list (option bytes * Z) := terminated (titled_entries mntopt_names_darwin).

Definition show_mounts_darwin (what : ShowMountType) : prog ostate unit :=
  show_mounts_generic_bsd what mntopt_map_darwin.

(** ** Memory *)
Definition show_memory_darwin : prog ostate unit :=
  match sysctlbyname (lit "hw.memsize") with
  | None => mret tt
  | Some total_ram =>
    match sysctlbyname (lit "vm.pagesize") with
    | None => mret tt
    | Some vm_page_size =>
      match sysctlbyname (lit "vm.page_free_count") with
      | None => mret tt
      | Some bytes =>
        let used_ram := u64 (bytes * vm_page_size) in
        let free_ram := u64 (total_ram - used_ram) in
        match host_vm_info with
        | None => mret tt
        | Some stats =>
          section_open (lit "ram");;
          (mk_mem_section (lit "total") total_ram;;
           mk_mem_section (lit "free") free_ram;;
           mk_mem_section (lit "wired") (u64 (wire_count stats * vm_page_size));;
           mk_mem_section (lit "unused") (u64 (free_count stats * vm_page_size));;
           mk_mem_section (lit "active") (u64 (active_count stats * vm_page_size));;
           mk_mem_section (lit "inactive") (u64 (inactive_count stats * vm_page_size)));;
          section_close
        end
      end
    end
  end.

(** ** Shared libraries *)
Definition get_macho_version (version : Z) : prog mem (option buffer) :=
  if Z.eqb version 4294967295 then appendf None (lit "(%s)") [AStr UNKNOWN_STR]
  else
    let major := Z.shiftr version 16 in
    let minor := Z.land (Z.shiftr version 8) 255 in
    let patch := Z.land version 255 in
    appendf None (lit "%u.%u.%u") [ANum major; ANum minor; ANum patch].

Definition mach_header_size (h : mach_header) : Z :=
  if Z.eqb (mh_magic h) MH_MAGIC_64 || Z.eqb (mh_magic h) MH_CIGAM_64 then 32 else 28.

Definition consider (lc : load_command) : bool :=
  bool_decide (lc_cmd lc ∈ [LC_ID_DYLIB; LC_LOAD_DYLIB; LC_LOAD_WEAK_DYLIB; LC_REEXPORT_DYLIB;
                            LC_LOAD_UPWARD_DYLIB; LC_LAZY_LOAD_DYLIB]).

(** An entry of the section "versions", unless there is no text. *)
Definition show_version_entry (title : bytes) (version : option bytes) : prog ostate unit :=
  match version with Some v => entry title (lit "%s") [AStr v] | None => mret tt end.

Definition version_string (version : Z) : prog mem (option bytes) :=
  str ← get_macho_version version;
  match str with Some b => s ← pure (string_at b 0); mret (Some s) | None => mret None end.

Definition show_dylib_named (lc : load_command) (path name : bytes) : prog ostate unit :=
  object_open false;;
  (section_open name;;
   ((if Z.eqb (dlopen path) 0 then mret tt
     else entry (lit "address") (lit "%p") [ANum (dlopen path)]);;
    entry (lit "path") (lit "%s") [AStr path];;
    section_open (lit "versions");;
    (current ← in_mem (version_string (current_version lc));
     compat ← in_mem (version_string (compatibility_version lc));
     show_version_entry (lit "current") current;;
     show_version_entry (lit "compatibility") compat);;
    section_close);;
   section_close);;
  object_close false.

(** The name is taken from a copy of the path. *)
Definition show_dylib (p : Z) (lc : load_command) : prog ostate unit :=
  match string_at_address (p + name_offset lc) with
  | None => ub "read outside the image"
  | Some path =>
    tmp ← in_mem alloc;
    match tmp with
    | None => show_dylib_named lc path (lit ".")
    | Some _ => show_dylib_named lc path (basename path)
    end
  end.

(** The loop over the commands, at the address of the next. *)
Fixpoint load_cmds_loop (n : nat) (p : Z) : prog ostate unit :=
  match n with
  | 0 => mret tt
  | S n' =>
    match load_command_at p with
    | None => ub "read outside the image"
    | Some lc =>
      (if consider lc then show_dylib p lc else mret tt);;
      load_cmds_loop n' (p + lc_cmdsize lc)
    end
  end.

Definition handle_load_cmds (header : option mach_header) : prog ostate unit :=
  match header with
  | None => mret tt
  | Some h => load_cmds_loop (Z.to_nat (mh_ncmds h)) (mh_address h + mach_header_size h)
  end.

(** The loop over the images: only the first with the name of the program is
    handled. *)
Fixpoint images_loop (images : list (option bytes * option mach_header)) (path : bytes) : prog ostate unit :=
  match images with
  | [] => mret tt
  | (None, _) :: images' => images_loop images' path
  | (Some name, header) :: images' =>
    if bool_decide (name = path) then handle_load_cmds header else images_loop images' path
  end.

Definition show_libs_darwin : prog ostate unit :=
  match executable_path with None => mret tt | Some path => images_loop dyld_images path end.

(** ** The driver *)

(** The entry between the two parts is there under one of two names. *)
Definition signal_poll_darwin : list (bytes * Z) :=
  match macro (lit "SIGPOLL"), macro (lit "SIGEMT") with
  | Some z, _ => [(lit "SIGPOLL|SIGEMT", z)]
  | None, Some z => [(lit "SIGPOLL|SIGEMT", z)]
  | None, None => []
  end.

Definition signal_map_darwin : list (option bytes * Z) :=
  terminated (titled_entries signal_names_darwin ++ signal_poll_darwin ++ titled_entries signal_names_darwin_last).

Definition platform_ops_darwin : Driver := {|
  signal_map := signal_map_darwin;
  if_flag_map := terminated (titled_entries if_flag_names_darwin);
  op_get_kernel_bits := Some get_kernel_bits_generic;
  op_get_time := Some get_time_darwin;
  op_get_mtu := Some get_mtu_generic;
  op_show_capabilities := None;
  op_show_cgroups := None;
  op_show_clocks := Some show_clocks_generic;
  op_show_confstrs := Some show_confstrs_generic;
  op_show_cpu_affinities := None;
  op_show_cpu := Some show_cpu_darwin;
  op_show_extended_if_flags := None;
  op_show_fds := Some show_fds_generic;
  op_show_io_priorities := None;
  op_show_mounts := Some show_mounts_darwin;
  op_show_msg_queues := None;
  op_show_namespaces := None;
  op_show_oom := None;
  op_show_prctl := None;
  op_show_rlimits := Some show_rlimits_generic;
  op_show_security_module := None;
  op_show_semaphores := None;
  op_show_shared_mem := None;
  op_show_timezone := Some (show_timezone_generic false);
  op_show_libs := Some show_libs_darwin;
  op_handle_memory := Some show_memory_darwin;
  op_handle_numa_memory := None;
  op_handle_proc_branch := Some handle_proc_branch_darwin;
  op_handle_scheduler_type := None;
  op_in_vm := None
|}.
End Darwin.

(** ** Versions *)

(** A version is three numbers in a word of 32 bits. *)
Definition version_text (version : Z) : bytes :=
  if Z.eqb version 4294967295 then lit "(unknown)"
  else uint_text (Z.shiftr version 16) ++ lit "." ++ uint_text (Z.land (Z.shiftr version 8) 255) ++ lit "." ++
       uint_text (Z.land version 255).

Definition packed_version (x y z : Z) : Z := (x * 65536 + y * 256 + z)%Z.

Lemma version_text_pack x y z :
  (0 <= x < 65536)%Z -> (0 <= y < 256)%Z -> (0 <= z < 256)%Z -> (x, y, z) <> (65535, 255, 255)%Z ->
  version_text (packed_version x y z) = digits 10 x ++ lit "." ++ digits 10 y ++ lit "." ++ digits 10 z.
Proof.
  intros Hx Hy Hz Hne. unfold version_text, packed_version.
  rewrite (proj2 (Z.eqb_neq _ _)).
  - rewrite !Z.shiftr_div_pow2 by lia. change 255%Z with (Z.ones 8). rewrite !Z.land_ones by lia.
    change (2 ^ 16)%Z with 65536%Z. change (2 ^ 8)%Z with 256%Z.
    replace ((x * 65536 + y * 256 + z) / 65536)%Z with x by (apply (Z.div_unique _ _ _ (y * 256 + z)); lia).
    replace ((x * 65536 + y * 256 + z) / 256)%Z with (x * 256 + y)%Z by (apply (Z.div_unique _ _ _ z); lia).
    replace ((x * 256 + y) mod 256)%Z with y by (apply (Z.mod_unique _ _ x); lia).
    replace ((x * 65536 + y * 256 + z) mod 256)%Z with z by (apply (Z.mod_unique _ _ (x * 256 + y)); lia).
    unfold uint_text, to_unsigned. rewrite !Z.mod_small by lia. done.
  - intros E. apply Hne. f_equal; [f_equal|]; lia.
Qed.

Section DarwinSpec.
Context `{AllocTotal} `{LocaleLaws} (cfg : settings).
Context `{!Headers} `{!Machine} `{!Util.System} `{!Terminal} `{!GenericSystem} `{!Mounts} `{!Identity} `{!DarwinSystem}.

Lemma printable_version version : printable (version_text version) = true.
Proof.
  unfold version_text. destruct (Z.eqb version 4294967295); [done|]. unfold uint_text.
  assert (forall n, 0 <= to_unsigned 32 n)%Z by (intros n; apply Z.mod_pos_bound; lia).
  by rewrite !printable_app, !printable_digits by (done || lia).
Qed.

Lemma reads_version version : reads cfg (in_mem (version_string version)) (Some (version_text version)).
Proof.
  apply reads_mem. intros m.
  assert (exists b m', get_macho_version version m = Ok (Some b, m') /\ cstr_of (Some b) (version_text version) /\ ticked m m')
    as (b & m' & E & [junk ->] & Ht).
  { unfold get_macho_version, version_text. destruct (Z.eqb version 4294967295).
    - destruct (appendf_renders None [] (lit "(%s)") [AStr UNKNOWN_STR] (lit "(unknown)") m eq_refl (Forall_nil_2 _))
        as (b & m' & E & Hb & Ht); [render; apply printable_plain; reflexivity|by exists b, m'].
    - destruct (appendf_renders None [] (lit "%u.%u.%u")
        [ANum (Z.shiftr version 16); ANum (Z.land (Z.shiftr version 8) 255); ANum (Z.land version 255)]
        (uint_text (Z.shiftr version 16) ++ lit "." ++ uint_text (Z.land (Z.shiftr version 8) 255) ++ lit "." ++
         uint_text (Z.land version 255)) m eq_refl (Forall_nil_2 _)) as (b & m' & E & Hb & Ht);
        [render|by exists b, m']. }
  exists m'. split; [|done]. unfold version_string. step_with E.
  by rewrite (prog_bind_ok _ _ _ _ _ (pure_ok _ _ m' (string_at_start _ _ (printable_nz _ (printable_version version))))).
Qed.

(** ** Shared libraries *)

(** The commands that follow each other from an address on, with their
    addresses. *)
Inductive commands_at : Z -> list (Z * load_command) -> Prop :=
| commands_nil p : commands_at p []
| commands_cons p lc lcs :
    load_command_at p = Some lc -> commands_at (p + lc_cmdsize lc) lcs -> commands_at p ((p, lc) :: lcs).

(** The path of a shared library. *)
Definition dylib_path (c : Z * load_command) : bytes := default [] (string_at_address (c.1 + name_offset c.2)).

Definition dylib_tree (T : bytes -> wstr) (c : Z * load_command) : tree :=
  let path := dylib_path c in
  TObject [TBlock KSection (T (basename path))
    ((if Z.eqb (dlopen path) 0 then [] else [TEntry (lit "address") (pointer_text (to_unsigned 64 (dlopen path)))]) ++
     [ TEntry (lit "path") (T path);
       TBlock KSection (lit "versions")
         [ TEntry (lit "current") (version_text (current_version c.2));
           TEntry (lit "compatibility") (version_text (compatibility_version c.2)) ] ])].

Definition dylib_ok (T : bytes -> wstr) (c : Z * load_command) : Prop :=
  is_Some (string_at_address (c.1 + name_offset c.2)) /\ basename (dylib_path c) <> [] /\
  text_is cfg (basename (dylib_path c)) (T (basename (dylib_path c))) /\
  text_is cfg (dylib_path c) (T (dylib_path c)).

Lemma prints_dylib T c : dylib_ok T c -> prints cfg (show_dylib c.1 c.2) [dylib_tree T c].
Proof.
  intros ([path E] & Hne & Hb & Hp). unfold show_dylib, dylib_tree. unfold dylib_path in *. rewrite E in *.
  cbn [default from_option id] in *. apply prints_alloc. unfold show_dylib_named.
  assert (name_is cfg (basename path) (T (basename path))) by by apply name_text.
  pose proof (printable_text cfg _ (printable_version (current_version c.2))).
  pose proof (printable_text cfg _ (printable_version (compatibility_version c.2))).
  eapply prints_eq; [prints_steps|].
  - apply (prints_if cfg (Z.eqb (dlopen path) 0) _ _ [] [TEntry (lit "address") (pointer_text (to_unsigned 64 (dlopen path)))]);
      intros _; [apply prints_ret|]. eapply prints_eq; [prints_steps|same_trees].
  - reading (apply reads_version). reading (apply reads_version). unfold show_version_entry. prints_steps.
  - same_trees.
Qed.

Lemma prints_load_cmds T n p lcs :
  commands_at p lcs -> length lcs = n -> (forall c, c ∈ lcs -> consider c.2 = true -> dylib_ok T c) ->
  prints cfg (load_cmds_loop n p) (map (dylib_tree T) (filter (fun c => consider c.2) lcs)).
Proof.
  intros Hc. revert n. induction Hc as [p|p lc lcs E Hc IH]; intros n <- Hok; [apply prints_ret|].
  cbn [length load_cmds_loop]. rewrite E.
  assert (prints cfg (load_cmds_loop (length lcs) (p + lc_cmdsize lc)) (map (dylib_tree T) (filter (fun c => consider c.2) lcs)))
    as Hrest by (apply IH; [done|]; intros c Hin; by apply Hok, list_elem_of_further).
  destruct (consider lc) eqn:Ec.
  - rewrite filter_cons_True by (cbn; by rewrite Ec). cbn [map].
    apply (prints_seq cfg _ _ [dylib_tree T (p, lc)]); [|done]. apply (prints_dylib T (p, lc)).
    by apply Hok; [apply list_elem_of_here|].
  - rewrite filter_cons_False by (cbn; rewrite Ec; by intros []).
    apply (prints_seq cfg _ _ []); [apply prints_ret|done].
Qed.

Lemma images_loop_skip before h after path :
  Forall (fun i => i.1 <> Some path) before ->
  images_loop (before ++ (Some path, h) :: after) path = handle_load_cmds h.
Proof.
  induction 1 as [|[[name|] h'] images Hn _ IH]; cbn [app images_loop]; [by rewrite bool_decide_true| |done].
  by rewrite bool_decide_false by (cbn in Hn; congruence).
Qed.

(** The images before that of the program have other names. *)
Lemma prints_images T before path h after lcs :
  executable_path = Some path -> dyld_images = before ++ (Some path, Some h) :: after ->
  Forall (fun i => i.1 <> Some path) before ->
  commands_at (mh_address h + mach_header_size h) lcs -> length lcs = Z.to_nat (mh_ncmds h) ->
  (forall c, c ∈ lcs -> consider c.2 = true -> dylib_ok T c) ->
  prints cfg show_libs_darwin (map (dylib_tree T) (filter (fun c => consider c.2) lcs)).
Proof.
  intros Hp Hi Hb Hc Hl Hok. unfold show_libs_darwin. rewrite Hp, Hi, images_loop_skip by done.
  by apply prints_load_cmds.
Qed.

(** C30: [show_libs_darwin] goes through the load commands of the first image
    with the name of the program, one behind the other, as many as the header
    says, and shows the libraries that they name, in order: the last component
    of the path, the path, and two versions, each decoded from its word; a
    version that is three numbers of 16, 8 and 8 bits is shown as these. *)
Theorem show_libs_darwin_correct T before path h after lcs :
  executable_path = Some path -> dyld_images = before ++ (Some path, Some h) :: after ->
  Forall (fun i => i.1 <> Some path) before ->
  commands_at (mh_address h + mach_header_size h) lcs -> length lcs = Z.to_nat (mh_ncmds h) ->
  (forall c, c ∈ lcs -> consider c.2 = true -> dylib_ok T c) ->
  prints cfg show_libs_darwin (map (dylib_tree T) (filter (fun c => consider c.2) lcs)) /\
  forall x y z, (0 <= x < 65536)%Z -> (0 <= y < 256)%Z -> (0 <= z < 256)%Z -> (x, y, z) <> (65535, 255, 255)%Z ->
    version_text (packed_version x y z) = digits 10 x ++ lit "." ++ digits 10 y ++ lit "." ++ digits 10 z.
Proof. intros. split; [by eapply prints_images|by apply version_text_pack]. Qed.

(** ** Memory *)
Definition size_tree (name : bytes) (value : Z) : tree :=
  TBlock KSection name
    [ TEntry (lit "bytes") (ulong_text value);
      TEntry (lit "human") (hundredths (scaled value (- (human_unit value).1) 2) ++ lit " " ++ (human_unit value).2) ].

Lemma prints_mem_section name value :
  name_is cfg name name -> (0 <= value < 2 ^ 53)%Z -> prints cfg (mk_mem_section name value) [size_tree name value].
Proof.
  intros Hn Hv. unfold mk_mem_section, size_tree.
  eapply prints_eq; [prints_steps; by apply prints_human_size|same_trees].
Qed.

(** What is shown as free is what is left without the free pages. *)
Definition memory_tree (total page free : Z) (stats : vm_statistics) : tree :=
  TBlock KSection (lit "ram")
    [ size_tree (lit "total") total;
      size_tree (lit "free") (total - free * page);
      size_tree (lit "wired") (wire_count stats * page);
      size_tree (lit "unused") (free_count stats * page);
      size_tree (lit "active") (active_count stats * page);
      size_tree (lit "inactive") (inactive_count stats * page) ].

Lemma u64_exact z : (0 <= z < 2 ^ 53)%Z -> u64 z = z.
Proof. intros Hz. unfold u64, to_unsigned. apply Z.mod_small. lia. Qed.

Lemma literal_text s : printable s = true -> s <> [] -> name_is cfg s s.
Proof. intros Hp Hne. apply name_text; [by apply printable_text|done]. Qed.

Lemma prints_memory_darwin total page free stats :
  sysctlbyname (lit "hw.memsize") = Some total -> sysctlbyname (lit "vm.pagesize") = Some page ->
  sysctlbyname (lit "vm.page_free_count") = Some free -> host_vm_info = Some stats ->
  (0 <= free * page <= total)%Z -> (total < 2 ^ 53)%Z ->
  Forall (fun n => 0 <= n * page < 2 ^ 53)%Z [wire_count stats; free_count stats; active_count stats; inactive_count stats] ->
  prints cfg show_memory_darwin [memory_tree total page free stats].
Proof.
  intros Ht Hp Hf Hs Hle Hmax Hn. unfold show_memory_darwin. rewrite Ht, Hp, Hf, Hs.
  repeat (apply Forall_cons_1 in Hn as [? Hn]).
  rewrite !u64_exact by (rewrite ?u64_exact; lia).
  eapply prints_eq;
    [prints_steps; (apply prints_mem_section; [by apply literal_text|lia])|same_trees].
Qed.

(** ** The ancestors *)

(** The number of processes for which there is space in an attempt. *)
Definition attempt_count (k : nat) : option Z := (fun b => (b / sizeof_kinfo_proc)%Z) <$> procs_bytes k.

(** The attempts before the [k]-th fail for want of space. *)
Definition too_many_before (k : nat) : Prop :=
  forall j, j < k -> exists n, attempt_count j = Some n /\ procs_filled j n = TooMany.

Lemma procs_loop_one attempts attempt m :
  procs_loop (S (S attempts)) attempt m
  = match attempt_count attempt with
    | None => Ok (None, m)
    | Some count =>
      match procs_filled attempt count with
      | Processes procs => Ok (Some (table_of count procs), tick m)
      | TooMany => procs_loop (S attempts) (S attempt) (tick m)
      | Unavailable => Ok (None, tick m)
      end
    end.
Proof.
  unfold attempt_count. cbn [procs_loop]. destruct (procs_bytes attempt) as [b|]; [|done]. cbn.
  step_with (alloc_run m). by destruct (procs_filled _ _).
Qed.

Lemma procs_loop_skip k m :
  too_many_before k -> k <= 19 -> procs_loop 20 0 m = procs_loop (20 - k) k (ticks k m).
Proof.
  induction k as [|k IH]; intros Hj Hk; [by rewrite ticks_0|].
  rewrite IH by (lia || (intros j Hlt; apply Hj; lia)). replace (20 - k) with (S (S (18 - k))) by lia.
  rewrite procs_loop_one. destruct (Hj k ltac:(lia)) as (n & -> & ->).
  replace (20 - S k) with (S (18 - k)) by lia. done.
Qed.

Lemma procs_loop_found k count procs m :
  k <= 18 -> too_many_before k -> attempt_count k = Some count -> procs_filled k count = Processes procs ->
  procs_loop 20 0 m = Ok (Some (table_of count procs), ticks (S k) m).
Proof.
  intros Hk Hj Hc Hf. rewrite (procs_loop_skip k m Hj ltac:(lia)).
  replace (20 - k) with (S (S (18 - k))) by lia. rewrite procs_loop_one, Hc, Hf. done.
Qed.

(** What makes the function give up. *)
Definition gives_up : Prop :=
  too_many_before 19 \/
  exists k, k <= 18 /\ too_many_before k /\
    match attempt_count k with None => True | Some count => procs_filled k count = Unavailable end.

Lemma procs_loop_none m : gives_up -> exists n, procs_loop 20 0 m = Ok (None, ticks n m).
Proof.
  intros [Hj|(k & Hk & Hj & Hc)].
  - exists 19. by rewrite (procs_loop_skip 19 m Hj).
  - rewrite (procs_loop_skip k m Hj ltac:(lia)). replace (20 - k) with (S (S (18 - k))) by lia.
    rewrite procs_loop_one. destruct (attempt_count k) as [count|]; [|by exists k].
    rewrite Hc. exists (S k). done.
Qed.

Lemma reads_procs o : (forall m, exists n, procs_loop 20 0 m = Ok (o, ticks n m)) -> reads cfg (in_mem (procs_loop 20 0)) o.
Proof. intros Ho. apply reads_mem. intros m. destruct (Ho m) as (n & E). exists (ticks n m). split; [done|by exists n]. Qed.

(** The cleared entries behind the processes. *)
Lemma table_of_padded count procs :
  length procs <= Z.to_nat count ->
  table_of count procs = procs ++ replicate (Z.to_nat count - length procs) (mk_kinfo 0 0 []).
Proof.
  intros Hl. unfold table_of. rewrite take_app, take_ge by lia. f_equal. rewrite take_replicate. f_equal. lia.
Qed.

Lemma table_of_in count procs p :
  length procs <= Z.to_nat count -> p ∈ table_of count procs -> p ∈ procs \/ p = mk_kinfo 0 0 [].
Proof.
  intros Hl. rewrite table_of_padded, elem_of_app by done.
  intros [Hp|[-> _]%elem_of_replicate]; [by left|by right].
Qed.

Lemma table_of_above count procs :
  length procs <= Z.to_nat count ->
  filter (fun p => ki_pid p <> 0%Z) (table_of count procs) = filter (fun p => ki_pid p <> 0%Z) procs.
Proof.
  intros Hl. rewrite table_of_padded, filter_app by done.
  rewrite <- (app_nil_r (filter _ procs)) at 2. f_equal.
  induction (Z.to_nat count - length procs) as [|n IH]; [done|]. cbn [replicate].
  rewrite filter_cons. by rewrite decide_False by (intros Hn; by apply Hn).
Qed.

Lemma climbs_table count procs pid ps :
  length procs <= Z.to_nat count -> climbs procs 0 pid ps -> climbs (table_of count procs) 0 pid ps.
Proof.
  intros Hl. rewrite table_of_padded by done. induction 1 as [|p ps Hp Hne _ IH]; [constructor|].
  constructor; [|done|done]. apply elem_of_app. by left.
Qed.

(** Every process has a name and a number, and those other than process 0 one of
    their own. *)
Definition distinct_processes (procs : list kinfo_proc) : Prop :=
  NoDup (map ki_pid (filter (fun p => ki_pid p <> 0%Z) procs)) /\ Forall (fun p => nz (ki_comm p)) procs /\
  (forall p, p ∈ procs -> 0 <= ki_pid p)%Z.

Lemma table_names count procs :
  length procs <= Z.to_nat count -> distinct_processes procs ->
  forall p, p ∈ table_of count procs ->
    nz (named_text p) /\ renders plain (lit "%d ('%s')") (name_args (ki_pid p) p) (named_text p) /\
    renders plain (lit "%d ('%s')" ++ lit ", ") (name_args (ki_pid p) p) (named_text p ++ lit ", ").
Proof.
  intros Hl (_ & Hn & _) p Hp. rewrite Forall_forall in Hn.
  assert (nz (ki_comm p)) as Hc.
  { destruct (table_of_in _ _ _ Hl Hp) as [Hin| ->]; [by apply Hn|constructor]. }
  split; [|by apply named_renders]. by apply nz_ancestor; [apply nz_int_text|].
Qed.

Lemma prints_branch_darwin k count procs ps z w :
  k <= 18 -> too_many_before k -> attempt_count k = Some count -> procs_filled k count = Processes procs ->
  length procs <= Z.to_nat count -> distinct_processes procs -> climbs procs 0 getpid ps ->
  root_met (table_of count procs) 0 ps = Some z -> text_is cfg (listing (map named_text (ps ++ [z]))) w ->
  prints cfg handle_proc_branch_darwin [TEntry (lit "ancestry") w].
Proof.
  intros Hk Hj Hc Hf Hl Hd Hps Hz Hw. unfold handle_proc_branch_darwin.
  reading (apply reads_procs; intros m; exists (S k); by apply procs_loop_found).
  assert (reads cfg (in_mem (str ← table_text 0 (lit "%d ('%s')") name_args (table_of count procs); string_of str))
            (listing (map named_text (ps ++ [z])))) as Hread.
  { apply reads_mem. intros m.
    destruct (table_text_padded (table_of count procs) 0 (lit "%d ('%s')") name_args named_text) with (ps := ps) (z := z) (m := m)
      as (b & m' & E & Hb & Hn & Ht); [by rewrite table_of_above by done; apply Hd|by apply table_names| |by apply climbs_table|done|].
    { intros p Hp. destruct (table_of_in _ _ _ Hl Hp) as [Hin| ->]; [by apply Hd|done]. }
    exists m'. split; [|done]. step_with E. destruct b as [b|]; [by apply (string_of_ok b)|].
    exfalso. destruct ps; by apply listing_not_nil in Hb. }
  reading (exact Hread). eapply prints_eq; [prints_steps|same_trees].
Qed.

Lemma prints_branch_none : gives_up -> prints cfg handle_proc_branch_darwin [].
Proof.
  intros Hg. unfold handle_proc_branch_darwin.
  reading (apply reads_procs; intros m; by apply procs_loop_none). apply prints_ret.
Qed.

(** C31: [handle_proc_branch_darwin] asks for the processes up to 19 times, as
    long as the space it was told to allocate is too small.  Let an attempt give
    it a table: the processes, of which there may be less than there is space
    for, and cleared entries behind them.  When the ancestors of the process lead
    to process 0 it prints them and, last, the first entry with the number 0 that
    is behind the last ancestor in the table, a cleared one with an empty name
    included, or else the first of the table.  When the walk does not come to
    process 0, or process 0 is not the lowest, it never ends.  When no attempt
    succeeds, when the size cannot be asked for and when the kernel gives another
    error, it prints nothing. *)
Theorem handle_proc_branch_darwin_correct :
  (forall k count procs, k <= 18 -> too_many_before k -> attempt_count k = Some count ->
     procs_filled k count = Processes procs -> length procs <= Z.to_nat count -> distinct_processes procs ->
     (forall ps z w, climbs procs 0 getpid ps -> root_met (table_of count procs) 0 ps = Some z ->
        text_is cfg (listing (map named_text (ps ++ [z]))) w ->
        prints cfg handle_proc_branch_darwin [TEntry (lit "ancestry") w]) /\
     (forall u, lowest_pid (table_of count procs) = Ok u -> unreached (table_of count procs) 0 u getpid ->
        (forall s, handle_proc_branch_darwin s = Diverge) /\
        forall n m, walk_table n 0 u (lit "%d ('%s')") name_args (table_of count procs) getpid None m = Diverge)) /\
  (gives_up -> prints cfg handle_proc_branch_darwin []).
Proof.
  split.
  - intros k count procs Hk Hj Hc Hf Hl Hd. split; [intros ps z w; by eapply prints_branch_darwin|].
    intros u Hlow Hun.
    assert (forall n m, walk_table n 0 u (lit "%d ('%s')") name_args (table_of count procs) getpid None m = Diverge) as Hw.
    { intros n m. eapply (walk_table_endless (table_of count procs) 0 _ _ named_text) with (s := []);
        [| |done|done|constructor]; intros p Hp; by apply (table_names count procs Hl Hd). }
    split; [|done]. intros s. unfold handle_proc_branch_darwin.
    erewrite prog_bind_ok; [|apply zoom_ok; exact (procs_loop_found k count procs _ Hk Hj Hc Hf)]. cbv beta iota.
    unfold table_text. rewrite Hlow. unfold in_mem, zoom, mbind, prog_bind, pure.
    rewrite outcome_bind_ok. cbv beta iota. by rewrite Hw.
  - exact prints_branch_none.
Qed.
End DarwinSpec.

(** ** The calls are well placed *)
Section DarwinTyped.
Context `{AllocTotal} `{LocaleLaws} (cfg : settings).
Context `{!Headers} `{!Machine} `{!Util.System} `{!Terminal} `{!GenericSystem} `{!GenericAnswers cfg} `{!Mounts}
  `{!Identity} `{!DarwinSystem}.

(** What the driver asks, beyond the shared operations. *)
Class DarwinAnswers : Prop := {
  answers_options :: MountAnswers cfg (titled_entries mntopt_names_darwin);
  answers_attempts : gives_up \/
    exists k count procs ps z, k <= 18 /\ too_many_before k /\ attempt_count k = Some count /\
      procs_filled k count = Processes procs /\ length procs <= Z.to_nat count /\ distinct_processes procs /\
      climbs procs 0 getpid ps /\ root_met (table_of count procs) 0 ps = Some z /\
      showable cfg (listing (map named_text (ps ++ [z])));
  answers_images : forall path before h after, executable_path = Some path ->
    dyld_images = before ++ (Some path, Some h) :: after -> Forall (fun i => i.1 <> Some path) before ->
    exists T lcs, commands_at (mh_address h + mach_header_size h) lcs /\ length lcs = Z.to_nat (mh_ncmds h) /\
      forall c, c ∈ lcs -> consider c.2 = true -> dylib_ok cfg T c
}.
Context `{!DarwinAnswers}.

Lemma typed_memory_darwin : typed cfg CMembers DRIVER_DEPTH show_memory_darwin.
Proof.
  unfold show_memory_darwin. destruct (sysctlbyname _); [|apply typed_ret].
  destruct (sysctlbyname _); [|apply typed_ret]. destruct (sysctlbyname _); [|apply typed_ret].
  destruct host_vm_info; [|apply typed_ret]. unfold DRIVER_DEPTH.
  typed_steps; apply typed_mem_section; solve_nameable.
Qed.

Lemma typed_branch_darwin : typed cfg CMembers DRIVER_DEPTH handle_proc_branch_darwin.
Proof.
  destruct answers_attempts as [Hg|(k & count & procs & ps & z & Hk & Hj & Hc & Hf & Hl & Hd & Hps & Hz & w & Hw)].
  - eapply typed_prints; [by apply prints_branch_none|done|constructor].
  - eapply typed_ancestry_entry. by eapply prints_branch_darwin.
Qed.

(** The image of the program, if there is one with its name. *)
Lemma images_split (images : list (option bytes * option mach_header)) path :
  (exists before h after, images = before ++ (Some path, h) :: after /\ Forall (fun i => i.1 <> Some path) before) \/
  Forall (fun i => i.1 <> Some path) images.
Proof.
  induction images as [|[name h] images IH]; [right; constructor|].
  destruct (decide (name = Some path)) as [->|Hne]; [left; by exists [], h, images|].
  destruct IH as [(before & h' & after & -> & Hb)|Hb]; [left; exists ((name, h) :: before), h', after|right; by constructor].
  split; [done|by constructor].
Qed.

Lemma images_loop_none images path :
  Forall (fun i => i.1 <> Some path) images -> images_loop images path = mret tt.
Proof.
  induction 1 as [|[[name|] h] images Hn _ IH]; cbn [images_loop]; [done| |done].
  by rewrite bool_decide_false by (cbn in Hn; congruence).
Qed.

Lemma dylibs_placed T lcs :
  forallb (well_placed CObjects) (map (dylib_tree T) lcs) = true /\
  Forall (fun t => depth t <= DRIVER_DEPTH) (map (dylib_tree T) lcs).
Proof.
  split.
  - apply forallb_forall. intros t Ht. apply in_map_iff in Ht as (c & <- & _). unfold dylib_tree.
    by destruct (Z.eqb (dlopen (dylib_path c)) 0).
  - apply Forall_map, Forall_forall. intros c _. unfold dylib_tree, DRIVER_DEPTH.
    destruct (Z.eqb (dlopen (dylib_path c)) 0); cbn; lia.
Qed.

Lemma typed_libs_darwin : typed cfg CObjects DRIVER_DEPTH show_libs_darwin.
Proof.
  unfold show_libs_darwin. destruct executable_path as [path|] eqn:Ep; [|apply typed_ret].
  destruct (images_split dyld_images path) as [(before & h & after & Ei & Hb)|Hn].
  - rewrite Ei, images_loop_skip by done. destruct h as [h|]; [|apply typed_ret]. cbn [handle_load_cmds].
    destruct (answers_images path before h after Ep Ei Hb) as (T & lcs & Hc & Hl & Hok).
    destruct (dylibs_placed T (filter (fun c => consider c.2) lcs)) as [Hw Hd].
    eapply typed_prints; [by apply (prints_load_cmds cfg T)|done|done].
  - rewrite images_loop_none by done. apply typed_ret.
Qed.

Lemma nameable_map tbl :
  (forall e, e ∈ tbl -> nameable cfg e.1) ->
  Forall (fun e => match e.1 with Some n => nameable cfg n | None => True end) (terminated tbl).
Proof.
  intros Ht. unfold terminated. apply Forall_app. split; [|by constructor]. by apply Forall_map, Forall_forall.
Qed.

Lemma darwin_driver_ok : @DriverTyped _ _ platform_ops_darwin cfg.
Proof.
  constructor.
  - shared_ops cfg.
    + change (typed cfg CMembers DRIVER_DEPTH show_cpu_darwin). unfold show_cpu_darwin. typed_steps.
    + apply typed_memory_darwin.
    + apply typed_branch_darwin.
  - shared_ops cfg. apply typed_libs_darwin.
  - intros what. exact (typed_mounts_bsd cfg _ what).
  - intros i. exact I.
  - by eexists.
  - by eexists.
  - apply nameable_map. intros e He. rewrite !elem_of_app in He. destruct He as [He|[He|He]].
    + eapply nameable_titled; [|exact He]. by vm_compute.
    + unfold signal_poll_darwin in He.
      destruct (macro (lit "SIGPOLL")); [|destruct (macro (lit "SIGEMT")); [|by apply elem_of_nil in He]];
        apply list_elem_of_singleton in He as ->; by apply nameable_literal.
    + eapply nameable_titled; [|exact He]. by vm_compute.
  - apply showable_titled. by vm_compute.
  - exact I.
Qed.
End DarwinTyped.
