(* ===== verification/OtherSystems.v ===== *)
(** OtherSystems: the drivers that only put the shared operations together: for
    the Hurd (src/src/platform/hurd/platform.c) and for a system that is not
    known (src/src/platform/unknown/platform.c). *)
From S2P Require Import Prelude Memory PrList Locale PString StringUtil Encode Output OutputSpec Document Prints Util Affinity Display Format Tables Platform Process Report Terminal Generic SystemTables Bsd.

Section Drivers.
Context `{Allocator} `{Locale} `{Headers} `{Machine} `{Util.System} `{Terminal} `{GenericSystem}.

(** There is no set of processors to ask for on the Hurd. *)
Definition platform_ops_hurd : Driver := {|
  signal_map := terminated (titled_entries signal_names_hurd);
  if_flag_map := terminated (titled_entries if_flag_names_hurd);
  op_get_kernel_bits := Some get_kernel_bits_generic;
  op_get_time := Some get_time_generic;
  op_get_mtu := Some get_mtu_generic;
  op_show_capabilities := None;
  op_show_cgroups := None;
  op_show_clocks := Some show_clocks_generic;
  op_show_confstrs := Some show_confstrs_generic;
  op_show_cpu_affinities :=
    Some (show_cpu_affinities_generic (CpuSet := list Z) None None (to_signed 32 nprocessors_online));
  op_show_cpu := None;
  op_show_extended_if_flags := None;
  op_show_fds := Some show_fds_generic;
  op_show_io_priorities := None;
  op_show_mounts := Some show_mounts_generic_linux;
  op_show_msg_queues := None;
  op_show_namespaces := None;
  op_show_oom := None;
  op_show_prctl := None;
  op_show_rlimits := Some show_rlimits_generic;
  op_show_security_module := None;
  op_show_semaphores := None;
  op_show_shared_mem := None;
  op_show_timezone := None;
  op_show_libs := Some show_libs_generic;
  op_handle_memory := None;
  op_handle_numa_memory := None;
  op_handle_proc_branch := None;
  op_handle_scheduler_type := None;
  op_in_vm := None
|}.

(** The driver has no table of interface flags; the loops over a table stop at
    a null pointer as at its end. *)
Definition platform_ops_unknown : Driver := {|
  signal_map := terminated (titled_entries signal_names_unknown);
  if_flag_map := terminated [];
  op_get_kernel_bits := None;
  op_get_time := Some get_time_generic;
  op_get_mtu := None;
  op_show_capabilities := None;
  op_show_cgroups := None;
  op_show_clocks := Some show_clocks_generic;
  op_show_confstrs := None;
  op_show_cpu_affinities := None;
  op_show_cpu := None;
  op_show_extended_if_flags := None;
  op_show_fds := Some show_fds_generic;
  op_show_io_priorities := None;
  op_show_mounts := None;
  op_show_msg_queues := None;
  op_show_namespaces := None;
  op_show_oom := None;
  op_show_prctl := None;
  op_show_rlimits := None;
  op_show_security_module := None;
  op_show_semaphores := None;
  op_show_shared_mem := None;
  op_show_timezone := None;
  op_show_libs := None;
  op_handle_memory := None;
  op_handle_numa_memory := None;
  op_handle_proc_branch := None;
  op_handle_scheduler_type := None;
  op_in_vm := None
|}.
End Drivers.

Section Typed.
Context `{AllocTotal} `{LocaleLaws} (cfg : settings).
Context `{!Headers} `{!Machine} `{!Util.System} `{!Terminal} `{!GenericSystem} `{!GenericAnswers cfg}.

Lemma hurd_driver_ok : @DriverTyped _ _ platform_ops_hurd cfg.
Proof.
  constructor.
  - shared_ops cfg. exact (typed_ret cfg CMembers DRIVER_DEPTH).
  - shared_ops cfg.
  - intros what. exact (typed_mounts_linux cfg what).
  - intros i. exact I.
  - by eexists.
  - by eexists.
  - apply showable_titled. by vm_compute.
  - apply showable_titled. by vm_compute.
  - exact I.
Qed.

Lemma unknown_driver_ok : @DriverTyped _ _ platform_ops_unknown cfg.
Proof.
  constructor.
  - shared_ops cfg.
  - shared_ops cfg.
  - intros what. exact I.
  - intros i. exact I.
  - by eexists.
  - by exists [].
  - apply showable_titled. by vm_compute.
  - by repeat constructor.
  - exact I.
Qed.
End Typed.
