(* ===== verification/Usage.v ===== *)
(** Usage: the help text (usage of src/src/procenv.c).

    The lines are formats; some show a setting of the output that is in
    force. *)
From S2P Require Import Prelude Memory PrList Locale PString StringUtil Encode Output.

(** What the format of a line is applied to. *)
Inductive usage_arg : Type :=
| NoArg
| ArgPackage
| ArgCrumbSeparator
| ArgAmount
| ArgIndentChar
| ArgTextSeparator
| ArgUrl.

(** The lines, first half. *)
Definition usage_lines_1 : list (bytes * usage_arg) :=
  [ (lit "Usage: %s [option]", ArgPackage);
    (lit "", NoArg);
    (lit "Description: Display process environment.", NoArg);
    (lit "", NoArg);
    (lit "Options:", NoArg);
    (lit "", NoArg);
    (lit "  -a, --meta              : Display meta details.", NoArg);
    (lit "  -A, --arguments         : Display program arguments.", NoArg);
    (lit "  -b, --libs              : Display details of linked libraries.", NoArg);
    (lit "  -B, --libc              : Display standard library details.", NoArg);
    (lit "  -c, --cgroups           : Display cgroup details (Linux only).", NoArg);
    (lit "  -C, --cpu               : Display CPU and scheduler details.", NoArg);
    (lit "  --crumb-separator=<str> : Specify string '<str>' as alternate delimiter", NoArg);
    (lit "                            for crumb format output (default='%s').", ArgCrumbSeparator);
    (lit "  -d, --compiler          : Display compiler details.", NoArg);
    (lit "  -e, --environment       : Display environment variables.", NoArg);
    (lit "  -E, --semaphores        : Display semaphore details.", NoArg);
    (lit "  --exec                  : Treat non-option arguments as program to execute.", NoArg);
    (lit "  -f, --fds               : Display file descriptor details.", NoArg);
    (lit "  -F, --namespaces        : Display namespace details.", NoArg);
    (lit "  --file=<file>           : Send output to <file> (implies --output=file).", NoArg);
    (lit "  --file-append           : Append to file specified by '--file='", NoArg);
    (lit "                            rather than overwriting", NoArg);
    (lit "  --format=<format>       : Specify output format. <format> can be one of:", NoArg);
    (lit "", NoArg);
    (lit "                            crumb    : ASCII 'breadcrumbs'", NoArg);
    (lit "                            json     : JSON output.", NoArg);
    (lit "                            text     : ASCII output (default).", NoArg);
    (lit "                            xml      : XML output.", NoArg);
    (lit "", NoArg);
    (lit "  -g, --sizeof            : Display sizes of data types in bytes.", NoArg);
    (lit "  -h, --help              : This help text.", NoArg);
    (lit "  -i, --misc              : Display miscellaneous details.", NoArg);
    (lit "  --indent                : Number of indent characters to use for each indent", NoArg);
    (lit "                            (default=%d).", ArgAmount);
    (lit "  --indent-char=<c>       : Use character '<c>' for indenting", NoArg);
    (lit "                            (default='%s').", ArgIndentChar);
    (lit "  -j, --uname             : Display uname details.", NoArg);
    (lit "  -k, --clocks            : Display clock details.", NoArg);
    (lit "  -l, --limits            : Display limits.", NoArg);
    (lit "  -L, --locale            : Display locale details.", NoArg);
    (lit "  -m, --mounts            : Display mount details.", NoArg);
    (lit "  -M, --message-queues    : Display message queue details.", NoArg);
    (lit "  -n, --confstr           : Display confstr details.", NoArg);
    (lit "  -N, --network           : Display network details.", NoArg);
    (lit "  -o, --oom               : Display out-of-memory manager details (Linux only)", NoArg) ].

(** The lines, second half. *)
Definition usage_lines_2 : list (bytes * usage_arg) :=
  [ (lit "  --output=<type>         : Send output to alternative location.", NoArg);
    (lit "                            <type> can be one of:", NoArg);
    (lit "", NoArg);
    (lit "                            file     : Send output to a file.", NoArg);
    (lit "                            stderr   : Write to standard error.", NoArg);
    (lit "                            stdout   : Write to standard output (default).", NoArg);
    (lit "                            syslog   : Write to the system log file.", NoArg);
    (lit "                            terminal : Write to terminal.", NoArg);
    (lit "", NoArg);
    (lit "  -p, --process           : Display process details.", NoArg);
    (lit "  -P, --platform          : Display platform details.", NoArg);
    (lit "  -q, --time              : Display time details.", NoArg);
    (lit "  -r, --ranges            : Display range of data types.", NoArg);
    (lit "  --separator=<str>       : Specify string '<str>' as alternate delimiter", NoArg);
    (lit "                            for text format output (default='%s').", ArgTextSeparator);
    (lit "  -s, --signals           : Display signal details.", NoArg);
    (lit "  -S, --shared-memory     : Display shared memory details.", NoArg);
    (lit "  -t, --tty               : Display terminal details.", NoArg);
    (lit "  -T, --threads           : Display thread details.", NoArg);
    (lit "  -u, --stat              : Display stat details.", NoArg);
    (lit "  -U, --rusage            : Display rusage details.", NoArg);
    (lit "  -v, --version           : Display version details.", NoArg);
    (lit "  -w, --capabilities      : Display capability details (Linux only).", NoArg);
    (lit "  -x, --pathconf          : Display pathconf details.", NoArg);
    (lit "  -y, --sysconf           : Display sysconf details.", NoArg);
    (lit "  -Y, --memory            : Display memory details.", NoArg);
    (lit "  -z, --timezone          : Display timezone details.", NoArg);
    (lit "", NoArg);
    (lit "Notes:", NoArg);
    (lit "", NoArg);
    (lit "  - Options are considered in order, so '--output' should", NoArg);
    (lit "    precede any other option.", NoArg);
    (lit "  - If no display option is specified, all details are displayed.", NoArg);
    (lit "  - Only one display option may be specified.", NoArg);
    (lit "  - All values for '--indent-char' are literal except '\t' which can be", NoArg);
    (lit "    used to specify a tab character. The same is true for '--separator'", NoArg);
    (lit "    and '--crumb-separator' but only if it is the first character specified.", NoArg);
    (lit "  - Specifying a visible indent-char is only (vaguely) meaningful", NoArg);
    (lit "    for text output.", NoArg);
    (lit "  - Any long option name may be shortened as long as it remains unique.", NoArg);
    (lit "  - The 'crumb' output format is designed for easy parsing: it displays", NoArg);
    (lit "    the data in a flattened format with each value on a separate line", NoArg);
    (lit "    preceded by all appropriate headings which are separated by the", NoArg);
    (lit "    current separator.", NoArg);
    (lit "", NoArg);
    (lit "Home page: %s", ArgUrl) ].

Section Usage.
Context `{Allocator} `{Locale} `{Package} `{Host} (PACKAGE_URL : bytes).

Definition usage_args (a : usage_arg) : prog ostate (list arg) :=
  match a with
  | NoArg => mret []
  | ArgPackage => mret [AStr PACKAGE_STRING]
  | ArgCrumbSeparator => c ← get_crumb_separator; s ← str_arg c; mret [s]
  | ArgAmount => n ← get_indent_amount; mret [ANum n]
  | ArgIndentChar => c ← get_indent_char; s ← str_arg c; mret [s]
  | ArgTextSeparator => s ← get_text_separator; mret [AStr s]
  | ArgUrl => mret [AStr PACKAGE_URL]
  end.

(** The macro [show]. *)
Definition show (line : bytes * usage_arg) : prog ostate unit :=
  ap ← usage_args line.2;
  amount ← get_indent_amount;
  _show (Some []) amount line.1 ap.

Definition usage : prog ostate unit :=
  set_indent_amount 0;;
  for_each (usage_lines_1 ++ usage_lines_2) show.
End Usage.
