(* ===== verification/Sink.v ===== *)
(** Sink: sending the text to its destination ([_show_output] and its callers
    in [Output]). *)
From S2P Require Import Prelude Memory PrList Locale PString StringUtil Encode Output.

Section Sink.
Context `{Allocator} `{Locale} `{Host}.

(** The state after writing [str] to the open descriptor [fd]. *)
Definition written (fd : Z) (str : bytes) (w : ostate) : ostate :=
  add_event (EvWrite fd str (write_ret (events w) fd str)) w.

Definition opened (path : bytes) (w : ostate) : ostate :=
  let fd := open_ret (events w) path (output_file_append w) in
  set_output_fd fd (add_event (EvOpen path (output_file_append w) fd) w).

Lemma show_output_open_file str path w :
  output w = OUTPUT_FILE -> output_file w = Some path -> (0 <= output_fd w)%Z ->
  (0 <= write_ret (events w) (output_fd w) str)%Z ->
  _show_output str w = Ok (tt, written (output_fd w) str w).
Proof.
  intros Ho Hp Hfd Hr. unfold _show_output, write_to, log. run_prim. rewrite Ho, Hp. cbn.
  replace (Z.ltb (output_fd w) 0) with false by lia. cbn.
  replace (Z.ltb (write_ret (events w) (output_fd w) str) 0) with false by lia. cbn.
  by replace (Z.ltb (write_ret (events w) (output_fd w) str) 0) with false by lia.
Qed.

Lemma show_output_new_file str path w :
  output w = OUTPUT_FILE -> output_file w = Some path -> (output_fd w < 0)%Z ->
  let w1 := opened path w in
  (0 <= output_fd w1)%Z -> (0 <= write_ret (events w1) (output_fd w1) str)%Z ->
  _show_output str w = Ok (tt, written (output_fd w1) str w1).
Proof.
  intros Ho Hp Hfd w1 Hfd1 Hr. cbn in Hfd1, Hr.
  unfold _show_output, write_to, log. run_prim. rewrite Ho, Hp. cbn.
  replace (Z.ltb (output_fd w) 0) with true by lia. cbn.
  set (fd := open_ret _ _ _) in *. replace (Z.ltb fd 0) with false by lia. cbn.
  set (ret := write_ret _ _ _) in *. replace (Z.ltb ret 0) with false by lia. cbn.
  by replace (Z.ltb ret 0) with false by lia.
Qed.

Lemma show_output_pstring_ok d txt str w :
  contents d = Ok txt -> wcs_encode txt = Some str -> str <> [] -> nz str ->
  AllocTotal ->
  exists m', ticked (o_mem w) m' /\ _show_output_pstring d w = _show_output str (set_mem m' w).
Proof.
  intros Hd He Hne Hnz Ha. exists (tick (o_mem w)). split; [apply ticked_tick|].
  unfold _show_output_pstring, in_mem, pstring_to_char. unfold contents in Hd.
  destruct (buf d) as [b|]; [|done].
  step_with (zoom_ok o_mem set_mem _ w _ _ (wchar_to_char_ok b txt str (o_mem w) Hd He Hne)).
  by step_with (pure_ok _ _ (set_mem (tick (o_mem w)) w) (string_at_start str [] Hnz)).
Qed.

(** With a file for the destination, not open yet, and a system that lets
    it be opened and written, showing a document opens the file once, for
    appending exactly when that was asked for (and never for truncating), and
    makes one call of write (2) with the multi-byte text of the whole
    document; a shorter count returned by it is not an error. *)
Theorem show_output_file_correct `{!AllocTotal} (d : pstring) (txt : wstr) (str path : bytes)
  (w : ostate) :
  contents d = Ok txt -> wcs_encode txt = Some str -> str <> [] -> nz str ->
  output w = OUTPUT_FILE -> output_file w = Some path -> (output_fd w < 0)%Z ->
  (forall evs p a, 0 <= open_ret evs p a)%Z -> (forall evs fd s, 0 <= write_ret evs fd s)%Z ->
  exists w' fd ret, _show_output_pstring d w = Ok (tt, w') /\
    events w' = events w ++ [EvOpen path (output_file_append w) fd; EvWrite fd str ret] /\
    output_fd w' = fd /\ doc w' = doc w /\ (0 <= ret)%Z.
Proof.
  intros Hd He Hne Hnz Ho Hp Hfd Hopen Hwrite.
  destruct (show_output_pstring_ok d txt str w Hd He Hne Hnz ltac:(done)) as (m' & _ & ->).
  rewrite (show_output_new_file str path (set_mem m' w)); try done.
  - do 3 eexists. split; [reflexivity|]. split; [cbn; by rewrite <- app_assoc|].
    split_and!; [done|done|apply Hwrite].
  - first [apply Hopen|apply Hwrite].
Qed.
End Sink.

#[local] Instance sample_host : Host := {|
  fputs_ret := fun _ _ _ => 1%Z;
  open_ret := fun _ _ _ => 3%Z;
  write_ret := fun _ _ _ => 2%Z
|}.

Lemma show_output_file_witness :
  exists w' fd ret,
    @_show_output_pstring total_allocator c_locale sample_host (created (lit "text"))
      (put_output OUTPUT_FILE (put_output_file (Some (lit "out")) false (initial_state mem0 None))) = Ok (tt, w') /\
    events w' = [] ++ [EvOpen (lit "out") false fd; EvWrite fd (lit "text") ret] /\
    output_fd w' = fd /\ doc w' = None /\ (0 <= ret)%Z.
Proof.
  apply (@show_output_file_correct total_allocator c_locale sample_host total_allocator_total
           (created (lit "text")) (lit "text") (lit "text") (lit "out")
           (put_output OUTPUT_FILE (put_output_file (Some (lit "out")) false (initial_state mem0 None))));
    try done; nz_lit.
Defined.
