(* ===== verification/Main.v ===== *)
(** Main: the run of the program (src/src/procenv.c): init, cleanup, dump and
    main, on top of all the other components.

    The command line is what [getopt_long (3)] makes of it: a list of options
    and the arguments after them.  The loop over the options is also a
    transition system, [step], for the properties of all its runs. *)
From S2P Require Import Prelude Memory PrList Locale PString StringUtil Encode Output OutputSpec Document Json Crumb Xml Util Affinity Prints Display Format Platform Process Report Signals Terminal Ranges Runtime NetCache Network Usage Options Sink.

(** An option as [getopt_long] returns it: 0 with the name of a long option
    and its argument, or a character. *)
Inductive cli_option : Type :=
| OptLong (name : bytes) (optarg : bytes)
| OptChar (c : Z).

(** The locals and the globals of main that its loop changes. *)
Record mstate : Type := mk_mstate {
  done : bool;
  reexec : bool;
  the_globals : globals
}.

(** How a run ends: [exit (EXIT_SUCCESS)] or [execvp] of the arguments. *)
Inductive ending : Type :=
| Exited
| Executed (args : list (option bytes)).

(** What is left of the environment of the program; [op_init] and
    [op_cleanup] are operations of the driver. *)
Class Environment : Type := {
  op_init : option (prog ostate unit);
  op_cleanup : option (prog ostate unit);
  op_get_io_priorities : option (prog ostate unit);
  atexit_fails : bool;
  execvp_works : list (option bytes) -> bool;
  PACKAGE_URL : bytes
}.

Section Main.
Context `{Allocator} `{Locale} `{Package} `{Host} `{Util.System} `{Headers} `{Driver} `{Start}
  `{Collation} `{Identity} `{Machine} `{Signals} `{Terminal} `{Clock} `{Threads} `{Files}
  `{Personality} `{Network} `{Environment}.

(** ** The start and the end *)
Definition save_locale : prog ostate unit :=
  match setlocale LC_ALL (Some []) with
  | None => mret tt
  | Some value =>
    saved_locale ← Output.strdup value;
    match saved_locale with
    | None => die "failed to allocate space for locale"
    | Some _ => if atexit_fails then die "failed to register exit handler" else mret tt
    end
  end.

Definition init : prog ostate globals :=
  run_op op_init;;
  save_locale;;
  handle_indent_char;;
  uts ← get_uname;
  user ← get_user_info;
  misc ← get_misc;
  let priority := get_priorities in
  run_op op_get_io_priorities;;
  mret (mk_globals user misc priority uts).

Definition cleanup : prog ostate unit :=
  common_assert;;
  d ← gets doc;
  assert_ (bool_decide (is_Some d)) "doc";;
  tty_fd ← gets user_tty_fd;
  log (EvClose tty_fd);;
  output_finalise;;
  modify (set_doc None);;
  run_op op_cleanup.

(** [argv[0]], the name of the program. *)
Definition program_name : bytes := default [] (head argvp).

(** ** All the sections *)
Definition dump_sections (g : globals) : list (prog ostate unit) :=
  [ show_meta; show_arguments; show_capabilities; show_cgroups; show_clocks; show_compiler;
    show_confstrs; show_cpu (priority g); show_env; show_fds; show_libc; show_libs; show_rlimits;
    show_locale; show_memory; show_msg_queues; show_misc (misc g); show_mounts SHOW_ALL;
    show_namespaces; show_network; show_oom; show_platform; show_proc (user g); show_ranges;
    show_rusage; show_semaphores; show_shared_mem; show_signals; show_sizeof;
    show_stat program_name; show_sysconf; show_threads; show_time; show_timezone; show_tty_attrs;
    show_uname (uts g) ].

Definition dump (g : globals) : prog ostate unit :=
  master_header;;
  for_each (dump_sections g) (fun section => section);;
  master_footer.

(** ** The options *)
Definition char_of (s : string) : Z := default 0%Z (head (lit s)).

(** ** The tables for getopt_long *)

(** The characters that are options; none takes an argument. *)
Definition short_options : bytes := lit "aAbBcCdeEfFghijklLmMnNopPqrsStTuUvwxyYz".

(** The names, whether they take an argument, and the character they stand
    for; 0 for the options that change a setting. *)
Definition long_options : list (bytes * bool * Z) :=
  [ (lit "meta", false, char_of "a"); (lit "arguments", false, char_of "A"); (lit "libs", false, char_of "b");
    (lit "libc", false, char_of "B"); (lit "cgroups", false, char_of "c"); (lit "cpu", false, char_of "C");
    (lit "compiler", false, char_of "d"); (lit "crumb-separator", true, 0%Z);
    (lit "environment", false, char_of "e"); (lit "semaphores", false, char_of "E");
    (lit "fds", false, char_of "f"); (lit "namespaces", false, char_of "F");
    (lit "sizeof", false, char_of "g"); (lit "help", false, char_of "h"); (lit "misc", false, char_of "i");
    (lit "uname", false, char_of "j"); (lit "clocks", false, char_of "k"); (lit "limits", false, char_of "l");
    (lit "locale", false, char_of "L"); (lit "mounts", false, char_of "m");
    (lit "message-queues", false, char_of "M"); (lit "confstr", false, char_of "n");
    (lit "network", false, char_of "N"); (lit "oom", false, char_of "o"); (lit "process", false, char_of "p");
    (lit "platform", false, char_of "P"); (lit "time", false, char_of "q");
    (lit "ranges", false, char_of "r"); (lit "signals", false, char_of "s");
    (lit "shared-memory", false, char_of "S"); (lit "tty", false, char_of "t");
    (lit "threads", false, char_of "T"); (lit "stat", false, char_of "u"); (lit "rusage", false, char_of "U");
    (lit "version", false, char_of "v"); (lit "capabilities", false, char_of "w");
    (lit "pathconf", false, char_of "x"); (lit "sysconf", false, char_of "y");
    (lit "memory", false, char_of "Y"); (lit "timezone", false, char_of "z"); (lit "exec", false, 0%Z);
    (lit "file", true, 0%Z); (lit "file-append", false, 0%Z); (lit "format", true, 0%Z);
    (lit "indent", true, 0%Z); (lit "indent-char", true, 0%Z); (lit "output", true, 0%Z);
    (lit "separator", true, 0%Z)].

(** ** The display options *)

(** The display options whose functions only display. *)
Definition displays (g : globals) : list (Z * prog ostate unit) :=
  [ (char_of "a", show_meta); (char_of "A", show_arguments); (char_of "b", show_libs);
    (char_of "B", show_libc); (char_of "c", show_cgroups); (char_of "C", show_cpu (priority g));
    (char_of "d", show_compiler); (char_of "e", show_env); (char_of "E", show_semaphores);
    (char_of "f", show_fds); (char_of "F", show_namespaces); (char_of "g", show_sizeof);
    (char_of "j", show_uname (uts g)); (char_of "k", show_clocks); (char_of "l", show_rlimits);
    (char_of "L", show_locale); (char_of "m", show_mounts SHOW_MOUNTS);
    (char_of "M", show_msg_queues); (char_of "n", show_confstrs); (char_of "N", show_network);
    (char_of "o", show_oom); (char_of "P", show_platform); (char_of "q", show_time);
    (char_of "r", show_ranges); (char_of "s", show_signals); (char_of "S", show_shared_mem);
    (char_of "t", show_tty_attrs); (char_of "T", show_threads); (char_of "u", show_stat program_name);
    (char_of "U", show_rusage); (char_of "v", show_version); (char_of "w", show_capabilities);
    (char_of "x", show_mounts SHOW_PATHCONF); (char_of "y", show_sysconf);
    (char_of "Y", show_memory); (char_of "z", show_timezone) ].

Fixpoint find_display (table : list (Z * prog ostate unit)) (c : Z) : option (prog ostate unit) :=
  match table with
  | [] => None
  | (c', m) :: table' => if Z.eqb c c' then Some m else find_display table' c
  end.

(** The cases of the switch for characters; a character without a case does
    nothing. *)
Definition display_option (c : Z) (g : globals) : prog ostate globals :=
  if Z.eqb c (char_of "h") then usage PACKAGE_URL;; mret g
  else if Z.eqb c (char_of "i") then
    uts ← get_uname;
    user ← get_user_info;
    misc ← get_misc;
    show_misc misc;;
    mret (mk_globals user misc (priority g) uts)
  else if Z.eqb c (char_of "p") then
    misc ← get_misc;
    show_proc (user g);;
    mret (mk_globals (user g) misc (priority g) (uts g))
  else if Z.eqb c (char_of "?") then die "invalid option specified"
  else match find_display (displays g) c with
       | Some m => m;; mret g
       | None => mret g
       end.

Definition is_tab (optarg : bytes) : bool := Z.eqb (strcmp optarg (BACKSLASH :: lit "t")) 0.
Definition names (name : bytes) (s : string) : bool := Z.eqb (strcmp (lit s) name) 0.

(** The options without a character. *)
Definition set_option (name optarg : bytes) (m : mstate) : prog ostate mstate :=
  (if done m && negb (names name "exec") then
     die "Must specify non-display options before display options"
   else mret tt);;
  m' ← (if names name "output" then set_output_value optarg;; mret m
        else if names name "file" then
          set_output_value_raw OUTPUT_FILE;; set_output_file (Some optarg);; mret m
        else if names name "file-append" then set_output_file_append;; mret m
        else if names name "exec" then mret (mk_mstate (done m) true (the_globals m))
        else if names name "format" then set_output_format optarg;; mret m
        else if names name "indent" then
          n ← pure (atoi optarg);
          set_indent_amount n;;
          a ← get_indent_amount;
          if Z.leb a 0 then die "cannot specify indent <= 0" else mret m
        else if names name "indent-char" then
          set_indent_char (Some (if is_tab optarg then [TAB] else optarg));;
          handle_indent_char;;
          mret m
        else if names name "separator" then
          set_text_separator (if is_tab optarg then [TAB] else optarg);; mret m
        else if names name "crumb-separator" then
          set_crumb_separator (Some (if is_tab optarg then [TAB] else optarg));; mret m
        else mret m);
  reset_indent;;
  mret m'.

Definition option_step (o : cli_option) (m : mstate) : prog ostate mstate :=
  match o with
  | OptLong name optarg => set_option name optarg m
  | OptChar c =>
    master_header;;
    g ← display_option c (the_globals m);
    mret (mk_mstate true (reexec m) g)
  end.

Fixpoint options_loop (os : list cli_option) (m : mstate) : prog ostate mstate :=
  match os with
  | [] => mret m
  | o :: os' => m' ← option_step o m; options_loop os' m'
  end.

(** ** The end of main *)
Definition chomp_doc : prog ostate unit :=
  wide ← gets wide_indent_char;
  on_doc (fun d => match d with
                   | Some d => d' ← pure (pstring_chomp wide d); mret (Some d')
                   | None => abort "str"
                   end).

Definition compress_doc : prog ostate unit :=
  wide ← gets wide_indent_char;
  on_doc (fun d => match d with
                   | Some d => d' ← pstring_compress wide d; mret (Some d')
                   | None => ub "null document"
                   end).

Definition markup_format (f : OutputFormat) : bool :=
  bool_decide (f = OUTPUT_FORMAT_XML) || bool_decide (f = OUTPUT_FORMAT_JSON).

Definition show_document : prog ostate unit :=
  d ← gets doc;
  match d with Some d => _show_output_pstring d | None => abort "pstr" end.

(** The document of the display options. *)
Definition close_document (m : mstate) : prog ostate unit :=
  if done m then
    common_assert;;
    master_footer;;
    chomp_doc;;
    f ← gets output_format;
    if negb (markup_format f) then compress_doc else mret tt
  else mret tt.

(** What main does after the loop; [args] are the arguments that are not
    options, [env_args] those of PROCENV_EXEC. *)
Definition finish (m : mstate) (env_args : option (list (option bytes))) (args : list bytes)
  : prog ostate ending :=
  close_document m;;
  output_init;;
  (if reexec m && bool_decide (env_args = None) && bool_decide (args = []) then
     die "must specify at least one argument with '--exec'"
   else mret tt);;
  let exec_args := default (map Some args ++ [None]) env_args in
  (if negb (done m) then dump (the_globals m);; chomp_doc;; compress_doc else mret tt);;
  show_document;;
  cleanup;;
  if reexec m then
    if execvp_works exec_args then mret (Executed exec_args) else die "failed to re-exec"
  else mret Exited.

Definition main (os : list cli_option) (args : list bytes) : prog ostate ending :=
  d ← in_mem pstring_new;
  match d with
  | None => die "failed to allocate string"
  | Some d =>
    modify (set_doc (Some d));;
    env_args ← check_envvars getenv;
    g ← init;
    m ← options_loop os (mk_mstate false (bool_decide (is_Some env_args)) g);
    finish m env_args args
  end.
End Main.

(** ** The loop as a transition system

    What each option means, written down apart from the code: an effect on the
    globals of the output for each setting, and one transition for each kind of
    option, with the condition under which it is taken.  An option without a
    transition ends the program. *)
Record config : Type := mk_config {
  pending : list cli_option;
  locals : mstate;
  memory : ostate
}.

(** The long options that change a setting. *)
Definition setting_names : list bytes :=
  map lit ["output"; "file"; "file-append"; "exec"; "format"; "indent"; "indent-char"; "separator";
           "crumb-separator"]%string.

(** The two characters that stand for a tab. *)
Definition literal_arg (optarg : bytes) : bytes :=
  if bool_decide (optarg = [BACKSLASH; char_of "t"]) then [TAB] else optarg.

(** The comparison of two names that are known. *)
Ltac known_names_in E :=
  repeat match type of E with
  | context [names (lit ?a) ?b] =>
    let v := eval vm_compute in (names (lit a) b) in change (names (lit a) b) with v in E
  end.

Ltac known_names :=
  repeat match goal with
  | |- context [names (lit ?a) ?b] =>
    let v := eval vm_compute in (names (lit a) b) in change (names (lit a) b) with v
  end.

Section Steps.
Context `{Allocator} `{Locale} `{Package} `{Host} `{!Util.System} `{!Headers} `{!Driver} `{!Start}
  `{!Collation} `{!Identity} `{!Machine} `{!Signals} `{!Terminal} `{!Clock} `{!Threads} `{!Files}
  `{!Personality} `{!Network} `{!Environment}.

(** [setting name optarg w w']: the option makes [w] into [w']. *)
Inductive setting : bytes -> bytes -> ostate -> ostate -> Prop :=
| setting_output name o w :
    (name, o) ∈ output_map -> setting (lit "output") name w (put_output o w)
| setting_file path w :
    setting (lit "file") path w (put_output_file (Some path) (output_file_append w) (put_output OUTPUT_FILE w))
| setting_file_append arg w :
    setting (lit "file-append") arg w (put_output_file (output_file w) true w)
| setting_format name f w :
    (name, f) ∈ output_format_map -> setting (lit "format") name w (put_output_format f w)
| setting_indent arg n w :
    atoi arg = Ok n -> (0 < n)%Z -> setting (lit "indent") arg w (put_indent_amount n w)
| setting_indent_char arg w w1 wide :
    Output.strdup (literal_arg arg) w = Ok (Some (literal_arg arg), w1) ->
    mbs_decode (literal_arg arg) = Some [wide] ->
    setting (lit "indent-char") arg w (put_wide_indent_char wide (put_indent_char (Some (literal_arg arg)) w1))
| setting_separator arg w :
    setting (lit "separator") arg w (put_text_separator (literal_arg arg) w)
| setting_crumb_separator arg w w1 p :
    Output.strdup (literal_arg arg) w = Ok (p, w1) ->
    setting (lit "crumb-separator") arg w (put_crumb_separator p w1)
| setting_other name arg w : name ∉ setting_names -> setting name arg w w.

(** What a character does behind the header: [shows c g g' w w']. *)
Inductive shows (g : globals) : Z -> globals -> ostate -> ostate -> Prop :=
| shows_section c m w w' :
    (c, m) ∈ displays g -> m w = Ok (tt, w') -> shows g c g w w'
| shows_help w w' :
    usage PACKAGE_URL w = Ok (tt, w') -> shows g (char_of "h") g w w'
| shows_misc u us mi w w1 w2 w3 w' :
    get_uname w = Ok (u, w1) -> get_user_info w1 = Ok (us, w2) -> get_misc w2 = Ok (mi, w3) ->
    show_misc mi w3 = Ok (tt, w') ->
    shows g (char_of "i") (mk_globals us mi (priority g) u) w w'
| shows_process mi w w1 w' :
    get_misc w = Ok (mi, w1) -> show_proc (user g) w1 = Ok (tt, w') ->
    shows g (char_of "p") (mk_globals (user g) mi (priority g) (uts g)) w w'
| shows_nothing c w :
    c ∉ map fst (displays g) ++ map char_of ["h"; "i"; "p"; "?"]%string -> shows g c g w w.

Inductive step : config -> config -> Prop :=
| step_exec os optarg m w :
    step (mk_config (OptLong (lit "exec") optarg :: os) m w)
         (mk_config os (mk_mstate (done m) true (the_globals m)) (set_indent 0 w))
| step_setting os name optarg m w w' :
    name <> lit "exec" -> done m = false -> setting name optarg w w' ->
    step (mk_config (OptLong name optarg :: os) m w) (mk_config os m (set_indent 0 w'))
| step_display os c m w w1 g' w' :
    master_header w = Ok (tt, w1) -> shows (the_globals m) c g' w1 w' ->
    step (mk_config (OptChar c :: os) m w) (mk_config os (mk_mstate true (reexec m) g') w').

(** *** The code does what the transitions say *)
Lemma names_spec name s : names name s = true <-> name = lit s.
Proof.
  unfold names. rewrite Z.eqb_eq. split; [|intros ->; apply strcmp_same].
  by intros E%strcmp_zero.
Qed.

Lemma is_tab_spec optarg : (if is_tab optarg then [TAB] else optarg) = literal_arg optarg.
Proof.
  unfold is_tab, literal_arg. destruct (Z.eqb_spec (strcmp optarg (BACKSLASH :: lit "t")) 0) as [E|E].
  - by apply strcmp_zero in E as ->.
  - rewrite bool_decide_false; [done|]. intros ->. by destruct E.
Qed.

Lemma map_find_spec {A} (tbl : list (bytes * A)) name v :
  NoDup (map fst tbl) -> map_find tbl name = Some v <-> (name, v) ∈ tbl.
Proof.
  induction tbl as [|[n x] tbl IH]; cbn [map map_find]; [set_solver|].
  intros [Hn Hnd]%NoDup_cons. destruct (Z.eqb_spec (strcmp name n) 0) as [E|E].
  - apply strcmp_zero in E as ->. split; [intros [= ->]; left|].
    intros [[= ->]|Hin]%elem_of_cons; [done|]. destruct Hn. by apply (list_elem_of_fmap_2 fst) in Hin.
  - rewrite IH by done. split; [by right|]. intros [[= -> ->]|Hin]%elem_of_cons; [|done].
    destruct E. apply strcmp_same.
Qed.

Lemma find_display_spec table c m :
  NoDup (map fst table) -> find_display table c = Some m <-> (c, m) ∈ table.
Proof.
  induction table as [|[c' m'] table IH]; cbn [map find_display]; [set_solver|].
  intros [Hn Hnd]%NoDup_cons. destruct (Z.eqb_spec c c') as [->|E].
  - split; [intros [= ->]; left|]. intros [[= ->]|Hin]%elem_of_cons; [done|].
    destruct Hn. by apply (list_elem_of_fmap_2 fst) in Hin.
  - rewrite IH by done. split; [by right|]. by intros [[= -> ->]|Hin]%elem_of_cons.
Qed.

Lemma find_display_none table c : find_display table c = None <-> c ∉ map fst table.
Proof.
  induction table as [|[c' m'] table IH]; cbn [map find_display]; [set_solver|].
  rewrite not_elem_of_cons. destruct (Z.eqb_spec c c'); [naive_solver|]. naive_solver.
Qed.

Lemma displays_nodup g : NoDup (map fst (displays g)).
Proof. refine (bool_decide_unpack _ _). by vm_compute. Qed.

Lemma setting_taken name optarg w w' :
  setting name optarg w w' ->
  forall m, done m = false -> name <> lit "exec" -> set_option name optarg m w = Ok (m, set_indent 0 w').
Proof.
  intros Hs m Hm Hne. unfold set_option. rewrite Hm. cbn [andb]. erewrite prog_bind_ok by reflexivity.
  destruct Hs as [name o w Hin|path w|arg w|name f w Hin|arg n w Hn Hpos|arg w w1 wide Hdup Hdec
                 |arg w|arg w w1 p Hdup|name arg w Hout]; known_names; cbv iota.
  - apply map_find_spec in Hin; [|refine (bool_decide_unpack _ _); by vm_compute].
    unfold set_output_value. by rewrite Hin.
  - done.
  - done.
  - apply map_find_spec in Hin; [|refine (bool_decide_unpack _ _); by vm_compute].
    unfold set_output_format. by rewrite Hin.
  - erewrite prog_bind_ok; [reflexivity|]. erewrite prog_bind_ok; [|by rewrite Hn].
    do 2 (erewrite prog_bind_ok by reflexivity). cbn [indent_amount put_indent_amount].
    by rewrite (proj2 (Z.leb_gt n 0)).
  - rewrite is_tab_spec. erewrite prog_bind_ok; [reflexivity|].
    erewrite prog_bind_ok; [|unfold set_indent_char; step_with Hdup; reflexivity].
    erewrite prog_bind_ok; [reflexivity|]. unfold handle_indent_char, the_indent_char.
    run_prim. cbn [indent_char put_indent_char]. by rewrite Hdec.
  - by rewrite is_tab_spec.
  - rewrite is_tab_spec. erewrite prog_bind_ok; [reflexivity|]. erewrite prog_bind_ok; [reflexivity|].
    unfold set_crumb_separator. by step_with Hdup.
  - assert (forall s, lit s ∈ setting_names -> names name s = false) as Hf.
    { intros s Hs. destruct (names name s) eqn:E; [|done]. by apply names_spec in E as ->. }
    rewrite !Hf by (unfold setting_names; set_solver). done.
Qed.

Lemma strdup_ok s w p w1 : Output.strdup s w = Ok (p, w1) -> p = None \/ p = Some s.
Proof.
  unfold Output.strdup. intros E. apply prog_bind_inv in E as (q & w2 & _ & E).
  injection E as <- _. destruct q; auto.
Qed.

Lemma setting_only name optarg m w m' w' :
  set_option name optarg m w = Ok (m', w') -> name <> lit "exec" ->
  done m = false /\ m' = m /\ exists w1, setting name optarg w w1 /\ w' = set_indent 0 w1.
Proof.
  unfold set_option. intros E Hne. apply prog_bind_inv in E as ([] & w0 & Eg & E).
  assert (names name "exec" = false) as Hx.
  { destruct (names name "exec") eqn:Hn; [|done]. by apply names_spec in Hn. }
  rewrite Hx in Eg, E. rewrite andb_true_r in Eg. destruct (done m) eqn:Hd; [done|]. injection Eg as <-.
  apply prog_bind_inv in E as (m1 & w1 & E & E1). injection E1 as <- <-.
  split; [done|]. enough (m1 = m /\ setting name optarg w w1) as [-> Hs] by eauto.
  destruct (names name "output") eqn:N1; [apply names_spec in N1 as ->|].
  { apply prog_bind_inv in E as ([] & w2 & E2 & E). injection E as <- <-. split; [done|].
    unfold set_output_value in E2. destruct (map_find output_map optarg) as [o|] eqn:Ef; [|done].
    injection E2 as <-. constructor. apply map_find_spec; [|done]. refine (bool_decide_unpack _ _). by vm_compute. }
  destruct (names name "file") eqn:N2; [apply names_spec in N2 as ->|].
  { injection E as <- <-. split; [done|]. constructor. }
  destruct (names name "file-append") eqn:N3; [apply names_spec in N3 as ->|].
  { injection E as <- <-. split; [done|]. constructor. }
  destruct (names name "format") eqn:N4; [apply names_spec in N4 as ->|].
  { apply prog_bind_inv in E as ([] & w2 & E2 & E). injection E as <- <-. split; [done|].
    unfold set_output_format in E2. destruct (map_find output_format_map optarg) as [o|] eqn:Ef; [|done].
    injection E2 as <-. constructor. apply map_find_spec; [|done]. refine (bool_decide_unpack _ _). by vm_compute. }
  destruct (names name "indent") eqn:N5; [apply names_spec in N5 as ->|].
  { apply prog_bind_inv in E as (n & w2 & E2 & E). unfold pure in E2.
    destruct (atoi optarg) as [n'| | | | |] eqn:Ea; try done. injection E2 as -> ->.
    revert E. do 2 (erewrite prog_bind_ok by reflexivity). cbn [indent_amount put_indent_amount].
    destruct (Z.leb_spec n 0); [done|]. intros [= <- <-]. split; [done|]. by constructor. }
  rewrite !is_tab_spec in E.
  destruct (names name "indent-char") eqn:N6; [apply names_spec in N6 as ->|].
  { apply prog_bind_inv in E as ([] & w2 & E2 & E). apply prog_bind_inv in E2 as (p & w3 & E2 & Ep).
    injection Ep as <-. apply prog_bind_inv in E as ([] & w4 & E4 & E). injection E as <- <-. split; [done|].
    unfold handle_indent_char, the_indent_char in E4. revert E4. run_prim. cbn [indent_char put_indent_char].
    destruct p as [c|]; [|done].
    destruct (strdup_ok _ _ _ _ E2) as [|[= ->]]; [done|].
    destruct (mbs_decode (literal_arg optarg)) as [[|wc [|]]|] eqn:Ec; try done.
    intros [= <-]. by constructor. }
  destruct (names name "separator") eqn:N7; [apply names_spec in N7 as ->|].
  { injection E as <- <-. split; [done|]. constructor. }
  destruct (names name "crumb-separator") eqn:N8; [apply names_spec in N8 as ->|].
  { apply prog_bind_inv in E as ([] & w2 & E2 & E). injection E as <- <-. split; [done|].
    apply prog_bind_inv in E2 as (p & w3 & E2 & Ep). injection Ep as <-. by constructor. }
  injection E as <- <-. split; [done|]. constructor. intros Hin. unfold setting_names in Hin. cbn [map] in Hin.
  rewrite !elem_of_cons in Hin.
  repeat match goal with H : names _ _ = false |- _ => rewrite <- not_true_iff_false, names_spec in H end.
  destruct Hin as [Hin|[Hin|[Hin|[Hin|[Hin|[Hin|[Hin|[Hin|[Hin|Hin]]]]]]]]];
    [exact (N1 Hin)|exact (N2 Hin)|exact (N3 Hin)|exact (Hx Hin)|exact (N4 Hin)|exact (N5 Hin)|exact (N6 Hin)
    |exact (N7 Hin)|exact (N8 Hin)|by apply not_elem_of_nil in Hin].
Qed.

Lemma display_option_table g c m :
  find_display (displays g) c = Some m -> display_option c g = (m;; mret g).
Proof.
  intros E. unfold display_option. rewrite E.
  assert (forall s, find_display (displays g) (char_of s) = None -> Z.eqb c (char_of s) = false) as Hne.
  { intros s Hs. apply Z.eqb_neq. intros ->. congruence. }
  rewrite !Hne by reflexivity. done.
Qed.

Lemma display_shows c g w g' w' :
  display_option c g w = Ok (g', w') <-> shows g c g' w w'.
Proof.
  split.
  - unfold display_option. destruct (Z.eqb_spec c (char_of "h")) as [->|Nh].
    { intros E. apply prog_bind_inv in E as ([] & w1 & E1 & E). injection E as <- <-. exact (shows_help g w w1 E1). }
    destruct (Z.eqb_spec c (char_of "i")) as [->|Ni].
    { intros E. apply prog_bind_inv in E as (u & w1 & E1 & E). apply prog_bind_inv in E as (us & w2 & E2 & E).
      apply prog_bind_inv in E as (mi & w3 & E3 & E). apply prog_bind_inv in E as ([] & w4 & E4 & E).
      injection E as <- <-. exact (shows_misc g u us mi w w1 w2 w3 w4 E1 E2 E3 E4). }
    destruct (Z.eqb_spec c (char_of "p")) as [->|Np].
    { intros E. apply prog_bind_inv in E as (mi & w3 & E3 & E). apply prog_bind_inv in E as ([] & w4 & E4 & E).
      injection E as <- <-. exact (shows_process g mi w w3 w4 E3 E4). }
    destruct (Z.eqb_spec c (char_of "?")) as [->|Nq]; [done|].
    destruct (find_display (displays g) c) as [m|] eqn:Ef; intros E.
    + apply prog_bind_inv in E as ([] & w1 & E1 & E). injection E as <- <-.
      apply (shows_section _ _ m); [|done]. by apply find_display_spec; [apply displays_nodup|].
    + injection E as <- <-. apply shows_nothing. apply find_display_none in Ef. rewrite elem_of_app.
      intros [?|Hin]; [done|]. cbn [map] in Hin. rewrite !elem_of_cons in Hin.
      by destruct Hin as [?|[?|[?|[?|Hin%not_elem_of_nil]]]].
  - intros Hs. destruct Hs as [c m w w' Hin E|w w' E|u us mi w w1 w2 w3 w' E1 E2 E3 E|mi w w1 w' E1 E|c w Hc].
    + apply find_display_spec in Hin; [|apply displays_nodup].
      rewrite (display_option_table g c m Hin). by step_with E.
    + unfold display_option. rewrite Z.eqb_refl. by step_with E.
    + unfold display_option. change (Z.eqb (char_of "i") (char_of "h")) with false. rewrite Z.eqb_refl.
      step_with E1. step_with E2. step_with E3. by step_with E.
    + unfold display_option. change (Z.eqb (char_of "p") (char_of "h")) with false.
      change (Z.eqb (char_of "p") (char_of "i")) with false. rewrite Z.eqb_refl.
      step_with E1. by step_with E.
    + rewrite elem_of_app in Hc. unfold display_option.
      assert (forall s, char_of s ∈ map char_of ["h"; "i"; "p"; "?"]%string -> Z.eqb c (char_of s) = false) as Hne.
      { intros s Hs. apply Z.eqb_neq. intros ->. tauto. }
      rewrite !Hne by (cbn [map]; set_solver).
      assert (find_display (displays g) c = None) as ->; [|done]. apply find_display_none. tauto.
Qed.

(** One option. *)
Lemma option_step_spec o os m w m' w' :
  option_step o m w = Ok (m', w') <-> step (mk_config (o :: os) m w) (mk_config os m' w').
Proof.
  split.
  - destruct o as [name optarg|c]; cbn [option_step]; intros E.
    + destruct (decide (name = lit "exec")) as [->|Hne].
      * unfold set_option in E. known_names_in E.
        rewrite andb_false_r in E. injection E as <- <-. constructor.
      * destruct (setting_only _ _ _ _ _ _ E Hne) as (Hd & -> & w1 & Hs & ->). by constructor.
    + apply prog_bind_inv in E as ([] & w1 & E1 & E). apply prog_bind_inv in E as (g & w2 & E2 & E).
      injection E as <- <-. econstructor; [done|]. by apply display_shows.
  - intros Hs. inversion Hs as [os' optarg m1 w1|os' name optarg m1 w1 w2 Hne Hd He|os' c m1 w1 w2 g' w3 E1 He]; subst;
      cbn [option_step].
    + unfold set_option. known_names. by rewrite andb_false_r.
    + by apply setting_taken.
    + step_with E1. apply display_shows in He. by step_with He.
Qed.

Lemma loop_reaches os m w m' w' :
  options_loop os m w = Ok (m', w') -> rtc step (mk_config os m w) (mk_config [] m' w').
Proof.
  revert m w. induction os as [|o os IH]; intros m w E; [injection E as <- <-; apply rtc_refl|].
  apply prog_bind_inv in E as (m1 & w1 & E1 & E). eapply rtc_l; [by apply option_step_spec|]. by apply IH.
Qed.

(** C10: the loop of main ends exactly in the states that the transitions reach
    with no option left.  A setting is taken before the first display option
    only, has its effect on the globals and puts the indent back to 0; [--exec]
    is taken at any time; a display option writes the header, runs the function
    of its table entry ([-i] and [-p] query the globals they show again) and
    marks the run as done; nothing else is taken: with another option, a late
    setting or a value that is refused, the loop does not return. *)
Theorem options_loop_steps os m w m' w' :
  options_loop os m w = Ok (m', w') <-> rtc step (mk_config os m w) (mk_config [] m' w').
Proof.
  split; [apply loop_reaches|].
  intros Hr. remember (mk_config os m w) as c eqn:Ec. remember (mk_config [] m' w') as c' eqn:Ec'.
  revert os m w Ec. induction Hr as [c|c1 [os2 m2 w2] c3 Hs Hr IH]; intros os m w ->.
  - by injection Ec' as -> -> ->.
  - destruct os as [|o os]; [by inversion Hs|].
    assert (os2 = os) as -> by by inversion Hs.
    apply option_step_spec in Hs. cbn [options_loop]. step_with Hs. by apply IH.
Qed.

(** An option that may come after a display option. *)
Definition after_display (o : cli_option) : Prop :=
  match o with OptLong name _ => names name "exec" = true | OptChar _ => True end.

Lemma set_option_done name optarg m w m' w' :
  set_option name optarg m w = Ok (m', w') ->
  done m' = done m /\ (done m = true -> names name "exec" = true).
Proof.
  unfold set_option. intros E. apply prog_bind_inv in E as ([] & w1 & E1 & E).
  apply prog_bind_inv in E as (m1 & w2 & E2 & E). apply prog_bind_inv in E as ([] & w3 & _ & E).
  injection E as <- <-. split.
  - revert E2. generalize (names name "output") (names name "file") (names name "file-append")
      (names name "exec") (names name "format") (names name "indent") (names name "indent-char")
      (names name "separator") (names name "crumb-separator").
    intros b1 b2 b3 b4 b5 b6 b7 b8 b9 E2. 
    repeat match type of E2 with
    | (if ?b then _ else _) _ = _ => destruct b
    | (_ ≫= _) _ = Ok _ => apply prog_bind_inv in E2 as (? & ? & _ & E2)
    | mret _ _ = Ok _ => injection E2 as <- <-; reflexivity
    | die _ _ = Ok _ => done
    end.
  - intros Hd. rewrite Hd in E1. by destruct (names name "exec").
Qed.

Lemma option_step_done o m w m' w' :
  option_step o m w = Ok (m', w') -> (done m = true -> after_display o) /\
  (done m = true \/ (exists c, o = OptChar c) -> done m' = true).
Proof.
  destruct o as [name optarg|c]; cbn [option_step after_display]; intros E.
  - apply set_option_done in E as [Hd He]. split; [done|]. rewrite Hd.
    intros [Hm|[c Hc]]; [done|discriminate].
  - apply prog_bind_inv in E as ([] & w1 & _ & E). apply prog_bind_inv in E as (g & w2 & _ & E).
    injection E as <- <-. done.
Qed.

(** Once an option has been displayed, only [--exec] is taken among the settings
    that are left. *)
Lemma loop_after_display os m w m' w' :
  options_loop os m w = Ok (m', w') -> done m = true -> Forall after_display os /\ done m' = true.
Proof.
  revert m w. induction os as [|o os IH]; intros m w E Hd; [injection E as <- <-; by split|].
  apply prog_bind_inv in E as (m1 & w1 & E1 & E). destruct (option_step_done _ _ _ _ _ E1) as [Ho Hd1].
  destruct (IH m1 w1 E) as [Hos Hd']; [by apply Hd1; left|]. split; [|done]. constructor; [by apply Ho|done].
Qed.

(** C11: in every run whose loop reaches its end, the options that set something
    come before the first display option: the ones after it are display
    options or [--exec].  (A run that breaks this rule dies.) *)
Theorem settings_precede_displays (l1 l2 : list cli_option) c m w m' w' :
  options_loop (l1 ++ OptChar c :: l2) m w = Ok (m', w') ->
  Forall after_display l2 /\ done m' = true.
Proof.
  revert m w. induction l1 as [|o l1 IH]; intros m w E; apply prog_bind_inv in E as (m1 & w1 & E1 & E).
  - destruct (option_step_done _ _ _ _ _ E1) as [_ Hd].
    apply (loop_after_display _ _ _ _ _ E), Hd. right. by eexists.
  - by eapply IH.
Qed.
End Steps.

(** ** What init finds *)
Section Starting.
Context `{!Host} `{!Identity} `{!Util.System} `{!Driver} `{!Machine} `{!Start} `{!Terminal} `{!Personality}.

Definition start_tty : Z := if Z.ltb (open_rdwr ctermid) 0 then STDIN_FILENO else open_rdwr ctermid.

(** The globals, when every query that must succeed does. *)
Definition start_globals : option globals :=
  uts ← uname;
  '(ruid, e, s) ← getresuid;
  '(rgid, eg, sg) ← getresgid;
  pw ← getpwuid ruid;
  d ← getcwd;
  mret (mk_globals
    (mk_user pw driver_proc_name ctermid (mk_user_ids getpid getpgrp getsid) getppid getlogin
       (tcgetpgrp start_tty) ruid e s rgid eg sg)
    (mk_misc d driver_root umask_now) get_priorities uts).

End Starting.

(** ** What the system answers about a whole run *)
Section Typed.
Context `{AllocTotal} `{LocaleLaws} (cfg : settings).
Context `{!Package} `{!Host} `{!Util.System} `{!Headers} `{!Driver} `{!Start} `{!Collation}
  `{!Identity} `{!Machine} `{!Signals} `{!Terminal} `{!Clock} `{!Threads} `{!Files}
  `{!Personality} `{!Network} `{!Environment}.

(** Every string of the system can be shown, and every query that must succeed
    does. *)
Class ProgramAnswers (g : globals) : Prop := {
  pa_driver :: DriverTyped cfg;
  pa_machine :: MachineText cfg;
  pa_collation :: CollationLaws;
  pa_process :: ProcessAnswers cfg (user g);
  pa_terminal :: TerminalAnswers cfg;
  pa_stat :: StatAnswers cfg program_name;
  pa_misc :: MiscAnswers cfg (misc g);
  pa_network :: NetworkAnswers cfg;
  pa_package : Forall (showable cfg) [PACKAGE_NAME; PACKAGE_VERSION; PACKAGE_STRING];
  pa_driver_names : sayable cfg driver_name [] /\ sayable cfg driver_file [];
  pa_arguments : Forall (showable cfg) argvp;
  pa_count : (Z.of_nat (length argvp) <= INT_MAX)%Z;
  pa_environ : Forall (fun s => exists name value, split_at EQUALS s = Some (name, value) /\
                                  nameable cfg name /\ showable cfg value) environ;
  pa_uname : Forall (showable cfg)
               [sysname (uts g); nodename (uts g); release (uts g); version (uts g); machine (uts g);
                domainname (uts g)];
  pa_signals : is_Some sigprocmask /\ forall i s, strsignal i = Some s -> showable cfg s;
  pa_time : exists ts t s, op_get_time = Some (Some ts) /\ localtime (tv_sec ts) = Some t /\
              asctime_r t = Some (s ++ [NL]) /\ showable cfg s;
  pa_threads : forall sched p, schedparam = Some (sched, p) -> sched ∈ [SCHED_OTHER; SCHED_FIFO; SCHED_RR]
}.

Context (g : globals) `{!ProgramAnswers g}.

Ltac deeper tac := eapply titled_le; [tac|unfold DISPLAY_DEPTH; lia].

Lemma display_meta : titled cfg (lit "meta") DISPLAY_DEPTH show_meta.
Proof. deeper ltac:(apply titled_show_meta; [exact (pa_package (g := g))|exact (proj1 (pa_driver_names (g := g)))|exact (proj2 (pa_driver_names (g := g)))]). Qed.

Lemma display_arguments : titled cfg (lit "arguments") DISPLAY_DEPTH show_arguments.
Proof. deeper ltac:(apply titled_show_arguments; [exact (pa_arguments (g := g))|exact (pa_count (g := g))]). Qed.

Lemma display_env : titled cfg (lit "environment") DISPLAY_DEPTH show_env.
Proof. deeper ltac:(exact (titled_show_env cfg (pa_environ (g := g)))). Qed.

Lemma display_proc : titled cfg (lit "process") DISPLAY_DEPTH (show_proc (user g)).
Proof. deeper ltac:(exact (titled_show_proc cfg (user g))). Qed.

Lemma display_uname : titled cfg (lit "uname") DISPLAY_DEPTH (show_uname (uts g)).
Proof. deeper ltac:(exact (titled_show_uname cfg (uts g) (pa_uname (g := g)))). Qed.

Lemma display_version : titled cfg (lit "version") DISPLAY_DEPTH show_version.
Proof.
  pose proof (pa_package (g := g)) as Hp. rewrite !Forall_cons in Hp. destruct Hp as (Hn & Hv & _).
  deeper ltac:(by apply titled_show_version).
Qed.

Lemma display_ranges : titled cfg (lit "ranges") DISPLAY_DEPTH show_ranges.
Proof. deeper ltac:(exact (titled_show_ranges cfg)). Qed.

Lemma display_signals : titled cfg (lit "signals") DISPLAY_DEPTH show_signals.
Proof. deeper ltac:(exact (titled_show_signals cfg (proj1 (pa_signals (g := g))) (proj2 (pa_signals (g := g))))). Qed.

Lemma display_time : titled cfg (lit "time") DISPLAY_DEPTH show_time.
Proof. destruct (pa_time (g := g)) as (ts & t & s & Hts & Ht & Ha & Hs). by apply (titled_show_time cfg ts t s). Qed.

Lemma display_threads : titled cfg (lit "threads") DISPLAY_DEPTH show_threads.
Proof. exact (titled_show_threads cfg (pa_threads (g := g))). Qed.

(** The sections that are left to the driver. *)
Lemma display_driver_section name op :
  printable name = true -> name <> [] -> typed cfg CMembers DRIVER_DEPTH (run_op op) ->
  titled cfg name DISPLAY_DEPTH (header name;; run_op op;; footer).
Proof.
  intros Hp Hn Ho. apply titled_driver_section; [apply name_text; [by apply printable_text|done]|].
  eapply typed_le; [exact Ho|]. unfold DRIVER_DEPTH, DISPLAY_DEPTH. lia.
Qed.

Ltac driver_section := apply display_driver_section; [reflexivity|discriminate|typed_op].

Lemma display_capabilities : titled cfg (lit "capabilities") DISPLAY_DEPTH show_capabilities.
Proof. driver_section. Qed.
Lemma display_cgroups : titled cfg (lit "cgroups") DISPLAY_DEPTH show_cgroups.
Proof. driver_section. Qed.
Lemma display_clocks : titled cfg (lit "clocks") DISPLAY_DEPTH show_clocks.
Proof. driver_section. Qed.
Lemma display_confstrs : titled cfg (lit "confstr") DISPLAY_DEPTH show_confstrs.
Proof. driver_section. Qed.
Lemma display_rlimits : titled cfg (lit "limits") DISPLAY_DEPTH show_rlimits.
Proof. driver_section. Qed.
Lemma display_msg_queues : titled cfg (lit "message queues") DISPLAY_DEPTH show_msg_queues.
Proof. driver_section. Qed.
Lemma display_oom : titled cfg (lit "oom") DISPLAY_DEPTH show_oom.
Proof. driver_section. Qed.
Lemma display_semaphores : titled cfg (lit "semaphores") DISPLAY_DEPTH show_semaphores.
Proof. driver_section. Qed.
Lemma display_shared_mem : titled cfg (lit "shared memory") DISPLAY_DEPTH show_shared_mem.
Proof. driver_section. Qed.
Lemma display_timezone : titled cfg (lit "timezone") DISPLAY_DEPTH show_timezone.
Proof. driver_section. Qed.

(** *** The titles *)
Definition section_titles : list wstr :=
  [ lit "meta"; lit "arguments"; lit "capabilities"; lit "cgroups"; lit "clocks"; lit "compiler";
    lit "confstr"; lit "cpu"; lit "environment"; lit "file descriptors"; lit "libc";
    lit "libraries"; lit "limits"; lit "locale"; lit "memory"; lit "message queues"; lit "misc";
    lit "mounts"; lit "namespaces"; lit "network"; lit "oom"; lit "platform"; lit "process";
    lit "ranges"; lit "rusage"; lit "semaphores"; lit "shared memory"; lit "signals";
    lit "sizeof"; lit "stat"; lit "sysconf"; lit "threads"; lit "time"; lit "timezone";
    lit "tty"; lit "uname" ].

Definition display_titles : list (Z * wstr) :=
  [ (char_of "a", lit "meta"); (char_of "A", lit "arguments"); (char_of "b", lit "libraries");
    (char_of "B", lit "libc"); (char_of "c", lit "cgroups"); (char_of "C", lit "cpu");
    (char_of "d", lit "compiler"); (char_of "e", lit "environment");
    (char_of "E", lit "semaphores"); (char_of "f", lit "file descriptors");
    (char_of "F", lit "namespaces"); (char_of "g", lit "sizeof"); (char_of "j", lit "uname");
    (char_of "k", lit "clocks"); (char_of "l", lit "limits"); (char_of "L", lit "locale");
    (char_of "m", lit "mounts"); (char_of "M", lit "message queues");
    (char_of "n", lit "confstr"); (char_of "N", lit "network"); (char_of "o", lit "oom");
    (char_of "P", lit "platform"); (char_of "q", lit "time"); (char_of "r", lit "ranges");
    (char_of "s", lit "signals"); (char_of "S", lit "shared memory"); (char_of "t", lit "tty");
    (char_of "T", lit "threads"); (char_of "u", lit "stat"); (char_of "U", lit "rusage");
    (char_of "v", lit "version"); (char_of "w", lit "capabilities");
    (char_of "x", lit "pathconf"); (char_of "y", lit "sysconf"); (char_of "Y", lit "memory");
    (char_of "z", lit "timezone") ].

Lemma titled_sections : Forall2 (fun n m => titled cfg n DISPLAY_DEPTH m) section_titles (dump_sections g).
Proof.
  unfold section_titles, dump_sections.
  constructor; [exact (display_meta)|].
  constructor; [exact (display_arguments)|].
  constructor; [exact (display_capabilities)|].
  constructor; [exact (display_cgroups)|].
  constructor; [exact (display_clocks)|].
  constructor; [exact (titled_show_compiler cfg)|].
  constructor; [exact (display_confstrs)|].
  constructor; [exact (titled_show_cpu cfg _)|].
  constructor; [exact (display_env)|].
  constructor; [exact (titled_show_fds cfg)|].
  constructor; [exact (titled_show_libc cfg)|].
  constructor; [exact (titled_show_libs cfg)|].
  constructor; [exact (display_rlimits)|].
  constructor; [exact (titled_show_locale cfg)|].
  constructor; [exact (titled_show_memory cfg)|].
  constructor; [exact (display_msg_queues)|].
  constructor; [exact (titled_show_misc cfg _)|].
  constructor; [exact (titled_show_mounts cfg SHOW_ALL)|].
  constructor; [exact (titled_show_namespaces cfg)|].
  constructor; [exact (titled_show_network cfg)|].
  constructor; [exact (display_oom)|].
  constructor; [exact (titled_show_platform cfg)|].
  constructor; [exact (display_proc)|].
  constructor; [exact (display_ranges)|].
  constructor; [exact (titled_show_rusage cfg)|].
  constructor; [exact (display_semaphores)|].
  constructor; [exact (display_shared_mem)|].
  constructor; [exact (display_signals)|].
  constructor; [exact (titled_show_sizeof cfg)|].
  constructor; [exact (titled_show_stat cfg _)|].
  constructor; [exact (titled_show_sysconf cfg)|].
  constructor; [exact (display_threads)|].
  constructor; [exact (display_time)|].
  constructor; [exact (display_timezone)|].
  constructor; [exact (titled_show_tty_attrs cfg)|].
  constructor; [exact (display_uname)|].
  constructor.
Qed.

Lemma titled_displays :
  Forall2 (fun e e' => e.1 = e'.1 /\ titled cfg e.2 DISPLAY_DEPTH e'.2) display_titles (displays g).
Proof.
  unfold display_titles, displays.
  constructor; [exact (conj eq_refl (display_meta))|].
  constructor; [exact (conj eq_refl (display_arguments))|].
  constructor; [exact (conj eq_refl (titled_show_libs cfg))|].
  constructor; [exact (conj eq_refl (titled_show_libc cfg))|].
  constructor; [exact (conj eq_refl (display_cgroups))|].
  constructor; [exact (conj eq_refl (titled_show_cpu cfg _))|].
  constructor; [exact (conj eq_refl (titled_show_compiler cfg))|].
  constructor; [exact (conj eq_refl (display_env))|].
  constructor; [exact (conj eq_refl (display_semaphores))|].
  constructor; [exact (conj eq_refl (titled_show_fds cfg))|].
  constructor; [exact (conj eq_refl (titled_show_namespaces cfg))|].
  constructor; [exact (conj eq_refl (titled_show_sizeof cfg))|].
  constructor; [exact (conj eq_refl (display_uname))|].
  constructor; [exact (conj eq_refl (display_clocks))|].
  constructor; [exact (conj eq_refl (display_rlimits))|].
  constructor; [exact (conj eq_refl (titled_show_locale cfg))|].
  constructor; [exact (conj eq_refl (titled_show_mounts cfg SHOW_MOUNTS))|].
  constructor; [exact (conj eq_refl (display_msg_queues))|].
  constructor; [exact (conj eq_refl (display_confstrs))|].
  constructor; [exact (conj eq_refl (titled_show_network cfg))|].
  constructor; [exact (conj eq_refl (display_oom))|].
  constructor; [exact (conj eq_refl (titled_show_platform cfg))|].
  constructor; [exact (conj eq_refl (display_time))|].
  constructor; [exact (conj eq_refl (display_ranges))|].
  constructor; [exact (conj eq_refl (display_signals))|].
  constructor; [exact (conj eq_refl (display_shared_mem))|].
  constructor; [exact (conj eq_refl (titled_show_tty_attrs cfg))|].
  constructor; [exact (conj eq_refl (display_threads))|].
  constructor; [exact (conj eq_refl (titled_show_stat cfg _))|].
  constructor; [exact (conj eq_refl (titled_show_rusage cfg))|].
  constructor; [exact (conj eq_refl (display_version))|].
  constructor; [exact (conj eq_refl (display_capabilities))|].
  constructor; [exact (conj eq_refl (titled_show_mounts cfg SHOW_PATHCONF))|].
  constructor; [exact (conj eq_refl (titled_show_sysconf cfg))|].
  constructor; [exact (conj eq_refl (titled_show_memory cfg))|].
  constructor; [exact (conj eq_refl (display_timezone))|].
  constructor.
Qed.

Fixpoint find_title (titles : list (Z * wstr)) (c : Z) : option wstr :=
  match titles with
  | [] => None
  | (c', n) :: titles' => if Z.eqb c c' then Some n else find_title titles' c
  end.

Lemma titled_find_display c m :
  find_display (displays g) c = Some m ->
  exists n, find_title display_titles c = Some n /\ titled cfg n DISPLAY_DEPTH m.
Proof.
  pose proof titled_displays as Ht. revert Ht. generalize (displays g) as table. generalize display_titles as titles.
  intros titles table Ht. induction Ht as [|[c1 n1] [c2 m2] titles table [E Hn] _ IH]; [done|].
  cbn in E, Hn |- *. subst c2. destruct (Z.eqb c c1); [intros [= ->]; by exists n1|exact IH].
Qed.

Lemma find_title_in titles c n : find_title titles c = Some n -> n ∈ map snd titles.
Proof.
  induction titles as [|[c1 n1] titles IH]; [done|]. cbn. rewrite elem_of_cons.
  destruct (Z.eqb c c1); [intros [= ->]; by left|by right; apply IH].
Qed.

Lemma find_title_app titles more c n :
  find_title titles c = Some n -> find_title (titles ++ more) c = Some n.
Proof. induction titles as [|[c1 n1] titles IH]; [done|]. cbn. by destruct (Z.eqb c c1). Qed.

Lemma body_prints :
  exists ts, prints cfg (for_each (dump_sections g) (fun section => section)) ts /\
    forallb (well_placed CMembers) ts = true /\ Forall (fun t => depth t <= DISPLAY_DEPTH) ts /\
    map tree_name ts = section_titles.
Proof.
  induction titled_sections as [|n m titles ms (k & ts & Hp & Hw & Hd) _ (ts' & Hp' & Hw' & Hd' & E)].
  - exists []. split_and!; [apply prints_ret|done|constructor|done].
  - exists (TBlock k n ts :: ts'). split_and!; [|cbn [forallb]; by rewrite Hw, Hw'|by constructor|cbn; by rewrite E].
    apply (prints_seq cfg m _ [TBlock k n ts] ts' Hp Hp').
Qed.

(** ** Documents *)

(** The indent of the deepest block can be counted. *)
Definition indent_fits : Prop := (s_amount cfg * Z.of_nat (S DISPLAY_DEPTH) <= INT_MAX)%Z.

Lemma typed_fits ts : (0 <= s_amount cfg)%Z -> indent_fits ->
  Forall (fun t => depth t <= DISPLAY_DEPTH) ts -> fits cfg 0 (TObject ts).
Proof. intros Ha Hfit Hd%depth_list. unfold fits, indent_fits in *. cbn [depth]. nia. Qed.

Lemma document_runs (m : prog ostate unit) ns :
  same_runs m (emit_all ns) ->
  same_runs (master_header;; m;; master_footer) (master_header;; emit_all ns;; master_footer).
Proof. intros E. same_unit. by rewrite E. Qed.

(** What a computation with well-placed calls builds between header and
    footer. *)
Lemma prints_json_builds (m : prog ostate unit) (w : ostate) ts :
  s_format cfg = OUTPUT_FORMAT_JSON -> json_ws_char (s_pad cfg) -> indent_fits ->
  prints cfg m ts -> forallb (well_placed CMembers) ts = true ->
  Forall (fun t => depth t <= DISPLAY_DEPTH) ts -> rep cfg w start_doc ->
  exists w' a, (master_header;; m;; master_footer) w = Ok (tt, w') /\ rep cfg w' a /\
    a_text a = json_text cfg ts ++ [NL] /\ a_level a = 0%Z /\
    jvalue (json_text cfg ts) (JObject (map member_of ts)).
Proof.
  intros Hf Hpad Hfit (ns & E & Hd) Hp Hdepth Hw.
  destruct (rep_configured _ _ _ Hw) as (_ & _ & Ha & _).
  destruct (json_yields cfg Hf ns ts Ha Hd Hp (typed_fits ts Ha Hfit Hdepth)) as (a & Hy & Ht & Hl).
  destruct (Hy w Hw) as (w' & E' & Hw'). exists w', a. split_and!; [|done|done|done|].
  - rewrite <- E'. apply document_runs, E.
  - by eapply json_text_denotes.
Qed.

Lemma prints_xml_builds (m : prog ostate unit) (w : ostate) ts pn pv ps :
  s_format cfg = OUTPUT_FORMAT_XML -> json_ws_char (s_pad cfg) -> indent_fits ->
  package_decodes pn pv ps -> prints cfg m ts -> Forall (fun t => depth t <= DISPLAY_DEPTH) ts ->
  rep cfg w start_doc ->
  exists w' a, (master_header;; m;; master_footer) w = Ok (tt, w') /\ rep cfg w' a /\
    a_text a = xml_text cfg ts pn pv ps (mode_text (user_euid w)) ++ [NL] /\ a_level a = 0%Z /\
    xml_reads (xml_inner cfg ts) (flat_map xml_of ts).
Proof.
  intros Hf Hpad Hfit Hpkg (ns & E & Hd) Hdepth Hw.
  destruct (rep_configured _ _ _ Hw) as (_ & _ & Ha & _).
  destruct (xml_yields cfg Hf w ns ts pn pv ps Hw Hd Hpkg (typed_fits ts Ha Hfit Hdepth))
    as (w' & a & E' & Hw' & Ht & Hl).
  exists w', a. split_and!; [|done|done|done|by eapply xml_inner_denotes].
  rewrite <- E'. apply document_runs, E.
Qed.

(** The names of the members are as they were given: a title holds no
    backslash. *)
Lemma member_titles ts titles :
  map tree_name ts = titles -> map doubled titles = titles -> map fst (map member_of ts) = titles.
Proof.
  intros Ht Hd. rewrite map_map. cbn. rewrite <- map_map with (f := tree_name) (g := doubled). by rewrite Ht.
Qed.

(** C7: without a display option, in JSON, when the strings of the system can
    be shown: [dump] does not fail, whatever else the system answers, and what
    it leaves is one JSON text, an object whose members are the 36 sections in
    the order of the calls; each of the display functions puts its calls where
    the grammar allows them, the driver's by its contract. *)
Theorem dump_json (w : ostate) :
  s_format cfg = OUTPUT_FORMAT_JSON -> json_ws_char (s_pad cfg) -> indent_fits ->
  rep cfg w start_doc ->
  exists w' txt ms, dump g w = Ok (tt, w') /\ document w' = Ok (txt ++ [NL]) /\
    jvalue txt (JObject ms) /\ map fst ms = section_titles /\ indent w' = 0%Z.
Proof.
  intros Hf Hpad Hfit Hw. destruct body_prints as (ts & Hm & Hp & Hdepth & Htitles).
  destruct (prints_json_builds _ w ts Hf Hpad Hfit Hm Hp Hdepth Hw) as (w' & a & E & Hw' & Ht & Hl & Hj).
  exists w', (json_text cfg ts), (map member_of ts). split_and!; [exact E| |done| |].
  - rewrite (rep_document cfg w' _ Hw'), Ht; [done|]. rewrite Ht. by destruct (json_text cfg ts).
  - by apply member_titles.
  - by rewrite (rep_indent _ _ _ Hw').
Qed.

(** The same in XML: [dump] leaves the declaration, the root tag, content
    that the grammar accepts (by XML 1.0 when it holds no other character), whose elements have the titles of the 36 sections
    in order, and the end tag of the root. *)
Theorem dump_xml (w : ostate) pn pv ps :
  s_format cfg = OUTPUT_FORMAT_XML -> json_ws_char (s_pad cfg) -> indent_fits ->
  package_decodes pn pv ps -> rep cfg w start_doc ->
  exists w' inner ns, dump g w = Ok (tt, w') /\
    document w' = Ok (header_text pn pv ps (mode_text (user_euid w)) ++
                      inner ++ lit "</" ++ pn ++ lit ">" ++ [NL]) /\
    xml_reads inner ns /\ map xml_title ns = section_titles /\ indent w' = 0%Z.
Proof.
  intros Hf Hpad Hfit Hpkg Hw. destruct body_prints as (ts & Hm & _ & Hdepth & Htitles).
  destruct (prints_xml_builds _ w ts pn pv ps Hf Hpad Hfit Hpkg Hm Hdepth Hw)
    as (w' & a & E & Hw' & Ht & Hl & Hx).
  exists w', (xml_inner cfg ts), (flat_map xml_of ts). split_and!; [exact E| |done| |].
  - rewrite (rep_document cfg w' _ Hw'), Ht; [by unfold xml_text; rewrite <- !app_assoc|].
    rewrite Ht. by destruct (xml_text cfg ts pn pv ps _).
  - rewrite xml_titles; rewrite Htitles; [done|]. refine (bool_decide_unpack _ _). by vm_compute.
  - by rewrite (rep_indent _ _ _ Hw').
Qed.

(** ** The loop in the text format *)
(** Each character is an option of the switch, each has one long name, and a
    long name stands for one of the characters or for a setting. *)
Lemma options_agree :
  Forall (fun c => is_Some (find_display (displays g) c) \/ c ∈ map char_of ["h"; "i"; "p"]%string) short_options /\
  NoDup (map (fun o => o.1.1) long_options) /\
  map snd (filter (fun o => o.2 <> 0%Z) long_options) ≡ₚ short_options.
Proof.
  split_and!.
  - unfold short_options. repeat (apply Forall_cons_2; [first [left; by eexists|right; in_list]|]). apply Forall_nil_2.
  - refine (bool_decide_unpack _ _). by vm_compute.
  - refine (bool_decide_unpack _ _). by vm_compute.
Qed.

Lemma text_header a : s_format cfg = OUTPUT_FORMAT_TEXT -> yields cfg master_header a a.
Proof.
  intros Hf. unfold master_header. eapply yields_bind; [apply yields_common_assert|].
  apply yields_format. rewrite Hf. apply yields_ret.
Qed.

(** Between two display options: at the left margin. *)
Definition at_margin (a : adoc) : Prop := ready cfg 0 a /\ cur_ok cfg CMembers (a_cur a) = true.

Lemma titled_text n m a :
  s_format cfg = OUTPUT_FORMAT_TEXT -> (0 <= s_amount cfg)%Z -> indent_fits ->
  titled cfg n DISPLAY_DEPTH m -> at_margin a ->
  exists a' t, yields cfg m a a' /\ at_margin a' /\ tree_name t = n /\
    wrote cfg 0 CMembers (items cfg 0 t) a a'.
Proof.
  intros Hf Ha Hfit (k & ts & (ns & [E] & Hd) & _ & Hdepth) [Hr Hc].
  assert (s_format cfg <> OUTPUT_FORMAT_CRUMB) as Hcr by by rewrite Hf.
  destruct (denotes_all_writes cfg ns [TBlock k n ts] Hcr Ha Hd CMembers 0%Z a) as (a' & Hy & Hw); try done.
  - apply Forall_forall. intros t _ Hj. by rewrite Hf in Hj.
  - constructor; [|constructor]. unfold fits, indent_fits in *. cbn in Hdepth |- *. nia.
  - cbn [flat_map] in Hw. rewrite app_nil_r in Hw. exists a', (TBlock k n ts). split_and!; [|split|done|done].
    + intros w Hw0. rewrite E. by apply Hy.
    + by eapply wrote_ready.
    + by eapply wrote_cur_ok.
Qed.

(** The options that display something; [-i] and [-p] query the globals again
    before they show them. *)
Definition option_titles : list (Z * wstr) :=
  display_titles ++ [(char_of "i", lit "misc"); (char_of "p", lit "process")].

Definition option_title (c : Z) : wstr := default [] (find_title option_titles c).

(** The settings are those of a run that has found [g], and the system still
    answers the same. *)
Definition still_the_same : Prop :=
  start_globals = Some g /\ s_euid cfg = euid (user g) /\ s_tty cfg = start_tty.

Lemma requery w a :
  still_the_same -> rep cfg w a ->
  get_uname w = Ok (uts g, w) /\ get_user_info w = Ok (user g, w) /\ get_misc w = Ok (misc g, w).
Proof.
  intros (Hg & He & Ht) Hw.
  destruct (rep_configured _ _ _ Hw) as (_ & _ & _ & _ & _ & _ & Hwe & Hwt & _). rewrite He in Hwe. rewrite Ht in Hwt.
  revert Hg Hwe Hwt. unfold start_globals, get_uname, get_user_info, get_misc, start_tty.
  destruct uname as [us|]; [cbn|done]. destruct getresuid as [[[ruid e] s]|]; [cbn|done].
  destruct getresgid as [[[rgid eg] sg]|]; [cbn|done].
  destruct (getpwuid ruid) as [pw|] eqn:Epw; [cbn|done]. destruct getcwd as [dir|]; [cbn|done].
  intros [= <-]. cbn. intros Hwe Hwt. split_and!; [done| |done]. run_prim. rewrite Epw.
  destruct w. cbn in *. by subst.
Qed.

(** What a display option runs. *)
Lemma option_runs c :
  still_the_same -> c ∈ short_options -> c <> char_of "h" ->
  exists m, titled cfg (option_title c) DISPLAY_DEPTH m /\
    forall w a, rep cfg w a -> display_option c g w = (m;; mret g) w.
Proof.
  intros Hsame Hin Hh. destruct options_agree as [Hall _]. rewrite Forall_forall in Hall.
  destruct (Hall c Hin) as [[m Hm]|Hc].
  - destruct (titled_find_display c m Hm) as (n & Hn & Ht). exists m. split.
    + unfold option_title, option_titles. by rewrite (find_title_app _ _ _ _ Hn).
    + intros w a _. by rewrite (display_option_table g c m Hm).
  - cbn [map] in Hc. rewrite !elem_of_cons in Hc.
    destruct Hc as [->|[->|[->|Hc]]]; [done| | |by apply not_elem_of_nil in Hc].
    + exists (show_misc (misc g)). split; [exact (titled_show_misc cfg _)|]. intros w a Hw.
      destruct (requery w a Hsame Hw) as (E1 & E2 & E3). unfold display_option.
      change (Z.eqb (char_of "i") (char_of "h")) with false. rewrite Z.eqb_refl.
      step_with E1. step_with E2. step_with E3. by destruct g.
    + exists (show_proc (user g)). split; [exact display_proc|]. intros w a Hw.
      destruct (requery w a Hsame Hw) as (_ & _ & E3). unfold display_option.
      change (Z.eqb (char_of "p") (char_of "h")) with false.
      change (Z.eqb (char_of "p") (char_of "i")) with false. rewrite Z.eqb_refl.
      step_with E3. by destruct g.
Qed.

(** One display option. *)
Lemma text_option c w a d r :
  s_format cfg = OUTPUT_FORMAT_TEXT -> indent_fits -> still_the_same ->
  c ∈ short_options -> c <> char_of "h" -> rep cfg w a -> at_margin a ->
  exists w' a' t, option_step (OptChar c) (mk_mstate d r g) w = Ok (mk_mstate true r g, w') /\
    rep cfg w' a' /\ at_margin a' /\ tree_name t = option_title c /\
    wrote cfg 0 CMembers (items cfg 0 t) a a'.
Proof.
  intros Hf Hfit Hsame Hin Hh Hw Hma. destruct (rep_configured _ _ _ Hw) as (_ & _ & Ha & _).
  destruct (option_runs c Hsame Hin Hh) as (m & Hm & Hopt).
  destruct (text_header a Hf w Hw) as (w1 & E1 & Hw1).
  destruct (titled_text _ m a Hf Ha Hfit Hm Hma) as (a2 & t & Hy & Hma2 & Ht & Hwr).
  destruct (Hy w1 Hw1) as (w2 & E2 & Hw2). exists w2, a2, t. split_and!; try done.
  cbn [option_step the_globals reexec]. step_with E1.
  erewrite prog_bind_ok; [|rewrite (Hopt w1 a Hw1); step_with E2; reflexivity]. reflexivity.
Qed.

(** C12: in the text format, every sequence of display options (all the options
    that are characters, except [-h]) is processed to its end, when the queries
    that [-i] and [-p] repeat are answered as they were at the start: no option fails,
    the settings and the globals stay as they were, and the text grows by one
    section for each option, with the title of the option, in the order of the
    options, laid out as the sections of one document are. *)
Theorem text_displays_end (cs : list Z) (w : ostate) a d r :
  s_format cfg = OUTPUT_FORMAT_TEXT -> indent_fits -> still_the_same ->
  Forall (fun c => c ∈ short_options /\ c <> char_of "h") cs -> rep cfg w a -> at_margin a ->
  exists w' a' ts, options_loop (map OptChar cs) (mk_mstate d r g) w
      = Ok (mk_mstate (d || negb (bool_decide (cs = []))) r g, w') /\
    rep cfg w' a' /\ at_margin a' /\ map tree_name ts = map option_title cs /\
    a_text a' = a_text a ++ glued cfg 0 a (flat_map (items cfg 0) ts).
Proof.
  intros Hf Hfit Hsame Hcs Hw Hma.
  enough (exists w' a' ts, options_loop (map OptChar cs) (mk_mstate d r g) w
      = Ok (mk_mstate (d || negb (bool_decide (cs = []))) r g, w') /\
    rep cfg w' a' /\ at_margin a' /\ map tree_name ts = map option_title cs /\
    wrote cfg 0 CMembers (flat_map (items cfg 0) ts) a a') as (w' & a' & ts & E & Hw' & Hma' & Ht & Hwr).
  { exists w', a', ts. split_and!; try done. apply Hwr. }
  revert w a d Hw Hma. induction Hcs as [|c cs [Hin Hh] _ IH]; intros w a d Hw Hma.
  - exists w, a, []. rewrite orb_false_r. split_and!; try done. apply wrote_nil.
  - destruct (text_option c w a d r Hf Hfit Hsame Hin Hh Hw Hma) as (w1 & a1 & t & E1 & Hw1 & Hma1 & Ht & Hwr).
    destruct (IH w1 a1 true Hw1 Hma1) as (w2 & a2 & ts & E2 & Hw2 & Hma2 & Hts & Hwrs).
    exists w2, a2, (t :: ts). split_and!; [|done|done|cbn; by rewrite Ht, Hts|cbn; by eapply wrote_app].
    cbn [map options_loop]. step_with E1. rewrite E2. by rewrite orb_true_r.
Qed.

(** ** A re-execution asked for after a display option *)
Lemma rep_margin w a : rep cfg w a -> rep cfg (set_indent 0 w) (set_level 0 a).
Proof. intros []. constructor; try done. Qed.

Lemma set_exec optarg m w :
  done m = true ->
  set_option (lit "exec") optarg m w = Ok (mk_mstate true true (the_globals m), set_indent 0 w).
Proof. intros Hd. unfold set_option. rewrite Hd. reflexivity. Qed.

(** C13: [--exec] is the one option that may follow a display option; in XML it
    makes the program fail an assertion instead of showing the document: it
    resets the indent that the root element counts on, so that
    [master_footer] makes it negative. *)
Theorem exec_after_display_aborts (w : ostate) a m optarg :
  s_format cfg = OUTPUT_FORMAT_XML -> (0 < s_amount cfg)%Z -> rep cfg w a -> done m = true ->
  (m' ← set_option (lit "exec") optarg m; close_document m') w = Abort "indent >= 0".
Proof.
  intros Hf Ha Hw Hd. step_with (set_exec optarg m w Hd). apply rep_margin in Hw.
  set (w0 := set_indent 0 w) in *. set (a0 := set_level 0 a) in *.
  unfold close_document. cbn [done]. step_with (run_common_assert cfg w0 a0 Hw).
  assert (master_footer w0 = Abort "indent >= 0") as E.
  { unfold master_footer. step_with (run_common_assert cfg w0 a0 Hw).
    erewrite prog_bind_ok by reflexivity. rewrite (proj1 (rep_configured _ _ _ Hw)), Hf.
    destruct (yields_with_nz cfg (wappend_doc [NL]) a0 (add_text [NL] a0)
      (fun Hnz => yields_wappend cfg [NL] a0 Hnz ltac:(nz_lit)) w0 Hw) as (w1 & E1 & Hw1).
    step_with E1. destruct (rep_configured _ _ _ Hw1) as (_ & Hamt & _).
    assert (dec_indent w1 = Abort "indent >= 0") as E2.
    { unfold dec_indent. run_prim. rewrite (rep_indent _ _ _ Hw1). cbn [a_level add_text set_level a0 Z.leb Z.compare]. rewrite Hamt.
      by rewrite (proj2 (Z.leb_gt 0 (0 - s_amount cfg))) by lia. }
    unfold mbind, prog_bind. by rewrite E2. }
  unfold mbind, prog_bind. by rewrite E.
Qed.
End Typed.
