(* ===== verification/Program.v ===== *)
(** Program: complete runs of main (src/src/procenv.c), from the command line
    to the destination of the text.

    The components come together here: [main] creates the document, reads the
    environment and fills the globals ([Options], [Process]), takes the options
    and calls the display functions ([Main] and below), which build the document
    ([Document], [Json], [Xml]); the document is trimmed ([PString], [Tidy]) and
    sent out ([Sink]), and everything is released.  The theorems say what leaves
    the program: the events of the run, with the bytes written. *)
From S2P Require Import Prelude Memory PrList Locale PString StringUtil Encode Output OutputSpec Document Json Crumb Xml Tidy Util Affinity Prints Display Format Platform Process Report Signals Terminal Ranges Runtime NetCache Network Usage Options Sink Main.

(** An operation of the driver that leaves the globals alone. *)
Definition idle (op : option (prog ostate unit)) : Prop := forall w, run_op op w = Ok (tt, w).

(** The text goes to a new file or to the standard output. *)
Definition sink_to (pad : Z) (dest : option bytes) : sink :=
  mk_sink pad (match dest with Some _ => OUTPUT_FILE | None => OUTPUT_STDOUT end) dest false (-1) [].

(** What is done to send [str] out and to leave. *)
Definition sent (dest : option bytes) (tty : Z) (str : bytes) (evs : list event) : Prop :=
  match dest with
  | None => exists ret, evs = [EvFputs OUTPUT_STDOUT str ret; EvClose tty]
  | Some path => exists fd ret, evs = [EvOpen path false fd; EvWrite fd str ret; EvClose tty; EvClose fd]
  end.

(** The settings of a run with the format [f] and no other setting. *)
Definition run_settings (f : OutputFormat) (dest : option bytes) (euid tty : Z) : settings :=
  mk_settings f DEFAULT_INDENT_AMOUNT SPACE (lit ": ") (lit ":") euid tty (sink_to SPACE dest).

(** The variables of the environment that the program reads. *)
Definition procenv_variables : list bytes :=
  [ PROCENV_OUTPUT_ENV; PROCENV_FILE_ENV; PROCENV_FILE_APPEND_ENV; PROCENV_FORMAT_ENV;
    PROCENV_INDENT_ENV; PROCENV_INDENT_CHAR_ENV; PROCENV_SEPARATOR_ENV;
    PROCENV_CRUMB_SEPARATOR_ENV; PROCENV_EXEC_ENV ].

Section Program.
Context `{AllocTotal} `{LocaleLaws} `{!EncodesWritable}.
Context `{!Package} `{!Host} `{!Util.System} `{!Headers} `{!Driver} `{!Start} `{!Collation}
  `{!Identity} `{!Machine} `{!Signals} `{!Terminal} `{!Clock} `{!Threads} `{!Files}
  `{!Personality} `{!Network} `{!Environment}.

(** ** What init finds *)
(** A system on which a run can start: the queries of init succeed, no variable
    of the environment sets anything, the exit handler can be registered, and
    the text can be written. *)
Class Runs (g : globals) : Prop := {
  runs_globals : start_globals = Some g;
  runs_environ : Forall (fun n => getenv n = None \/ getenv n = Some []) procenv_variables;
  runs_exit : atexit_fails = false;
  runs_idle : idle op_init /\ idle op_get_io_priorities /\ idle op_cleanup;
  runs_output : forall evs s, (0 <= fputs_ret evs OUTPUT_STDOUT s)%Z;
  runs_file : forall evs p a fd s, (0 <= open_ret evs p a /\ 0 <= write_ret evs fd s)%Z
}.

Context (g : globals) `{!Runs g}.

(** ** The start *)
Lemma when_set_unset n k w : getenv n = None \/ getenv n = Some [] -> when_set getenv n k w = Ok (tt, w).
Proof. unfold when_set. by intros [-> | ->]. Qed.

Lemma check_envvars_unset w : check_envvars getenv w = Ok (None, w).
Proof.
  pose proof (runs_environ (g := g)) as He. unfold procenv_variables in He.
  rewrite !Forall_cons in He. destruct He as (H1' & H2' & H3' & H4' & H5' & H6' & H7' & H8' & H9' & _).
  unfold check_envvars. do 8 (step_with when_set_unset; [|done]). by destruct H9' as [-> | ->].
Qed.

(** The memory after [setlocale (3)], whose answer is copied. *)
Definition locale_saved (m : mem) : mem :=
  match setlocale LC_ALL (Some []) with Some _ => tick m | None => m end.

Lemma init_run w :
  indent_char w = Some DEFAULT_INDENT_CHAR ->
  init w = Ok (g, set_user_tty_fd start_tty (set_user_euid (euid (user g))
                    (put_wide_indent_char SPACE (set_mem (locale_saved (o_mem w)) w)))).
Proof.
  intros Hc. destruct (runs_idle (g := g)) as (Hi & Hp & _). pose proof (runs_globals (g := g)) as Hg.
  set (m' := locale_saved (o_mem w)).
  assert (save_locale w = Ok (tt, set_mem m' w)) as Es.
  { unfold save_locale, m', locale_saved. rewrite (runs_exit (g := g)). destruct (setlocale _ _) as [value|].
    - step_with (strdup_state_run value w). reflexivity.
    - by destruct w. }
  clearbody m'. unfold init. step_with Hi. step_with Es.
  assert (handle_indent_char (set_mem m' w) = Ok (tt, put_wide_indent_char SPACE (set_mem m' w))) as Eh.
  { unfold handle_indent_char, the_indent_char. run_prim. cbn [indent_char set_mem]. rewrite Hc.
    by rewrite (decode_ascii DEFAULT_INDENT_CHAR ltac:(ascii_lit)). }
  step_with Eh. clear Es Eh Hi. revert Hg.
  unfold start_globals, get_uname, get_user_info, get_misc, start_tty.
  destruct uname as [uts|]; [cbn|done]. destruct getresuid as [[[ruid e] s]|]; [cbn|done].
  destruct getresgid as [[[rgid eg] sg]|]; [cbn|done].
  destruct (getpwuid ruid) as [pw|] eqn:Epw; [cbn|done]. destruct getcwd as [d|]; [cbn|done].
  intros [= <-]. run_prim. rewrite Epw, Hp. reflexivity.
Qed.

Lemma ticked_ok m m' : ticked m m' -> mem_ok m -> mem_ok m'.
Proof. intros [n ->] Hm x Hx. specialize (Hm x Hx). cbn in *. lia. Qed.

(** The options [--format=name], [--file=path] and [--exec]. *)
Definition run_options (name : bytes) (dest : option bytes) (r : bool) : list cli_option :=
  [OptLong (lit "format") name] ++
  match dest with Some path => [OptLong (lit "file") path] | None => [] end ++
  (if r then [OptLong (lit "exec") []] else []).

Definition aimed (dest : option bytes) (w : ostate) : ostate :=
  match dest with
  | Some path => put_output_file (Some path) (output_file_append w) (put_output OUTPUT_FILE w)
  | None => w
  end.

Lemma format_taken f name w :
  map_find output_format_map name = Some f ->
  option_step (OptLong (lit "format") name) (mk_mstate false false g) w
  = Ok (mk_mstate false false g, set_indent 0 (put_output_format f w)).
Proof.
  intros Hf. assert (set_output_format name w = Ok (tt, put_output_format f w)) as Es
    by (unfold set_output_format; by rewrite Hf).
  cbn [option_step]. unfold set_option. cbn [done andb]. known_names. run_prim. by rewrite Es.
Qed.

Lemma file_taken path w :
  option_step (OptLong (lit "file") path) (mk_mstate false false g) w
  = Ok (mk_mstate false false g, set_indent 0 (aimed (Some path) w)).
Proof. reflexivity. Qed.

Lemma exec_taken w :
  option_step (OptLong (lit "exec") []) (mk_mstate false false g) w = Ok (mk_mstate false true g, set_indent 0 w).
Proof. reflexivity. Qed.

Lemma loop_option o os m w m' w' {A} (k : mstate -> prog ostate A) :
  option_step o m w = Ok (m', w') -> (m1 ← options_loop (o :: os) m; k m1) w = (m1 ← options_loop os m'; k m1) w'.
Proof. intros E. cbn [options_loop]. unfold mbind at 1, prog_bind at 1. by step_with E. Qed.

Lemma run_options_taken f name dest r os w {A} (k : mstate -> prog ostate A) :
  map_find output_format_map name = Some f -> indent w = 0%Z ->
  (m ← options_loop (run_options name dest r ++ os) (mk_mstate false false g); k m) w
  = (m ← options_loop os (mk_mstate false r g); k m) (aimed dest (put_output_format f w)).
Proof.
  intros Hf Hi. unfold run_options. cbn [app].
  rewrite (loop_option _ _ _ _ _ _ _ (format_taken f name w Hf)).
  assert (forall w', indent w' = 0%Z -> set_indent 0 w' = w') as Hset by (intros []; cbn; by intros ->).
  destruct dest as [path|]; cbn [app]; [rewrite (loop_option _ _ _ _ _ _ _ (file_taken path _))|].
  all: destruct r; cbn [app]; [rewrite (loop_option _ _ _ _ _ _ _ (exec_taken _))|].
  all: f_equal; destruct w; cbn in Hi |- *; by rewrite Hi.
Qed.

(** The state in which the loop over the options starts. *)
Definition started (e tty : Z) (m : mem) : ostate :=
  set_user_tty_fd tty (set_user_euid e (put_wide_indent_char SPACE
    (set_mem m (set_doc (Some (mk_pstring None 0 0)) (set_mem (tick mem0) (initial_state mem0 None)))))).

Lemma starts_rep f dest e tty m :
  mem_ok m -> rep (run_settings f dest e tty) (aimed dest (put_output_format f (started e tty m))) start_doc.
Proof.
  intros Hm. set (w := aimed dest _).
  assert (configured (run_settings f dest e tty) w) as Hc.
  { destruct dest; (split_and!; try done; [by left|]; split;
      [split; [apply decode_ascii; ascii_lit|nz_lit]
      |exists (lit ":"); split_and!; [done|apply decode_ascii; ascii_lit|nz_lit]]). }
  constructor; [exact Hc| |constructor|by destruct dest|done|done|by destruct dest|by destruct dest| |].
  - exists (mk_pstring None 0 0). split; [by destruct dest|by left].
  - by destruct dest.
  - left. by destruct dest.
Qed.

(** The state in which the options are taken. *)
Definition start_memory : mem := locale_saved (tick mem0).
Definition start_options : ostate := started (euid (user g)) start_tty start_memory.

Lemma start_memory_ok : mem_ok start_memory.
Proof.
  unfold start_memory, locale_saved. intros x Hx.
  destruct (setlocale _ _); cbn in Hx; rewrite lookup_empty in Hx; by destruct Hx.
Qed.

(** The run up to the options. *)
Lemma main_begins os args :
  main os args (initial_state mem0 None)
  = (m ← options_loop os (mk_mstate false false g); finish m None args) start_options.
Proof.
  set (w0 := set_doc (Some (mk_pstring None 0 0)) (set_mem (tick mem0) (initial_state mem0 None))).
  unfold main.
  assert (in_mem pstring_new (initial_state mem0 None)
          = Ok (Some (mk_pstring None 0 0), set_mem (tick mem0) (initial_state mem0 None))) as E.
  { apply zoom_ok. unfold pstring_new. by step_with (alloc_run mem0). }
  step_with E. clear E. erewrite prog_bind_ok by reflexivity. fold w0.
  step_with check_envvars_unset. by step_with (init_run w0 eq_refl).
Qed.

(** The run up to the options behind the settings. *)
Lemma main_starts f name dest r os args :
  map_find output_format_map name = Some f ->
  exists w, rep (run_settings f dest (euid (user g)) start_tty) w start_doc /\
    main (run_options name dest r ++ os) args (initial_state mem0 None)
    = (m ← options_loop os (mk_mstate false r g); finish m None args) w.
Proof.
  intros Hf. rewrite main_begins. eexists. split; [apply (starts_rep f dest), start_memory_ok|].
  by apply run_options_taken.
Qed.

(** ** The end *)

(** With [--exec] there is a command, and it can be executed. *)
Definition re_executes (r : bool) (args : list bytes) : Prop :=
  r = true -> args <> [] /\ execvp_works (map Some args ++ [None]) = true.

Definition run_ending (r : bool) (args : list bytes) : ending :=
  if r then Executed (map Some args ++ [None]) else Exited.

Section Ending.
Context (r : bool) (args : list bytes) (Hexec : re_executes r args).
Context (cfg : settings) (Hwide : k_wide (s_sink cfg) = s_pad cfg) (Hpad : json_ws_char (s_pad cfg))
  (Hnl : s_pad cfg <> NL) (Hmarkup : markup (s_format cfg)).

(** Chomping and compressing leave a neat document as it is. *)
Lemma trims w a s :
  rep cfg w a -> a_text a = s ++ [NL] -> s <> [] -> neat (s_pad cfg) s ->
  exists d1 d2, chomp_doc w = Ok (tt, set_doc (Some d1) w) /\
    compress_doc (set_doc (Some d1) w) = Ok (tt, set_doc (Some d2) w) /\
    contents d1 = Ok (s ++ [NL]) /\ contents d2 = Ok (s ++ [NL]).
Proof.
  intros Hw Ha Hne Hs. destruct (rep_doc _ _ _ Hw) as (d & Hd & Ht). rewrite Ha in Ht.
  destruct (rep_configured _ _ _ Hw) as (_ & _ & _ & Hp0 & _ & _ & _ & _ & Hk).
  assert (wide_indent_char w = s_pad cfg) as Hwd by (rewrite <- Hwide, <- Hk; done).
  assert (nz s) as Hnz by (pose proof (rep_nz _ _ _ Hw) as Hn; rewrite Ha in Hn; apply nz_app in Hn; tauto).
  destruct (trim_neat (s_pad cfg) d s (o_mem w) Ht Hnz Hne Hp0 Hnl Hs) as (d1 & d2 & E1 & E2 & C1 & C2).
  exists d1, d2. split_and!; [| |done|done].
  - unfold chomp_doc, on_doc, in_mem. run_prim. rewrite Hd, Hwd, E1. by destruct w.
  - unfold compress_doc, on_doc, in_mem. run_prim. cbn [doc set_doc wide_indent_char o_mem].
    rewrite Hwd, E2. by destruct w.
Qed.

(** *** Sending the document out, and releasing everything *)
Context (dest : option bytes) (Hsink : s_sink cfg = sink_to (s_pad cfg) dest).

Lemma cleans w d :
  doc w = Some d -> indent_amount w = s_amount cfg -> (0 <= s_amount cfg)%Z ->
  output_format w = s_format cfg -> output w <> OUTPUT_SYSLOG ->
  exists w', cleanup w = Ok (tt, w') /\ doc w' = None /\
    events w' = events w ++ [EvClose (user_tty_fd w)] ++
                (if Z.eqb (output_fd w) (-1) then [] else [EvClose (output_fd w)]).
Proof.
  intros Hd Hamt Hpos Hf Ho. set (w1 := add_event (EvClose (user_tty_fd w)) w).
  set (w2 := if Z.eqb (output_fd w) (-1) then w1 else add_event (EvClose (output_fd w)) w1).
  exists (set_doc None w2). split; [|split; [done|]].
  - unfold cleanup.
    assert (common_assert w = Ok (tt, w)) as E.
    { unfold common_assert. run_prim. rewrite Hd. cbn. rewrite Hamt. by rewrite (proj2 (Z.leb_le 0 (s_amount cfg)) Hpos). }
    step_with E. erewrite prog_bind_ok by reflexivity. rewrite Hd.
    do 2 (erewrite prog_bind_ok by reflexivity). erewrite prog_bind_ok by reflexivity. fold w1.
    assert (output_finalise w1 = Ok (tt, w2)) as Ef.
    { unfold output_finalise, free_breadcrumbs. run_prim. cbn [output_fd w1 add_event]. unfold w2.
      destruct (Z.eqb (output_fd w) (-1)); cbn; rewrite Hf; destruct Hmarkup as [-> | ->];
        rewrite (bool_decide_false (_ = OUTPUT_FORMAT_CRUMB)) by done; cbn; by rewrite bool_decide_false. }
    step_with Ef. erewrite prog_bind_ok by reflexivity. apply (runs_idle (g := g)).
  - unfold w2. destruct (Z.eqb _ _); cbn; [done|by rewrite <- app_assoc].
Qed.

(** What sending the text out leaves alone. *)
Definition same_document (w w' : ostate) : Prop :=
  doc w' = doc w /\ indent_amount w' = indent_amount w /\ output_format w' = output_format w /\
  output w' = output w /\ user_tty_fd w' = user_tty_fd w.

Lemma sends str w :
  sink_of w = sink_to (s_pad cfg) dest ->
  exists w', _show_output str w = Ok (tt, w') /\ same_document w w' /\
    sent dest (user_tty_fd w) str (events w' ++ [EvClose (user_tty_fd w)] ++
      (if Z.eqb (output_fd w') (-1) then [] else [EvClose (output_fd w')])).
Proof.
  unfold sink_to, sent. intros Hk. injection Hk as Kw Ko Kf Ka Kfd Ke. destruct dest as [path|].
  - destruct (runs_file (g := g) [] path false 0 []) as [Ho _]. set (fd := open_ret [] path false) in *.
    destruct (runs_file (g := g) [EvOpen path false fd] path false fd str) as [_ Hret].
    assert (opened path w = set_output_fd fd (add_event (EvOpen path false fd) w)) as Eo
      by (unfold opened; by rewrite Ke, Ka).
    pose proof (show_output_new_file str path w Ko Kf ltac:(rewrite Kfd; lia)) as Es. rewrite Eo in Es.
    cbv zeta in Es. cbn [output_fd set_output_fd events add_event] in Es. rewrite Ke in Es.
    eexists. split; [exact (Es Ho Hret)|]. split; [done|]. exists fd. eexists.
    cbn. rewrite Ke, (proj2 (Z.eqb_neq fd (-1))) by lia. reflexivity.
  - set (ret := fputs_ret [] OUTPUT_STDOUT str).
    assert (0 <= ret)%Z as Hret by apply (runs_output (g := g)).
    exists (add_event (EvFputs OUTPUT_STDOUT str ret) w). split; [|split; [done|]].
    + unfold _show_output, fputs_to, log. run_prim. rewrite Ko. cbn. rewrite Ke. fold ret.
      by rewrite (proj2 (Z.ltb_ge ret 0) Hret).
    + exists ret. cbn. by rewrite Ke, Kfd.
Qed.

Lemma shows_and_cleans w a d txt :
  rep cfg w a -> contents d = Ok txt -> Forall writable txt -> txt <> [] ->
  exists w' str, (show_document;; cleanup) (set_doc (Some d) w) = Ok (tt, w') /\
    wcs_encode txt = Some str /\ doc w' = None /\ sent dest (s_tty cfg) str (events w').
Proof.
  intros Hw Hd Hwr Hne.
  destruct (rep_configured _ _ _ Hw) as (Hf & Hamt & Hpos & _ & _ & _ & _ & Htty & Hk). rewrite Hsink in Hk.
  destruct (encode_writable txt Hwr Hne) as (str & Es & Hs & Hsz).
  destruct (show_output_pstring_ok d txt str (set_doc (Some d) w) Hd Es Hs Hsz ltac:(done)) as (m' & _ & E).
  set (w1 := set_mem m' (set_doc (Some d) w)) in *.
  destruct (sends str w1 Hk) as (w2 & E2 & (D & A & F & O & T) & Hsent).
  destruct (cleans w2 d) as (w3 & E3 & Hd3 & Hev); [by rewrite D|by rewrite A|done|by rewrite F| |].
  { rewrite O. injection Hk as _ Ko _ _ _ _. cbn. rewrite Ko. by destruct dest. }
  exists w3, str. split_and!; [|done|done|].
  - assert (show_document (set_doc (Some d) w) = Ok (tt, w2)) as E1
      by (unfold show_document; erewrite prog_bind_ok by reflexivity; cbn [doc set_doc]; by rewrite E).
    by step_with E1.
  - rewrite Hev, T, <- Htty. exact Hsent.
Qed.

Lemma common_assert_keeps w w' : common_assert w = Ok (tt, w') -> w' = w.
Proof.
  unfold common_assert. run_prim. destruct (bool_decide _); [|done]. destruct (Z.leb _ _); [|done]. by intros [= <-].
Qed.

Lemma footer_asserts w w' : master_footer w = Ok (tt, w') -> common_assert w = Ok (tt, w).
Proof.
  intros E. unfold master_footer in E. apply prog_bind_inv in E as ([] & w1 & E1 & _).
  by rewrite <- (common_assert_keeps w w1 E1) at 2.
Qed.

Lemma rep_output w a : rep cfg w a -> output w <> OUTPUT_SYSLOG.
Proof.
  intros Hw. destruct (rep_configured _ _ _ Hw) as (_ & _ & _ & _ & _ & _ & _ & _ & Hk).
  rewrite Hsink in Hk. injection Hk as _ -> _ _ _ _. by destruct dest.
Qed.

Lemma init_output w : output w <> OUTPUT_SYSLOG -> output_init w = Ok (tt, w).
Proof. intros Ho. unfold output_init. run_prim. by rewrite bool_decide_false. Qed.

Lemma command_given (w : ostate) :
  (if r && bool_decide (@None (list (option bytes)) = None) && bool_decide (args = []) then
     die "must specify at least one argument with '--exec'"
   else mret tt) w = Ok (tt, w).
Proof. destruct r; [|done]. destruct (Hexec eq_refl) as [Hne _]. by rewrite (bool_decide_false (args = [])). Qed.

Lemma command_run (w : ostate) :
  (if r then
     if execvp_works (map Some args ++ [None]) then mret (Executed (map Some args ++ [None]))
     else die "failed to re-exec"
   else mret Exited) w = Ok (run_ending r args, w).
Proof. unfold run_ending. destruct r; [|done]. by destruct (Hexec eq_refl) as [_ ->]. Qed.

Lemma ends_dump w w1 a s :
  rep cfg w start_doc -> dump g w = Ok (tt, w1) -> rep cfg w1 a -> a_text a = s ++ [NL] -> s <> [] ->
  neat (s_pad cfg) s ->
  exists w' str, finish (mk_mstate false r g) None args w = Ok (run_ending r args, w') /\
    wcs_encode (s ++ [NL]) = Some str /\ doc w' = None /\
    sent dest (s_tty cfg) str (events w').
Proof.
  intros Hw Ed Hw1 Ha Hne Hs.
  destruct (trims w1 a s Hw1 Ha Hne Hs) as (d1 & d2 & E1 & E2 & _ & C2).
  destruct (shows_and_cleans w1 a d2 (s ++ [NL]) Hw1 C2) as (w' & str & E & Es & Hd & He).
  { eapply tidy_writable, (neat_document _ SPACE), Hs. }
  { by destruct s. }
  exists w', str. split_and!; [|done|done|done].
  unfold finish, close_document. cbn [done reexec andb negb the_globals].
  erewrite prog_bind_ok by reflexivity. step_with (init_output w (rep_output w _ Hw)). step_with (command_given w).
  assert ((dump g;; chomp_doc;; compress_doc) w = Ok (tt, set_doc (Some d2) w1)) as Et
    by (step_with Ed; step_with E1; exact E2).
  step_with Et. apply prog_bind_inv in E as ([] & w2 & E3 & E4). step_with E3. step_with E4. apply command_run.
Qed.

Lemma display_taken c m w w1 :
  find_display (displays g) c = Some m -> (master_header;; m;; master_footer) w = Ok (tt, w1) ->
  exists w', option_step (OptChar c) (mk_mstate false r g) w = Ok (mk_mstate true r g, w') /\
    master_footer w' = Ok (tt, w1).
Proof.
  intros Hm Ed. apply prog_bind_inv in Ed as ([] & w2 & E2 & Ed).
  apply prog_bind_inv in Ed as ([] & w3 & E3 & Ed). exists w3. split; [|exact Ed].
  cbn [option_step the_globals reexec]. rewrite (display_option_table g c m Hm).
  step_with E2. erewrite prog_bind_ok; [|step_with E3; reflexivity]. reflexivity.
Qed.

(** The same with one display option. *)
Lemma ends_display c m w w1 a s :
  find_display (displays g) c = Some m -> (master_header;; m;; master_footer) w = Ok (tt, w1) ->
  rep cfg w1 a -> a_text a = s ++ [NL] -> s <> [] -> neat (s_pad cfg) s ->
  exists w' str,
    (m' ← options_loop [OptChar c] (mk_mstate false r g); finish m' None args) w = Ok (run_ending r args, w') /\
    wcs_encode (s ++ [NL]) = Some str /\ doc w' = None /\
    sent dest (s_tty cfg) str (events w').
Proof.
  intros Hm Ed Hw1 Ha Hne Hs.
  destruct (trims w1 a s Hw1 Ha Hne Hs) as (d1 & d2 & E1 & _ & C1 & _).
  destruct (shows_and_cleans w1 a d1 (s ++ [NL]) Hw1 C1) as (w' & str & E & Es & Hd & He).
  { eapply tidy_writable, (neat_document _ SPACE), Hs. }
  { by destruct s. }
  exists w', str. split_and!; [|done|done|done].
  destruct (display_taken c m w w1 Hm Ed) as (w3 & Eo & Ef). rewrite (loop_option _ _ _ _ _ _ _ Eo).
  erewrite prog_bind_ok by reflexivity. unfold finish.
  assert (close_document (mk_mstate true r g) w3 = Ok (tt, set_doc (Some d1) w1)) as Ec.
  { unfold close_document. cbn [done]. step_with (footer_asserts w3 w1 Ef). step_with Ef. step_with E1.
    erewrite prog_bind_ok by reflexivity. cbn [output_format set_doc].
    rewrite (proj1 (rep_configured _ _ _ Hw1)). by destruct Hmarkup as [-> | ->]. }
  step_with Ec. step_with (init_output (set_doc (Some d1) w1) (rep_output w1 a Hw1)).
  step_with (command_given (set_doc (Some d1) w1)). erewrite prog_bind_ok by reflexivity.
  apply prog_bind_inv in E as ([] & w4 & E4 & E5). step_with E4. step_with E5. apply command_run.
Qed.
End Ending.

(** ** Whole runs *)
Lemma run_settings_fit f dest euid tty : indent_fits (run_settings f dest euid tty).
Proof. by vm_compute. Qed.

Definition display_options (c : option Z) : list cli_option :=
  match c with Some c => [OptChar c] | None => [] end.

(** The titles of what a run with these options shows. *)
Definition shown_titles (c : option Z) : list wstr :=
  match c with
  | Some c => option_list (find_title display_titles c)
  | None => section_titles
  end.

(** Titles are not empty and hold no backslash. *)
Lemma titles_plain c : Forall (fun n => n <> [] /\ doubled n = n) (shown_titles c).
Proof.
  assert (Forall (fun n => n <> [] /\ doubled n = n) (section_titles ++ map snd display_titles)) as Hall
    by (refine (bool_decide_unpack _ _); by vm_compute).
  apply Forall_app in Hall as [Hs Hd]. destruct c as [c|]; [|exact Hs]. cbn [shown_titles].
  destruct (find_title display_titles c) as [n|] eqn:E; [|constructor].
  constructor; [|constructor]. rewrite Forall_forall in Hd. by apply Hd, (find_title_in _ c).
Qed.

Lemma doubled_titles c : map doubled (shown_titles c) = shown_titles c.
Proof. induction (titles_plain c) as [|n ns [_ Hn] _ IH]; [done|]. cbn. by rewrite Hn, IH. Qed.

Lemma titles_named c : [] ∉ shown_titles c.
Proof. pose proof (titles_plain c) as Ht. rewrite Forall_forall in Ht. by intros []%Ht. Qed.

Definition displays_something (c : option Z) : Prop :=
  forall x, c = Some x -> is_Some (find_display (displays g) x).

(** What is asked for is shown: [build] is the text of a document with the given
    trees. *)
Lemma run_shows cfg (build : list tree -> wstr) (dest : option bytes) (c : option Z) (r : bool) (args : list bytes) w
  `{!ProgramAnswers cfg g} :
  re_executes r args ->
  s_pad cfg <> NL -> markup (s_format cfg) ->
  s_sink cfg = sink_to (s_pad cfg) dest ->
  displays_something c -> rep cfg w start_doc ->
  (forall m ts, prints cfg m ts -> forallb (well_placed CMembers) ts = true ->
     Forall (fun t => depth t <= DISPLAY_DEPTH) ts -> map tree_name ts = shown_titles c ->
     exists w1 a, (master_header;; m;; master_footer) w = Ok (tt, w1) /\ rep cfg w1 a /\
       a_text a = build ts ++ [NL] /\ build ts <> [] /\ neat (s_pad cfg) (build ts)) ->
  exists w' m ts str,
    (m' ← options_loop (display_options c) (mk_mstate false r g); finish m' None args) w
      = Ok (run_ending r args, w') /\
    prints cfg m ts /\ forallb (well_placed CMembers) ts = true /\
    Forall (fun t => depth t <= DISPLAY_DEPTH) ts /\ map tree_name ts = shown_titles c /\
    wcs_encode (build ts ++ [NL]) = Some str /\ doc w' = None /\
    sent dest (s_tty cfg) str (events w').
Proof.
  intros Hexec Hnl Hm Hsink Hc Hw Hbuild. assert (k_wide (s_sink cfg) = s_pad cfg) as Hwide by by rewrite Hsink.
  destruct c as [c|]; cbn [display_options].
  - destruct (Hc c eq_refl) as [m Hfind].
    destruct (titled_find_display cfg g c m Hfind) as (n & Hn & k & ts & Hp & Hwp & Hd).
    assert (map tree_name [TBlock k n ts] = shown_titles (Some c)) as Ht by (cbn [shown_titles]; by rewrite Hn).
    assert (forallb (well_placed CMembers) [TBlock k n ts] = true) as Hwps by (cbn [forallb]; by rewrite Hwp).
    assert (Forall (fun t => depth t <= DISPLAY_DEPTH) [TBlock k n ts]) as Hds by by constructor.
    destruct (Hbuild m _ Hp Hwps Hds Ht) as (w1 & a & E & Hw1 & Ha & Hne & Hneat).
    destruct (ends_display r args Hexec cfg Hwide Hnl Hm dest Hsink c m w w1 a _ Hfind E Hw1 Ha Hne Hneat)
      as (w' & str & E' & Hrest).
    by exists w', m, [TBlock k n ts], str.
  - destruct (body_prints cfg g) as (ts & Hp & Hwp & Hd & Ht).
    destruct (Hbuild _ ts Hp Hwp Hd Ht) as (w1 & a & E & Hw1 & Ha & Hne & Hneat).
    destruct (ends_dump r args Hexec cfg Hwide Hnl Hm dest Hsink w w1 a _ Hw E Hw1 Ha Hne Hneat)
      as (w' & str & E' & Hrest).
    by exists w', (for_each (dump_sections g) (fun section => section)), ts, str.
Qed.

(** C1: a whole run in JSON, for all sections or for one display option, to the
    standard output or to a file, with or without a command to execute, on a
    system whose strings can be shown, whatever its other answers: [main] does
    not fail; what it sends out, with one call, is the bytes of one JSON object,
    whose members are the sections asked for, in order, and of a newline; then
    it has closed what it opened and freed the document, and it exits, or
    executes exactly the command given. *)
Theorem main_json (dest : option bytes) (c : option Z) (r : bool) (args : list bytes)
  `{!ProgramAnswers (run_settings OUTPUT_FORMAT_JSON dest (euid (user g)) start_tty) g} :
  displays_something c -> re_executes r args ->
  exists w' txt ms str,
    main (run_options (lit "json") dest r ++ display_options c) args (initial_state mem0 None)
      = Ok (run_ending r args, w') /\
    jvalue txt (JObject ms) /\ map fst ms = shown_titles c /\
    wcs_encode (txt ++ [NL]) = Some str /\ doc w' = None /\
    sent dest start_tty str (events w').
Proof.
  intros Hc Hexec. set (cfg := run_settings OUTPUT_FORMAT_JSON dest (euid (user g)) start_tty) in *.
  destruct (main_starts OUTPUT_FORMAT_JSON (lit "json") dest r (display_options c) args eq_refl) as (w & Hw & ->).
  assert (json_ws_char (s_pad cfg)) as Hpad by by left.
  assert (forall m ts, prints cfg m ts -> forallb (well_placed CMembers) ts = true ->
     Forall (fun t => depth t <= DISPLAY_DEPTH) ts ->
     exists w1 a, (master_header;; m;; master_footer) w = Ok (tt, w1) /\ rep cfg w1 a /\
       a_text a = json_text cfg ts ++ [NL] /\ a_level a = 0%Z /\
       jvalue (json_text cfg ts) (JObject (map member_of ts))) as Hbuild.
  { intros m ts Hp Hwp Hd. by apply (prints_json_builds cfg m w ts eq_refl Hpad (run_settings_fit _ _ _ _)). }
  destruct (run_shows cfg (json_text cfg) dest c r args w) as (w' & m & ts & str & E & Hp & Hwp & Hd & Ht & Hrest);
    [done|done|by left|done|done|done| |].
  - intros m ts Hp Hwp Hd _. destruct (Hbuild m ts Hp Hwp Hd) as (w1 & a & E & Hw1 & Ha & _).
    exists w1, a. split_and!; try done. by apply neat_json.
  - destruct (Hbuild m ts Hp Hwp Hd) as (_ & _ & _ & _ & _ & _ & Hj).
    exists w', (json_text cfg ts), (map member_of ts), str. split_and!; try apply Hrest; try done.
    apply member_titles; [done|apply doubled_titles].
Qed.

(** *** The XML text *)
Lemma xml_text_not_empty cfg ts pn pv ps mode : xml_text cfg ts pn pv ps mode <> [].
Proof. unfold xml_text, header_text. intros E. by apply (f_equal head) in E. Qed.

Lemma printing_mode e : Forall printing (mode_text e).
Proof. unfold mode_text. destruct (Z.eqb e 0); by apply printing_lit. Qed.

Lemma items_titled `{Locale} cfg ts l :
  [] ∉ map tree_name ts -> map tree_name ts <> [] -> flat_map (items cfg l) ts <> [].
Proof.
  destruct ts as [|t ts]; [done|]. cbn [map]. intros [Ht _]%not_elem_of_cons _ E.
  apply app_eq_nil in E as [E _]. by destruct t.
Qed.

Lemma titles_some cfg `{!ProgramAnswers cfg g} c : displays_something c -> shown_titles c <> [].
Proof.
  intros Hc. destruct c as [c|]; [|done]. destruct (Hc c eq_refl) as [m Hm].
  destruct (titled_find_display cfg g c m Hm) as (n & Hn & _). cbn [shown_titles]. by rewrite Hn.
Qed.

(** C2: the same in XML: what is sent out is the declaration, the root tag of the
    package and of the user's privilege, content that the grammar accepts, whose
    elements have the titles of the sections asked for, in order, and the end
    tag of the root; the trimming has taken nothing away.  The content is these
    elements for a reader that takes any character reference, and by XML 1.0
    exactly when no name or value holds a character that XML 1.0 forbids: a
    control character in an environment variable, say, is sent out as a reference
    that a validating parser rejects. *)
Theorem main_xml (dest : option bytes) (c : option Z) (r : bool) (args : list bytes) (pn pv ps : wstr)
  `{!ProgramAnswers (run_settings OUTPUT_FORMAT_XML dest (euid (user g)) start_tty) g} :
  displays_something c -> re_executes r args -> package_decodes pn pv ps -> Forall printing (pn ++ pv ++ ps) ->
  exists w' inner ns str,
    main (run_options (lit "xml") dest r ++ display_options c) args (initial_state mem0 None)
      = Ok (run_ending r args, w') /\
    xcontent any_char inner ns /\
    (xcontent xml_char inner ns <-> forallb (xml_allowed xml_char) ns = true) /\
    map xml_title ns = shown_titles c /\
    wcs_encode (header_text pn pv ps (mode_text (euid (user g))) ++ inner ++
                lit "</" ++ pn ++ lit ">" ++ [NL]) = Some str /\ doc w' = None /\
    sent dest start_tty str (events w').
Proof.
  intros Hc Hexec Hpkg Hpr. set (cfg := run_settings OUTPUT_FORMAT_XML dest (euid (user g)) start_tty) in *.
  destruct (main_starts OUTPUT_FORMAT_XML (lit "xml") dest r (display_options c) args eq_refl) as (w & Hw & ->).
  assert (json_ws_char (s_pad cfg)) as Hpad by by left.
  assert (s_pad cfg <> NL) as Hnl by done.
  assert (user_euid w = euid (user g)) as He by apply (rep_configured _ _ _ Hw).
  set (mode := mode_text (euid (user g))). set (build := fun ts => xml_text cfg ts pn pv ps mode).
  assert (forall m ts, prints cfg m ts -> Forall (fun t => depth t <= DISPLAY_DEPTH) ts ->
     exists w1 a, (master_header;; m;; master_footer) w = Ok (tt, w1) /\ rep cfg w1 a /\
       a_text a = build ts ++ [NL] /\ a_level a = 0%Z /\
       xml_reads (xml_inner cfg ts) (flat_map xml_of ts)) as Hbuild.
  { intros m ts Hp Hd. unfold build, mode. rewrite <- He.
    by apply (prints_xml_builds cfg m w ts pn pv ps eq_refl Hpad (run_settings_fit _ _ _ _)). }
  destruct (run_shows cfg build dest c r args w) as (w' & m & ts & str & E & Hp & Hwp & Hd & Ht & Hrest);
    [done|done|by right|done|done|done| |].
  - intros m ts Hp Hwp Hd Ht. destruct (Hbuild m ts Hp Hd) as (w1 & a & E & Hw1 & Ha & _).
    exists w1, a. split; [exact E|]. split; [exact Hw1|]. split; [exact Ha|]. split.
    + exact (xml_text_not_empty cfg ts pn pv ps mode).
    + apply (neat_xml cfg Hpad Hnl ts pn pv ps mode eq_refl).
      * rewrite !app_assoc, Forall_app. rewrite <- !app_assoc. split; [exact Hpr|]. apply printing_mode.
      * apply items_titled; rewrite Ht; [apply titles_named|by apply (titles_some cfg)].
  - destruct (Hbuild m ts Hp Hd) as (_ & _ & _ & _ & _ & _ & Hx).
    exists w', (xml_inner cfg ts), (flat_map xml_of ts), str. split_and!; try apply Hrest; try apply Hx; try done.
    + rewrite xml_titles; rewrite Ht; [done|apply titles_named].
    + destruct Hrest as [<- _]. unfold build, xml_text. by rewrite <- !app_assoc.
Qed.
(** ** Runs that are refused *)
Lemma bind_die {S A B} (m : prog S A) (k : A -> prog S B) s msg : m s = Die msg -> (m ≫= k) s = Die msg.
Proof. intros E. unfold mbind, prog_bind. by rewrite E. Qed.

Lemma loop_after os1 os2 m w m1 w1 {A} (k : mstate -> prog ostate A) :
  options_loop os1 m w = Ok (m1, w1) ->
  (m' ← options_loop (os1 ++ os2) m; k m') w = (m' ← options_loop os2 m1; k m') w1.
Proof.
  revert m w. induction os1 as [|o os1 IH]; intros m w E; [by injection E as -> ->|].
  apply prog_bind_inv in E as (m2 & w2 & E2 & E). cbn [app]. rewrite (loop_option _ _ _ _ _ _ _ E2). by apply IH.
Qed.

(** An option that is refused ends the run with its message. *)
Lemma run_refused os1 o os2 args m1 w1 msg :
  options_loop os1 (mk_mstate false false g) start_options = Ok (m1, w1) -> option_step o m1 w1 = Die msg ->
  main (os1 ++ o :: os2) args (initial_state mem0 None) = Die msg.
Proof.
  intros E Eo. rewrite main_begins, (loop_after _ _ _ _ _ _ _ E). apply bind_die. cbn [options_loop].
  by apply bind_die.
Qed.

(** A setting is refused behind a display option. *)
Lemma late_setting_dies name optarg m w :
  done m = true -> name <> lit "exec" ->
  option_step (OptLong name optarg) m w = Die "Must specify non-display options before display options".
Proof.
  intros Hd Hn. cbn [option_step]. unfold set_option. rewrite Hd.
  destruct (names name "exec") eqn:E; [by apply names_spec in E|]. by apply bind_die.
Qed.

(** A setting whose value is refused. *)
Lemma unknown_format_dies name m w :
  done m = false -> map_find output_format_map name = None ->
  option_step (OptLong (lit "format") name) m w = Die "invalid output format value".
Proof.
  intros Hd Hn. cbn [option_step]. unfold set_option. rewrite Hd. known_names. cbn [andb].
  erewrite prog_bind_ok by reflexivity. do 2 apply bind_die. unfold set_output_format. by rewrite Hn.
Qed.

Lemma unknown_output_dies name m w :
  done m = false -> map_find output_map name = None ->
  option_step (OptLong (lit "output") name) m w = Die "invalid output value".
Proof.
  intros Hd Hn. cbn [option_step]. unfold set_option. rewrite Hd. known_names. cbn [andb].
  erewrite prog_bind_ok by reflexivity. do 2 apply bind_die. unfold set_output_value. by rewrite Hn.
Qed.

Lemma no_indent_dies optarg n m w :
  done m = false -> atoi optarg = Ok n -> (n <= 0)%Z ->
  option_step (OptLong (lit "indent") optarg) m w = Die "cannot specify indent <= 0".
Proof.
  intros Hd Hn Hle. cbn [option_step]. unfold set_option. rewrite Hd. known_names. cbn [andb].
  erewrite prog_bind_ok by reflexivity. apply bind_die. erewrite prog_bind_ok; [|by rewrite Hn].
  do 2 (erewrite prog_bind_ok by reflexivity). cbn [indent_amount put_indent_amount].
  by rewrite (proj2 (Z.leb_le n 0)).
Qed.

Lemma indent_char_dies optarg m w :
  done m = false -> (forall wide, mbs_decode (literal_arg optarg) <> Some [wide]) ->
  option_step (OptLong (lit "indent-char") optarg) m w = Die "invalid indent character".
Proof.
  intros Hd Hn. cbn [option_step]. unfold set_option. rewrite Hd, is_tab_spec. known_names. cbn [andb].
  erewrite prog_bind_ok by reflexivity. apply bind_die.
  erewrite prog_bind_ok; [|unfold set_indent_char; step_with (strdup_state_run (literal_arg optarg) w); reflexivity].
  apply bind_die. unfold handle_indent_char, the_indent_char. run_prim. cbn [indent_char put_indent_char].
  destruct (mbs_decode (literal_arg optarg)) as [[|wc [|]]|] eqn:E; try done. by destruct (Hn wc).
Qed.

(** C3: the command lines that the program refuses.  Let the options [os1] be
    taken, whatever they are and in whatever format, and [m1] and [w1] be the
    locals and the globals behind them; whatever follows ([os2], [args]), the
    run ends in [die] with the message that says what is wrong: behind a display
    option, any setting but [--exec]; before the first one, an unknown format or
    output, an indent that is not positive, an indent character that is not one
    character; anywhere that the header can be written, an unknown option; and at
    the end of the options, [--exec] without an argument, when the document of the
    display options, if there are any, can be closed. *)
Theorem main_refuses (os1 os2 : list cli_option) (args : list bytes) (m1 : mstate) (w1 : ostate) :
  options_loop os1 (mk_mstate false false g) start_options = Ok (m1, w1) ->
  (done m1 = true -> forall name optarg, name <> lit "exec" ->
     main (os1 ++ OptLong name optarg :: os2) args (initial_state mem0 None)
     = Die "Must specify non-display options before display options") /\
  (done m1 = false -> forall name, map_find output_format_map name = None ->
     main (os1 ++ OptLong (lit "format") name :: os2) args (initial_state mem0 None)
     = Die "invalid output format value") /\
  (done m1 = false -> forall name, map_find output_map name = None ->
     main (os1 ++ OptLong (lit "output") name :: os2) args (initial_state mem0 None)
     = Die "invalid output value") /\
  (done m1 = false -> forall optarg n, atoi optarg = Ok n -> (n <= 0)%Z ->
     main (os1 ++ OptLong (lit "indent") optarg :: os2) args (initial_state mem0 None)
     = Die "cannot specify indent <= 0") /\
  (done m1 = false -> forall optarg, (forall wide, mbs_decode (literal_arg optarg) <> Some [wide]) ->
     main (os1 ++ OptLong (lit "indent-char") optarg :: os2) args (initial_state mem0 None)
     = Die "invalid indent character") /\
  (forall w2, master_header w1 = Ok (tt, w2) ->
     main (os1 ++ OptChar (char_of "?") :: os2) args (initial_state mem0 None)
     = Die "invalid option specified") /\
  (reexec m1 = true -> forall w2, close_document m1 w1 = Ok (tt, w2) ->
     main os1 [] (initial_state mem0 None) = Die "must specify at least one argument with '--exec'").
Proof.
  intros E. split_and!.
  - intros Hd name optarg Hn. by eapply run_refused, late_setting_dies.
  - intros Hd name Hn. by eapply run_refused, unknown_format_dies.
  - intros Hd name Hn. by eapply run_refused, unknown_output_dies.
  - intros Hd optarg n Hn Hle. by eapply run_refused, no_indent_dies.
  - intros Hd optarg Hn. by eapply run_refused, indent_char_dies.
  - intros w2 Eh. eapply run_refused; [done|]. cbn [option_step]. by step_with Eh.
  - intros Hr w2 Ec. rewrite main_begins. step_with E. unfold finish. step_with Ec.
    assert (exists w3, output_init w2 = Ok (tt, w3)) as [w3 Eo]
      by (unfold output_init; run_prim; destruct (bool_decide _); by eexists).
    step_with Eo. apply bind_die. by rewrite Hr.
Qed.
End Program.
