(* ===== verification/SampleSystem.v ===== *)
(** SampleSystem: a concrete system, and that it answers as the theorems about
    the display functions and about whole runs ask.  The driver is that of
    Linux. *)
From Stdlib Require Import Sorted.
From S2P Require Import Prelude Memory PrList Locale PString StringUtil Encode Output OutputSpec Document Json Crumb Xml Tidy Util Affinity Prints Display Format Platform Process Report Signals Terminal Ranges Runtime NetCache Network Generic Options LinuxProc LinuxIpc LinuxCaps LinuxFds Linux Usage Sink Main Program.

#[export] Existing Instances total_allocator total_allocator_total c_locale c_locale_laws sample_package
  Display.sample_collation Display.sample_collation_laws Network.sample_network.

(** ** The system *)
#[export] Instance run_start : Start := {|
  argvp := [lit "/bin/procenv"; lit "--format=json"];
  environ := [lit "HOME=/root"; lit "A=b"];
  driver_name := lit "linux";
  driver_file := lit "platform.c";
  reproducible_build := true
|}.

#[export] Instance run_system : Util.System := {|
  fcntl_getfl := fun _ => (0, 0)%Z;
  ioctl_vt_getmode := fun _ => (-1)%Z;
  open_tty := (-1)%Z;
  getuid := 0%Z;
  stat := fun p => if bool_decide (p = lit "/") then Some (mk_stat 8 2 16877 0) else None;
  read_file := fun p =>
    if bool_decide (p = lit "/proc/self/cgroup") then Some (file_of [lit "4:memory:/user"; lit "0::/user.slice:x"])
    else if bool_decide (p = lit "/proc/42/status")
    then Some (status_file [] [lit "State: R"] [lit "Threads: 1"] (lit "procenv") (lit "1"))
    else if bool_decide (p = lit "/proc/1/status") then Some (status_file [] [] [] (lit "init") (lit "0"))
    else if bool_decide (p = lit "/proc/self/oom_score") then Some (file_of [lit "100"])
    else if bool_decide (p = lit "/proc/cpuinfo") then Some (file_of [lit "processor: 0"; lit "flags: fpu hypervisor"])
    else if bool_decide (p = lit "/proc/7/cmdline") then Some (lit "sshd" ++ [0%Z] ++ lit "-D" ++ [0%Z])
    else None;
  makedev := fun a b => (256 * a + b)%Z;
  major := fun d => (d / 256)%Z;
  minor := fun d => (d mod 256)%Z
|}.

Definition root_entry : passwd := mk_passwd (lit "root") 0 (lit "root") (lit "/root") (lit "/bin/sh").

(** The process is in the groups 0 and 4. *)
#[export] Instance run_identity : Identity := {|
  getpid := 42;
  getppid := 1;
  getresuid := Some (0, 0, 0)%Z;
  getresgid := Some (0, 0, 0)%Z;
  getsid := 42;
  getlogin := None;
  getpgrp := 42;
  ctermid := lit "/dev/tty";
  open_rdwr := fun _ => (-1)%Z;
  tcgetpgrp := fun _ => 42%Z;
  getpwuid := fun u => if Z.eqb u 0 then Some root_entry else None;
  getgrgid := fun g => if Z.eqb g 0 then Some (lit "root") else if Z.eqb g 4 then Some (lit "adm") else None;
  getgroups := fun size => if Z.leb 2 size then Some [4; 0]%Z else None;
  umask_now := 18;
  getcwd := Some (lit "/root");
  getpriority := fun _ => 0%Z;
  uname := Some (mk_utsname (lit "Linux") (lit "host") (lit "6.1") (lit "1") (lit "x86_64") []);
  driver_proc_name := lit "procenv";
  driver_root := lit "/"
|}.

(** Two signals and two flags of interfaces; every other macro is 1 unless it is
    listed. *)
Definition run_macros : list (bytes * Z) :=
  [ (lit "SIGHUP", 1); (lit "SIGINT", 2); (lit "IFF_UP", 1); (lit "IFF_EBRIDGE", 2);
    (lit "LIBNUMA_API_VERSION", 2); (lit "MPOL_DEFAULT", 0); (lit "MPOL_PREFERRED", 1); (lit "MPOL_BIND", 2);
    (lit "MPOL_INTERLEAVE", 3) ]%Z.

#[export] Instance run_headers : Headers := {|
  macro := fun n =>
    match list_find (fun e => bool_decide (e.1 = n)) run_macros with
    | Some (_, e) => Some e.2
    | None => if prefix_of (lit "SIG") n || prefix_of (lit "IFF_") n then None else Some 1%Z
    end
|}.

#[export] Instance run_machine : Machine := {|
  sysconf := fun _ => 8%Z;
  sizeof := fun _ => 8%Z;
  getrusage := Some (fun _ => 0%Z);
  getpagesize := 4096;
  byte_order := fun z => if Z.eqb z 1 then [1; 0; 0; 0]%Z else [0; 0; 0; 0]%Z;
  getenv := fun _ => None;
  setlocale := fun _ _ => None;
  compiler_name := Some (lit "GCC");
  compiler_version := None;
  compile_date := lit "Jan  1 2021";
  compile_time := lit "00:00:00";
  compile_timestamp := None;
  compile_file := lit "procenv.c";
  compile_base_file := lit "procenv.c";
  libc_name := Some (lit "glibc");
  libc_version := 2;
  libc_minor := 36
|}.

#[export] Instance run_signals : Signals.Signals := {|
  sigprocmask := Some (fun _ => 0%Z);
  sigaction_ignores := fun _ => Some false;
  strsignal := fun i => if Z.eqb i 1 then Some (lit "Hangup") else None
|}.

#[export] Instance run_terminal : Terminal.Terminal := {|
  isatty := fun fd => Z.eqb fd 0;
  tcgetattr := fun _ => None;
  tty_locked := None;
  get_winsize := fun _ => None;
  speed_code := fun s => s
|}.

#[export] Instance run_clock : Clock := {|
  localtime := fun _ => Some (mk_tm 121 0 2 0 0);
  asctime_r := fun _ => Some (lit "Sat Jan  2 00:00:00 2021" ++ [NL]);
  ctime_r := fun _ => Some (lit "Fri Jan  1 00:00:00 2021" ++ [NL])
|}.

#[export] Instance run_threads : Threads := {|
  stack_size := 8388608;
  scope := Some 0%Z;
  guard_size := Some 4096%Z;
  schedparam := Some (0, 0)%Z;
  inheritsched := None;
  concurrency := 0;
  PTHREAD_SCOPE_SYSTEM := 0;
  PTHREAD_INHERIT_SCHED := 0;
  SCHED_OTHER := 0;
  SCHED_FIFO := 1;
  SCHED_RR := 2
|}.

Definition program_file : file_status := mk_file_status 2049 77 33261 1 0 0 65536 128 0 0 0.

#[export] Instance run_files : Files := {|
  env_path := Some (lit "/bin");
  path_stdpath := lit "/usr/bin";
  realpath := fun p => Some p;
  stat_file := fun _ => Some program_file
|}.

#[export] Instance run_personality : Personality := {|
  LINUX_VERSION_CODE := 393472;
  personality := 0;
  personality_map := terminated [(lit "PER_LINUX", 0%Z)];
  personality_flag_map := [(lit "ADDR_NO_RANDOMIZE", 262144%Z)]
|}.

(** One mount, on a link to a device, and one library. *)
#[export] Instance run_generic : GenericSystem := {|
  getrlimit := fun _ => Some (1024, 4096)%Z;
  clock_getres := fun _ => Some (mk_timespec 0 1);
  clock_gettime_realtime := Some (mk_timespec 86400 5);
  interface_mtu := fun _ => Some (Some 1500%Z);
  ttyname := fun _ => None;
  show_fd_capabilities := None;
  confstr := fun _ => Some (lit "/bin:/usr/bin");
  sysinfo := Some (mk_sysinfo 4096 1024 0 0 0 0 1048576);
  pathconf := fun _ _ => (255, 0)%Z;
  mount_table := Some [mk_mntent (lit "/dev/root") (lit "/") (lit "ext4") (lit "rw") 0 0];
  statvfs := fun _ => Some (mk_statvfs 4096 100 50 40 10 5 7);
  readlink := fun p =>
    if bool_decide (p = lit "/proc/self/ns/uts") then Some (lit "uts:[4026531838]")
    else if bool_decide (p = lit "/proc/self/ns/mnt") then Some (lit "mnt:[4026531841]")
    else Some (lit "/dev/sda1");
  tzname0 := lit "UTC";
  tzname1 := lit "UTC";
  timezone := 0;
  daylight := 0;
  shared_objects := [([], 0%Z); (lit "/lib/libc.so.6", 140737%Z)]
|}.

(** What the Linux driver asks. *)
#[export] Instance run_scheduler : Scheduler := {| sched_getcpu := 3; sched_getscheduler := 1 |}.

Definition sample_queue : msqid_ds :=
  mk_msqid_ds (mk_ipc_perm 4660 1 420 0 0 0 4) 86400 0 86400 10 2 16384 7 0.

#[export] Instance run_ipc : Ipc := {|
  msg_info := Some (1, fun _ => 8)%Z;
  msg_stat := fun i => if Z.eqb i 1 then Some (5%Z, sample_queue) else None;
  sem_info := None;
  sem_stat := fun _ => None;
  shm_info := None;
  shm_stat := fun _ => None
|}.

(** The kernel knows four capabilities, and the headers two. *)
#[export] Instance run_prctl : Prctl := {| prctl := fun _ _ => (-1, 0)%Z; prctl_name := Some (lit "procenv") |}.
#[export] Instance run_capabilities : Capabilities := {|
  cap_get_proc := true;
  cap_get_flag := fun _ _ => Some 1%Z;
  cap_get_bound := fun c => if Z.leb c 3 then 1%Z else (-1)%Z
|}.
#[export] Instance run_security : SecurityModules := {|
  aa_is_enabled := false;
  aa_gettaskcon := None;
  is_selinux_enabled := 0;
  is_selinux_mls_enabled := 0;
  getpidcon := None
|}.

#[export] Instance run_directories : Directories := {|
  readdir := fun p =>
    if bool_decide (p = NS_PATH) then Some [lit "."; lit ".."; lit "uts"; lit "mnt"]
    else Some [lit "."; lit ".."; lit "0"; lit "3"]
|}.

#[export] Instance run_ioprio : IoPriorities := {| ioprio_get := fun _ => 16388%Z |}.

#[export] Instance run_numa : Numa := {|
  numa_available := 0;
  get_mempolicy := Some 1%Z;
  numa_num_possible_nodes := 4;
  numa_num_configured_nodes := 2;
  numa_max_node := 1;
  numa_get_mems_allowed := Some (4, fun n => Z.ltb n 2)%Z;
  numa_get_run_node_mask := fun _ => false;
  NUMA_NUM_NODES := 128
|}.

(** The kernel wants a set of at least sixteen bytes. *)
#[export] Instance run_linux : LinuxSystem := {|
  extended_flags := fun _ => Some (Some 2%Z);
  pthread_getaffinity_np := fun size => if Z.ltb size 16 then (EINVAL, []) else (0, [0; 1; 2; 5])%Z;
  ioctl_lock_status := fun _ => None
|}.

#[export] Instance run_driver : Driver := platform_ops.

#[export] Instance run_environment : Environment := {|
  op_init := None;
  op_cleanup := None;
  op_get_io_priorities := None;
  atexit_fails := false;
  execvp_works := fun _ => true;
  PACKAGE_URL := lit "https://github.com/jamesodhunt/procenv"
|}.

#[export] Instance run_host : Host := {|
  fputs_ret := fun _ _ _ => 1%Z;
  open_ret := fun _ _ _ => 3%Z;
  write_ret := fun _ _ _ => 2%Z
|}.

(** What init stores. *)
Definition run_globals : globals :=
  mk_globals
    (mk_user root_entry (lit "procenv") (lit "/dev/tty") (mk_user_ids 42 42 42) 1 None 42 0 0 0 0 0 0)
    (mk_misc (lit "/root") (lit "/") 18) get_priorities
    (mk_utsname (lit "Linux") (lit "host") (lit "6.1") (lit "1") (lit "x86_64") []).

(** ** It answers as the theorems ask *)
Section Answers.
Context (cfg : settings).

Ltac literals := repeat (apply Forall_cons_2; [apply printable_showable; reflexivity|]); apply Forall_nil_2.

#[export] Instance run_generic_answers : GenericAnswers cfg.
Proof.
  constructor.
  - intros e _. by eexists.
  - done.
  - intros fd. exact I.
  - intros z s E. injection E as <-. by apply printable_showable.
  - intros mounts E. injection E as <-. apply Forall_cons_2; [|apply Forall_nil_2].
    split_and!; try (by apply printable_showable). by apply nameable_literal.
  - intros path target E. cbn in E. repeat case_bool_decide; injection E as <-;
      (split; [unfold PATH_MAX; cbn; lia|by apply printable_showable]).
  - split; by apply printable_showable.
  - apply Forall_cons_2; [done|]. apply Forall_cons_2; [|apply Forall_nil_2].
    intros _. split; [by apply printable_showable|by apply nameable_literal].
Qed.

Lemma text_line_check s :
  forallb (fun c => negb (Z.eqb c 0) && negb (Z.eqb c NL)) s = true -> length s < 1023 -> text_line 1023 s.
Proof.
  rewrite forallb_forall. intros Hs Hl. split_and!; [| |done].
  - apply Forall_forall. intros c Hc ->. apply list_elem_of_In, Hs in Hc. done.
  - intros Hc. apply list_elem_of_In, Hs in Hc. done.
Qed.

Ltac line := apply text_line_check; [reflexivity|cbn; lia].
Ltac absent := apply (bool_decide_unpack _); vm_compute; exact I.

Definition sample_groups : list (bytes * bytes * bytes) :=
  [(lit "4", lit "memory", lit "/user"); (lit "0", [], lit "/user.slice:x")].

Lemma sample_groups_ok : Forall (cgroup_ok cfg (fun s => s)) sample_groups.
Proof.
  repeat (apply Forall_cons_2;
    [split_and!; [line|absent|absent|done|];
     intros s Hs; repeat (apply elem_of_cons in Hs as [->|Hs]; [apply printable_text; by vm_compute|]);
     by apply elem_of_nil in Hs|]).
  apply Forall_nil_2.
Qed.

Lemma sample_status_process : status_of (lit "42") (lit "procenv") (lit "1").
Proof.
  exists [], [lit "State: R"], [lit "Threads: 1"].
  split_and!; [apply Forall_nil_2| |reflexivity|nz_lit|nz_lit|absent|absent|cbn; lia|cbn; lia].
  apply Forall_cons_2; [split_and!; [line|done|done]|apply Forall_nil_2].
Qed.

Lemma sample_status_init : status_of (lit "1") (lit "init") (lit "0").
Proof.
  exists [], [], [].
  split_and!; [apply Forall_nil_2|apply Forall_nil_2|reflexivity|nz_lit|nz_lit|absent|absent|cbn; lia|cbn; lia].
Qed.

Definition sample_ancestors : list bytes := [lit "42 ('procenv')"; lit "1 ('init')"].

Lemma sample_lineage : lineage (lit "42") sample_ancestors.
Proof.
  apply (lineage_parent (lit "42") (lit "procenv") (lit "1")); [done|nz_lit|apply sample_status_process|absent|].
  apply (lineage_init (lit "init") (lit "0")), sample_status_init.
Qed.

#[export] Instance run_proc_answers : ProcAnswers cfg.
Proof.
  constructor.
  - right. exists (fun s => s), sample_groups. split; [reflexivity|apply sample_groups_ok].
  - intros file text Hin E. unfold oom_file in E.
    repeat (apply elem_of_cons in Hin as [->|Hin]; [vm_compute in E; simplify_eq|]); [|by apply elem_of_nil in Hin].
    exists [lit "100"]. split; [reflexivity|].
    apply Forall_cons_2; [split; [line|by apply printable_showable]|apply Forall_nil_2].
  - exists sample_ancestors. split_and!; [exact sample_lineage|unfold PID_MAX_LIMIT; cbn [length sample_ancestors]; lia|by apply printable_showable].
  - done.
Qed.

Lemma sample_queue_ok : queue_ok cfg (fun s => s) sample_queue.
Proof.
  split_and!; [by eexists..| |].
  - repeat (apply Forall_cons_2; [intros _; split; [reflexivity|cbn; unfold CTIME_BUFFER; lia]|]). apply Forall_nil_2.
  - repeat (apply Forall_cons_2; [apply printable_text; by vm_compute|]). apply Forall_nil_2.
Qed.

#[export] Instance run_ipc_answers : IpcAnswers cfg.
Proof.
  constructor; [done| |by exists (fun s => s)..].
  exists (fun s => s). intros max info E. injection E as <- <-.
  apply Forall_cons_2; [exact sample_queue_ok|apply Forall_nil_2].
Qed.

#[export] Instance run_kernel_answers : KernelAnswers cfg.
Proof.
  constructor.
  - by vm_compute.
  - exists 2. split_and!; [cbn; unfold CAP_BITS; lia| |by vm_compute].
    intros j Hj. change (default 0%Z (macro (lit "CAP_LAST_CAP"))) with 1%Z in Hj. cbn.
    by rewrite (proj2 (Z.leb_le j 3)) by lia.
  - by left.
  - intros s E. injection E as <-. by apply printable_showable.
  - intros e He. by eexists.
  - exists (None, None). done.
Qed.

Lemma sample_namespaces_ok :
  Forall (namespace_ok cfg (fun s => s)) (namespaces_of [lit "."; lit ".."; lit "uts"; lit "mnt"]).
Proof.
  change (namespaces_of [lit "."; lit ".."; lit "uts"; lit "mnt"])
    with [(lit "uts", lit "uts:[4026531838]"); (lit "mnt", lit "mnt:[4026531841]")].
  repeat (apply Forall_cons_2; [split_and!; [absent|done|done|text_lit|text_lit]|]). apply Forall_nil_2.
Qed.

Lemma sample_descriptors_ok :
  Forall (descriptor_ok cfg (fun s => s)) [lit "."; lit ".."; lit "0"; lit "3"].
Proof.
  repeat (apply Forall_cons_2;
    [intros Hd; vm_compute in Hd; first
       [ discriminate Hd
       | split_and!; [by eexists|done|];
         intros fd link st E; vm_compute in E; injection E as <- <- <-; split;
           [text_lit|intros _; split_and!; [by eexists|by eexists|text_lit|text_lit]] ]|]).
  apply Forall_nil_2.
Qed.

#[export] Instance run_link_answers : LinkAnswers cfg.
Proof.
  constructor; right; exists (fun s => s); eexists; (split; [reflexivity|]);
    [exact sample_namespaces_ok|exact sample_descriptors_ok].
Qed.

Lemma sample_refused j : j < 5 -> refused SC_NPROCESSORS_ONLN j.
Proof. intros Hj. do 5 (destruct j as [|j]; [reflexivity|]). lia. Qed.

#[export] Instance run_linux_answers : LinuxAnswers cfg.
Proof.
  constructor.
  - repeat (apply Forall_cons_2; [by eexists|]). apply Forall_nil_2.
  - intros policy _ E. injection E as <-. exists (lit "MPOL_PREFERRED"). split; [by vm_compute|].
    by apply (printable_text cfg).
  - exists 4%Z, (fun n => Z.ltb n 2). by vm_compute.
  - right. exists (lit "SCHED_OTHER"). by vm_compute.
  - split; [by vm_compute|]. exists 5, [0; 1; 2; 5]%Z. split_and!; [lia|apply sample_refused|reflexivity].
Qed.

#[export] Instance run_driver_typed : DriverTyped cfg.
Proof. apply linux_driver_ok; try apply _. exists true. by vm_compute. Qed.

#[export] Instance run_machine_text : MachineText cfg.
Proof.
  constructor; try done.
  - repeat (apply Forall_cons_2; [intros s E; try discriminate; injection E as <-; by apply printable_showable|]).
    apply Forall_nil_2.
  - literals.
Qed.

Lemma run_supplementary : supplementary [4; 0]%Z.
Proof. intros size. done. Qed.

#[export] Instance run_process : ProcessAnswers cfg (user run_globals).
Proof.
  constructor.
  - unfold process_strings. cbn. literals.
  - split_and!; by eexists.
  - exists [(lit "adm", 4%Z); (lit "root", 0%Z)]. eexists. split_and!.
    + exact run_supplementary.
    + done.
    + cbn. lia.
    + repeat (apply Forall_cons_2; [split; [reflexivity|nz_lit]|]). apply Forall_nil_2.
    + apply printable_text. by vm_compute.
Qed.

#[export] Instance run_tty : TerminalAnswers cfg.
Proof. constructor. intros fd tty. cbn. by repeat destruct (Z.eqb _ 0). Qed.

#[export] Instance run_stat : StatAnswers cfg program_name.
Proof.
  constructor.
  - exists (lit "/bin/procenv"), (lit "/bin/procenv"), program_file, (lit "root"), (lit "root").
    split_and!; try done; try (by apply printable_showable).
    intros m0. exists (tick m0). split; [|apply ticked_tick]. apply strdup_run.
  - intros t. exists (lit "Fri Jan  1 00:00:00 2021"). split; [done|by apply printable_showable].
Qed.

#[export] Instance run_misc : MiscAnswers cfg (misc run_globals).
Proof.
  constructor.
  - exists false. by vm_compute.
  - exists NO_STR. split; [by vm_compute|by apply printable_showable].
  - exists [(lit "PER_LINUX", 0%Z)]. split; [done|]. by apply Forall_cons_2.
  - by apply Forall_cons_2.
  - split; by apply printable_showable.
Qed.

#[export] Instance run_network : NetworkAnswers cfg.
Proof.
  constructor.
  - eexists. split; [reflexivity|].
    repeat (apply Forall_cons_2; [split; [by apply printable_showable|done]|]). apply Forall_nil_2.
  - intros a family. unfold address_name.
    destruct (Z.eqb _ _ || Z.eqb _ _); cbn [getnameinfo sample_network];
      (split; [vm_compute; lia|by apply printable_showable]).
Qed.

#[export] Instance run_answers : ProgramAnswers cfg run_globals.
Proof.
  constructor; try apply _.
  - literals.
  - split; apply sayable_says; try done;
      repeat (apply says_some_char; [done|done|]); apply says_some_nil.
  - literals.
  - vm_compute. done.
  - repeat (apply Forall_cons_2;
      [do 2 eexists; split_and!; [reflexivity|by apply nameable_literal|by apply printable_showable]|]).
    apply Forall_nil_2.
  - literals.
  - split; [by eexists|]. intros i s E. cbn in E. destruct (Z.eqb i 1); [|done].
    injection E as <-. by apply printable_showable.
  - exists (mk_timespec 86400 5). do 2 eexists. split_and!; [reflexivity|reflexivity|reflexivity|by apply printable_showable].
  - intros sched p E. injection E as <- <-. by left.
Qed.
End Answers.

#[export] Instance run_runs : Runs run_globals.
Proof.
  constructor; try done.
  repeat (apply Forall_cons_2; [by left|]). apply Forall_nil_2.
Qed.
