(* ===== verification/Sample.v ===== *)
(** Sample: the theorems about the display functions and about whole runs,
    applied on the system of [SampleSystem]. *)
From Stdlib Require Import Sorted.
From S2P Require Import Prelude Memory PrList Locale PString StringUtil Encode Output OutputSpec Document Json Crumb Xml Tidy Util Affinity Prints Display Format Platform Process Report Signals Terminal Ranges Runtime NetCache Network Generic Options LinuxProc LinuxIpc LinuxCaps LinuxFds Linux Usage Sink Main Program SampleSystem.

(** ** The display functions on it *)
Lemma show_proc_witness :
  prints (start_settings OUTPUT_FORMAT_JSON) (show_proc (user run_globals))
    [process_tree (start_settings OUTPUT_FORMAT_JSON) (fun s => s) (user run_globals)
       [TEntry (lit "ancestry") (lit "42 ('procenv'), 1 ('init')")] (lit " 'adm' (4), 'root' (0)")].
Proof.
  apply (show_proc_correct (start_settings OUTPUT_FORMAT_JSON) (fun s => s) (user run_globals)
           [TEntry (lit "ancestry") (lit "42 ('procenv'), 1 ('init')")] [(lit "adm", 4%Z); (lit "root", 0%Z)]).
  - unfold process_strings. cbn. repeat (apply Forall_cons_2; [text_lit|]). apply Forall_nil_2.
  - by eexists.
  - by eexists.
  - by eexists.
  - by eexists.
  - apply (prints_branch _ sample_ancestors); [exact sample_lineage|unfold PID_MAX_LIMIT; cbn [length sample_ancestors]; lia|text_lit].
  - exact run_supplementary.
  - done.
  - cbn. lia.
  - repeat (apply Forall_cons_2; [split; [reflexivity|nz_lit]|]). apply Forall_nil_2.
  - apply Display.sample_collation_laws.
  - apply printable_text. by vm_compute.
Defined.

Lemma show_signals_witness :
  prints (start_settings OUTPUT_FORMAT_JSON) show_signals
    [TBlock KContainer (lit "signals")
       (flat_map (signal_trees (fun s => s) (fun _ => 0%Z) [(lit "SIGHUP", 1%Z); (lit "SIGINT", 2%Z)])
          [1; 2]%Z)].
Proof.
  apply (show_signals_correct (start_settings OUTPUT_FORMAT_JSON) (fun s => s)
           [(lit "SIGHUP", 1%Z); (lit "SIGINT", 2%Z)] (fun _ => 0%Z)); [done|done| |].
  - repeat (apply Forall_cons_2; [split; [text_lit|done]|]). apply Forall_nil_2.
  - intros i. cbn. destruct (Z.eqb i 1); text_lit.
Defined.

Lemma show_ranges_witness :
  exists ts, prints (start_settings OUTPUT_FORMAT_JSON) show_ranges [TBlock KSection (lit "ranges") ts] /\
    length ts = 8.
Proof. eexists. split; [apply (show_ranges_correct (start_settings OUTPUT_FORMAT_JSON))|reflexivity]. Defined.

(** Five nanoseconds after the second of January 1970; January is month 0. *)
Lemma show_time_witness :
  prints (start_settings OUTPUT_FORMAT_JSON) show_time
    [TBlock KSection (lit "time")
       [ TEntry (lit "raw") (lit "86400.5");
         TEntry (lit "local") (lit "Sat Jan  2 00:00:00 2021");
         TEntry (lit "ISO") (lit "2021-00-02T00:00") ]].
Proof.
  apply (show_time_correct (start_settings OUTPUT_FORMAT_JSON) (mk_timespec 86400 5) (mk_tm 121 0 2 0 0)
           (lit "Sat Jan  2 00:00:00 2021")); try done; text_lit.
Defined.

Lemma show_stat_witness :
  prints (start_settings OUTPUT_FORMAT_JSON) (show_stat program_name)
    [stat_tree (fun s => s) program_name (lit "/bin/procenv") (lit "root") (lit "root") program_file
       (lit "Fri Jan  1 00:00:00 2021") (lit "Fri Jan  1 00:00:00 2021") (lit "Fri Jan  1 00:00:00 2021")].
Proof.
  apply (show_stat_correct (start_settings OUTPUT_FORMAT_JSON) (fun s => s) program_name (lit "/bin/procenv")
           (lit "/bin/procenv") program_file (lit "root") (lit "root")
           (lit "Fri Jan  1 00:00:00 2021") (lit "Fri Jan  1 00:00:00 2021") (lit "Fri Jan  1 00:00:00 2021"));
    try done; try text_lit.
  - intros m0. exists (tick m0). split; [|apply ticked_tick]. apply strdup_run.
  - intros s Hs. change program_name with (lit "/bin/procenv") in Hs.
    repeat (apply elem_of_cons in Hs as [->|Hs]; [text_lit|]). by apply elem_of_nil in Hs.
Defined.

(** 1536 bytes are 1.50 KB. *)
Lemma show_human_size_witness :
  exists q, prints (start_settings OUTPUT_FORMAT_JSON) (show_human_size_entry 1536)
      [TEntry (lit "human") (hundredths q ++ lit " " ++ lit "KB")] /\
    (2 * Z.abs (q * 2 ^ 10 - 100 * 1536) <= 2 ^ 10)%Z.
Proof.
  destruct (show_human_size_correct (start_settings OUTPUT_FORMAT_JSON) 1536 ltac:(lia)) as (q & Hp & Hq & _).
  exists q. by split.
Defined.

Lemma get_canonical_witness :
  let b := [None; None; None; None] in
  match get_canonical_generic_linux (lit "/dev/root") b (length b) with
  | Ok (true, c) => length (lit "/dev/sda1") < length b /\ exists junk, c = holding (lit "/dev/sda1") junk
  | UB why => length b <= length (lit "/dev/sda1") /\ why = "write outside the buffer"%string
  | _ => False
  end.
Proof. apply get_canonical_bounds; [done|nz_lit]. Defined.

Example canonical_overrun :
  get_canonical_generic_linux (lit "/dev/root") [None; None; None; None] 4 = UB "write outside the buffer".
Proof. reflexivity. Qed.

(** ** The display functions of the Linux driver *)
Lemma show_cgroups_witness :
  prints (start_settings OUTPUT_FORMAT_JSON) show_cgroups_linux
    [ TBlock KContainer (lit "4")
        [TObject [TEntry (lit "subsystems") (lit "memory"); TEntry (lit "path") (lit "/user")]];
      TBlock KContainer (lit "0") [TObject [TEntry (lit "path") (lit "/user.slice")]] ].
Proof.
  apply (show_cgroups_correct (start_settings OUTPUT_FORMAT_JSON) (fun s => s) sample_groups);
    [reflexivity|apply sample_groups_ok].
Defined.

Lemma handle_proc_branch_witness :
  prints (start_settings OUTPUT_FORMAT_JSON) handle_proc_branch_linux
    [TEntry (lit "ancestry") (lit "42 ('procenv'), 1 ('init')")].
Proof.
  apply (handle_proc_branch_correct (start_settings OUTPUT_FORMAT_JSON) sample_ancestors);
    [exact sample_lineage|unfold PID_MAX_LIMIT; cbn [length sample_ancestors]; lia|text_lit].
Defined.

(** The process that sent last is found by its number. *)
Lemma show_msg_queues_witness :
  prints (start_settings OUTPUT_FORMAT_JSON) show_msg_queues_linux
    [ queue_info (fun _ => 8%Z);
      TBlock KContainer (lit "sets") [TObject [queue_tree (fun s => s) 5 sample_queue]] ].
Proof.
  change [queue_tree (fun s => s) 5 sample_queue] with
    (map (fun e => queue_tree (fun s => s) e.1 e.2) (slots msg_stat 1)).
  apply (show_msg_queues_correct (start_settings OUTPUT_FORMAT_JSON) (fun s => s)) with (max := 1%Z); [reflexivity|reflexivity|].
  apply Forall_cons_2; [exact (sample_queue_ok (start_settings OUTPUT_FORMAT_JSON))|apply Forall_nil_2].
Defined.

Example sample_sender : process_title 7 = Some (lit "sshd").
Proof. reflexivity. Qed.

(** The capabilities 2 and 3 are unknown to the headers. *)
Lemma show_capabilities_witness :
  prints (start_settings OUTPUT_FORMAT_JSON) show_capabilities_linux
    ([ TEntry (lit "count (CAP_LAST_CAP+1)") (lit "2");
       TBlock KSection (lit "known") (map (fun e => capability_tree e.2 e.1) known_capabilities);
       TBlock KSection (lit "unknown")
         [capability_tree 2 (lit "CAP_LAST_CAP+2"); capability_tree 3 (lit "CAP_LAST_CAP+3")] ] ++
     keep_trees ++ securebits_trees).
Proof.
  apply (show_capabilities_correct (start_settings OUTPUT_FORMAT_JSON)) with (h := 1%Z) (r := 1%Z) (last_known := 1%Z) (n := 2);
    [by vm_compute|done|done|done|done|].
  split_and!; [unfold CAP_BITS; lia| |done]. intros j Hj. cbn. by rewrite (proj2 (Z.leb_le j 3)) by lia.
Defined.

(** The entries are sorted: "mnt" was read after "uts". *)
Lemma show_namespaces_witness :
  exists es, es ≡ₚ namespaces_of [lit "."; lit ".."; lit "uts"; lit "mnt"] /\
    Sorted data_le (map (fun e => Some (line_of e)) es) /\
    prints (start_settings OUTPUT_FORMAT_JSON) show_namespaces_linux (map (namespace_tree (fun s => s)) es).
Proof.
  apply (show_namespaces_correct (start_settings OUTPUT_FORMAT_JSON) (fun s => s)
           [lit "."; lit ".."; lit "uts"; lit "mnt"]); [done|exact (sample_namespaces_ok (start_settings OUTPUT_FORMAT_JSON))].
Defined.

Lemma show_fds_linux_witness :
  prints (start_settings OUTPUT_FORMAT_JSON) show_fds_linux
    [ descriptor_tree (fun s => s) (0%Z, lit "/dev/sda1", program_file);
      descriptor_tree (fun s => s) (3%Z, lit "/dev/sda1", program_file) ].
Proof.
  eapply prints_eq.
  - apply (show_fds_linux_correct (start_settings OUTPUT_FORMAT_JSON) (fun s => s) [lit "."; lit ".."; lit "0"; lit "3"]);
      [done|exact (sample_descriptors_ok (start_settings OUTPUT_FORMAT_JSON))].
  - vm_compute. reflexivity.
Defined.

(** The sixth size is large enough. *)
Lemma get_cpuset_linux_witness : get_cpuset_linux mem0 = Ok (Some [0; 1; 2; 5]%Z, ticks 6 mem0).
Proof.
  destruct (get_cpuset_linux_correct mem0) as [Hfound _]; [done|].
  apply (Hfound 5 0%Z [0; 1; 2; 5]%Z); [lia|apply sample_refused|reflexivity|done].
Defined.

Lemma handle_numa_memory_witness :
  exists t, cpu_list t (filter (fun n => Z.ltb n 2) (seqZ 0 4)) /\
    prints (start_settings OUTPUT_FORMAT_JSON) handle_numa_memory_linux
      [ TBlock KSection (lit "numa")
          [ TEntry (lit "api version") (int_text 2); TEntry (lit "policy") (lit "MPOL_PREFERRED");
            TEntry (lit "maximum nodes") (int_text numa_num_possible_nodes); TEntry (lit "configured nodes") (int_text numa_num_configured_nodes);
            TEntry (lit "allowed list") t ] ].
Proof.
  apply (handle_numa_memory_correct (start_settings OUTPUT_FORMAT_JSON) 1 (lit "MPOL_PREFERRED") 4
           (fun n => Z.ltb n 2) 1); done.
Defined.

Lemma linux_driver_typed_witness : @DriverTyped _ _ platform_ops (start_settings OUTPUT_FORMAT_JSON).
Proof. apply linux_driver_typed; try apply _. exists true. reflexivity. Defined.

(** A policy that the table does not have, and a priority that could not be
    queried. *)
Example policy_outside : get_numa_policy 4 = UB "read past the end of the table".
Proof. reflexivity. Qed.

Example ioprio_failed : get_ioprio_class_name (IOPRIO_PRIO_CLASS (-1)) = Ok None.
Proof. reflexivity. Qed.

(** ** Whole runs on it *)
Lemma run_indent f : indent_fits (start_settings f).
Proof. by vm_compute. Qed.

Lemma run_start_rep f : rep (start_settings f) (start_state f) start_doc.
Proof. apply start_rep. Qed.

Lemma dump_json_witness :
  exists w' txt ms, dump run_globals (start_state OUTPUT_FORMAT_JSON) = Ok (tt, w') /\
    document w' = Ok (txt ++ [NL]) /\ jvalue txt (JObject ms) /\ map fst ms = section_titles /\
    indent w' = 0%Z.
Proof.
  apply (dump_json (start_settings OUTPUT_FORMAT_JSON) run_globals (ProgramAnswers0 := run_answers (start_settings OUTPUT_FORMAT_JSON)));
    [done|by left|apply run_indent|apply run_start_rep].
Defined.

Lemma dump_xml_witness :
  exists w' inner ns, dump run_globals (start_state OUTPUT_FORMAT_XML) = Ok (tt, w') /\
    document w' = Ok (header_text (lit "procenv") (lit "0.60") (lit "procenv 0.60")
                        (mode_text (user_euid (start_state OUTPUT_FORMAT_XML))) ++
                      inner ++ lit "</" ++ lit "procenv" ++ lit ">" ++ [NL]) /\
    xml_reads inner ns /\ map xml_title ns = section_titles /\ indent w' = 0%Z.
Proof.
  apply (dump_xml (start_settings OUTPUT_FORMAT_XML) run_globals (ProgramAnswers0 := run_answers (start_settings OUTPUT_FORMAT_XML)));
    [done|by left|apply run_indent| |apply run_start_rep].
  split_and!; try (apply decode_ascii; ascii_lit); try nz_lit; by apply escapable_check.
Defined.

(** [--format=json --file=out --exec --version], and the command [true]. *)
Lemma main_json_witness :
  exists w' txt ms str,
    main (run_options (lit "json") (Some (lit "out")) true ++ display_options (Some (char_of "v")))
      [lit "true"] (initial_state mem0 None) = Ok (run_ending true [lit "true"], w') /\
    jvalue txt (JObject ms) /\ map fst ms = [lit "version"] /\
    wcs_encode (txt ++ [NL]) = Some str /\ doc w' = None /\
    sent (Some (lit "out")) STDIN_FILENO str (events w').
Proof.
  refine (main_json run_globals (Some (lit "out")) (Some (char_of "v")) true [lit "true"]
            (ProgramAnswers0 := run_answers _) _ _).
  - intros x [= <-]. by eexists.
  - intros _. done.
Defined.

(** [--format=xml]. *)
Lemma main_xml_witness :
  exists w' inner ns str,
    main (run_options (lit "xml") None false ++ display_options None) [] (initial_state mem0 None)
      = Ok (Exited, w') /\
    xcontent any_char inner ns /\
    (xcontent xml_char inner ns <-> forallb (xml_allowed xml_char) ns = true) /\
    map xml_title ns = section_titles /\
    wcs_encode (header_text (lit "procenv") (lit "0.60") (lit "procenv 0.60")
                  (mode_text (euid (user run_globals))) ++ inner ++
                lit "</" ++ lit "procenv" ++ lit ">" ++ [NL]) = Some str /\ doc w' = None /\
    sent None STDIN_FILENO str (events w').
Proof.
  refine (main_xml run_globals None None false [] (lit "procenv") (lit "0.60") (lit "procenv 0.60")
            (ProgramAnswers0 := run_answers _) _ _ _ _).
  - done.
  - done.
  - split_and!; try (apply decode_ascii; ascii_lit); nz_lit.
  - by apply printing_lit.
Defined.

(** The options of a run up to some point, for a part of [main_refuses]. *)
Definition reached (os : list cli_option) (p : mstate -> ostate -> bool) : bool :=
  match options_loop os (mk_mstate false false run_globals) (start_options run_globals) with
  | Ok (m, w) => p m w
  | _ => false
  end.

Lemma reached_ok os p :
  reached os p = true ->
  exists m w, options_loop os (mk_mstate false false run_globals) (start_options run_globals) = Ok (m, w) /\
    p m w = true.
Proof. unfold reached. destruct (options_loop os _ _) as [[m w]| | | | |]; try done. by exists m, w. Qed.

(** [--meta --format=json]; [--format=xml --format=yaml --version];
    [--output=printer]; [--separator=- --indent=0]; [--indent-char=ab];
    [--format=crumb --uname -?]; [--exec --version]. *)
Lemma main_refuses_witness :
  main [OptChar (char_of "a"); OptLong (lit "format") (lit "json")] [] (initial_state mem0 None)
  = Die "Must specify non-display options before display options" /\
  main [OptLong (lit "format") (lit "xml"); OptLong (lit "format") (lit "yaml"); OptChar (char_of "v")] []
    (initial_state mem0 None) = Die "invalid output format value" /\
  main [OptLong (lit "output") (lit "printer")] [] (initial_state mem0 None) = Die "invalid output value" /\
  main [OptLong (lit "separator") (lit "-"); OptLong (lit "indent") (lit "0")] [] (initial_state mem0 None)
  = Die "cannot specify indent <= 0" /\
  main [OptLong (lit "indent-char") (lit "ab")] [] (initial_state mem0 None) = Die "invalid indent character" /\
  main [OptLong (lit "format") (lit "crumb"); OptChar (char_of "j"); OptChar (char_of "?")] []
    (initial_state mem0 None) = Die "invalid option specified" /\
  main [OptLong (lit "exec") []; OptChar (char_of "v")] [] (initial_state mem0 None)
  = Die "must specify at least one argument with '--exec'".
Proof.
  split_and!.
  - assert (reached [OptChar (char_of "a")] (fun m _ => done m) = true) as Hd by (vm_compute; reflexivity).
    destruct (reached_ok _ _ Hd) as (m1 & w1 & E & Hm).
    by refine (proj1 (main_refuses run_globals _ [] [] m1 w1 E) Hm _ _ _).
  - assert (reached [OptLong (lit "format") (lit "xml")] (fun m _ => negb (done m)) = true) as Hd
      by (vm_compute; reflexivity).
    destruct (reached_ok _ _ Hd) as (m1 & w1 & E & Hm%negb_true_iff).
    by refine (proj1 (proj2 (main_refuses run_globals _ [OptChar (char_of "v")] [] m1 w1 E)) Hm _ _).
  - by refine (proj1 (proj2 (proj2 (main_refuses run_globals [] [] [] _ _ eq_refl))) _ _ _).
  - assert (reached [OptLong (lit "separator") (lit "-")] (fun m _ => negb (done m)) = true) as Hd
      by (vm_compute; reflexivity).
    destruct (reached_ok _ _ Hd) as (m1 & w1 & E & Hm%negb_true_iff).
    by refine (proj1 (proj2 (proj2 (proj2 (main_refuses run_globals _ [] [] m1 w1 E)))) Hm _ 0%Z _ _).
  - refine (proj1 (proj2 (proj2 (proj2 (proj2 (main_refuses run_globals [] [] [] _ _ eq_refl))))) _ _ _); [done|].
    intros wide. by vm_compute.
  - assert (reached [OptLong (lit "format") (lit "crumb"); OptChar (char_of "j")]
              (fun _ w => match master_header w with Ok _ => true | _ => false end) = true) as Hd
      by (vm_compute; reflexivity).
    destruct (reached_ok _ _ Hd) as (m1 & w1 & E & Hm).
    destruct (master_header w1) as [[[] w2]| | | | |] eqn:Eh; try discriminate Hm.
    exact (proj1 (proj2 (proj2 (proj2 (proj2 (proj2 (main_refuses run_globals _ [] [] m1 w1 E)))))) w2 Eh).
  - assert (reached [OptLong (lit "exec") []; OptChar (char_of "v")]
              (fun m w => reexec m && match close_document m w with Ok _ => true | _ => false end) = true) as Hd
      by (vm_compute; reflexivity).
    destruct (reached_ok _ _ Hd) as (m1 & w1 & E & [Hr Hc]%andb_prop).
    destruct (close_document m1 w1) as [[[] w2]| | | | |] eqn:Ec; try discriminate Hc.
    exact (proj2 (proj2 (proj2 (proj2 (proj2 (proj2 (main_refuses run_globals _ [] [] m1 w1 E)))))) Hr w2 Ec).
Defined.

(** [--format=json --indent=4 --version --exec --misc]. *)
Lemma options_loop_witness :
  exists m' w',
    options_loop [OptLong (lit "format") (lit "json"); OptLong (lit "indent") (lit "4"); OptChar (char_of "v");
                  OptLong (lit "exec") []; OptChar (char_of "i")]
      (mk_mstate false false run_globals) (start_options run_globals) = Ok (m', w') /\
    rtc step (mk_config [OptLong (lit "format") (lit "json"); OptLong (lit "indent") (lit "4");
                         OptChar (char_of "v"); OptLong (lit "exec") []; OptChar (char_of "i")]
                (mk_mstate false false run_globals) (start_options run_globals))
             (mk_config [] m' w') /\ done m' = true /\ reexec m' = true /\ indent_amount w' = 4%Z.
Proof.
  assert (reached [OptLong (lit "format") (lit "json"); OptLong (lit "indent") (lit "4"); OptChar (char_of "v");
                   OptLong (lit "exec") []; OptChar (char_of "i")]
            (fun m w => done m && reexec m && Z.eqb (indent_amount w) 4) = true) as Hd by (vm_compute; reflexivity).
  destruct (reached_ok _ _ Hd) as (m' & w' & E & [[Hm Hr]%andb_prop Ha%Z.eqb_eq]%andb_prop).
  exists m', w'. split; [exact E|]. split; [exact (proj1 (options_loop_steps _ _ _ _ _) E)|]. by split_and!.
Defined.

(** [--meta --misc --process --meta]. *)
Lemma text_displays_witness :
  exists w' a' ts, options_loop (map OptChar (map char_of ["a"; "i"; "p"; "a"]%string))
      (mk_mstate false false run_globals) (start_options run_globals)
    = Ok (mk_mstate true false run_globals, w') /\
    rep (run_settings OUTPUT_FORMAT_TEXT None 0 STDIN_FILENO) w' a' /\
    at_margin (run_settings OUTPUT_FORMAT_TEXT None 0 STDIN_FILENO) a' /\
    map tree_name ts = [lit "meta"; lit "misc"; lit "process"; lit "meta"] /\
    a_text a' = [] ++ glued (run_settings OUTPUT_FORMAT_TEXT None 0 STDIN_FILENO) 0 start_doc
                  (flat_map (items (run_settings OUTPUT_FORMAT_TEXT None 0 STDIN_FILENO) 0) ts).
Proof.
  refine (text_displays_end (run_settings OUTPUT_FORMAT_TEXT None 0 STDIN_FILENO) run_globals
            (ProgramAnswers0 := run_answers _) (map char_of ["a"; "i"; "p"; "a"]%string) (start_options run_globals)
            start_doc false false _ _ _ _ _ _).
  - done.
  - apply run_settings_fit.
  - by split_and!.
  - refine (bool_decide_unpack _ _). by vm_compute.
  - exact (starts_rep OUTPUT_FORMAT_TEXT None 0 STDIN_FILENO start_memory start_memory_ok).
  - done.
Defined.

Lemma exec_after_display_witness :
  (m' ← set_option (lit "exec") [] (mk_mstate true false run_globals); close_document m')
    (start_state OUTPUT_FORMAT_XML) = Abort "indent >= 0".
Proof.
  apply (exec_after_display_aborts (start_settings OUTPUT_FORMAT_XML) (start_state OUTPUT_FORMAT_XML) start_doc);
    [done|done|apply run_start_rep|done].
Defined.

(** [--format=text --tty --exec]. *)
Lemma settings_precede_witness :
  exists m' w', options_loop
      ([OptLong (lit "format") (lit "text")] ++ OptChar (char_of "t") :: [OptLong (lit "exec") []])
      (mk_mstate false false run_globals) (start_state OUTPUT_FORMAT_TEXT) = Ok (m', w') /\
    Forall after_display [OptLong (lit "exec") []] /\ done m' = true.
Proof.
  destruct (options_loop _ _ _) as [[m' w']| | | | |] eqn:E;
    [exists m', w'; split; [done|exact (settings_precede_displays _ _ _ _ _ _ _ E)]|vm_compute in E; discriminate..].
Defined.

(** ** What several display options leave *)
Definition shown (f : OutputFormat) (os : list cli_option) : option bytes :=
  match options_loop os (mk_mstate false false run_globals) (start_state f) with
  | Ok (m, w) =>
    match close_document m w with
    | Ok (_, w) => match document w with Ok d => Some d | _ => None end
    | _ => None
    end
  | _ => None
  end.

(** The braces of a document. *)
Definition braces (f : OutputFormat) (os : list cli_option) : option bytes :=
  option_map (filter (fun z => z ∈ lit "{}?")) (shown f os).

Example one_display_json : braces OUTPUT_FORMAT_JSON [OptChar (char_of "v")] = Some (lit "{{}}").
Proof. vm_compute. reflexivity. Qed.

(** Each display option opens the root object, and it is closed once. *)
Example two_displays_json :
  braces OUTPUT_FORMAT_JSON [OptChar (char_of "v"); OptChar (char_of "v")] = Some (lit "{{}{{}}").
Proof. vm_compute. reflexivity. Qed.

(** In XML the declaration is repeated inside the root. *)
Example two_displays_xml :
  braces OUTPUT_FORMAT_XML [OptChar (char_of "v"); OptChar (char_of "v")] = Some (lit "????").
Proof. vm_compute. reflexivity. Qed.

(** The same in JSON: the object cannot be closed behind [--exec]. *)
Example exec_after_display_json : braces OUTPUT_FORMAT_JSON [OptChar (char_of "v"); OptLong (lit "exec") []] = None.
Proof. vm_compute. reflexivity. Qed.
