(* ===== verification/SampleBsd.v ===== *)
(** SampleBsd: the theorems about the drivers of the BSD systems and of Darwin,
    applied on the system of [SampleSystem] with a small table of processes. *)
From S2P Require Import Prelude Memory PrList Locale PString StringUtil Encode Output OutputSpec Document Json Crumb Xml Util Affinity Prints Display Format Platform Process ProcessTree PaddedTable Report Terminal Generic SystemTables Bsd FreeBsd Darwin Main SampleSystem.

Definition json : settings := start_settings OUTPUT_FORMAT_JSON.

(** ** Tables of processes *)

(** The table does not list a process before its parent. *)
Definition sample_procs : list kinfo_proc :=
  [mk_kinfo 1 0 (lit "init"); mk_kinfo 42 7 (lit "procenv"); mk_kinfo 7 1 (lit "sh")].

Definition sample_chain : list kinfo_proc :=
  [mk_kinfo 42 7 (lit "procenv"); mk_kinfo 7 1 (lit "sh"); mk_kinfo 1 0 (lit "init")].

Instance sample_table : ProcessTable := {|
  kvm_openfiles := true; kvm_getprocs := Some sample_procs; kvm_close := true
|}.

Lemma sample_processes : processes_ok sample_procs.
Proof.
  split_and!; [done|done|done| |].
  - refine (bool_decide_unpack _ _). by vm_compute.
  - repeat (apply Forall_cons_2; [nz_lit|]). apply Forall_nil_2.
Qed.

Lemma sample_no_kernel q : q ∈ sample_procs -> ki_pid q <> 0%Z.
Proof. intros Hq. repeat (apply elem_of_cons in Hq as [->|Hq]; [done|]). by apply elem_of_nil in Hq. Qed.

Lemma sample_ancestry : ancestry sample_procs 42 sample_chain.
Proof.
  unfold sample_chain, sample_procs.
  apply (ancestry_step _ (mk_kinfo 42 7 (lit "procenv"))); [in_list|].
  apply (ancestry_step _ (mk_kinfo 7 1 (lit "sh"))); [in_list|].
  apply (ancestry_step _ (mk_kinfo 1 0 (lit "init"))); [in_list|].
  apply ancestry_end. exact sample_no_kernel.
Qed.

Lemma freebsd_branch_witness :
  prints json handle_proc_branch_freebsd [TEntry (lit "ancestry") (lit "42 ('procenv'), 7 ('sh'), 1 ('init')")].
Proof.
  apply (handle_proc_branch_freebsd_correct json sample_procs (mk_kinfo 42 7 (lit "procenv"))
           [mk_kinfo 7 1 (lit "sh"); mk_kinfo 1 0 (lit "init")]);
    [exact sample_processes|exact sample_no_kernel|exact sample_ancestry|apply printable_text; by vm_compute].
Defined.

(** With the process of the system, 0, in the table. *)
Definition system_procs : list kinfo_proc := mk_kinfo 0 0 (lit "system") :: sample_procs.

Definition system_table : ProcessTable := {|
  kvm_openfiles := true; kvm_getprocs := Some system_procs; kvm_close := true
|}.

Lemma system_processes : NoDup (map ki_pid system_procs) /\ Forall (fun p => nz (ki_comm p)) system_procs.
Proof.
  split.
  - refine (bool_decide_unpack _ _). by vm_compute.
  - repeat (apply Forall_cons_2; [nz_lit|]). apply Forall_nil_2.
Qed.

Lemma system_lowest p : p ∈ system_procs -> (0 <= ki_pid p)%Z.
Proof. intros Hq. repeat (apply elem_of_cons in Hq as [->|Hq]; [cbn; lia|]). by apply elem_of_nil in Hq. Qed.

Definition system_chain : list kinfo_proc := sample_chain ++ [mk_kinfo 0 0 (lit "system")].

Lemma system_descends : descends system_procs 0 42 system_chain.
Proof.
  unfold system_chain, sample_chain, system_procs, sample_procs. cbn [app].
  apply (descends_step _ _ (mk_kinfo 42 7 (lit "procenv"))); [in_list|done|].
  apply (descends_step _ _ (mk_kinfo 7 1 (lit "sh"))); [in_list|done|].
  apply (descends_step _ _ (mk_kinfo 1 0 (lit "init"))); [in_list|done|].
  by apply (descends_last _ _ (mk_kinfo 0 0 (lit "system"))); [in_list|].
Qed.

Lemma netbsd_branch_witness :
  prints json (@handle_proc_branch_netbsd _ _ _ system_table)
    [TEntry (lit "ancestry")
       (lit "42 ('                 procenv'), 7 ('                      sh'), 1 ('                    init'), 0 ('                  system')")].
Proof.
  apply (@handle_proc_branch_netbsd_correct _ _ _ _ _ system_table json system_procs system_chain);
    [|exact system_lowest|exact system_descends|apply printable_text; by vm_compute].
  destruct system_processes. by split_and!.
Defined.

(** A process whose ancestors above 7 are hidden. *)
Definition hidden_procs : list kinfo_proc := [mk_kinfo 42 7 (lit "procenv"); mk_kinfo 7 1 (lit "sh")].

Definition hidden_table : ProcessTable := {|
  kvm_openfiles := true; kvm_getprocs := Some hidden_procs; kvm_close := true
|}.

Lemma hidden_processes : @processes_ok hidden_table hidden_procs.
Proof.
  split_and!; [done|done|done| |].
  - refine (bool_decide_unpack _ _). by vm_compute.
  - repeat (apply Forall_cons_2; [nz_lit|]). apply Forall_nil_2.
Qed.

Lemma openbsd_branch_witness :
  exists s, @handle_proc_branch_openbsd _ _ _ hidden_table s = Diverge /\
    forall n, walk_table n 1 7 (lit "%d ('%s')") name_args hidden_procs getpid None (o_mem s) = Diverge.
Proof.
  exists (start_state OUTPUT_FORMAT_JSON). apply (handle_proc_branch_openbsd_endless (H4 := hidden_table) json hidden_procs 7 (start_state OUTPUT_FORMAT_JSON) start_doc);
    [exact hidden_processes|reflexivity|by left|apply start_rep].
Defined.

(** ** Mounts *)
Definition root_mount : mount :=
  mk_mount (lit "/dev/ada0p2") (lit "/") (lit "ufs") 5 1 255 32768 1000 600 500 80 30.

Instance sample_mounts : Mounts := {| getmntinfo := [root_mount] |}.

Definition sample_options : list (bytes * Z) :=
  [(lit "read-only", 1%Z); (lit "noexec", 4%Z); (lit "union", 32%Z)].

Lemma show_mounts_bsd_witness :
  prints json (show_mounts_generic_bsd SHOW_ALL (terminated sample_options))
    [mount_tree (fun s => s) sample_options root_mount; pathconf_tree (lit "pathconf") (lit "/")] /\
  prints json (show_mounts_generic_bsd SHOW_PATHCONF (terminated sample_options))
    [pathconf_tree (lit "/") (lit "/")].
Proof.
  assert (Forall (fun e : bytes * Z => nz e.1) sample_options) as Hn
    by (repeat (apply Forall_cons_2; [nz_lit|]); apply Forall_nil_2).
  assert (Forall (mount_ok json (fun s => s) sample_options) getmntinfo) as Hm
    by (apply Forall_cons_2; [|apply Forall_nil_2]; split_and!; [done|text_lit..]).
  split.
  - by refine (show_mounts_bsd_correct json (fun s => s) sample_options SHOW_ALL _ Hn Hm _).
  - refine (show_mounts_bsd_correct json (fun s => s) sample_options SHOW_PATHCONF _ Hn Hm _); [done|].
    intros _. by repeat constructor.
Defined.

(** Read-only, not executable; 32 units of 1024 bytes for each block. *)
Example root_mount_shown :
  mount_tree (fun s => s) sample_options root_mount
  = TBlock KSection (lit "/dev/ada0p2")
      [ TEntry (lit "dir") (lit "'/'"); TEntry (lit "type") (lit "ufs");
        TEntry (lit "options") (lit "'read-only,noexec'");
        TBlock KSection (lit "device") [TEntry (lit "major") (lit "0"); TEntry (lit "minor") (lit "8")];
        TEntry (lit "fsid") (lit "00000001000000ff"); TEntry (lit "optimal block size") (lit "32768");
        TBlock KSection (lit "blocks")
          [ TEntry (lit "size") (lit "1024 bytes"); TEntry (lit "total") (lit "32000");
            TEntry (lit "used") (lit "12800"); TEntry (lit "free") (lit "19200");
            TEntry (lit "available") (lit "16000") ];
        TBlock KSection (lit "files/inodes")
          [TEntry (lit "total") (lit "80"); TEntry (lit "used") (lit "50"); TEntry (lit "free") (lit "30")] ].
Proof. by vm_compute. Qed.

(** ** The driver of FreeBSD *)
Instance sample_affinities : Affinities := {| pthread_getaffinity_np := Some [0; 1; 3]%Z |}.

Instance sample_freebsd : FreeBsdSystem := {|
  kvm_getproc := fun _ => Some (mk_proc_info 0 (lit "procenv") 2);
  cap_getmode := true;
  cap_rights_get := fun fd => if Z.eqb fd 0 then Some [1%Z] else None;
  cap_rights_set := fun rights cap => bool_decide (cap ∈ rights)
|}.

Instance sample_freebsd_answers : FreeBsdAnswers json.
Proof.
  constructor.
  - split; [done|]. by split; vm_compute.
  - split_and!; [done|done|by eexists].
  - constructor; [done| |].
    + apply Forall_forall. intros e He. apply printable_nz.
      assert (forallb (fun e : bytes * Z => printable e.1) (titled_entries mntopt_names_freebsd) = true) as Hall by by vm_compute.
      rewrite forallb_forall in Hall. by apply Hall, list_elem_of_In.
    + apply Forall_cons_2; [|apply Forall_nil_2]. split_and!; try done; by apply printable_showable; vm_compute.
  - exists sample_procs, (mk_kinfo 42 7 (lit "procenv")), [mk_kinfo 7 1 (lit "sh"); mk_kinfo 1 0 (lit "init")].
    split_and!; [exact sample_processes|exact sample_no_kernel|exact sample_ancestry|].
    apply printable_showable. by vm_compute.
Qed.

Lemma freebsd_driver_witness : @DriverTyped _ _ platform_ops_freebsd json.
Proof. exact (freebsd_driver_typed json). Defined.

(** The name of the process in its buffer. *)
Example name_of_process :
  match get_user_misc_freebsd 42 (replicate PROCENV_PR_GET_NAME_LEN (Some 0%Z)) with
  | Ok (in_jail, name) => in_jail = false /\ string_at name 0 = Ok (lit "procenv")
  | _ => False
  end.
Proof. by vm_compute. Qed.

(** ** Darwin *)
Definition program_header : mach_header := mk_mach_header 4096 MH_MAGIC_64 2.

(** The header has 32 bytes; the first command is of another kind and has 16,
    the second names the library of the system, at version 1.2.3. *)
Instance sample_darwin : DarwinSystem := {|
  procs_bytes := fun k => if Nat.eqb k 0 then Some 16%Z else Some 48%Z;
  procs_filled := fun k _ => if Nat.eqb k 0 then TooMany else Processes system_procs;
  sysctlbyname := fun n =>
    if bool_decide (n = lit "hw.memsize") then Some 1048576%Z
    else if bool_decide (n = lit "vm.pagesize") then Some 4096%Z
    else if bool_decide (n = lit "vm.page_free_count") then Some 56%Z else None;
  host_vm_info := Some (mk_vm_statistics 56 100 50 20);
  calendar_clock := Some (mk_timespec 1 2);
  executable_path := Some (lit "/bin/procenv");
  dyld_images := [(None, None); (Some (lit "/usr/lib/dyld"), None); (Some (lit "/bin/procenv"), Some program_header)];
  load_command_at := fun p =>
    if Z.eqb p 4128 then Some (mk_load_command 25 16 0 0 0)
    else if Z.eqb p 4144 then Some (mk_load_command LC_LOAD_DYLIB 56 24 (packed_version 1 2 3) (packed_version 1 0 0))
    else None;
  string_at_address := fun p => if Z.eqb p 4168 then Some (lit "/usr/lib/libSystem.B.dylib") else None;
  dlopen := fun _ => 0%Z
|}.

(** A system that does not say how much space its processes need. *)
Definition mute_darwin : DarwinSystem := {|
  procs_bytes := fun _ => None;
  procs_filled := fun _ _ => Unavailable;
  sysctlbyname := fun _ => None;
  host_vm_info := None;
  calendar_clock := None;
  executable_path := None;
  dyld_images := [];
  load_command_at := fun _ => None;
  string_at_address := fun _ => None;
  dlopen := fun _ => 0%Z
|}.

Lemma show_libs_darwin_witness :
  prints json show_libs_darwin
    [TObject [TBlock KSection (lit "libSystem.B.dylib")
       [ TEntry (lit "path") (lit "/usr/lib/libSystem.B.dylib");
         TBlock KSection (lit "versions") [TEntry (lit "current") (lit "1.2.3"); TEntry (lit "compatibility") (lit "1.0.0")] ]]].
Proof.
  refine (proj1 (show_libs_darwin_correct json (fun s => s) [(None, None); (Some (lit "/usr/lib/dyld"), None)]
    (lit "/bin/procenv") program_header []
    [ (4128%Z, mk_load_command 25 16 0 0 0);
      (4144%Z, mk_load_command LC_LOAD_DYLIB 56 24 (packed_version 1 2 3) (packed_version 1 0 0)) ] _ _ _ _ _ _));
    [done|done|by repeat constructor| |done|].
  - by repeat (apply commands_cons; [done|]); apply commands_nil.
  - intros c Hc Hk. apply elem_of_cons in Hc as [->|Hc]; [done|]. apply list_elem_of_singleton in Hc as ->.
    split_and!; [by eexists|done|text_lit|text_lit].
Defined.

(** There is space for 6 processes and there are 4: the first cleared entry is
    behind [init] in the table and process 0 is not, so that the name of process 0
    is not shown.  Without the size nothing is shown. *)
Lemma darwin_branch_witness :
  prints json handle_proc_branch_darwin
    [TEntry (lit "ancestry") (lit "42 ('procenv'), 7 ('sh'), 1 ('init'), 0 ('')")] /\
  prints json (@handle_proc_branch_darwin _ _ _ _ mute_darwin) [].
Proof.
  split.
  - assert (too_many_before 1) as Hj by (intros j Hj; exists 2%Z; by replace j with 0 by lia).
    assert (distinct_processes system_procs) as Hd.
    { split_and!; [|apply system_processes|exact system_lowest]. refine (bool_decide_unpack _ _). by vm_compute. }
    refine (proj1 (proj1 (handle_proc_branch_darwin_correct json) 1 6%Z system_procs _ Hj eq_refl eq_refl _ Hd)
              sample_chain (mk_kinfo 0 0 []) _ _ _ _); [lia|cbn; lia| |by vm_compute|].
    + unfold sample_chain, system_procs, sample_procs.
      apply (climbs_step _ _ (mk_kinfo 42 7 (lit "procenv"))); [in_list|done|].
      apply (climbs_step _ _ (mk_kinfo 7 1 (lit "sh"))); [in_list|done|].
      apply (climbs_step _ _ (mk_kinfo 1 0 (lit "init"))); [in_list|done|]. apply climbs_top.
    + apply printable_text. by vm_compute.
  - refine (proj2 (@handle_proc_branch_darwin_correct _ _ _ _ json _ _ mute_darwin) _).
    right. exists 0. split_and!; [lia|intros j Hj; lia|done].
Defined.

(** A fifth of the memory is free, and four fifths are shown as free. *)
Example memory_shown_as_free :
  nth_error (match memory_tree 1048576 4096 56 (mk_vm_statistics 56 100 50 20) with TBlock _ _ ts => ts | _ => [] end) 1
  = Some (TBlock KSection (lit "free") [TEntry (lit "bytes") (lit "819200"); TEntry (lit "human") (lit "800.00 KB")]).
Proof. by vm_compute. Qed.
